(** * UCX worker and perf harness: a shallow embedding and its properties

    The definitions below are transcribed from
    - [src/tools/perf/libperf.c]  (statistics, parameter checks, rendezvous
      status exchange, warm-up, the multi-thread driver), and
    - [src/ucp/core/ucp_worker.c] (endpoint-configuration cache, atomic
      resource selection, thread mode).

    Conventions.
    - A C [int] index is a [Z]; a [uint64_t]/[size_t]/[ucs_time_t] value is a
      [Z] with the wrap-around modulo [2^64] written where the code computes.
    - A C array is a [list]; every read and write goes through a bounds
      check, and an access outside the array makes the model return [None].
    - Loops are recursive functions on a fuel argument; the theorems show
      that the stated fuel suffices, so [None] is never returned on the
      inputs they cover. *)

From Stdlib Require Import ZArith QArith Qround String Lia.
From stdpp Require Import base decidable option list sets sorting.

Local Open Scope Z_scope.

(** * Part I: the embedded code *)

(** ** C arrays indexed by [int] *)

Module CArray.

(** [arr[i]] as an rvalue. *)
Definition rd (arr : list Z) (i : Z) : option Z :=
  if decide (0 ≤ i) then arr !! Z.to_nat i else None.

(** [arr[i] = v]. *)
Definition wr (arr : list Z) (i : Z) (v : Z) : option (list Z) :=
  match rd arr i with
  | Some _ => Some (<[Z.to_nat i := v]> arr)
  | None => None
  end.

(** The total view used in the invariants; it agrees with [rd] inside the
    array (lemma [rd_in]). *)
Definition at_ (arr : list Z) (i : Z) : Z := nth (Z.to_nat i) arr 0.

Definition len (arr : list Z) : Z := Z.of_nat (length arr).

End CArray.

Import CArray.

Notation "a .[ i ]" := (at_ a i) (at level 1, left associativity, format "a .[ i ]").

(** ** Quickselect ([__find_median_quick_select], libperf.c:39-89) *)

Module QuickSelect.

(** [#define ELEM_SWAP(a,b) { register ucs_time_t t=(a);(a)=(b);(b)=t; }] *)
Definition ELEM_SWAP (arr : list Z) (a b : Z) : option (list Z) :=
  t ← rd arr a;
  vb ← rd arr b;
  arr1 ← wr arr a vb;
  wr arr1 b t.

(** [if (arr[a] > arr[b]) ELEM_SWAP(arr[a], arr[b]);] *)
Definition swap_if_gt (arr : list Z) (a b : Z) : option (list Z) :=
  x ← rd arr a;
  y ← rd arr b;
  if decide (x > y) then ELEM_SWAP arr a b else Some arr.

(** [do ll++; while (arr[low] > arr[ll]);] *)
Fixpoint scan_up (fuel : nat) (arr : list Z) (low ll : Z) : option Z :=
  match fuel with
  | O => None
  | S fuel' =>
      let ll := ll + 1 in
      p ← rd arr low;
      x ← rd arr ll;
      if decide (p > x) then scan_up fuel' arr low ll else Some ll
  end.

(** [do hh--; while (arr[hh] > arr[low]);] *)
Fixpoint scan_down (fuel : nat) (arr : list Z) (low hh : Z) : option Z :=
  match fuel with
  | O => None
  | S fuel' =>
      let hh := hh - 1 in
      x ← rd arr hh;
      p ← rd arr low;
      if decide (x > p) then scan_down fuel' arr low hh else Some hh
  end.

(** The inner [for (;;)]: nibble from each end towards the middle,
    swapping items when stuck.  Returns the array and the final
    [ll], [hh]. *)
Fixpoint nibble (gas fuel : nat) (arr : list Z) (low ll hh : Z)
  : option (list Z * Z * Z) :=
  match fuel with
  | O => None
  | S fuel' =>
      ll ← scan_up gas arr low ll;
      hh ← scan_down gas arr low hh;
      if decide (hh < ll) then Some (arr, ll, hh)
      else
        arr ← ELEM_SWAP arr ll hh;
        nibble gas fuel' arr low ll hh
  end.

(** One pass of the outer loop body after the two early returns: median
    of three into [low], partition, pivot back into place. *)
Definition partition_step (gas : nat) (arr : list Z) (low high : Z)
  : option (list Z * Z * Z) :=
  let middle := (low + high) `quot` 2 in
  arr ← swap_if_gt arr middle high;
  arr ← swap_if_gt arr low high;
  arr ← swap_if_gt arr middle low;
  arr ← ELEM_SWAP arr middle (low + 1);
  '(arr, ll, hh) ← nibble gas gas arr low (low + 1) high;
  arr ← ELEM_SWAP arr low hh;
  Some (arr, ll, hh).

(** The outer [for (;;)].  Returns the value and the array as the
    function leaves it. *)
Fixpoint select_loop (gas fuel : nat) (arr : list Z) (low high median : Z)
  : option (Z * list Z) :=
  match fuel with
  | O => None
  | S fuel' =>
      if decide (high ≤ low) then
        v ← rd arr median; Some (v, arr)
      else if decide (high = low + 1) then
        arr ← swap_if_gt arr low high;
        v ← rd arr median; Some (v, arr)
      else
        '(arr, ll, hh) ← partition_step gas arr low high;
        let low := if decide (hh ≤ median) then ll else low in
        let high := if decide (hh >= median) then hh - 1 else high in
        select_loop gas fuel' arr low high median
  end.

(** [low = 0; high = n-1; median = (low + high) / 2; for (;;) ...] *)
Definition find_median_quick_select_fuel (fuel : nat) (arr : list Z) (n : Z)
  : option (Z * list Z) :=
  let low := 0 in
  let high := n - 1 in
  let median := (low + high) `quot` 2 in
  select_loop fuel fuel arr low high median.

(** The function itself: every loop of it runs fewer than [n + 1] times
    (theorem [find_median_fuel_enough]), so this fuel is enough. *)
Definition __find_median_quick_select (arr : list Z) (n : Z)
  : option (Z * list Z) :=
  find_median_quick_select_fuel (Z.to_nat n + 1)%nat arr n.

End QuickSelect.

Import QuickSelect.

(** ** Predicates used to state and prove the selection *)

(** [frame lo hi arr arr']: [arr'] rearranges the slots [lo..hi] of [arr]
    and leaves every other slot as it is. *)
Definition frame (lo hi : Z) (arr arr' : list Z) : Prop :=
  len arr' = len arr ∧
  arr' ≡ₚ arr ∧
  (∀ i, 0 ≤ i < len arr → ¬ (lo ≤ i ≤ hi) → arr'.[i] = arr.[i]) ∧
  (∀ j, 0 ≤ j < len arr → lo ≤ j ≤ hi →
        ∃ j', 0 ≤ j' < len arr ∧ lo ≤ j' ≤ hi ∧ arr'.[j] = arr.[j']).

(** [is_kth arr m]: slot [m] of [arr] already holds the value it would hold
    if [arr] were sorted: nothing before it is larger, nothing after it is
    smaller. *)
Definition is_kth (arr : list Z) (m : Z) : Prop :=
  (∀ i, 0 ≤ i < m → arr.[i] ≤ arr.[m]) ∧
  (∀ j, m < j < len arr → arr.[m] ≤ arr.[j]).

(** How many entries of [l] lie strictly below [v]. *)
Definition count_lt (v : Z) (l : list Z) : nat :=
  length (filter (λ x, x < v) l).

(** Everything left of [low] is at most everything from [low] on. *)
Definition left_ok (arr : list Z) (low : Z) : Prop :=
  ∀ i j, 0 ≤ i < low → low ≤ j < len arr → arr.[i] ≤ arr.[j].

(** Everything up to [high] is at most everything right of [high]. *)
Definition right_ok (arr : list Z) (high : Z) : Prop :=
  ∀ i j, 0 ≤ i ≤ high → high < j < len arr → arr.[i] ≤ arr.[j].

(** The invariant of the outer loop.  Either the median slot is still in
    the active partition, or the partition has moved past it (which the
    code does when a run of pivot-equal values covers the median slot) and
    the slot already holds its final value. *)
Definition sel_inv (arr : list Z) (low high median : Z) : Prop :=
  (low ≤ median ≤ high ∧ left_ok arr low ∧ right_ok arr high) ∨
  (is_kth arr median ∧ (median < low ∨ high < median)).

(** The median as the specification words it: sort the contents in
    nondecreasing order and take the value at index [(n-1)/2]. *)
Definition sorted_median (arr : list Z) : Z :=
  (merge_sort Z.le arr).[(len arr - 1) `div` 2].

(** ** Machine integers and status codes *)

Definition UINT64_MAX : Z := 2 ^ 64 - 1.
Definition UINT8_MAX : Z := 255.

(** Unsigned 64-bit addition and subtraction. *)
Definition add64 (a b : Z) : Z := (a + b) `mod` 2 ^ 64.
Definition sub64 (a b : Z) : Z := (a - b) `mod` 2 ^ 64.

(** [ucs_min(a, b)]: [((a) < (b) ? (a) : (b))]. *)
Definition ucs_min (a b : Z) : Z := if decide (a < b) then a else b.

(** The status codes the two source files use. *)
Inductive ucs_status_t : Set :=
| UCS_OK
| UCS_INPROGRESS
| UCS_ERR_NO_MEMORY
| UCS_ERR_INVALID_PARAM
| UCS_ERR_UNSUPPORTED
| UCS_ERR_NO_DEVICE
| UCS_ERR_IO_ERROR
| UCS_ERR_NO_RESOURCE
| UCS_ERR_BUSY.

Global Instance ucs_status_eq_dec : EqDecision ucs_status_t.
Proof. solve_decision. Defined.

(** ** C [double]

    The perf harness computes its statistics in [double].  The development
    is parametric in that arithmetic: a literal, the conversion from an
    unsigned 64-bit integer, and the operators the code applies. *)
Class CDouble : Type := {
  double : Type;
  d_lit : Z → double;              (* an integer-valued literal, [2.0] *)
  d_of_u64 : Z → double;           (* [(double)x] for an unsigned [x] *)
  d_mul : double → double → double;
  d_div : double → double → double;
  d_eqb : double → double → bool;  (* [==] *)
  d_gtb : double → double → bool   (* [>] *)
}.

(** ** Perf parameters, context and result (libperf.h, libperf_int.h) *)

Inductive ucx_perf_api_t : Set :=
| UCX_PERF_API_UCT | UCX_PERF_API_UCP | UCX_PERF_API_LAST.

Inductive ucx_perf_cmd_t : Set :=
| UCX_PERF_CMD_AM | UCX_PERF_CMD_PUT | UCX_PERF_CMD_GET
| UCX_PERF_CMD_ADD | UCX_PERF_CMD_FADD | UCX_PERF_CMD_SWAP
| UCX_PERF_CMD_CSWAP | UCX_PERF_CMD_TAG | UCX_PERF_CMD_LAST.

Inductive ucx_perf_test_type_t : Set :=
| UCX_PERF_TEST_TYPE_PINGPONG | UCX_PERF_TEST_TYPE_STREAM_UNI.

Inductive uct_perf_data_layout_t : Set :=
| UCT_PERF_DATA_LAYOUT_SHORT | UCT_PERF_DATA_LAYOUT_BCOPY
| UCT_PERF_DATA_LAYOUT_ZCOPY | UCT_PERF_DATA_LAYOUT_LAST.

Inductive ucs_thread_mode_t : Set :=
| UCS_THREAD_MODE_SINGLE | UCS_THREAD_MODE_SERIALIZED | UCS_THREAD_MODE_MULTI.

Global Instance ucx_perf_api_eq_dec : EqDecision ucx_perf_api_t.
Proof. solve_decision. Defined.
Global Instance ucx_perf_cmd_eq_dec : EqDecision ucx_perf_cmd_t.
Proof. solve_decision. Defined.
Global Instance ucx_perf_test_type_eq_dec : EqDecision ucx_perf_test_type_t.
Proof. solve_decision. Defined.
Global Instance uct_perf_data_layout_eq_dec : EqDecision uct_perf_data_layout_t.
Proof. solve_decision. Defined.
Global Instance ucs_thread_mode_eq_dec : EqDecision ucs_thread_mode_t.
Proof. solve_decision. Defined.

(** [ucx_perf_params_t], the fields the embedded functions read. *)
Record ucx_perf_params_t `{CDouble} : Type := {
  api : ucx_perf_api_t;
  command : ucx_perf_cmd_t;
  test_type : ucx_perf_test_type_t;
  thread_mode : ucs_thread_mode_t;
  thread_count : Z;
  flags : Z;
  warmup_iter : Z;
  max_iter : Z;
  max_time : double;
  report_interval : double;
  msg_size_list : list Z;
  msg_size_cnt : Z;
  iov_stride : Z;
  max_outstanding : Z;
  am_hdr_size : Z;
  uct_data_layout : uct_perf_data_layout_t;
  uct_fc_window : Z
}.

(** The counters [{time, msgs, bytes, iters}] of [perf->current] and
    [perf->prev]. *)
Record ucx_perf_counters_t : Set := {
  c_time : Z;
  c_msgs : Z;
  c_bytes : Z;
  c_iters : Z
}.

(** [ucx_perf_context_t], the fields the embedded functions touch: the
    ones [ucx_perf_test_reset] assigns.  The buffers ([send_buffer],
    [recv_buffer]) and the [uct] and [ucp] members, which the reset
    leaves as they are, are not part of the record. *)
Record ucx_perf_context_t `{CDouble} : Type := {
  perf_params : ucx_perf_params_t;
  perf_start_time : Z;
  perf_prev_time : Z;
  perf_end_time : Z;
  perf_max_iter : Z;
  perf_report_interval : Z;
  perf_current : ucx_perf_counters_t;
  perf_prev : ucx_perf_counters_t;
  perf_timing_queue : list Z;
  perf_timing_queue_head : Z;
  perf_offset : Z
}.

Record ucx_perf_stat_t `{CDouble} : Type := {
  typical : double;
  moment_average : double;
  total_average : double
}.

(** [ucx_perf_result_t]. *)
Record ucx_perf_result_t `{CDouble} : Type := {
  r_iters : Z;
  r_bytes : Z;
  r_elapsed_time : Z;
  r_latency : ucx_perf_stat_t;
  r_bandwidth : ucx_perf_stat_t;
  r_msgrate : ucx_perf_stat_t
}.

(** ** Reset, statistics and warm-up (libperf.c:171-260, 1009-1013) *)

Section PerfContext.

Context {D : CDouble}.

(** [ucs_time_from_sec] (ucs/time/time.h, outside the two files): seconds
    to clock ticks, a [ucs_time_t]. *)
Variable ucs_time_from_sec : double → Z.

(** [TIMING_QUEUE_SIZE] (libperf_int.h, outside the two files): the number
    of slots of [perf->timing_queue]. *)
Variable TIMING_QUEUE_SIZE : Z.

(** [for (i = 0; i < TIMING_QUEUE_SIZE; ++i) perf->timing_queue[i] = 0;] *)
Definition zero_timing_queue (queue : list Z) : list Z :=
  foldl (λ q i, <[i := 0]> q) queue (seq 0 (Z.to_nat TIMING_QUEUE_SIZE)).

(** [ucx_perf_test_reset]; [now] is what [ucs_get_time()] returns. *)
Definition ucx_perf_test_reset (now : Z) (perf : ucx_perf_context_t)
    (params : ucx_perf_params_t) : ucx_perf_context_t :=
  let start_time := now in
  {| perf_params := params;
     perf_start_time := start_time;
     perf_prev_time := start_time;
     perf_end_time :=
       if d_eqb (max_time params) (d_lit 0) then UINT64_MAX
       else add64 (ucs_time_from_sec (max_time params)) start_time;
     perf_max_iter :=
       if decide (max_iter params = 0) then UINT64_MAX else max_iter params;
     perf_report_interval := ucs_time_from_sec (report_interval params);
     perf_current := {| c_time := 0; c_msgs := 0; c_bytes := 0; c_iters := 0 |};
     perf_prev :=
       {| c_time := start_time; c_msgs := 0; c_bytes := 0; c_iters := 0 |};
     perf_timing_queue := zero_timing_queue (perf_timing_queue perf);
     perf_timing_queue_head := 0;
     perf_offset := 0 |}.

(** [perf->timing_queue = queue], everything else as it is. *)
Definition set_timing_queue (perf : ucx_perf_context_t) (queue : list Z)
    : ucx_perf_context_t :=
  {| perf_params := perf_params perf;
     perf_start_time := perf_start_time perf;
     perf_prev_time := perf_prev_time perf;
     perf_end_time := perf_end_time perf;
     perf_max_iter := perf_max_iter perf;
     perf_report_interval := perf_report_interval perf;
     perf_current := perf_current perf;
     perf_prev := perf_prev perf;
     perf_timing_queue := queue;
     perf_timing_queue_head := perf_timing_queue_head perf;
     perf_offset := perf_offset perf |}.

(** [ucx_perf_calc_result].  The median is taken in place, so the context
    comes back with its timing ring rearranged. *)
Definition ucx_perf_calc_result (perf : ucx_perf_context_t)
    : option (ucx_perf_context_t * ucx_perf_result_t) :=
  let sec_value := d_of_u64 (ucs_time_from_sec (d_lit 1)) in
  let latency_factor :=
    if decide (test_type (perf_params perf) = UCX_PERF_TEST_TYPE_PINGPONG)
    then d_lit 2 else d_lit 1 in
  let cur := perf_current perf in
  let prev := perf_prev perf in
  '(median, queue) ←
    __find_median_quick_select (perf_timing_queue perf) TIMING_QUEUE_SIZE;
  let d_time_prev := d_of_u64 (sub64 (c_time cur) (c_time prev)) in
  let d_time_start := d_of_u64 (sub64 (c_time cur) (perf_start_time perf)) in
  Some (set_timing_queue perf queue,
    {| r_iters := c_iters cur;
       r_bytes := c_bytes cur;
       r_elapsed_time := sub64 (c_time cur) (perf_start_time perf);
       r_latency :=
         {| typical :=
              d_div (d_div (d_of_u64 median) sec_value) latency_factor;
            moment_average :=
              d_div (d_div (d_div d_time_prev
                             (d_of_u64 (sub64 (c_iters cur) (c_iters prev))))
                           sec_value) latency_factor;
            total_average :=
              d_div (d_div (d_div d_time_start (d_of_u64 (c_iters cur)))
                           sec_value) latency_factor |};
       r_bandwidth :=
         {| typical := d_lit 0;
            moment_average :=
              d_div (d_mul (d_of_u64 (sub64 (c_bytes cur) (c_bytes prev)))
                           sec_value) d_time_prev;
            total_average :=
              d_div (d_mul (d_of_u64 (c_bytes cur)) sec_value) d_time_start |};
       r_msgrate :=
         {| typical := d_lit 0;
            moment_average :=
              d_div (d_mul (d_of_u64 (sub64 (c_msgs cur) (c_msgs prev)))
                           sec_value) d_time_prev;
            total_average :=
              d_div (d_mul (d_of_u64 (c_msgs cur)) sec_value) d_time_start |}
    |}).

(** [ucx_perf_set_warmup]: [perf->report_interval = -1] stores the largest
    [ucs_time_t]. *)
Definition ucx_perf_set_warmup (perf : ucx_perf_context_t)
    (params : ucx_perf_params_t) : ucx_perf_context_t :=
  {| perf_params := perf_params perf;
     perf_start_time := perf_start_time perf;
     perf_prev_time := perf_prev_time perf;
     perf_end_time := perf_end_time perf;
     perf_max_iter := ucs_min (warmup_iter params) (max_iter params `div` 10);
     perf_report_interval := (-1) `mod` 2 ^ 64;
     perf_current := perf_current perf;
     perf_prev := perf_prev perf;
     perf_timing_queue := perf_timing_queue perf;
     perf_timing_queue_head := perf_timing_queue_head perf;
     perf_offset := perf_offset perf |}.

End PerfContext.

(** ** An instance of the arithmetic for evaluation

    Exact rationals stand in for [double] when the definitions are run on
    concrete inputs; the clock ticks once per nanosecond. *)

Global Instance QDouble : CDouble := {|
  double := Q;
  d_lit := inject_Z;
  d_of_u64 := inject_Z;
  d_mul := Qmult;
  d_div := Qdiv;
  d_eqb := Qeq_bool;
  d_gtb := λ a b, negb (Qle_bool a b)
|}.

Definition ns_time_from_sec (sec : Q) : Z :=
  Qfloor (Qplus (Qmult sec (inject_Z (10 ^ 9))) (Qmake 1 2)).

(** A parameter block and a context in mid-run, for evaluation. *)
Definition example_params : ucx_perf_params_t :=
  {| api := UCX_PERF_API_UCP; command := UCX_PERF_CMD_TAG;
     test_type := UCX_PERF_TEST_TYPE_PINGPONG;
     thread_mode := UCS_THREAD_MODE_SINGLE; thread_count := 1; flags := 0;
     warmup_iter := 100; max_iter := 100000;
     max_time := Qmake 3 2; report_interval := inject_Z 1;
     msg_size_list := [8]; msg_size_cnt := 1; iov_stride := 0;
     max_outstanding := 1; am_hdr_size := 8;
     uct_data_layout := UCT_PERF_DATA_LAYOUT_LAST; uct_fc_window := 0 |}.

Definition example_perf : ucx_perf_context_t :=
  {| perf_params := example_params;
     perf_start_time := 7; perf_prev_time := 7;
     perf_end_time := 9; perf_max_iter := 10; perf_report_interval := 1;
     perf_current := {| c_time := 50; c_msgs := 4; c_bytes := 32; c_iters := 4 |};
     perf_prev := {| c_time := 40; c_msgs := 3; c_bytes := 24; c_iters := 3 |};
     perf_timing_queue := [5000; 3000; 8000; 1000];
     perf_timing_queue_head := 2;
     perf_offset := 0 |}.

(** ** The test driver ([ucx_perf_run], [ucx_perf_thread_spawn],
    libperf.c:1227-1400)

    The driver talks to the rendezvous collaborator ([rte_call]), reads
    the clock and calls through the per-API function table
    [ucx_perf_funcs].  The model threads a [world] through the code: the
    trace of the calls made so far and the number of clock reads. *)

Inductive perf_event {D : CDouble} : Type :=
| EvReset                                 (* [ucx_perf_test_reset] *)
| EvSetup                                 (* [ucx_perf_funcs[api].setup] *)
| EvRun (perf : ucx_perf_context_t)       (* [ucx_perf_funcs[api].run(&perf)] *)
| EvBarrier                               (* [rte_call(perf, barrier)] *)
| EvReport (result : ucx_perf_result_t)   (* [rte_call(perf, report, ...)] *)
| EvParallel                              (* the [omp parallel] region *)
| EvCleanup.                              (* [ucx_perf_funcs[api].cleanup] *)

Record world {D : CDouble} : Type := {
  w_trace : list perf_event;
  w_reads : nat
}.

(** State and failure: [None] is an access outside an array. *)
Definition M {D : CDouble} (A : Type) : Type := world → option (A * world).

Global Instance M_ret {D : CDouble} : MRet M := λ A a w, Some (a, w).

Global Instance M_bind {D : CDouble} : MBind M := λ A B f m w,
  match m w with
  | Some (a, w') => f a w'
  | None => None
  end.

Definition emit {D : CDouble} (e : perf_event) : M unit := λ w,
  Some (tt, {| w_trace := w_trace w ++ [e]; w_reads := w_reads w |}).

Definition lift_option {D : CDouble} {A} (o : option A) : M A := λ w,
  match o with
  | Some a => Some (a, w)
  | None => None
  end.

Section Driver.

Context {D : CDouble}.
Variable ucs_time_from_sec : double → Z.
Variable TIMING_QUEUE_SIZE : Z.

(** [ucs_get_time()]: the value the clock shows at its k-th reading. *)
Variable clock : nat → Z.

(** The entries of [ucx_perf_funcs[api]]: [setup] and [run] return a status
    and leave the context as they leave it. *)
Variable funcs_setup :
  ucx_perf_api_t → ucx_perf_context_t → ucx_perf_params_t →
  ucs_status_t * ucx_perf_context_t.
Variable funcs_run :
  ucx_perf_api_t → ucx_perf_context_t → ucs_status_t * ucx_perf_context_t.

(** What the threads of the [omp parallel] region leave in the shared
    [statuses] array. *)
Variable omp_statuses :
  ucx_perf_context_t → ucx_perf_params_t → list ucs_status_t.

(** The automatic variable [ucx_perf_context_t perf] before its first
    assignment. *)
Variable perf_uninit : ucx_perf_context_t.

Definition ucs_get_time : M Z := λ w,
  Some (clock (w_reads w),
        {| w_trace := w_trace w; w_reads := S (w_reads w) |}).

Definition do_reset (perf : ucx_perf_context_t) (params : ucx_perf_params_t)
    : M ucx_perf_context_t :=
  now ← ucs_get_time;
  _ ← emit EvReset;
  mret (ucx_perf_test_reset ucs_time_from_sec TIMING_QUEUE_SIZE now perf params).

Definition do_setup (perf : ucx_perf_context_t) (params : ucx_perf_params_t)
    : M (ucs_status_t * ucx_perf_context_t) :=
  _ ← emit EvSetup;
  mret (funcs_setup (api params) perf params).

Definition do_run (perf : ucx_perf_context_t) (params : ucx_perf_params_t)
    : M (ucs_status_t * ucx_perf_context_t) :=
  _ ← emit (EvRun perf);
  mret (funcs_run (api params) perf).

(** [for (ti = 0; ti < nti; ti++) if (UCS_OK != statuses[ti]) { ...;
    status = statuses[ti]; }] over the [nti] slots of [statuses]. *)
Definition collect_statuses (status : ucs_status_t) (nti : Z)
    (statuses : list ucs_status_t) : ucs_status_t :=
  foldl (λ status s, if decide (UCS_OK ≠ s) then s else status)
        status (take (Z.to_nat nti) statuses).

(** [ucx_perf_thread_spawn], the OpenMP variant.  The [omp parallel]
    region is one event, [EvParallel]: what the threads do inside it
    ([ucx_perf_thread_run_test]: the warm-up and test runs, the
    barriers, the reset, and the [ucx_perf_calc_result] and report of
    thread 0 into its own [tctx->result]) is not in the trace, and of
    the region the model keeps the [statuses] array it leaves.  The
    caller's [result] is not passed on to the threads. *)
Definition ucx_perf_thread_spawn (params : ucx_perf_params_t)
    : M ucs_status_t :=
  let nti := thread_count params in
  perf ← do_reset perf_uninit params;
  '(status, perf) ← do_setup perf params;
  if decide (UCS_OK ≠ status) then mret status      (* goto out_cleanup *)
  else
    _ ← emit EvParallel;
    let statuses := omp_statuses perf params in
    let status := collect_statuses status nti statuses in
    _ ← emit EvCleanup;
    mret status.

(** [ucx_perf_run].  The result is written only when the measured run
    succeeds. *)
Definition ucx_perf_run (params : ucx_perf_params_t)
    : M (ucs_status_t * option ucx_perf_result_t) :=
  if decide (command params = UCX_PERF_CMD_LAST) then
    mret (UCS_ERR_INVALID_PARAM, None)
  else if decide (api params ≠ UCX_PERF_API_UCT ∧ api params ≠ UCX_PERF_API_UCP) then
    mret (UCS_ERR_INVALID_PARAM, None)
  else if decide (UCS_THREAD_MODE_SINGLE ≠ thread_mode params) then
    status ← ucx_perf_thread_spawn params;
    mret (status, None)
  else
    perf ← do_reset perf_uninit params;
    '(status, perf) ← do_setup perf params;
    if decide (status ≠ UCS_OK) then mret (status, None)       (* goto out *)
    else
      warm ← (if decide (warmup_iter params > 0) then
                let perf := ucx_perf_set_warmup perf params in
                '(status, perf) ← do_run perf params;
                if decide (status ≠ UCS_OK) then
                  mret (inl status)                         (* goto out_cleanup *)
                else
                  _ ← emit EvBarrier;
                  perf ← do_reset perf params;
                  mret (inr perf)
              else mret (inr perf));
      match warm with
      | inl status =>
          _ ← emit EvCleanup;
          mret (status, None)
      | inr perf =>
          (* Run test *)
          '(status, perf) ← do_run perf params;
          _ ← emit EvBarrier;
          result ← (if decide (status = UCS_OK) then
                      '(_, result) ← lift_option
                        (ucx_perf_calc_result ucs_time_from_sec
                           TIMING_QUEUE_SIZE perf);
                      _ ← emit (EvReport result);
                      mret (Some result)
                    else mret None);
          _ ← emit EvCleanup;
          mret (status, result)
      end.

End Driver.

(** The first non-OK entry of a status array, as the specification
    speaks of it. *)
Definition first_error (statuses : list ucs_status_t) : option ucs_status_t :=
  head (filter (λ s, s ≠ UCS_OK) statuses).

(** Externals for evaluation: a clock that advances by one tick per
    reading, a setup that succeeds, a run that performs [max_iter]
    iterations of 8 bytes. *)
Definition example_clock (k : nat) : Z := 1000 + Z.of_nat k.

Definition example_setup (a : ucx_perf_api_t) (perf : ucx_perf_context_t)
    (params : ucx_perf_params_t) : ucs_status_t * ucx_perf_context_t :=
  (UCS_OK, perf).

Definition example_run (a : ucx_perf_api_t) (perf : ucx_perf_context_t)
    : ucs_status_t * ucx_perf_context_t :=
  (UCS_OK,
   {| perf_params := perf_params perf;
      perf_start_time := perf_start_time perf;
      perf_prev_time := perf_prev_time perf;
      perf_end_time := perf_end_time perf;
      perf_max_iter := perf_max_iter perf;
      perf_report_interval := perf_report_interval perf;
      perf_current :=
        {| c_time := perf_start_time perf + 5000 * perf_max_iter perf;
           c_msgs := perf_max_iter perf;
           c_bytes := 8 * perf_max_iter perf;
           c_iters := perf_max_iter perf |};
      perf_prev := perf_prev perf;
      perf_timing_queue := [5000; 3000; 8000; 1000];
      perf_timing_queue_head := 0;
      perf_offset := perf_offset perf |}).

Definition example_world : world := {| w_trace := []; w_reads := 0 |}.

(** Two threads, both failing, with different errors. *)
Definition example_statuses (perf : ucx_perf_context_t)
    (params : ucx_perf_params_t) : list ucs_status_t :=
  [UCS_ERR_NO_MEMORY; UCS_ERR_IO_ERROR].

Definition example_mt_params : ucx_perf_params_t :=
  {| api := UCX_PERF_API_UCP; command := UCX_PERF_CMD_PUT;
     test_type := UCX_PERF_TEST_TYPE_STREAM_UNI;
     thread_mode := UCS_THREAD_MODE_MULTI; thread_count := 2; flags := 0;
     warmup_iter := 0; max_iter := 100000;
     max_time := inject_Z 0; report_interval := inject_Z 1;
     msg_size_list := [8]; msg_size_cnt := 1; iov_stride := 0;
     max_outstanding := 1; am_hdr_size := 8;
     uct_data_layout := UCT_PERF_DATA_LAYOUT_LAST; uct_fc_window := 0 |}.

(** ** Parameter and capability checks (libperf.c:262-494, 691-734) *)

(** The interface capability bits of uct.h that the capability check
    names.  Their values are outside the two files; the development is
    parametric in them. *)
Class UctIfaceFlags : Type := {
  UCT_IFACE_FLAG_AM_SHORT : Z;
  UCT_IFACE_FLAG_AM_BCOPY : Z;
  UCT_IFACE_FLAG_AM_ZCOPY : Z;
  UCT_IFACE_FLAG_AM_CB_SYNC : Z;
  UCT_IFACE_FLAG_PUT_SHORT : Z;
  UCT_IFACE_FLAG_PUT_BCOPY : Z;
  UCT_IFACE_FLAG_PUT_ZCOPY : Z;
  UCT_IFACE_FLAG_GET_BCOPY : Z;
  UCT_IFACE_FLAG_GET_ZCOPY : Z;
  UCT_IFACE_FLAG_ATOMIC_ADD32 : Z;
  UCT_IFACE_FLAG_ATOMIC_ADD64 : Z;
  UCT_IFACE_FLAG_ATOMIC_FADD32 : Z;
  UCT_IFACE_FLAG_ATOMIC_FADD64 : Z;
  UCT_IFACE_FLAG_ATOMIC_SWAP32 : Z;
  UCT_IFACE_FLAG_ATOMIC_SWAP64 : Z;
  UCT_IFACE_FLAG_ATOMIC_CSWAP32 : Z;
  UCT_IFACE_FLAG_ATOMIC_CSWAP64 : Z;
  UCT_IFACE_FLAG_ATOMIC_CPU : Z;
  UCT_IFACE_FLAG_ATOMIC_DEVICE : Z
}.

(** The feature bits of ucp.h. *)
Class UcpFeatures : Type := {
  UCP_FEATURE_TAG : Z;
  UCP_FEATURE_RMA : Z;
  UCP_FEATURE_AMO32 : Z;
  UCP_FEATURE_AMO64 : Z
}.

(** [attr.cap.am], [attr.cap.put], [attr.cap.get] of [uct_iface_attr_t]. *)
Record uct_iface_cap_t : Set := {
  min_zcopy : Z;
  max_short : Z;
  max_bcopy : Z;
  max_zcopy : Z;
  max_iov : Z;
  max_hdr : Z
}.

(** [uct_iface_attr_t], the fields read by the two files. *)
Record uct_iface_attr_t : Set := {
  cap_flags : Z;
  cap_am : uct_iface_cap_t;
  cap_put : uct_iface_cap_t;
  cap_get : uct_iface_cap_t;
  priority : Z
}.

(** [ucs_test_all_flags(value, mask)]: [(((value) & (mask)) == (mask))]. *)
Definition ucs_test_all_flags (value mask : Z) : bool :=
  bool_decide (Z.land value mask = mask).

(** The value a [size_t] takes when it is stored in a variable of a signed
    integer type of [bits] bits. *)
Definition to_signed (bits : Z) (x : Z) : Z :=
  (x + 2 ^ (bits - 1)) `mod` 2 ^ bits - 2 ^ (bits - 1).

(** Modelled from the spec: [ucx_perf_get_message_size] (libperf.h, outside
    the two files), the total message size: the sum of the first
    [msg_size_cnt] entries of [msg_size_list], a [size_t]. *)
Definition ucx_perf_get_message_size `{CDouble} (params : ucx_perf_params_t) : Z :=
  foldl Z.add 0 (take (Z.to_nat (msg_size_cnt params)) (msg_size_list params))
    `mod` 2 ^ 64.

(** [for (it = 0; it < params->msg_size_cnt; ++it) if
    (params->msg_size_list[it] > params->iov_stride) return
    UCS_ERR_INVALID_PARAM;] *)
Fixpoint check_stride (stride : Z) (sizes : list Z) : ucs_status_t :=
  match sizes with
  | [] => UCS_OK
  | size :: sizes' =>
      if decide (size > stride) then UCS_ERR_INVALID_PARAM
      else check_stride stride sizes'
  end.

Section Checks.

Context {D : CDouble} {F : UctIfaceFlags} {U : UcpFeatures}.

(** The width of the integer type behind [ucs_status_t] (ucs/type/status.h,
    outside the two files). *)
Variable status_bits : Z.

(** [UCT_PERF_TEST_MAX_FC_WINDOW] (libperf.h). *)
Variable UCT_PERF_TEST_MAX_FC_WINDOW : Z.

(** [ucx_perf_test_check_params]; the diagnostics under the VERBOSE flag
    are not part of the model. *)
Definition ucx_perf_test_check_params (params : ucx_perf_params_t)
    : ucs_status_t :=
  if decide (ucx_perf_get_message_size params < 1) then UCS_ERR_INVALID_PARAM
  else if decide (max_outstanding params < 1) then UCS_ERR_INVALID_PARAM
  else if decide (iov_stride params ≠ 0) then
    check_stride (iov_stride params)
      (take (Z.to_nat (msg_size_cnt params)) (msg_size_list params))
  else UCS_OK.

Definition __get_flag (layout : uct_perf_data_layout_t)
    (short_f bcopy_f zcopy_f : Z) : Z :=
  if decide (layout = UCT_PERF_DATA_LAYOUT_SHORT) then short_f
  else if decide (layout = UCT_PERF_DATA_LAYOUT_BCOPY) then bcopy_f
  else if decide (layout = UCT_PERF_DATA_LAYOUT_ZCOPY) then zcopy_f
  else 0.

Definition __get_atomic_flag (size flag32 flag64 : Z) : Z :=
  if decide (size = 4) then flag32
  else if decide (size = 8) then flag64
  else 0.

Definition __get_max_size (layout : uct_perf_data_layout_t)
    (short_m bcopy_m zcopy_m : Z) : Z :=
  if decide (layout = UCT_PERF_DATA_LAYOUT_SHORT) then short_m
  else if decide (layout = UCT_PERF_DATA_LAYOUT_BCOPY) then bcopy_m
  else if decide (layout = UCT_PERF_DATA_LAYOUT_ZCOPY) then zcopy_m
  else 0.

(** The [switch (params->command)] of [uct_perf_test_check_capabilities]:
    [(required_flags, min_size, max_size, max_iov)], or [None] for the
    [default:] branch. *)
Definition uct_required (params : ucx_perf_params_t) (attr : uct_iface_attr_t)
    (message_size : Z) : option (Z * Z * Z * Z) :=
  let layout := uct_data_layout params in
  match command params with
  | UCX_PERF_CMD_AM =>
      Some (Z.lor (__get_flag layout UCT_IFACE_FLAG_AM_SHORT
                     UCT_IFACE_FLAG_AM_BCOPY UCT_IFACE_FLAG_AM_ZCOPY)
                  UCT_IFACE_FLAG_AM_CB_SYNC,
            __get_max_size layout 0 0 (min_zcopy (cap_am attr)),
            __get_max_size layout (max_short (cap_am attr))
              (max_bcopy (cap_am attr)) (max_zcopy (cap_am attr)),
            max_iov (cap_am attr))
  | UCX_PERF_CMD_PUT =>
      Some (__get_flag layout UCT_IFACE_FLAG_PUT_SHORT
              UCT_IFACE_FLAG_PUT_BCOPY UCT_IFACE_FLAG_PUT_ZCOPY,
            __get_max_size layout 0 0 (min_zcopy (cap_put attr)),
            __get_max_size layout (max_short (cap_put attr))
              (max_bcopy (cap_put attr)) (max_zcopy (cap_put attr)),
            max_iov (cap_put attr))
  | UCX_PERF_CMD_GET =>
      Some (__get_flag layout 0
              UCT_IFACE_FLAG_GET_BCOPY UCT_IFACE_FLAG_GET_ZCOPY,
            __get_max_size layout 0 0 (min_zcopy (cap_get attr)),
            __get_max_size layout 0
              (max_bcopy (cap_get attr)) (max_zcopy (cap_get attr)),
            max_iov (cap_get attr))
  | UCX_PERF_CMD_ADD =>
      Some (__get_atomic_flag message_size UCT_IFACE_FLAG_ATOMIC_ADD32
              UCT_IFACE_FLAG_ATOMIC_ADD64, 0, 8, 1)
  | UCX_PERF_CMD_FADD =>
      Some (__get_atomic_flag message_size UCT_IFACE_FLAG_ATOMIC_FADD32
              UCT_IFACE_FLAG_ATOMIC_FADD64, 0, 8, 1)
  | UCX_PERF_CMD_SWAP =>
      Some (__get_atomic_flag message_size UCT_IFACE_FLAG_ATOMIC_SWAP32
              UCT_IFACE_FLAG_ATOMIC_SWAP64, 0, 8, 1)
  | UCX_PERF_CMD_CSWAP =>
      Some (__get_atomic_flag message_size UCT_IFACE_FLAG_ATOMIC_CSWAP32
              UCT_IFACE_FLAG_ATOMIC_CSWAP64, 0, 8, 1)
  | _ => None
  end.

(** The checks specific to the AM command. *)
Definition uct_check_am (params : ucx_perf_params_t) (attr : uct_iface_attr_t)
    (message_size : Z) : ucs_status_t :=
  if decide (uct_data_layout params = UCT_PERF_DATA_LAYOUT_SHORT ∧
             am_hdr_size params ≠ 8) then UCS_ERR_INVALID_PARAM
  else if decide (uct_data_layout params = UCT_PERF_DATA_LAYOUT_ZCOPY ∧
                  am_hdr_size params > max_hdr (cap_am attr)) then
    UCS_ERR_UNSUPPORTED
  else if decide (am_hdr_size params > message_size) then UCS_ERR_INVALID_PARAM
  else if decide (uct_fc_window params > UCT_PERF_TEST_MAX_FC_WINDOW) then
    UCS_ERR_INVALID_PARAM
  else UCS_OK.

(** The checks specific to the zero-copy layout. *)
Definition uct_check_zcopy (params : ucx_perf_params_t) (max_iov : Z)
    : option ucs_status_t :=
  if decide (msg_size_cnt params > max_iov) then Some UCS_ERR_UNSUPPORTED
  else if decide (UCX_PERF_CMD_AM = command params ∧ msg_size_cnt params > 1) then
    first_size ← rd (msg_size_list params) 0;
    if decide (am_hdr_size params > first_size) then Some UCS_ERR_INVALID_PARAM
    else Some UCS_OK
  else Some UCS_OK.

(** [uct_perf_test_check_capabilities]; [query] is what
    [uct_iface_query(iface, &attr)] returns and writes. *)
Definition uct_perf_test_check_capabilities (params : ucx_perf_params_t)
    (query : ucs_status_t * uct_iface_attr_t) : option ucs_status_t :=
  let '(status, attr) := query in
  if decide (status ≠ UCS_OK) then Some status
  else
    let message_size := ucx_perf_get_message_size params in
    match uct_required params attr message_size with
    | None => Some UCS_ERR_INVALID_PARAM
    | Some (required_flags, min_size, max_size, max_iov) =>
        let status := ucx_perf_test_check_params params in
        if decide (status ≠ UCS_OK) then Some status
        else if negb (ucs_test_all_flags (cap_flags attr) required_flags)
                || bool_decide (required_flags = 0) then
          Some UCS_ERR_UNSUPPORTED
        else if decide (message_size < min_size) then Some UCS_ERR_UNSUPPORTED
        else if decide (message_size > max_size) then Some UCS_ERR_UNSUPPORTED
        else
          let am_status :=
            if decide (command params = UCX_PERF_CMD_AM)
            then uct_check_am params attr message_size else UCS_OK in
          if decide (am_status ≠ UCS_OK) then Some am_status
          else if decide (UCT_PERF_DATA_LAYOUT_ZCOPY = uct_data_layout params) then
            uct_check_zcopy params max_iov
          else Some UCS_OK
    end.

(** [ucp_perf_test_check_params]: the status and, when the function
    assigns it, [*features].  The local [message_size] is declared
    [ucs_status_t], so the total size is converted to that type before it
    is compared with [sizeof(uint32_t)] and [sizeof(uint64_t)]. *)
Definition ucp_perf_test_check_params (params : ucx_perf_params_t)
    : ucs_status_t * option Z :=
  let message_size :=
    to_signed status_bits (ucx_perf_get_message_size params) in
  let atomic :=
    if decide (message_size `mod` 2 ^ 64 = 4) then Some UCP_FEATURE_AMO32
    else if decide (message_size `mod` 2 ^ 64 = 8) then Some UCP_FEATURE_AMO64
    else None in
  let features :=
    match command params with
    | UCX_PERF_CMD_PUT | UCX_PERF_CMD_GET => Some UCP_FEATURE_RMA
    | UCX_PERF_CMD_ADD | UCX_PERF_CMD_FADD
    | UCX_PERF_CMD_SWAP | UCX_PERF_CMD_CSWAP => atomic
    | UCX_PERF_CMD_TAG => Some UCP_FEATURE_TAG
    | _ => None
    end in
  match features with
  | None => (UCS_ERR_INVALID_PARAM, None)
  | Some _ => (ucx_perf_test_check_params params, features)
  end.

End Checks.

(** The four atomic commands and, for each, the 32-bit and the 64-bit
    capability bit its [case] passes to [__get_atomic_flag]. *)
Definition is_atomic_cmd (cmd : ucx_perf_cmd_t) : Prop :=
  cmd = UCX_PERF_CMD_ADD ∨ cmd = UCX_PERF_CMD_FADD ∨
  cmd = UCX_PERF_CMD_SWAP ∨ cmd = UCX_PERF_CMD_CSWAP.

Definition atomic_flag32 `{UctIfaceFlags} (cmd : ucx_perf_cmd_t) : Z :=
  match cmd with
  | UCX_PERF_CMD_ADD => UCT_IFACE_FLAG_ATOMIC_ADD32
  | UCX_PERF_CMD_FADD => UCT_IFACE_FLAG_ATOMIC_FADD32
  | UCX_PERF_CMD_SWAP => UCT_IFACE_FLAG_ATOMIC_SWAP32
  | UCX_PERF_CMD_CSWAP => UCT_IFACE_FLAG_ATOMIC_CSWAP32
  | _ => 0
  end.

Definition atomic_flag64 `{UctIfaceFlags} (cmd : ucx_perf_cmd_t) : Z :=
  match cmd with
  | UCX_PERF_CMD_ADD => UCT_IFACE_FLAG_ATOMIC_ADD64
  | UCX_PERF_CMD_FADD => UCT_IFACE_FLAG_ATOMIC_FADD64
  | UCX_PERF_CMD_SWAP => UCT_IFACE_FLAG_ATOMIC_SWAP64
  | UCX_PERF_CMD_CSWAP => UCT_IFACE_FLAG_ATOMIC_CSWAP64
  | _ => 0
  end.

(** Constants for evaluation: one bit per capability, one per feature. *)
Global Instance example_iface_flags : UctIfaceFlags := {|
  UCT_IFACE_FLAG_AM_SHORT := 2 ^ 0;
  UCT_IFACE_FLAG_AM_BCOPY := 2 ^ 1;
  UCT_IFACE_FLAG_AM_ZCOPY := 2 ^ 2;
  UCT_IFACE_FLAG_AM_CB_SYNC := 2 ^ 3;
  UCT_IFACE_FLAG_PUT_SHORT := 2 ^ 4;
  UCT_IFACE_FLAG_PUT_BCOPY := 2 ^ 5;
  UCT_IFACE_FLAG_PUT_ZCOPY := 2 ^ 6;
  UCT_IFACE_FLAG_GET_BCOPY := 2 ^ 7;
  UCT_IFACE_FLAG_GET_ZCOPY := 2 ^ 8;
  UCT_IFACE_FLAG_ATOMIC_ADD32 := 2 ^ 9;
  UCT_IFACE_FLAG_ATOMIC_ADD64 := 2 ^ 10;
  UCT_IFACE_FLAG_ATOMIC_FADD32 := 2 ^ 11;
  UCT_IFACE_FLAG_ATOMIC_FADD64 := 2 ^ 12;
  UCT_IFACE_FLAG_ATOMIC_SWAP32 := 2 ^ 13;
  UCT_IFACE_FLAG_ATOMIC_SWAP64 := 2 ^ 14;
  UCT_IFACE_FLAG_ATOMIC_CSWAP32 := 2 ^ 15;
  UCT_IFACE_FLAG_ATOMIC_CSWAP64 := 2 ^ 16;
  UCT_IFACE_FLAG_ATOMIC_CPU := 2 ^ 17;
  UCT_IFACE_FLAG_ATOMIC_DEVICE := 2 ^ 18
|}.

Global Instance example_features : UcpFeatures := {|
  UCP_FEATURE_TAG := 2 ^ 0;
  UCP_FEATURE_RMA := 2 ^ 1;
  UCP_FEATURE_AMO32 := 2 ^ 2;
  UCP_FEATURE_AMO64 := 2 ^ 3
|}.

(** An atomic-add test with one message of [size] bytes. *)
Definition example_atomic_params (size : Z) : ucx_perf_params_t :=
  {| api := UCX_PERF_API_UCP; command := UCX_PERF_CMD_ADD;
     test_type := UCX_PERF_TEST_TYPE_STREAM_UNI;
     thread_mode := UCS_THREAD_MODE_SINGLE; thread_count := 1; flags := 0;
     warmup_iter := 0; max_iter := 1000000;
     max_time := inject_Z 0; report_interval := inject_Z 1;
     msg_size_list := [size]; msg_size_cnt := 1; iov_stride := 0;
     max_outstanding := 1; am_hdr_size := 8;
     uct_data_layout := UCT_PERF_DATA_LAYOUT_SHORT; uct_fc_window := 0 |}.

Definition example_cap : uct_iface_cap_t :=
  {| min_zcopy := 0; max_short := 64; max_bcopy := 8192; max_zcopy := 65536;
     max_iov := 4; max_hdr := 32 |}.

(** An interface that advertises every capability. *)
Definition example_attr : uct_iface_attr_t :=
  {| cap_flags := 2 ^ 19 - 1; cap_am := example_cap; cap_put := example_cap;
     cap_get := example_cap; priority := 0 |}.

(** ** Rendezvous status exchange and endpoint set-up (libperf.c:836-996) *)

(** The rendezvous collaborator as one peer sees it in a status round:
    the group, the peer's own index, and what every other peer posts. *)
Record rte_t : Set := {
  group_size : nat;
  group_index : nat;
  peer_status : nat → ucs_status_t
}.

(** Modelled from the spec: the rendezvous collaborator's [recv(peer, buf,
    len, req)] (an external interface, outside the two files) retrieves
    peer [i]'s payload of the exchange just committed; for the caller's
    own index that is the payload the caller posted. *)
Definition rte_recv_status (rte : rte_t) (posted : ucs_status_t) (i : nat)
    : ucs_status_t :=
  if decide (i = group_index rte) then posted else peer_status rte i.

(** [ucp_perf_test_exchange_status]: the argument is posted, then
    overwritten by every [recv]. *)
Definition ucp_perf_test_exchange_status (rte : rte_t) (status : ucs_status_t)
    : ucs_status_t :=
  let posted := status in
  foldl (λ collective_status i,
           let status := rte_recv_status rte posted i in
           if decide (status ≠ UCS_OK) then status else collective_status)
        UCS_OK (seq 0 (group_size rte)).

(** The calls [ucp_perf_test_setup_endpoints] makes. *)
Inductive setup_event : Set :=
| SeGetAddress                           (* [ucp_worker_get_address] *)
| SeRkeyPack                             (* [ucp_rkey_pack] *)
| SePostVec (n : Z)                      (* [rte_call(perf, post_vec, vec, n, &req)] *)
| SeReleaseAddress                       (* [ucp_worker_release_address] *)
| SeExchangeVec                          (* [rte_call(perf, exchange_vec, req)] *)
| SeAllocPeers                           (* [perf->ucp.peers = calloc(...)], non-NULL *)
| SeRecv (i : nat)                       (* [rte_call(perf, recv, i, ...)] *)
| SeEpCreate (i : nat)                   (* [ucp_ep_create] for peer [i] *)
| SeRkeyUnpack (i : nat)                 (* [ucp_ep_rkey_unpack] for peer [i] *)
| SeDestroyEps                           (* [ucp_perf_test_destroy_eps] *)
| SeExchangeStatus (posted : ucs_status_t). (* [ucp_perf_test_exchange_status] *)

Global Instance setup_event_eq_dec : EqDecision setup_event.
Proof. solve_decision. Defined.

(** What the calls into the library and the allocator return. *)
Record setup_oracle : Set := {
  o_get_address : ucs_status_t;
  o_rkey_pack : ucs_status_t;
  o_calloc_peers : bool;
  o_malloc_buffer : bool;
  o_ep_create : nat → ucs_status_t;
  o_remote_rkey_size : nat → Z;
  o_rkey_unpack : nat → ucs_status_t
}.

(** How the function ends: it returns a status, or [ucs_fatal] aborts. *)
Inductive outcome : Set :=
| Returned (status : ucs_status_t)
| Fatal.

(** How the loop over the peers ends. *)
Inductive loop_exit : Set :=
| LoopDone
| LoopError (status : ucs_status_t)      (* [goto err_free_buffer] *)
| LoopFatal.

(** [for (i = 0; i < group_size; ++i) { if (i == group_index) continue;
    ... }] of [ucp_perf_test_setup_endpoints]. *)
Fixpoint connect_peers (o : setup_oracle) (verbose : bool) (index : nat)
    (peers : list nat) : loop_exit * list setup_event :=
  match peers with
  | [] => (LoopDone, [])
  | i :: peers' =>
      if decide (i = index) then connect_peers o verbose index peers'
      else
        let status := o_ep_create o i in
        if decide (status ≠ UCS_OK) then
          (LoopError status, [SeRecv i; SeEpCreate i])
        else if decide (o_remote_rkey_size o i > 0) then
          let status := o_rkey_unpack o i in
          if decide (status ≠ UCS_OK) then
            (if verbose then LoopFatal else LoopError status,
             [SeRecv i; SeEpCreate i; SeRkeyUnpack i])
          else
            let '(exit, trace) := connect_peers o verbose index peers' in
            (exit, [SeRecv i; SeEpCreate i; SeRkeyUnpack i] ++ trace)
        else
          let '(exit, trace) := connect_peers o verbose index peers' in
          (exit, [SeRecv i; SeEpCreate i] ++ trace)
  end.

Section SetupEndpoints.

Context {U : UcpFeatures}.

(** [UCX_PERF_TEST_FLAG_VERBOSE] (libperf.h). *)
Variable UCX_PERF_TEST_FLAG_VERBOSE : Z.

(** [ucp_perf_test_setup_endpoints]: the outcome and the calls made. *)
Definition ucp_perf_test_setup_endpoints (rte : rte_t) (o : setup_oracle)
    (flags features : Z) : outcome * list setup_event :=
  let verbose := bool_decide (Z.land flags UCX_PERF_TEST_FLAG_VERBOSE ≠ 0) in
  (* [err: (void)ucp_perf_test_exchange_status(perf, status); return status;] *)
  let err (status : ucs_status_t) (trace : list setup_event) :=
    (Returned status, trace ++ [SeExchangeStatus status]) in
  (* [err_destroy_eps:] *)
  let err_destroy_eps (status : ucs_status_t) (trace : list setup_event) :=
    err status (trace ++ [SeDestroyEps]) in
  let status := o_get_address o in
  if decide (status ≠ UCS_OK) then err status [SeGetAddress]
  else
    let with_rkey :=
      bool_decide (Z.land features
                     (Z.lor (Z.lor UCP_FEATURE_RMA UCP_FEATURE_AMO32)
                            UCP_FEATURE_AMO64) ≠ 0) in
    let status := if with_rkey then o_rkey_pack o else status in
    if decide (status ≠ UCS_OK) then
      err status [SeGetAddress; SeRkeyPack; SeReleaseAddress]
    else
      let posted :=
        if with_rkey then [SeGetAddress; SeRkeyPack; SePostVec 3]
        else [SeGetAddress; SePostVec 2] in
      let trace := posted ++ [SeReleaseAddress; SeExchangeVec] in
      if negb (o_calloc_peers o) then err status trace
      else
        let trace := trace ++ [SeAllocPeers] in
        if negb (o_malloc_buffer o) then
          err_destroy_eps UCS_ERR_NO_MEMORY trace
        else
          match connect_peers o verbose (group_index rte)
                  (seq 0 (group_size rte)) with
          | (LoopFatal, loop) => (Fatal, trace ++ loop)
          | (LoopError status, loop) => err_destroy_eps status (trace ++ loop)
          | (LoopDone, loop) =>
              let trace := trace ++ loop ++ [SeExchangeStatus UCS_OK] in
              let status := ucp_perf_test_exchange_status rte UCS_OK in
              if decide (status ≠ UCS_OK) then
                (Returned status, trace ++ [SeDestroyEps])
              else (Returned status, trace)
          end.

End SetupEndpoints.

(** A three-peer group seen from peer 1, where peer 2 reports NO_MEMORY,
    and a local set-up in which every call succeeds. *)
Definition example_rte : rte_t :=
  {| group_size := 3; group_index := 1;
     peer_status := λ i, if decide (i = 2%nat) then UCS_ERR_NO_MEMORY else UCS_OK |}.

Definition example_oracle : setup_oracle :=
  {| o_get_address := UCS_OK; o_rkey_pack := UCS_OK;
     o_calloc_peers := true; o_malloc_buffer := true;
     o_ep_create := λ _, UCS_OK;
     o_remote_rkey_size := λ _, 16;
     o_rkey_unpack := λ _, UCS_OK |}.

(** The loop of the status exchange over any list of peers, any receive
    function and any initial value: the form the proofs induct on. *)
Definition collect (recv : nat → ucs_status_t) (c : ucs_status_t)
    (l : list nat) : ucs_status_t :=
  foldl (λ collective_status i,
           let status := recv i in
           if decide (status ≠ UCS_OK) then status else collective_status) c l.

(** ** The worker (ucp_worker.c) *)

(** How a call ends: it returns, [ucs_fatal] aborts the process, or the
    code reads or writes outside an array. *)
Inductive result (A : Type) : Type :=
| Ret (a : A)
| Abort
| Fault.
Arguments Ret {A} a.
Arguments Abort {A}.
Arguments Fault {A}.

(** [UCS_BIT(i)]: [(1ul << (i))]. *)
Definition UCS_BIT (i : Z) : Z := Z.shiftl 1 i.

Inductive ucp_mt_type_t : Set :=
| UCP_MT_TYPE_NONE | UCP_MT_TYPE_SPINLOCK | UCP_MT_TYPE_MUTEX.

Inductive ucp_atomic_mode_t : Set :=
| UCP_ATOMIC_MODE_CPU | UCP_ATOMIC_MODE_DEVICE | UCP_ATOMIC_MODE_GUESS
| UCP_ATOMIC_MODE_LAST.

Global Instance ucp_mt_type_eq_dec : EqDecision ucp_mt_type_t.
Proof. solve_decision. Defined.
Global Instance ucp_atomic_mode_eq_dec : EqDecision ucp_atomic_mode_t.
Proof. solve_decision. Defined.

(** [ucp_tl_resource_desc_t]: the memory domain and the device of a
    transport resource. *)
Record ucp_tl_resource_desc_t : Set := {
  md_index : Z;
  dev_name : string
}.

(** [ucp_context_t], the fields read by ucp_worker.c: [num_tls],
    [tl_rscs], [tl_mds[i].attr.cap.flags], [config.features],
    [config.ext.atomic_mode], [config.ext.use_mt_mutex]. *)
Record ucp_context_t : Set := {
  num_tls : Z;
  tl_rscs : list ucp_tl_resource_desc_t;
  tl_mds : list Z;
  features : Z;
  atomic_mode : ucp_atomic_mode_t;
  use_mt_mutex : bool
}.

(** [ucp_worker_params_t]. *)
Record ucp_worker_params_t : Set := {
  wp_field_mask : Z;
  wp_thread_mode : ucs_thread_mode_t
}.

(** [ucp_worker_attr_t]. *)
Record ucp_worker_attr_t : Set := {
  wa_field_mask : Z;
  wa_thread_mode : ucs_thread_mode_t
}.

Section Worker.

Context {D : CDouble} {F : UctIfaceFlags} {U : UcpFeatures}.

(** The structural key of an endpoint configuration and the parameters
    derived from it ([ucp_ep_config_key_t] and the rest of
    [ucp_ep_config_t], ucp_ep.h). *)
Variable ucp_ep_config_key_t : Type.
Variable ucp_ep_config_params_t : Type.

(** [ucp_ep_config_is_equal] and [ucp_ep_config_init] (ucp_ep.c, outside
    the two files); the latter derives the parameters from the key, the
    context and the interface attributes of the worker. *)
Variable ucp_ep_config_is_equal : ucp_ep_config_key_t → ucp_ep_config_key_t → bool.
Variable ucp_ep_config_init :
  ucp_context_t → list uct_iface_attr_t → ucp_ep_config_key_t →
  ucp_ep_config_params_t.

(** [UCP_THREAD_IS_REQUIRED] (ucp_thread.h), as a function of the lock
    type. *)
Variable UCP_THREAD_IS_REQUIRED : ucp_mt_type_t → bool.

(** Constants of ucp.h and uct.h. *)
Variable UCP_WORKER_PARAM_FIELD_THREAD_MODE : Z.
Variable UCP_WORKER_ATTR_FIELD_THREAD_MODE : Z.
Variable UCT_MD_FLAG_REG : Z.
Variable UCT_DEVICE_NAME_MAX : nat.

(** [ucp_context_uct_atomic_iface_flags] (ucp_context.h) and
    [ucp_wireup_amo_score_func] (wireup), on the resource with the given
    index. *)
Variable ucp_context_uct_atomic_iface_flags : ucp_context_t → Z.
Variable ucp_wireup_amo_score_func : ucp_context_t → Z → uct_iface_attr_t → double.

Record ucp_ep_config_t : Type := {
  key : ucp_ep_config_key_t;
  derived : ucp_ep_config_params_t
}.

(** [ucp_worker_t], the fields the embedded functions touch.  A slot of
    [ep_config] that [ucp_worker_get_ep_config] has not written yet is
    [None]. *)
Record ucp_worker_t : Type := {
  context : ucp_context_t;
  mt_type : ucp_mt_type_t;
  iface_attrs : list uct_iface_attr_t;
  atomic_tls : Z;
  ep_config_max : Z;
  ep_config_count : Z;
  ep_config : list (option ucp_ep_config_t)
}.

Definition set_atomic_tls (worker : ucp_worker_t) (mask : Z) : ucp_worker_t :=
  {| context := context worker; mt_type := mt_type worker;
     iface_attrs := iface_attrs worker; atomic_tls := mask;
     ep_config_max := ep_config_max worker;
     ep_config_count := ep_config_count worker;
     ep_config := ep_config worker |}.

(** *** Atomic resource selection *)

(** [ucp_worker_enable_atomic_tl]: [worker->atomic_tls |=
    UCS_BIT(rsc_index)]. *)
Definition ucp_worker_enable_atomic_tl (mask : Z) (rsc_index : Z) : Z :=
  Z.lor mask (UCS_BIT rsc_index).

(** A read of a per-resource array at a resource index. *)
Definition at_rsc {A} (l : list A) (rsc_index : Z) : result A :=
  if decide (0 ≤ rsc_index) then
    match l !! Z.to_nat rsc_index with
    | Some a => Ret a
    | None => Fault
    end
  else Fault.

Definition rbind {A B} (r : result A) (f : A → result B) : result B :=
  match r with
  | Ret a => f a
  | Abort => Abort
  | Fault => Fault
  end.

(** [for (rsc_index = 0; rsc_index < context->num_tls; ++rsc_index)] with
    the loop state [s]. *)
Definition for_tls {S} (ctx : ucp_context_t) (body : S → Z → result S) (s : S)
    : result S :=
  foldl (λ r i, rbind r (λ s, body s (Z.of_nat i))) (Ret s)
        (seq 0 (Z.to_nat (num_tls ctx))).

(** [ucp_worker_init_cpu_atomics]. *)
Definition ucp_worker_init_cpu_atomics (worker : ucp_worker_t) : result Z :=
  for_tls (context worker)
    (λ mask rsc_index,
       rbind (at_rsc (iface_attrs worker) rsc_index) (λ attr,
         if decide (Z.land (cap_flags attr) UCT_IFACE_FLAG_ATOMIC_CPU ≠ 0)
         then Ret (ucp_worker_enable_atomic_tl mask rsc_index)
         else Ret mask))
    (atomic_tls worker).

(** The state of the first loop of [ucp_worker_init_device_atomics]. *)
Record best_t : Type := {
  supp_tls : Z;
  best_rsc : option Z;
  best_score : double;
  best_priority : Z
}.

(** [strncmp(a, b, n) == 0] on two device names. *)
Definition strncmp_eq (n : nat) (a b : string) : bool :=
  String.eqb (substring 0 n a) (substring 0 n b).

(** The first loop: select the best interface for device atomics. *)
Definition select_best (worker : ucp_worker_t) : result best_t :=
  let ctx := context worker in
  let iface_cap_flags :=
    Z.lor (ucp_context_uct_atomic_iface_flags ctx) UCT_IFACE_FLAG_ATOMIC_DEVICE in
  for_tls ctx
    (λ st rsc_index,
       rbind (at_rsc (tl_rscs ctx) rsc_index) (λ rsc,
       rbind (at_rsc (tl_mds ctx) (md_index rsc)) (λ md_flags,
       rbind (at_rsc (iface_attrs worker) rsc_index) (λ iface_attr,
         if negb (bool_decide (Z.land md_flags UCT_MD_FLAG_REG ≠ 0))
            || negb (ucs_test_all_flags (cap_flags iface_attr) iface_cap_flags)
         then Ret st                                          (* continue *)
         else
           let supp := Z.lor (supp_tls st) (UCS_BIT rsc_index) in
           let priority := priority iface_attr `mod` 2 ^ 8 in
           let score := ucp_wireup_amo_score_func ctx rsc_index iface_attr in
           if d_gtb score (best_score st)
              || (d_eqb score (best_score st)
                  && bool_decide (priority > best_priority st))
           then Ret {| supp_tls := supp; best_rsc := Some rsc_index;
                       best_score := score; best_priority := priority |}
           else Ret {| supp_tls := supp; best_rsc := best_rsc st;
                       best_score := best_score st;
                       best_priority := best_priority st |}))))
    {| supp_tls := 0; best_rsc := None; best_score := d_lit (-1);
       best_priority := 0 |}.

(** [ucp_worker_init_device_atomics]. *)
Definition ucp_worker_init_device_atomics (worker : ucp_worker_t) : result Z :=
  let ctx := context worker in
  rbind (select_best worker) (λ st,
    match best_rsc st with
    | None => Ret (atomic_tls worker)         (* "no support for atomics" *)
    | Some best_index =>
        rbind (at_rsc (tl_rscs ctx) best_index) (λ best,
          (* Enable atomics on all resources using same device as the
             "best" resource *)
          for_tls ctx
            (λ mask rsc_index,
               rbind (at_rsc (tl_rscs ctx) rsc_index) (λ rsc,
                 if bool_decide (Z.land (supp_tls st) (UCS_BIT rsc_index) ≠ 0)
                    && bool_decide (md_index rsc = md_index best)
                    && strncmp_eq UCT_DEVICE_NAME_MAX (dev_name rsc) (dev_name best)
                 then Ret (ucp_worker_enable_atomic_tl mask rsc_index)
                 else Ret mask))
            (atomic_tls worker))
    end).

(** [ucp_worker_init_guess_atomics]. *)
Definition ucp_worker_init_guess_atomics (worker : ucp_worker_t) : result Z :=
  rbind
    (for_tls (context worker)
       (λ accumulated_flags rsc_index,
          rbind (at_rsc (iface_attrs worker) rsc_index) (λ attr,
            Ret (Z.lor accumulated_flags (cap_flags attr))))
       0)
    (λ accumulated_flags,
       if decide (Z.land accumulated_flags UCT_IFACE_FLAG_ATOMIC_DEVICE ≠ 0)
       then ucp_worker_init_device_atomics worker
       else ucp_worker_init_cpu_atomics worker).

(** [ucp_worker_init_atomic_tls]: the resulting [worker->atomic_tls]. *)
Definition ucp_worker_init_atomic_tls (worker : ucp_worker_t) : result Z :=
  let worker := set_atomic_tls worker 0 in
  if decide (Z.land (features (context worker))
               (Z.lor UCP_FEATURE_AMO32 UCP_FEATURE_AMO64) ≠ 0) then
    match atomic_mode (context worker) with
    | UCP_ATOMIC_MODE_CPU => ucp_worker_init_cpu_atomics worker
    | UCP_ATOMIC_MODE_DEVICE => ucp_worker_init_device_atomics worker
    | UCP_ATOMIC_MODE_GUESS => ucp_worker_init_guess_atomics worker
    | _ => Abort                        (* "unsupported atomic mode" *)
    end
  else Ret (atomic_tls worker).

(** *** Endpoint configurations *)

(** [for (config_idx = 0; config_idx < worker->ep_config_count;
    ++config_idx) if (ucp_ep_config_is_equal(...)) goto out;] over the
    first [ep_config_count] slots: the index found, if any. *)
Fixpoint search_ep_config (slots : list (option ucp_ep_config_t))
    (config_idx : Z) (k : ucp_ep_config_key_t) : result (option Z) :=
  match slots with
  | [] => Ret None
  | None :: _ => Fault
  | Some config :: slots' =>
      if ucp_ep_config_is_equal (key config) k then Ret (Some config_idx)
      else search_ep_config slots' (config_idx + 1) k
  end.

(** [ucp_worker_get_ep_config]: the index and the worker as the call
    leaves it. *)
Definition ucp_worker_get_ep_config (worker : ucp_worker_t)
    (k : ucp_ep_config_key_t) : result (Z * ucp_worker_t) :=
  rbind (search_ep_config
           (take (Z.to_nat (ep_config_count worker)) (ep_config worker)) 0 k)
    (λ found,
       match found with
       | Some config_idx => Ret (config_idx, worker)
       | None =>
           if decide (ep_config_count worker >= ep_config_max worker) then
             Abort                  (* "too many ep configurations" *)
           else
             let config_idx := ep_config_count worker in
             rbind (at_rsc (ep_config worker) config_idx) (λ _,
               Ret (config_idx,
                    {| context := context worker; mt_type := mt_type worker;
                       iface_attrs := iface_attrs worker;
                       atomic_tls := atomic_tls worker;
                       ep_config_max := ep_config_max worker;
                       ep_config_count := config_idx + 1;
                       ep_config :=
                         <[Z.to_nat config_idx :=
                             Some {| key := k;
                                     derived :=
                                       ucp_ep_config_init (context worker)
                                         (iface_attrs worker) k |}]>
                           (ep_config worker) |}))
       end).

(** *** Creation and query *)

(** [ucp_worker_create], the worker it hands out when it returns UCS_OK;
    [attrs] is what [uct_iface_query] wrote for each transport resource
    while the interfaces were opened. *)
Definition ucp_worker_create (ctx : ucp_context_t) (params : ucp_worker_params_t)
    (attrs : list uct_iface_attr_t) : result ucp_worker_t :=
  let config_count :=
    ucs_min ((num_tls ctx + 1) * (num_tls ctx + 1) * num_tls ctx) UINT8_MAX in
  let thread_mode :=
    if decide (Z.land (wp_field_mask params) UCP_WORKER_PARAM_FIELD_THREAD_MODE ≠ 0)
    then wp_thread_mode params else UCS_THREAD_MODE_SINGLE in
  let mt :=
    if decide (thread_mode ≠ UCS_THREAD_MODE_MULTI) then UCP_MT_TYPE_NONE
    else if use_mt_mutex ctx then UCP_MT_TYPE_MUTEX
    else UCP_MT_TYPE_SPINLOCK in
  let worker :=
    {| context := ctx; mt_type := mt; iface_attrs := attrs; atomic_tls := 0;
       ep_config_max := config_count; ep_config_count := 0;
       ep_config := replicate (Z.to_nat config_count) None |} in
  (* Select atomic resources *)
  rbind (ucp_worker_init_atomic_tls worker) (λ mask,
    Ret (set_atomic_tls worker mask)).

(** [ucp_worker_query]. *)
Definition ucp_worker_query (worker : ucp_worker_t) (attr : ucp_worker_attr_t)
    : ucs_status_t * ucp_worker_attr_t :=
  (UCS_OK,
   if decide (Z.land (wa_field_mask attr) UCP_WORKER_ATTR_FIELD_THREAD_MODE ≠ 0)
   then
     {| wa_field_mask := wa_field_mask attr;
        wa_thread_mode :=
          if UCP_THREAD_IS_REQUIRED (mt_type worker) then UCS_THREAD_MODE_MULTI
          else UCS_THREAD_MODE_SINGLE |}
   else attr).

(** The workers a program can hold: one that [ucp_worker_create] has
    handed out, for a context whose [num_tls] is a [uint8_t], and then any
    worker left by a returning [ucp_worker_get_ep_config]. *)
Inductive worker_reachable : ucp_worker_t → Prop :=
| reach_create ctx params attrs worker :
    0 ≤ num_tls ctx ≤ UINT8_MAX →
    ucp_worker_create ctx params attrs = Ret worker →
    worker_reachable worker
| reach_get worker k i worker' :
    worker_reachable worker →
    ucp_worker_get_ep_config worker k = Ret (i, worker') →
    worker_reachable worker'.

End Worker.

(** The endpoint-configuration cache of a worker as the operations keep
    it: the counters within their bounds, the array of [ep_config_max]
    slots, the first [ep_config_count] of them written. *)
Definition ep_config_wf {K P} (worker : ucp_worker_t K P) : Prop :=
  0 ≤ ep_config_count _ _ worker ≤ ep_config_max _ _ worker ∧
  ep_config_max _ _ worker ≤ UINT8_MAX ∧
  Z.of_nat (length (ep_config _ _ worker)) = ep_config_max _ _ worker ∧
  ∀ i : nat, Z.of_nat i < ep_config_count _ _ worker →
             ∃ config, ep_config _ _ worker !! i = Some (Some config).

(** The cache holds the key [k] at index [i]. *)
Definition ep_config_at {K P} (worker : ucp_worker_t K P) (i : Z) (k : K) : Prop :=
  0 ≤ i < ep_config_count _ _ worker ∧
  ∃ config, ep_config _ _ worker !! Z.to_nat i = Some (Some config) ∧
            key _ _ config = k.

(** ** A worker for evaluation

    Keys are integers compared with [Z.eqb]; the derived parameters are
    left out; the field-mask bits and the memory-domain registration bit
    are single bits; a lock is required for every lock type but NONE; the
    atomic capabilities a context needs are the 32-bit ones for AMO32 and
    the 64-bit ones for AMO64; the score of an interface is its priority. *)

Definition example_is_required (t : ucp_mt_type_t) : bool :=
  bool_decide (t ≠ UCP_MT_TYPE_NONE).

Definition example_atomic_iface_flags (ctx : ucp_context_t) : Z :=
  Z.lor
    (if decide (Z.land (features ctx) UCP_FEATURE_AMO32 ≠ 0)
     then 2 ^ 9 + 2 ^ 11 + 2 ^ 13 + 2 ^ 15 else 0)
    (if decide (Z.land (features ctx) UCP_FEATURE_AMO64 ≠ 0)
     then 2 ^ 10 + 2 ^ 12 + 2 ^ 14 + 2 ^ 16 else 0).

Definition example_score (ctx : ucp_context_t) (rsc_index : Z)
    (attr : uct_iface_attr_t) : Q :=
  inject_Z (priority attr).

(** Two transport resources on one device of one memory domain that can
    register memory; the application asked for tags and 32-bit atomics. *)
Definition example_context (mode : ucp_atomic_mode_t) : ucp_context_t :=
  {| num_tls := 2;
     tl_rscs := [ {| md_index := 0; dev_name := "mlx5_0:1" |};
                  {| md_index := 0; dev_name := "mlx5_0:1" |} ];
     tl_mds := [2];
     features := 2 ^ 0 + 2 ^ 2;
     atomic_mode := mode;
     use_mt_mutex := false |}.

(** An interface with active messages and puts but no atomics, and one
    with 32-bit device atomics. *)
Definition example_attr_plain : uct_iface_attr_t :=
  {| cap_flags := 2 ^ 0 + 2 ^ 1 + 2 ^ 3 + 2 ^ 4; cap_am := example_cap;
     cap_put := example_cap; cap_get := example_cap; priority := 1 |}.

Definition example_attr_device : uct_iface_attr_t :=
  {| cap_flags := 2 ^ 9 + 2 ^ 11 + 2 ^ 13 + 2 ^ 15 + 2 ^ 18;
     cap_am := example_cap; cap_put := example_cap; cap_get := example_cap;
     priority := 2 |}.

Definition example_worker_params (mode : ucs_thread_mode_t) : ucp_worker_params_t :=
  {| wp_field_mask := 1; wp_thread_mode := mode |}.

Definition example_create (mode : ucp_atomic_mode_t)
    (thread_mode : ucs_thread_mode_t) (attrs : list uct_iface_attr_t)
    : result (ucp_worker_t Z unit) :=
  ucp_worker_create Z unit 1 2 32 example_atomic_iface_flags example_score
    (example_context mode) (example_worker_params thread_mode) attrs.

Definition example_get (worker : ucp_worker_t Z unit) (k : Z)
    : result (Z * ucp_worker_t Z unit) :=
  ucp_worker_get_ep_config Z unit Z.eqb (λ _ _ _, tt) worker k.

(** The worker of the example context under the CPU policy, its
    interfaces without atomics. *)
Definition example_worker : ucp_worker_t Z unit :=
  {| context := example_context UCP_ATOMIC_MODE_CPU;
     mt_type := UCP_MT_TYPE_NONE;
     iface_attrs := [example_attr_plain; example_attr_plain];
     atomic_tls := 0;
     ep_config_max := 18; ep_config_count := 0;
     ep_config := replicate 18 None |}.

(** The per-resource tables of a worker have one entry per transport
    resource, every resource names a memory domain of the context, and the
    resource indices fit the 64-bit masks [supp_tls] and
    [worker->atomic_tls], so that every [UCS_BIT(rsc_index)] is a shift by
    less than the width of [1ul]. *)
Definition atomics_wf {K P} (worker : ucp_worker_t K P) : Prop :=
  let ctx := context _ _ worker in
  0 ≤ num_tls ctx ≤ 64 ∧
  Z.of_nat (length (tl_rscs ctx)) = num_tls ctx ∧
  Z.of_nat (length (iface_attrs _ _ worker)) = num_tls ctx ∧
  ∀ (j : nat) rsc, tl_rscs ctx !! j = Some rsc →
                   0 ≤ md_index rsc < Z.of_nat (length (tl_mds ctx)).

(** Interface [j] of the worker advertises the capability bits [flag]. *)
Definition iface_has_flag {K P} (worker : ucp_worker_t K P) (flag : Z) (j : Z)
    : bool :=
  match at_rsc (iface_attrs _ _ worker) j with
  | Ret attr => bool_decide (Z.land (cap_flags attr) flag ≠ 0)
  | _ => false
  end.

Section DeviceCandidate.

Context {D : CDouble} {F : UctIfaceFlags}.
Variable UCT_MD_FLAG_REG : Z.
Variable ucp_context_uct_atomic_iface_flags : ucp_context_t → Z.
Variable ucp_wireup_amo_score_func : ucp_context_t → Z → uct_iface_attr_t → double.

(** Interface [j] can carry device atomics and would be selected against
    the initial "best" of [ucp_worker_init_device_atomics]: its memory
    domain registers memory, it advertises every atomic capability the
    context needs and device atomics, and its score is above [-1], or
    equal to [-1] with a priority above 0. *)
Definition device_candidate {K P} (worker : ucp_worker_t K P) (j : Z) : bool :=
  let ctx := context _ _ worker in
  match at_rsc (tl_rscs ctx) j with
  | Ret rsc =>
      match at_rsc (tl_mds ctx) (md_index rsc),
            at_rsc (iface_attrs _ _ worker) j with
      | Ret md_flags, Ret iface_attr =>
          let score := ucp_wireup_amo_score_func ctx j iface_attr in
          bool_decide (Z.land md_flags UCT_MD_FLAG_REG ≠ 0)
          && ucs_test_all_flags (cap_flags iface_attr)
               (Z.lor (ucp_context_uct_atomic_iface_flags ctx)
                      UCT_IFACE_FLAG_ATOMIC_DEVICE)
          && (d_gtb score (d_lit (-1))
              || (d_eqb score (d_lit (-1))
                  && bool_decide (priority iface_attr `mod` 2 ^ 8 > 0)))
      | _, _ => false
      end
  | _ => false
  end.

End DeviceCandidate.

(** ** Observations on the call traces *)

(** The status posted by each [ucp_perf_test_exchange_status] call of a
    trace, in order. *)
Definition exchanges (trace : list setup_event) : list ucs_status_t :=
  omap (λ e, match e with SeExchangeStatus s => Some s | _ => None end) trace.

(** The peers for which a trace creates an endpoint, and those for which
    it unpacks a remote key, in order. *)
Definition created_eps (trace : list setup_event) : list nat :=
  omap (λ e, match e with SeEpCreate i => Some i | _ => None end) trace.

Definition unpacked_rkeys (trace : list setup_event) : list nat :=
  omap (λ e, match e with SeRkeyUnpack i => Some i | _ => None end) trace.

(** The number of [cleanup] calls in a driver trace, and the results
    reported in it. *)
Definition cleanups {D : CDouble} (trace : list perf_event) : nat :=
  length (omap (λ e, match e with EvCleanup => Some e | _ => None end) trace).

Definition reports {D : CDouble} (trace : list perf_event)
    : list ucx_perf_result_t :=
  omap (λ e, match e with EvReport r => Some r | _ => None end) trace.

(** A three-peer group seen from peer 1 in which every peer reports OK. *)
Definition example_rte_ok : rte_t :=
  {| group_size := 3; group_index := 1; peer_status := λ _, UCS_OK |}.

(** A GET test with the SHORT layout. *)
Definition example_get_short_params : ucx_perf_params_t :=
  {| api := UCX_PERF_API_UCT; command := UCX_PERF_CMD_GET;
     test_type := UCX_PERF_TEST_TYPE_STREAM_UNI;
     thread_mode := UCS_THREAD_MODE_SINGLE; thread_count := 1; flags := 0;
     warmup_iter := 0; max_iter := 1000;
     max_time := inject_Z 0; report_interval := inject_Z 1;
     msg_size_list := [8]; msg_size_cnt := 1; iov_stride := 0;
     max_outstanding := 1; am_hdr_size := 8;
     uct_data_layout := UCT_PERF_DATA_LAYOUT_SHORT; uct_fc_window := 0 |}.

Section DeviceCapable.

Context {F : UctIfaceFlags}.
Variable UCT_MD_FLAG_REG : Z.
Variable UCT_DEVICE_NAME_MAX : nat.
Variable ucp_context_uct_atomic_iface_flags : ucp_context_t → Z.

(** Interface [j] passes the test that [ucp_worker_init_device_atomics]
    makes before it counts a resource into [supp_tls]: its memory domain
    registers memory and it advertises every atomic capability the context
    needs together with device atomics. *)
Definition device_capable {K P} (worker : ucp_worker_t K P) (j : Z) : bool :=
  let ctx := context _ _ worker in
  match at_rsc (tl_rscs ctx) j with
  | Ret rsc =>
      match at_rsc (tl_mds ctx) (md_index rsc),
            at_rsc (iface_attrs _ _ worker) j with
      | Ret md_flags, Ret iface_attr =>
          bool_decide (Z.land md_flags UCT_MD_FLAG_REG ≠ 0)
          && ucs_test_all_flags (cap_flags iface_attr)
               (Z.lor (ucp_context_uct_atomic_iface_flags ctx)
                      UCT_IFACE_FLAG_ATOMIC_DEVICE)
      | _, _ => false
      end
  | _ => false
  end.

(** Resources [j] and [b] are on the same device, by the test of the
    second loop of [ucp_worker_init_device_atomics]: the same memory
    domain and device names equal in their first [UCT_DEVICE_NAME_MAX]
    characters. *)
Definition same_device (ctx : ucp_context_t) (j b : Z) : bool :=
  match at_rsc (tl_rscs ctx) j, at_rsc (tl_rscs ctx) b with
  | Ret rsc, Ret best =>
      bool_decide (md_index rsc = md_index best)
      && strncmp_eq UCT_DEVICE_NAME_MAX (dev_name rsc) (dev_name best)
  | _, _ => false
  end.

End DeviceCapable.

(** An interface with CPU atomics; a worker under the CPU policy whose
    second interface has them, and a worker under the DEVICE policy whose
    second interface has device atomics. *)
Definition example_attr_cpu : uct_iface_attr_t :=
  {| cap_flags := 2 ^ 0 + 2 ^ 1 + 2 ^ 17; cap_am := example_cap;
     cap_put := example_cap; cap_get := example_cap; priority := 1 |}.

Definition example_worker_cpu : ucp_worker_t Z unit :=
  {| context := example_context UCP_ATOMIC_MODE_CPU;
     mt_type := UCP_MT_TYPE_NONE;
     iface_attrs := [example_attr_plain; example_attr_cpu];
     atomic_tls := 0;
     ep_config_max := 18; ep_config_count := 0;
     ep_config := replicate 18 None |}.

Definition example_worker_device : ucp_worker_t Z unit :=
  {| context := example_context UCP_ATOMIC_MODE_DEVICE;
     mt_type := UCP_MT_TYPE_NONE;
     iface_attrs := [example_attr_plain; example_attr_device];
     atomic_tls := 0;
     ep_config_max := 18; ep_config_count := 0;
     ep_config := replicate 18 None |}.

(** ** Resources acquired and released

    The set-up and tear-down code of both files acquires resources from
    the allocator, the transport layer and the operating system and
    releases them on its error paths.  The model keeps the list of the
    resources held, newest first; a call that acquires pushes, a call that
    releases removes, and a release of something not held is a fault.  The
    status each library call returns comes from an oracle. *)

Inductive resource : Set :=
| RSendMem                  (* [perf->uct.send_mem] / [perf->ucp.send_memh] *)
| RRecvMem                  (* [perf->uct.recv_mem] / [perf->ucp.recv_memh] *)
| RIov                      (* [perf->uct.iov] *)
| RSendIov                  (* [perf->ucp.send_iov] *)
| RRecvIov                  (* [perf->ucp.recv_iov] *)
| RBuffer                   (* the RTE receive buffer *)
| RPeers                    (* [perf->uct.peers] / [perf->ucp.peers] *)
| REp (i : nat)             (* [peers[i].ep] *)
| RRkey (i : nat)           (* [peers[i].rkey] *)
| RMdResources              (* the list of [uct_query_md_resources] *)
| RMdConfig (i : nat)       (* the configuration read for memory domain [i] *)
| RMd (i : nat)             (* memory domain [i], opened *)
| RTlResources (i : nat)    (* the list of [uct_md_query_tl_resources] *)
| RAsync                    (* the async context *)
| RUctWorker                (* the UCT worker *)
| RIfaceConfig              (* an interface configuration *)
| RIface                    (* [perf->uct.iface] *)
| RUcpWorker                (* the worker structure *)
| RWorkerIfaces             (* the array [worker->ifaces] *)
| RIfaceAttrs               (* the array [worker->iface_attrs] *)
| RStats                    (* [worker->stats] *)
| RReqMpool                 (* [worker->req_mp] *)
| RIfaceWakeups             (* [wakeup->iface_wakeups] *)
| RFd (fd : Z)              (* an open file descriptor *)
| RWakeup (i : nat)         (* the wake-up handle of interface [i] *)
| RWorkerIface (i : nat).   (* [worker->ifaces[i]] *)

Global Instance resource_eq_dec : EqDecision resource.
Proof. solve_decision. Defined.

(** Take the newest [r] out of the resources held. *)
Fixpoint remove_first (r : resource) (held : list resource)
    : option (list resource) :=
  match held with
  | [] => None
  | x :: held' =>
      if decide (x = r) then Some held'
      else match remove_first r held' with
           | Some held'' => Some (x :: held'')
           | None => None
           end
  end.

(** Code over the resources held: it returns a value and the resources
    held afterwards, aborts, or faults. *)
Definition Res (A : Type) : Type := list resource → result (A * list resource).

Global Instance Res_ret : MRet Res := λ A a held, Ret (a, held).

Global Instance Res_bind : MBind Res := λ A B f m held,
  match m held with
  | Ret (a, held') => f a held'
  | Abort => Abort
  | Fault => Fault
  end.

Definition acquire (r : resource) : Res unit := λ held, Ret (tt, r :: held).

Definition release (r : resource) : Res unit := λ held,
  match remove_first r held with
  | Some held' => Ret (tt, held')
  | None => Fault
  end.

(** [free(p)], where [p] is [NULL] or points to [r]. *)
Definition free (non_null : bool) (r : resource) : Res unit :=
  if non_null then release r else mret tt.

(** [ucs_fatal] and a failing [ucs_assert_always]. *)
Definition fatal {A} : Res A := λ _, Abort.

(** ** Test buffers (libperf.c:91-162, 736-834) *)

Inductive ucp_perf_datatype_t : Set :=
| UCP_PERF_DATATYPE_CONTIG | UCP_PERF_DATATYPE_IOV.

Global Instance ucp_perf_datatype_eq_dec : EqDecision ucp_perf_datatype_t.
Proof. solve_decision. Defined.

(** What the allocating calls return: [uct_iface_mem_alloc] and
    [ucp_mem_map] for the buffer named, with the length and flags passed;
    [malloc] for the array named, with the size passed ([true] for a
    non-NULL pointer). *)
Record mem_oracle : Set := {
  o_uct_iface_mem_alloc : resource → Z → Z → ucs_status_t;
  o_ucp_mem_map : resource → Z → Z → ucs_status_t;
  o_malloc : resource → Z → bool
}.

Section PerfMemory.

Context {D : CDouble}.

(** Constants of libperf.h, uct.h and ucp.h, and the sizes of [uct_iov_t]
    and [ucp_dt_iov_t]. *)
Variable UCX_PERF_TEST_FLAG_MAP_NONBLOCK : Z.
Variable UCT_MD_MEM_FLAG_NONBLOCK : Z.
Variable UCP_MEM_MAP_NONBLOCK : Z.
Variable sizeof_uct_iov : Z.
Variable sizeof_ucp_dt_iov : Z.

(** The [buffer_size] of [uct_perf_test_alloc_mem]. *)
Definition uct_buffer_size (params : ucx_perf_params_t) : Z :=
  if decide (UCT_PERF_DATA_LAYOUT_ZCOPY = uct_data_layout params ∧
             iov_stride params ≠ 0)
  then (msg_size_cnt params * iov_stride params) `mod` 2 ^ 64
  else ucx_perf_get_message_size params.

(** [uct_perf_test_alloc_mem]; of the context it sets, the model keeps
    the three allocations. *)
Definition uct_perf_test_alloc_mem (o : mem_oracle) (params : ucx_perf_params_t)
    : Res ucs_status_t :=
  let buffer_size := uct_buffer_size params in
  let flags :=
    if decide (Z.land (flags params) UCX_PERF_TEST_FLAG_MAP_NONBLOCK ≠ 0)
    then UCT_MD_MEM_FLAG_NONBLOCK else 0 in
  let length := (buffer_size * thread_count params) `mod` 2 ^ 64 in
  (* Allocate send buffer memory *)
  let status := o_uct_iface_mem_alloc o RSendMem length flags in
  if decide (status ≠ UCS_OK) then mret status                    (* goto err *)
  else
    _ ← acquire RSendMem;
    (* Allocate receive buffer memory *)
    let status := o_uct_iface_mem_alloc o RRecvMem length flags in
    if decide (status ≠ UCS_OK) then
      _ ← release RSendMem; mret status                 (* goto err_free_send *)
    else
      _ ← acquire RRecvMem;
      (* Allocate IOV datatype memory *)
      if o_malloc o RIov
           ((sizeof_uct_iov * msg_size_cnt params * thread_count params)
              `mod` 2 ^ 64)
      then _ ← acquire RIov; mret UCS_OK
      else _ ← release RSendMem; mret UCS_ERR_NO_MEMORY. (* goto err_free_send *)

(** [uct_perf_test_free_mem]; [perf->uct.iov] is non-NULL once the
    allocation has succeeded. *)
Definition uct_perf_test_free_mem : Res unit :=
  _ ← release RSendMem;
  _ ← release RRecvMem;
  release RIov.

(** [ucp_perf_test_alloc_iov_mem]: the status and whether [*iov_p], NULL
    before the call, is set. *)
Definition ucp_perf_test_alloc_iov_mem (o : mem_oracle)
    (datatype : ucp_perf_datatype_t) (iovcnt thread_count : Z) (iov : resource)
    : Res (ucs_status_t * bool) :=
  if decide (UCP_PERF_DATATYPE_IOV = datatype) then
    if o_malloc o iov ((sizeof_ucp_dt_iov * iovcnt * thread_count) `mod` 2 ^ 64)
    then _ ← acquire iov; mret (UCS_OK, true)
    else mret (UCS_ERR_NO_MEMORY, false)
  else mret (UCS_OK, false).

(** The [buffer_size] of [ucp_perf_test_alloc_mem]. *)
Definition ucp_buffer_size (params : ucx_perf_params_t) : Z :=
  if decide (iov_stride params ≠ 0)
  then (msg_size_cnt params * iov_stride params) `mod` 2 ^ 64
  else ucx_perf_get_message_size params.

(** [ucp_perf_test_alloc_mem]; [send_datatype] and [recv_datatype] are
    [params->ucp.send_datatype] and [params->ucp.recv_datatype].  Returns
    the status and whether [perf->ucp.send_iov] and [perf->ucp.recv_iov]
    are set. *)
Definition ucp_perf_test_alloc_mem (o : mem_oracle) (params : ucx_perf_params_t)
    (send_datatype recv_datatype : ucp_perf_datatype_t)
    : Res (ucs_status_t * (bool * bool)) :=
  let buffer_size := ucp_buffer_size params in
  let length := (buffer_size * thread_count params) `mod` 2 ^ 64 in
  let flags :=
    if decide (Z.land (flags params) UCX_PERF_TEST_FLAG_MAP_NONBLOCK ≠ 0)
    then UCP_MEM_MAP_NONBLOCK else 0 in
  (* Allocate send buffer memory *)
  let status := o_ucp_mem_map o RSendMem length flags in
  if decide (status ≠ UCS_OK) then
    mret (UCS_ERR_NO_MEMORY, (false, false))                      (* goto err *)
  else
    _ ← acquire RSendMem;
    (* Allocate receive buffer memory *)
    let status := o_ucp_mem_map o RRecvMem length 0 in
    if decide (status ≠ UCS_OK) then
      (* goto err_free_send_buffer *)
      _ ← release RSendMem;
      mret (UCS_ERR_NO_MEMORY, (false, false))
    else
      _ ← acquire RRecvMem;
      (* Allocate IOV datatype memory *)
      '(status, send_iov) ←
        ucp_perf_test_alloc_iov_mem o send_datatype (msg_size_cnt params)
          (thread_count params) RSendIov;
      if decide (UCS_OK ≠ status) then
        (* goto err_free_buffers *)
        _ ← release RRecvMem;
        _ ← release RSendMem;
        mret (UCS_ERR_NO_MEMORY, (send_iov, false))
      else
        '(status, recv_iov) ←
          ucp_perf_test_alloc_iov_mem o recv_datatype (msg_size_cnt params)
            (thread_count params) RRecvIov;
        if decide (UCS_OK ≠ status) then
          (* goto err_free_send_iov_buffers *)
          _ ← free send_iov RSendIov;
          _ ← release RRecvMem;
          _ ← release RSendMem;
          mret (UCS_ERR_NO_MEMORY, (send_iov, recv_iov))
        else mret (UCS_OK, (send_iov, recv_iov)).

(** [ucp_perf_test_free_mem]. *)
Definition ucp_perf_test_free_mem (send_iov recv_iov : bool) : Res unit :=
  _ ← free recv_iov RRecvIov;
  _ ← free send_iov RSendIov;
  _ ← release RRecvMem;
  release RSendMem.

End PerfMemory.

(** Oracles for evaluation: every allocation succeeds; the IOV array
    cannot be allocated. *)
Definition example_mem_oracle : mem_oracle :=
  {| o_uct_iface_mem_alloc := λ _ _ _, UCS_OK;
     o_ucp_mem_map := λ _ _ _, UCS_OK;
     o_malloc := λ _ _, true |}.

Definition example_mem_oracle_no_iov : mem_oracle :=
  {| o_uct_iface_mem_alloc := λ _ _ _, UCS_OK;
     o_ucp_mem_map := λ _ _ _, UCS_OK;
     o_malloc := λ _ _, false |}.

(** A zero-copy test with three messages in slots of 1024 bytes. *)
Definition example_stride_params : ucx_perf_params_t :=
  {| api := UCX_PERF_API_UCT; command := UCX_PERF_CMD_PUT;
     test_type := UCX_PERF_TEST_TYPE_STREAM_UNI;
     thread_mode := UCS_THREAD_MODE_SINGLE; thread_count := 1; flags := 0;
     warmup_iter := 0; max_iter := 1000;
     max_time := inject_Z 0; report_interval := inject_Z 1;
     msg_size_list := [1024; 512; 8]; msg_size_cnt := 3; iov_stride := 1024;
     max_outstanding := 1; am_hdr_size := 8;
     uct_data_layout := UCT_PERF_DATA_LAYOUT_ZCOPY; uct_fc_window := 0 |}.

(** Two messages of 8 bytes in slots of 2^63 bytes. *)
Definition example_stride_wrap_params : ucx_perf_params_t :=
  {| api := UCX_PERF_API_UCT; command := UCX_PERF_CMD_PUT;
     test_type := UCX_PERF_TEST_TYPE_STREAM_UNI;
     thread_mode := UCS_THREAD_MODE_SINGLE; thread_count := 1; flags := 0;
     warmup_iter := 0; max_iter := 1000;
     max_time := inject_Z 0; report_interval := inject_Z 1;
     msg_size_list := [8; 8]; msg_size_cnt := 2; iov_stride := 2 ^ 63;
     max_outstanding := 1; am_hdr_size := 8;
     uct_data_layout := UCT_PERF_DATA_LAYOUT_ZCOPY; uct_fc_window := 0 |}.

(** ** Selecting the memory domain ([uct_perf_create_md],
    libperf.c:1015-1071) *)

(** One entry of the list of [uct_query_md_resources], with what the
    calls on it return: [uct_md_config_read], [uct_md_open],
    [uct_md_query_tl_resources] and the transport resources this lists,
    each a transport name and a device name. *)
Record md_resource_t : Set := {
  md_config_read : ucs_status_t;
  md_open : ucs_status_t;
  md_query_tl_resources : ucs_status_t;
  md_tl_resources : list (string * string)
}.

(** [for (j = 0; j < num_tl_resources; ++j) if (!strcmp(tl_name,
    tl_resources[j].tl_name) && !strcmp(dev_name,
    tl_resources[j].dev_name)) ...]: whether the loop finds the pair. *)
Fixpoint tl_resource_listed (tl_name dev_name : string)
    (tl_resources : list (string * string)) : bool :=
  match tl_resources with
  | [] => false
  | (tl, dev) :: rest =>
      if String.eqb tl_name tl && String.eqb dev_name dev then true
      else tl_resource_listed tl_name dev_name rest
  end.

(** [for (i = 0; i < num_md_resources; ++i) ...] from index [i] on: the
    status and [perf->uct.md], set when found. *)
Fixpoint create_md_loop (tl_name dev_name : string) (i : nat)
    (md_resources : list md_resource_t) : Res (ucs_status_t * option nat) :=
  match md_resources with
  | [] => mret (UCS_ERR_NO_DEVICE, None)
  | md :: rest =>
      let status := md_config_read md in
      if decide (status ≠ UCS_OK) then mret (status, None)
      else
        _ ← acquire (RMdConfig i);
        let status := md_open md in
        _ ← (if decide (status = UCS_OK) then acquire (RMd i) else mret tt);
        _ ← release (RMdConfig i);              (* [uct_config_release] *)
        if decide (status ≠ UCS_OK) then mret (status, None)
        else
          let status := md_query_tl_resources md in
          if decide (status ≠ UCS_OK) then
            _ ← release (RMd i);                (* [uct_md_close] *)
            mret (status, None)
          else
            _ ← acquire (RTlResources i);
            if tl_resource_listed tl_name dev_name (md_tl_resources md) then
              _ ← release (RTlResources i);
              mret (UCS_OK, Some i)
            else
              _ ← release (RMd i);
              _ ← release (RTlResources i);
              create_md_loop tl_name dev_name (S i) rest
  end.

(** [uct_perf_create_md]; [query] is the status of
    [uct_query_md_resources] and [md_resources] the list it returns. *)
Definition uct_perf_create_md (query : ucs_status_t)
    (md_resources : list md_resource_t) (tl_name dev_name : string)
    : Res (ucs_status_t * option nat) :=
  if decide (query ≠ UCS_OK) then mret (query, None)
  else
    _ ← acquire RMdResources;
    r ← create_md_loop tl_name dev_name 0 md_resources;
    _ ← release RMdResources;        (* out_release_md_resources *)
    mret r.

(** Three memory domains; the second and the third list the transport
    [rc] on the device [mlx5_0:1]. *)
Definition example_md_resources : list md_resource_t :=
  [ {| md_config_read := UCS_OK; md_open := UCS_OK;
       md_query_tl_resources := UCS_OK;
       md_tl_resources := [("tcp"%string, "eth0"%string); ("self"%string, "self"%string)] |};
    {| md_config_read := UCS_OK; md_open := UCS_OK;
       md_query_tl_resources := UCS_OK;
       md_tl_resources := [("ud"%string, "mlx5_0:1"%string); ("rc"%string, "mlx5_0:1"%string)] |};
    {| md_config_read := UCS_OK; md_open := UCS_OK;
       md_query_tl_resources := UCS_OK;
       md_tl_resources := [("rc"%string, "mlx5_0:1"%string)] |} ].

(** ** Endpoint set-up of the transport API
    ([uct_perf_test_setup_endpoints], [uct_perf_test_cleanup_endpoints],
    libperf.c:496-689) *)

(** One entry of [perf->uct.peers]: whether [ep] and [rkey.type] are
    non-NULL, and [rkey.rkey]. *)
Record uct_peer_t : Set := {
  p_ep : bool;
  p_rkey_type : bool;
  p_rkey : Z
}.

(** An entry as [calloc] leaves it. *)
Definition peer_zero : uct_peer_t :=
  {| p_ep := false; p_rkey_type := false; p_rkey := 0 |}.

(** What the allocator, the transport layer and the remote peers
    deliver.  A call that returns a status other than OK leaves its
    output as it was; [uct_ep_create] and [uct_ep_create_connected] store
    a non-NULL endpoint and [uct_rkey_unpack] a non-NULL [rkey.type] when
    they return OK. *)
Record uct_setup_oracle : Set := {
  u_malloc_buffer : bool;
  u_iface_query : ucs_status_t;
  u_iface_flags : Z;                 (* [iface_attr.cap.flags] *)
  u_device_addr_len : Z;
  u_iface_addr_len : Z;
  u_ep_addr_len : Z;
  u_md_query : ucs_status_t;
  u_md_flags : Z;                    (* [md_attr.cap.flags] *)
  u_rkey_packed_size : Z;
  u_get_device_address : ucs_status_t;
  u_iface_get_address : ucs_status_t;
  u_mkey_pack : ucs_status_t;
  u_calloc_peers : bool;
  u_ep_create : nat → ucs_status_t;
  u_ep_get_address : nat → ucs_status_t;
  u_remote_rkey_size : nat → Z;      (* [remote_info->rkey_size] of peer [i] *)
  u_rkey_unpack : nat → ucs_status_t;
  u_rkey_value : nat → Z;            (* the [rkey.rkey] that the unpack stores *)
  u_ep_connect_to_ep : nat → ucs_status_t;
  u_ep_create_connected : nat → ucs_status_t;
  u_flush_in_progress : nat          (* how often [uct_iface_flush] answers
                                        [UCS_INPROGRESS] before it completes *)
}.

Definition set_ep (p : uct_peer_t) : uct_peer_t :=
  {| p_ep := true; p_rkey_type := p_rkey_type p; p_rkey := p_rkey p |}.

Definition set_rkey (type : bool) (rkey : Z) (p : uct_peer_t) : uct_peer_t :=
  {| p_ep := p_ep p; p_rkey_type := type; p_rkey := rkey |}.

(** [uct_perf_iface_flush_b]: [do { status = uct_iface_flush(...);
    uct_worker_progress(...); } while (status == UCS_INPROGRESS)], on a
    flush that answers [UCS_INPROGRESS] for the first [in_progress] calls.
    The model covers the runs in which the flush completes. *)
Fixpoint uct_perf_iface_flush_b (in_progress : nat) : Res unit :=
  match in_progress with
  | O => mret tt
  | S in_progress' => uct_perf_iface_flush_b in_progress'
  end.

(** [err_destroy_eps: for (i = 0; i < group_size; ++i) { if
    (peers[i].rkey.type != NULL) uct_rkey_release(...); if (peers[i].ep
    != NULL) uct_ep_destroy(...); }] from index [i] on. *)
Fixpoint uct_destroy_eps (i : nat) (peers : list uct_peer_t) : Res unit :=
  match peers with
  | [] => mret tt
  | p :: rest =>
      _ ← (if p_rkey_type p then release (RRkey i) else mret tt);
      _ ← (if p_ep p then release (REp i) else mret tt);
      uct_destroy_eps (S i) rest
  end.

Section UctSetupEndpoints.

(** Constants of uct.h. *)
Variable UCT_MD_FLAG_ALLOC : Z.
Variable UCT_MD_FLAG_REG : Z.
Variable UCT_IFACE_FLAG_CONNECT_TO_IFACE : Z.
Variable UCT_IFACE_FLAG_CONNECT_TO_EP : Z.
Variable UCT_INVALID_RKEY : Z.

(** The first loop over the peers, taken when the interface connects
    endpoint to endpoint: create an endpoint and get its address. *)
Fixpoint uct_create_eps (o : uct_setup_oracle) (group_index : nat)
    (todo : list nat) (peers : list uct_peer_t)
    : Res (ucs_status_t * list uct_peer_t) :=
  match todo with
  | [] => mret (UCS_OK, peers)
  | i :: todo' =>
      if decide (i = group_index) then uct_create_eps o group_index todo' peers
      else
        let status := u_ep_create o i in
        if decide (status ≠ UCS_OK) then mret (status, peers)
        else
          _ ← acquire (REp i);
          let peers := alter set_ep i peers in
          let status := u_ep_get_address o i in
          if decide (status ≠ UCS_OK) then mret (status, peers)
          else uct_create_eps o group_index todo' peers
  end.

(** The second loop: receive the peer's addresses, unpack its remote key
    if it sent one, and connect. *)
Fixpoint uct_connect_peers (o : uct_setup_oracle) (to_ep to_iface : bool)
    (group_index : nat) (todo : list nat) (peers : list uct_peer_t)
    : Res (ucs_status_t * list uct_peer_t) :=
  match todo with
  | [] => mret (UCS_OK, peers)
  | i :: todo' =>
      if decide (i = group_index) then
        uct_connect_peers o to_ep to_iface group_index todo' peers
      else
        let connect (peers : list uct_peer_t) :=
          if to_ep then
            let status := u_ep_connect_to_ep o i in
            if decide (status ≠ UCS_OK) then mret (status, peers)
            else uct_connect_peers o to_ep to_iface group_index todo' peers
          else if to_iface then
            let status := u_ep_create_connected o i in
            if decide (status ≠ UCS_OK) then mret (status, peers)
            else
              _ ← acquire (REp i);
              uct_connect_peers o to_ep to_iface group_index todo'
                (alter set_ep i peers)
          else mret (UCS_ERR_UNSUPPORTED, peers) in
        if decide (u_remote_rkey_size o i > 0) then
          let status := u_rkey_unpack o i in
          if decide (status ≠ UCS_OK) then mret (status, peers)
          else
            _ ← acquire (RRkey i);
            connect (alter (set_rkey true (u_rkey_value o i)) i peers)
        else connect (alter (set_rkey false UCT_INVALID_RKEY) i peers)
  end.

(** [uct_perf_test_setup_endpoints]: the status and [perf->uct.peers]
    ([[]] while it is not allocated). *)
Definition uct_perf_test_setup_endpoints (o : uct_setup_oracle)
    (group_size group_index : nat) : Res (ucs_status_t * list uct_peer_t) :=
  let buffer_size := 2048 in
  if negb (u_malloc_buffer o) then mret (UCS_ERR_NO_MEMORY, [])   (* goto err *)
  else
    _ ← acquire RBuffer;
    let err_free (status : ucs_status_t) (peers : list uct_peer_t) :=
      _ ← release RBuffer; mret (status, peers) in
    let err_destroy_eps (status : ucs_status_t) (peers : list uct_peer_t) :=
      _ ← uct_destroy_eps 0 peers;
      _ ← release RPeers;
      err_free status peers in
    let status := u_iface_query o in
    if decide (status ≠ UCS_OK) then err_free status []
    else
      let status := u_md_query o in
      if decide (status ≠ UCS_OK) then err_free status []
      else
        let rkey_size :=
          if decide (Z.land (u_md_flags o)
                       (Z.lor UCT_MD_FLAG_ALLOC UCT_MD_FLAG_REG) ≠ 0)
          then u_rkey_packed_size o else 0 in
        let to_iface :=
          bool_decide (Z.land (u_iface_flags o) UCT_IFACE_FLAG_CONNECT_TO_IFACE ≠ 0) in
        let to_ep :=
          bool_decide (Z.land (u_iface_flags o) UCT_IFACE_FLAG_CONNECT_TO_EP ≠ 0) in
        (* ucs_assert_always(ep_addr + ep_addr_len <= buffer + buffer_size) *)
        if decide (rkey_size + u_device_addr_len o + u_iface_addr_len o
                   + u_ep_addr_len o > buffer_size) then fatal
        else
          let status := u_get_device_address o in
          if decide (status ≠ UCS_OK) then err_free status []
          else
            let status := if to_iface then u_iface_get_address o else status in
            if decide (status ≠ UCS_OK) then err_free status []
            else
              let status :=
                if decide (rkey_size > 0) then u_mkey_pack o else status in
              if decide (status ≠ UCS_OK) then err_free status []
              else if negb (u_calloc_peers o) then err_free status []
              else
                _ ← acquire RPeers;
                let peers := replicate group_size peer_zero in
                '(status, peers) ←
                  (if to_ep then
                     uct_create_eps o group_index (seq 0 group_size) peers
                   else mret (status, peers));
                if decide (status ≠ UCS_OK) then err_destroy_eps status peers
                else
                  '(status, peers) ←
                    uct_connect_peers o to_ep to_iface group_index
                      (seq 0 group_size) peers;
                  if decide (status ≠ UCS_OK) then err_destroy_eps status peers
                  else
                    _ ← uct_perf_iface_flush_b (u_flush_in_progress o);
                    _ ← release RBuffer;             (* free(buffer) *)
                    mret (UCS_OK, peers).

(** The loop of [uct_perf_test_cleanup_endpoints], from index [i] on. *)
Fixpoint uct_cleanup_peers (group_index : nat) (i : nat)
    (peers : list uct_peer_t) : Res unit :=
  match peers with
  | [] => mret tt
  | p :: rest =>
      _ ← (if decide (i ≠ group_index) then
             _ ← (if decide (p_rkey p ≠ UCT_INVALID_RKEY)
                  then release (RRkey i) else mret tt);
             if p_ep p then release (REp i) else mret tt
           else mret tt);
      uct_cleanup_peers group_index (S i) rest
  end.

(** [uct_perf_test_cleanup_endpoints]. *)
Definition uct_perf_test_cleanup_endpoints (group_index : nat)
    (peers : list uct_peer_t) : Res unit :=
  _ ← uct_cleanup_peers group_index 0 peers;
  release RPeers.

End UctSetupEndpoints.

(** An interface that connects endpoint to endpoint, a memory domain
    with remote keys of 16 bytes, and library calls that all succeed. *)
Definition example_uct_oracle : uct_setup_oracle :=
  {| u_malloc_buffer := true; u_iface_query := UCS_OK; u_iface_flags := 2;
     u_device_addr_len := 8; u_iface_addr_len := 8; u_ep_addr_len := 8;
     u_md_query := UCS_OK; u_md_flags := 3; u_rkey_packed_size := 16;
     u_get_device_address := UCS_OK; u_iface_get_address := UCS_OK;
     u_mkey_pack := UCS_OK; u_calloc_peers := true;
     u_ep_create := λ _, UCS_OK; u_ep_get_address := λ _, UCS_OK;
     u_remote_rkey_size := λ _, 16; u_rkey_unpack := λ _, UCS_OK;
     u_rkey_value := λ i, 100 + Z.of_nat i;
     u_ep_connect_to_ep := λ _, UCS_OK;
     u_ep_create_connected := λ _, UCS_OK;
     u_flush_in_progress := 2 |}.

(** The same, but the connection to peer 2 fails. *)
Definition example_uct_oracle_failing : uct_setup_oracle :=
  {| u_malloc_buffer := true; u_iface_query := UCS_OK; u_iface_flags := 2;
     u_device_addr_len := 8; u_iface_addr_len := 8; u_ep_addr_len := 8;
     u_md_query := UCS_OK; u_md_flags := 3; u_rkey_packed_size := 16;
     u_get_device_address := UCS_OK; u_iface_get_address := UCS_OK;
     u_mkey_pack := UCS_OK; u_calloc_peers := true;
     u_ep_create := λ _, UCS_OK; u_ep_get_address := λ _, UCS_OK;
     u_remote_rkey_size := λ _, 16; u_rkey_unpack := λ _, UCS_OK;
     u_rkey_value := λ i, 100 + Z.of_nat i;
     u_ep_connect_to_ep :=
       λ i, if decide (i = 2%nat) then UCS_ERR_IO_ERROR else UCS_OK;
     u_ep_create_connected := λ _, UCS_OK;
     u_flush_in_progress := 2 |}.

(** The endpoints and remote keys that the peer table says are held,
    and the resources [ours] being exactly those. *)
Definition table_holds (peers : list uct_peer_t) (r : resource) : Prop :=
  ∃ i p, peers !! i = Some p ∧
         ((r = REp i ∧ p_ep p = true) ∨ (r = RRkey i ∧ p_rkey_type p = true)).

Definition owns (ours : list resource) (peers : list uct_peer_t) : Prop :=
  NoDup ours ∧ ∀ r, r ∈ ours ↔ table_holds peers r.

(** [uct_rkey_unpack] stores a valid key whenever it returns OK. *)
Definition rkeys_valid (UCT_INVALID_RKEY : Z) (o : uct_setup_oracle) : Prop :=
  ∀ i : nat, u_rkey_unpack o i = UCS_OK → u_rkey_value o i ≠ UCT_INVALID_RKEY.

(** A table as [uct_perf_test_cleanup_endpoints] reads it: the entry of
    the caller holds nothing, and every other entry has a valid
    [rkey.rkey] exactly when it holds a remote key. *)
Definition table_consistent (UCT_INVALID_RKEY : Z) (group_index : nat)
    (peers : list uct_peer_t) : Prop :=
  ∀ i p, peers !! i = Some p →
    (i = group_index → p_ep p = false ∧ p_rkey_type p = false) ∧
    (i ≠ group_index → (p_rkey_type p = true ↔ p_rkey p ≠ UCT_INVALID_RKEY)).

(** As [example_uct_oracle], but the allocation of the peer table fails. *)
Definition example_uct_oracle_no_table : uct_setup_oracle :=
  {| u_malloc_buffer := true; u_iface_query := UCS_OK; u_iface_flags := 2;
     u_device_addr_len := 8; u_iface_addr_len := 8; u_ep_addr_len := 8;
     u_md_query := UCS_OK; u_md_flags := 3; u_rkey_packed_size := 16;
     u_get_device_address := UCS_OK; u_iface_get_address := UCS_OK;
     u_mkey_pack := UCS_OK; u_calloc_peers := false;
     u_ep_create := λ _, UCS_OK; u_ep_get_address := λ _, UCS_OK;
     u_remote_rkey_size := λ _, 16; u_rkey_unpack := λ _, UCS_OK;
     u_rkey_value := λ i, 100 + Z.of_nat i;
     u_ep_connect_to_ep := λ _, UCS_OK;
     u_ep_create_connected := λ _, UCS_OK;
     u_flush_in_progress := 2 |}.

(** ** The UCT test context (libperf.c:1073-1154) *)

(** What the calls of [uct_perf_setup] answer: the statuses of the
    library calls, the list of memory domains, what [uct_iface_query]
    returns and writes inside [uct_perf_test_check_capabilities], the
    allocations, the calls of the endpoint set-up, and the group size and
    index of the rendezvous. *)
Record uct_perf_oracle : Type := {
  s_async_context_init : ucs_status_t;
  s_worker_create : ucs_status_t;
  s_query_md_resources : ucs_status_t;
  s_md_resources : list md_resource_t;
  s_iface_config_read : ucs_status_t;
  s_iface_open : ucs_status_t;
  s_iface_query : ucs_status_t * uct_iface_attr_t;
  s_mem : mem_oracle;
  s_endpoints : uct_setup_oracle;
  s_group_size : nat;
  s_group_index : nat
}.

(** [uct_md_close(perf->uct.md)]; [perf->uct.md] is set by
    [uct_perf_create_md] only. *)
Definition uct_md_close (md : option nat) : Res unit :=
  match md with
  | Some m => release (RMd m)
  | None => λ _, Fault
  end.

Section UctPerfSetup.

Context {D : CDouble} {F : UctIfaceFlags}.

Variable UCT_PERF_TEST_MAX_FC_WINDOW : Z.
Variable UCX_PERF_TEST_FLAG_MAP_NONBLOCK : Z.
Variable UCT_MD_MEM_FLAG_NONBLOCK : Z.
Variable sizeof_uct_iov : Z.
Variable UCT_MD_FLAG_ALLOC : Z.
Variable UCT_MD_FLAG_REG : Z.
Variable UCT_IFACE_FLAG_CONNECT_TO_IFACE : Z.
Variable UCT_IFACE_FLAG_CONNECT_TO_EP : Z.
Variable UCT_INVALID_RKEY : Z.

(** [uct_perf_setup]; [tl_name] and [dev_name] are [params->uct.tl_name]
    and [params->uct.dev_name].  Returns the status, [perf->uct.md] and
    [perf->uct.peers]. *)
Definition uct_perf_setup (o : uct_perf_oracle) (tl_name dev_name : string)
    (params : ucx_perf_params_t)
    : Res (ucs_status_t * (option nat * list uct_peer_t)) :=
  let out (status : ucs_status_t) (md : option nat) (peers : list uct_peer_t)
      : Res (ucs_status_t * (option nat * list uct_peer_t)) :=
    mret (status, (md, peers)) in
  let out_cleanup_async status md peers :=
    _ ← release RAsync; out status md peers in
  let out_destroy_worker status md peers :=
    _ ← release RUctWorker; out_cleanup_async status md peers in
  let out_destroy_md status md peers :=
    _ ← uct_md_close md; out_destroy_worker status md peers in
  let out_iface_close status md peers :=
    _ ← release RIface; out_destroy_md status md peers in
  let out_free_mem status md peers :=
    _ ← uct_perf_test_free_mem; out_iface_close status md peers in
  let status := s_async_context_init o in
  if decide (status ≠ UCS_OK) then out status None []
  else
    _ ← acquire RAsync;
    let status := s_worker_create o in
    if decide (status ≠ UCS_OK) then out_cleanup_async status None []
    else
      _ ← acquire RUctWorker;
      '(status, md) ← uct_perf_create_md (s_query_md_resources o)
                        (s_md_resources o) tl_name dev_name;
      if decide (status ≠ UCS_OK) then out_destroy_worker status md []
      else
        let status := s_iface_config_read o in
        if decide (status ≠ UCS_OK) then out_destroy_md status md []
        else
          _ ← acquire RIfaceConfig;
          let status := s_iface_open o in
          _ ← (if decide (status = UCS_OK) then acquire RIface else mret tt);
          _ ← release RIfaceConfig;          (* uct_config_release *)
          if decide (status ≠ UCS_OK) then out_destroy_md status md []
          else
            match uct_perf_test_check_capabilities UCT_PERF_TEST_MAX_FC_WINDOW
                    params (s_iface_query o) with
            | None => λ _, Fault
            | Some status =>
                if decide (status ≠ UCS_OK) then out_iface_close status md []
                else
                  status ← uct_perf_test_alloc_mem
                             UCX_PERF_TEST_FLAG_MAP_NONBLOCK
                             UCT_MD_MEM_FLAG_NONBLOCK sizeof_uct_iov
                             (s_mem o) params;
                  if decide (status ≠ UCS_OK) then out_iface_close status md []
                  else
                    '(status, peers) ←
                      uct_perf_test_setup_endpoints UCT_MD_FLAG_ALLOC
                        UCT_MD_FLAG_REG UCT_IFACE_FLAG_CONNECT_TO_IFACE
                        UCT_IFACE_FLAG_CONNECT_TO_EP UCT_INVALID_RKEY
                        (s_endpoints o) (s_group_size o) (s_group_index o);
                    if decide (status ≠ UCS_OK) then out_free_mem status md peers
                    else out UCS_OK md peers
            end.

(** [uct_perf_cleanup], on a context whose peer table is allocated. *)
Definition uct_perf_cleanup (group_index : nat) (md : option nat)
    (peers : list uct_peer_t) : Res unit :=
  _ ← uct_perf_test_cleanup_endpoints UCT_INVALID_RKEY group_index peers;
  _ ← uct_perf_test_free_mem;
  _ ← release RIface;
  _ ← uct_md_close md;
  _ ← release RUctWorker;
  release RAsync.

End UctPerfSetup.

(** A set-up in which every call succeeds: the atomic test of
    [example_atomic_params] on the interface [example_attr], among four
    processes. *)
Definition example_uct_perf_oracle : uct_perf_oracle :=
  {| s_async_context_init := UCS_OK; s_worker_create := UCS_OK;
     s_query_md_resources := UCS_OK; s_md_resources := example_md_resources;
     s_iface_config_read := UCS_OK; s_iface_open := UCS_OK;
     s_iface_query := (UCS_OK, example_attr);
     s_mem := example_mem_oracle; s_endpoints := example_uct_oracle;
     s_group_size := 4; s_group_index := 1 |}.

(** ** The life of a worker (ucp_worker.c:33-107, 122-284, 458-622, 655-708)

    [ucp_worker_create], [ucp_worker_get_efd] and [ucp_worker_destroy]
    seen from the resources they hold.  The values a worker is given are
    those of [ucp_worker_create] above; here the model follows the calls
    that acquire and release, and every path between them.  The lock of
    the worker and its endpoint hash live inside the worker structure and
    are no resources of their own; a worker that is destroyed has no
    endpoints left in its hash. *)

(** [ucp_worker_wakeup_t]; of each wake-up handle, whether it is set. *)
Record ucp_worker_wakeup_t : Set := {
  iface_wakeups : list bool;
  wakeup_pipe : Z * Z;
  wakeup_efd : Z
}.

(** What the calls made for a worker answer; the calls made for a
    transport resource take its index. *)
Record worker_oracle : Set := {
  k_calloc_worker : bool;
  k_calloc_ifaces : bool;
  k_calloc_iface_attrs : bool;
  k_stats_node_alloc : ucs_status_t;
  k_calloc_iface_wakeups : bool;
  k_pipe : option (Z * Z);          (* the two descriptors, or a failure *)
  k_fcntl_modfl : Z → ucs_status_t;
  k_async_context_init : ucs_status_t;
  k_uct_worker_create : ucs_status_t;
  k_mpool_init : ucs_status_t;
  k_iface_config_read : nat → ucs_status_t;
  k_iface_open : nat → ucs_status_t;
  k_iface_query : nat → ucs_status_t;
  k_iface_flags : nat → Z;          (* [attr->cap.flags] *)
  k_set_am_handler : nat → nat → ucs_status_t;
  k_set_am_tracer : nat → ucs_status_t;
  k_wakeup_open : nat → ucs_status_t;
  k_wakeup_efd_get : nat → ucs_status_t * Z;
  k_epoll_ctl_add : Z → Z → bool;   (* [epoll_ctl(..) != -1] *)
  k_epoll_create : Z                (* the descriptor, or -1 *)
}.

Module WorkerLife.

Section WorkerLife.

Context {F : UctIfaceFlags} {U : UcpFeatures}.

(** Constants of uct.h. *)
Variable UCT_IFACE_FLAG_WAKEUP : Z.
Variable UCT_AM_CB_FLAG_SYNC : Z.
Variable UCT_AM_CB_FLAG_ASYNC : Z.

(** [ucp_am_handlers] (defined by the protocols, outside the two files):
    for each active message id below [UCP_AM_ID_LAST], the features it
    serves and the flags of its callback. *)
Variable ucp_am_handlers : list (Z * Z).

(** The loop of [ucp_worker_set_am_handlers] from [am_id] on: the status,
    and the handlers registered as [(am_id, flags)]. *)
Fixpoint set_am_handlers_from (o : worker_oracle) (features iface_flags : Z)
    (tl_id am_id : nat) (handlers : list (Z * Z))
    : ucs_status_t * list (nat * Z) :=
  match handlers with
  | [] => (UCS_OK, [])
  | (h_features, h_flags) :: rest =>
      if decide (Z.land features h_features = 0) then
        set_am_handlers_from o features iface_flags tl_id (S am_id) rest
      else if decide (Z.land h_flags UCT_AM_CB_FLAG_SYNC ≠ 0 ∧
                      Z.land iface_flags UCT_IFACE_FLAG_AM_CB_SYNC = 0) then
        set_am_handlers_from o features iface_flags tl_id (S am_id) rest
      else
        let status := k_set_am_handler o tl_id am_id in
        if decide (status ≠ UCS_OK) then (status, [])
        else
          let '(status, registered) :=
            set_am_handlers_from o features iface_flags tl_id (S am_id) rest in
          (status, (am_id, h_flags) :: registered)
  end.

(** [ucp_worker_set_am_handlers] on the interface of resource [tl_id]. *)
Definition ucp_worker_set_am_handlers (o : worker_oracle) (ctx : ucp_context_t)
    (tl_id : nat) (iface_flags : Z) : ucs_status_t * list (nat * Z) :=
  set_am_handlers_from o (features ctx) iface_flags tl_id 0 ucp_am_handlers.

(** The inner loop of [ucp_worker_remove_am_handlers]: the ids for which
    the stub is registered, from [am_id] on. *)
Fixpoint stub_am_ids (features : Z) (am_id : nat) (handlers : list (Z * Z))
    : list nat :=
  match handlers with
  | [] => []
  | (h_features, _) :: rest =>
      if decide (Z.land features h_features ≠ 0)
      then am_id :: stub_am_ids features (S am_id) rest
      else stub_am_ids features (S am_id) rest
  end.

(** [ucp_worker_remove_am_handlers]: the calls of
    [uct_iface_set_am_handler] it makes, as [(tl_id, am_id, flags)]; the
    callback of each is [ucp_stub_am_handler]. *)
Definition ucp_worker_remove_am_handlers (ctx : ucp_context_t)
    : list (nat * nat * Z) :=
  tl_id ← seq 0 (Z.to_nat (num_tls ctx));
  am_id ← stub_am_ids (features ctx) 0 ucp_am_handlers;
  [(tl_id, am_id, UCT_AM_CB_FLAG_ASYNC)].

(** [ucp_worker_wakeup_add_fd]. *)
Definition ucp_worker_wakeup_add_fd (o : worker_oracle) (epoll_fd wakeup_fd : Z)
    : ucs_status_t :=
  if k_epoll_ctl_add o epoll_fd wakeup_fd then UCS_OK else UCS_ERR_IO_ERROR.

(** [ucp_worker_wakeup_context_init]: the status and, on OK, the wake-up
    context. *)
Definition ucp_worker_wakeup_context_init (o : worker_oracle) (num_tls : nat)
    : Res (ucs_status_t * option ucp_worker_wakeup_t) :=
  if negb (k_calloc_iface_wakeups o) then mret (UCS_ERR_NO_MEMORY, None)
  else
    _ ← acquire RIfaceWakeups;
    match k_pipe o with
    | None =>
        _ ← release RIfaceWakeups;                        (* free_handles *)
        mret (UCS_ERR_IO_ERROR, None)
    | Some (pipe0, pipe1) =>
        _ ← acquire (RFd pipe0);
        _ ← acquire (RFd pipe1);
        let pipe_cleanup (status : ucs_status_t) :=
          _ ← release (RFd pipe0);
          _ ← release (RFd pipe1);
          _ ← release RIfaceWakeups;
          mret (status, None) in
        let status := k_fcntl_modfl o pipe0 in
        if decide (status ≠ UCS_OK) then pipe_cleanup status
        else
          let status := k_fcntl_modfl o pipe1 in
          if decide (status ≠ UCS_OK) then pipe_cleanup status
          else
            mret (UCS_OK,
                  Some {| iface_wakeups := replicate num_tls false;
                          wakeup_pipe := (pipe0, pipe1);
                          wakeup_efd := -1 |})
    end.

(** [ucp_worker_wakeup_context_cleanup]. *)
Definition ucp_worker_wakeup_context_cleanup (wakeup : ucp_worker_wakeup_t)
    : Res unit :=
  _ ← (if decide (wakeup_efd wakeup ≠ -1)
       then release (RFd (wakeup_efd wakeup)) else mret tt);
  _ ← release RIfaceWakeups;
  _ ← release (RFd (fst (wakeup_pipe wakeup)));
  release (RFd (snd (wakeup_pipe wakeup))).

(** [ucp_worker_add_iface]: the status and, on OK, whether a wake-up
    handle is stored beside the interface. *)
Definition ucp_worker_add_iface (o : worker_oracle) (ctx : ucp_context_t)
    (efd : Z) (tl_id : nat) : Res (ucs_status_t * option bool) :=
  let status := k_iface_config_read o tl_id in
  if decide (status ≠ UCS_OK) then mret (status, None)
  else
    _ ← acquire RIfaceConfig;
    (* Open UCT interface *)
    let status := k_iface_open o tl_id in
    _ ← (if decide (status = UCS_OK) then acquire (RWorkerIface tl_id)
         else mret tt);
    _ ← release RIfaceConfig;
    if decide (status ≠ UCS_OK) then mret (status, None)
    else
      let status := k_iface_query o tl_id in
      if decide (status ≠ UCS_OK) then mret (status, None)         (* goto out *)
      else
        let flags := k_iface_flags o tl_id in
        let out_close_iface (status : ucs_status_t)
            : Res (ucs_status_t * option bool) :=
          _ ← release (RWorkerIface tl_id); mret (status, None) in
        let out_close_wakeup (status : ucs_status_t) :=
          _ ← release (RWakeup tl_id); out_close_iface status in
        (* Set active message handlers for tag matching *)
        let am_status :=
          if decide (Z.land flags
                       (Z.lor (Z.lor UCT_IFACE_FLAG_AM_SHORT
                                 UCT_IFACE_FLAG_AM_BCOPY)
                              UCT_IFACE_FLAG_AM_ZCOPY) ≠ 0) then
            let status := fst (ucp_worker_set_am_handlers o ctx tl_id flags) in
            if decide (status ≠ UCS_OK) then status
            else k_set_am_tracer o tl_id
          else status in
        if decide (am_status ≠ UCS_OK) then out_close_iface am_status
        else
          (* Set wake-up handlers *)
          if decide (Z.land flags UCT_IFACE_FLAG_WAKEUP ≠ 0) then
            let status := k_wakeup_open o tl_id in
            if decide (status ≠ UCS_OK) then out_close_iface status
            else
              _ ← acquire (RWakeup tl_id);
              if decide (efd ≠ -1) then
                let '(status, wakeup_fd) := k_wakeup_efd_get o tl_id in
                if decide (status ≠ UCS_OK) then out_close_wakeup status
                else
                  let status := ucp_worker_wakeup_add_fd o efd wakeup_fd in
                  if decide (status ≠ UCS_OK) then out_close_wakeup status
                  else mret (UCS_OK, Some true)
              else mret (UCS_OK, Some true)
          else mret (UCS_OK, Some false).

(** [ucp_worker_close_ifaces], from resource [rsc_index] on. *)
Fixpoint ucp_worker_close_ifaces (rsc_index : nat) (ifaces wakeups : list bool)
    : Res unit :=
  match ifaces, wakeups with
  | iface :: ifaces', wakeup :: wakeups' =>
      _ ← (if iface then
             _ ← (if wakeup then release (RWakeup rsc_index) else mret tt);
             release (RWorkerIface rsc_index)
           else mret tt);
      ucp_worker_close_ifaces (S rsc_index) ifaces' wakeups'
  | _, _ => mret tt
  end.

(** The loop of [ucp_worker_create] that opens the interfaces: the
    status, [worker->ifaces] and [worker->wakeup.iface_wakeups]. *)
Fixpoint add_ifaces (o : worker_oracle) (ctx : ucp_context_t) (efd : Z)
    (todo : list nat) (ifaces wakeups : list bool)
    : Res (ucs_status_t * (list bool * list bool)) :=
  match todo with
  | [] => mret (UCS_OK, (ifaces, wakeups))
  | tl_id :: todo' =>
      '(status, stored) ← ucp_worker_add_iface o ctx efd tl_id;
      match stored with
      | Some wakeup =>
          add_ifaces o ctx efd todo'
            (<[tl_id := true]> ifaces) (<[tl_id := wakeup]> wakeups)
      | None => mret (status, (ifaces, wakeups))
      end
  end.

(** [ucp_worker_init_atomic_tls] as [ucp_worker_create] sees it: it
    acquires nothing, and it is fatal when atomics are requested with an
    atomic mode outside the three of the [switch].  The mask it computes
    is that of [ucp_worker_init_atomic_tls] above. *)
Definition select_atomic_resources (ctx : ucp_context_t) : Res unit :=
  if decide (Z.land (features ctx)
               (Z.lor UCP_FEATURE_AMO32 UCP_FEATURE_AMO64) ≠ 0) then
    match atomic_mode ctx with
    | UCP_ATOMIC_MODE_CPU | UCP_ATOMIC_MODE_DEVICE | UCP_ATOMIC_MODE_GUESS =>
        mret tt
    | _ => fatal                        (* "unsupported atomic mode" *)
    end
  else mret tt.

(** [ucp_worker_create]: the status and, on OK, [worker->ifaces] and
    [worker->wakeup]. *)
Definition ucp_worker_create (o : worker_oracle) (ctx : ucp_context_t)
    : Res (ucs_status_t * option (list bool * ucp_worker_wakeup_t)) :=
  let n := Z.to_nat (num_tls ctx) in
  if negb (k_calloc_worker o) then mret (UCS_ERR_NO_MEMORY, None)
  else
    _ ← acquire RUcpWorker;
    let err_free (status : ucs_status_t)
        : Res (ucs_status_t * option (list bool * ucp_worker_wakeup_t)) :=
      _ ← release RUcpWorker; mret (status, None) in
    let err_free_ifaces status :=
      _ ← release RWorkerIfaces; err_free status in
    let err_free_attrs status :=
      _ ← release RIfaceAttrs; err_free_ifaces status in
    let err_free_stats status :=
      _ ← release RStats; err_free_attrs status in
    let err_free_wakeup wakeup status :=
      _ ← ucp_worker_wakeup_context_cleanup wakeup; err_free_stats status in
    let err_destroy_async wakeup status :=
      _ ← release RAsync; err_free_wakeup wakeup status in
    let err_destroy_uct_worker wakeup status :=
      _ ← release RUctWorker; err_destroy_async wakeup status in
    let err_close_ifaces ifaces wakeup status :=
      _ ← ucp_worker_close_ifaces 0 ifaces (iface_wakeups wakeup);
      _ ← release RReqMpool;
      err_destroy_uct_worker wakeup status in
    if negb (k_calloc_ifaces o) then err_free UCS_ERR_NO_MEMORY
    else
      _ ← acquire RWorkerIfaces;
      if negb (k_calloc_iface_attrs o) then err_free_ifaces UCS_ERR_NO_MEMORY
      else
        _ ← acquire RIfaceAttrs;
        (* Create statistics *)
        let status := k_stats_node_alloc o in
        if decide (status ≠ UCS_OK) then err_free_attrs status
        else
          _ ← acquire RStats;
          '(status, wakeup) ← ucp_worker_wakeup_context_init o n;
          match wakeup with
          | None => err_free_stats status
          | Some wakeup =>
              let status := k_async_context_init o in
              if decide (status ≠ UCS_OK) then err_free_wakeup wakeup status
              else
                _ ← acquire RAsync;
                (* Create the underlying UCT worker *)
                let status := k_uct_worker_create o in
                if decide (status ≠ UCS_OK) then err_destroy_async wakeup status
                else
                  _ ← acquire RUctWorker;
                  (* Create memory pool for requests *)
                  let status := k_mpool_init o in
                  if decide (status ≠ UCS_OK) then
                    err_destroy_uct_worker wakeup status
                  else
                    _ ← acquire RReqMpool;
                    (* Open all resources as interfaces on this worker *)
                    '(status, (ifaces, wakeups)) ←
                      add_ifaces o ctx (wakeup_efd wakeup) (seq 0 n)
                        (replicate n false) (iface_wakeups wakeup);
                    let wakeup :=
                      {| iface_wakeups := wakeups;
                         wakeup_pipe := wakeup_pipe wakeup;
                         wakeup_efd := wakeup_efd wakeup |} in
                    if decide (status ≠ UCS_OK) then
                      err_close_ifaces ifaces wakeup status
                    else
                      (* Select atomic resources *)
                      _ ← select_atomic_resources ctx;
                      mret (UCS_OK, Some (ifaces, wakeup))
          end.

(** [ucp_worker_destroy]. *)
Definition ucp_worker_destroy (ifaces : list bool)
    (wakeup : ucp_worker_wakeup_t) : Res unit :=
  _ ← ucp_worker_close_ifaces 0 ifaces (iface_wakeups wakeup);
  _ ← release RReqMpool;
  _ ← release RUctWorker;
  _ ← release RAsync;
  _ ← ucp_worker_wakeup_context_cleanup wakeup;
  _ ← release RIfaceAttrs;
  _ ← release RWorkerIfaces;
  _ ← release RStats;
  release RUcpWorker.

(** The loop of [ucp_worker_get_efd] over the wake-up handles, from
    resource [tl_id] on. *)
Fixpoint add_wakeup_fds (o : worker_oracle) (res_fd : Z) (tl_id : nat)
    (wakeups : list bool) : ucs_status_t :=
  match wakeups with
  | [] => UCS_OK
  | wakeup :: rest =>
      if wakeup then
        let '(status, tl_fd) := k_wakeup_efd_get o tl_id in
        if decide (status ≠ UCS_OK) then status
        else
          let status := ucp_worker_wakeup_add_fd o res_fd tl_fd in
          if decide (status ≠ UCS_OK) then status
          else add_wakeup_fds o res_fd (S tl_id) rest
      else add_wakeup_fds o res_fd (S tl_id) rest
  end.

(** [ucp_worker_get_efd]: the status, [*fd] when it is written, and the
    wake-up context as the call leaves it. *)
Definition ucp_worker_get_efd (o : worker_oracle) (wakeup : ucp_worker_wakeup_t)
    : Res (ucs_status_t * option Z * ucp_worker_wakeup_t) :=
  if decide (wakeup_efd wakeup ≠ -1) then
    mret (UCS_OK, Some (wakeup_efd wakeup), wakeup)
  else
    let res_fd := k_epoll_create o in
    if decide (res_fd = -1) then mret (UCS_ERR_IO_ERROR, None, wakeup)
    else
      _ ← acquire (RFd res_fd);
      let epoll_cleanup (status : ucs_status_t)
          : Res (ucs_status_t * option Z * ucp_worker_wakeup_t) :=
        _ ← release (RFd res_fd); mret (status, None, wakeup) in
      let status :=
        ucp_worker_wakeup_add_fd o res_fd (fst (wakeup_pipe wakeup)) in
      if decide (status ≠ UCS_OK) then epoll_cleanup status
      else
        let status := add_wakeup_fds o res_fd 0 (iface_wakeups wakeup) in
        if decide (status ≠ UCS_OK) then epoll_cleanup status
        else
          mret (UCS_OK, Some res_fd,
                {| iface_wakeups := iface_wakeups wakeup;
                   wakeup_pipe := wakeup_pipe wakeup;
                   wakeup_efd := res_fd |}).

End WorkerLife.

End WorkerLife.

(** The interfaces and wake-up handles that the tables of a worker say
    are held, and the resources [ours] being exactly those. *)
Definition worker_holds (ifaces wakeups : list bool) (r : resource) : Prop :=
  ∃ i, ifaces !! i = Some true ∧
       (r = RWorkerIface i ∨ (r = RWakeup i ∧ wakeups !! i = Some true)).

Definition worker_owns (ours : list resource) (ifaces wakeups : list bool)
    : Prop :=
  NoDup ours ∧ ∀ r, r ∈ ours ↔ worker_holds ifaces wakeups r.

(** What a worker holds beside its interfaces once [ucp_worker_create]
    has returned OK, newest first. *)
Definition worker_base (pipe : Z * Z) (held : list resource) : list resource :=
  RReqMpool :: RUctWorker :: RAsync :: RFd (snd pipe) :: RFd (fst pipe)
    :: RIfaceWakeups :: RStats :: RIfaceAttrs :: RWorkerIfaces :: RUcpWorker
    :: held.

(** Library calls that all succeed, on two interfaces with active
    messages of which the first can wake the worker up. *)
Definition example_worker_oracle : worker_oracle :=
  {| k_calloc_worker := true; k_calloc_ifaces := true;
     k_calloc_iface_attrs := true; k_stats_node_alloc := UCS_OK;
     k_calloc_iface_wakeups := true; k_pipe := Some (3, 4);
     k_fcntl_modfl := λ _, UCS_OK;
     k_async_context_init := UCS_OK; k_uct_worker_create := UCS_OK;
     k_mpool_init := UCS_OK;
     k_iface_config_read := λ _, UCS_OK; k_iface_open := λ _, UCS_OK;
     k_iface_query := λ _, UCS_OK;
     k_iface_flags :=
       λ tl_id, if decide (tl_id = 0%nat) then 2 ^ 0 + 2 ^ 3 + 2 ^ 20
                else 2 ^ 1;
     k_set_am_handler := λ _ _, UCS_OK; k_set_am_tracer := λ _, UCS_OK;
     k_wakeup_open := λ _, UCS_OK;
     k_wakeup_efd_get := λ tl_id, (UCS_OK, 10 + Z.of_nat tl_id);
     k_epoll_ctl_add := λ _ _, true; k_epoll_create := 5 |}.

(** Three active message ids: a synchronous handler of the tag protocol,
    and asynchronous handlers of the RMA and the 32-bit atomic protocol. *)
Definition example_am_handlers : list (Z * Z) := [(2 ^ 0, 1); (2 ^ 1, 2); (2 ^ 2, 2)].

(** * Part II: properties of the embedded code *)

(** ** Facts about the array layer *)

Section ArrayFacts.

Implicit Types (arr : list Z) (i j a b : Z).

Lemma lookup_at arr i : 0 ≤ i < len arr → arr !! Z.to_nat i = Some arr.[i].
Proof.
  intros [H0 Hn]. unfold at_, len in *.
  destruct (nth_lookup_or_length arr (Z.to_nat i) 0) as [->|]; [done|lia].
Qed.

Lemma rd_in arr i : 0 ≤ i < len arr → rd arr i = Some arr.[i].
Proof.
  intros Hi. unfold rd. rewrite decide_True by lia. by apply lookup_at.
Qed.

Lemma rd_Some arr i v : rd arr i = Some v → 0 ≤ i < len arr ∧ arr.[i] = v.
Proof.
  unfold rd, at_, len. destruct (decide (0 ≤ i)); [|done].
  intros Hl. pose proof (lookup_lt_Some _ _ _ Hl).
  split; [lia|]. by apply nth_lookup_Some.
Qed.

Lemma wr_in arr i v :
  0 ≤ i < len arr → wr arr i v = Some (<[Z.to_nat i := v]> arr).
Proof. intros Hi. unfold wr. by rewrite rd_in. Qed.

Lemma len_insert arr (k : nat) v : len (<[k := v]> arr) = len arr.
Proof. unfold len. by rewrite length_insert. Qed.

Lemma at_insert arr i j v :
  0 ≤ i < len arr → 0 ≤ j →
  (<[Z.to_nat i := v]> arr).[j] = if decide (j = i) then v else arr.[j].
Proof.
  intros Hi Hj. unfold at_, len in *. rewrite !nth_lookup.
  destruct (decide (j = i)) as [->|Hne].
  - rewrite list_lookup_insert_eq; [done|lia].
  - rewrite list_lookup_insert_ne; [done|lia].
Qed.

End ArrayFacts.

Section FrameFacts.

Implicit Types (arr : list Z) (lo hi a b : Z).

Lemma frame_refl lo hi arr : frame lo hi arr arr.
Proof. repeat split; [done..|]. intros j ? ?. by exists j. Qed.

Lemma frame_trans lo hi arr1 arr2 arr3 :
  frame lo hi arr1 arr2 → frame lo hi arr2 arr3 → frame lo hi arr1 arr3.
Proof.
  intros (L1 & P1 & O1 & I1) (L2 & P2 & O2 & I2). repeat split.
  - congruence.
  - by etrans.
  - intros i Hi Hout. rewrite O2, O1; [done..|lia|done].
  - intros j Hj Hin.
    destruct (I2 j) as (j2 & ? & ? & ->); [lia|done|].
    destruct (I1 j2) as (j1 & ? & ? & ->); [lia|done|].
    by exists j1.
Qed.

Lemma frame_weaken lo hi lo' hi' arr arr' :
  lo' ≤ lo → hi ≤ hi' → frame lo hi arr arr' → frame lo' hi' arr arr'.
Proof.
  intros Hlo Hhi (L & P & O & I). repeat split; [done..| |].
  - intros i Hi Hout. apply O; [done|lia].
  - intros j Hj Hin. destruct (decide (lo ≤ j ≤ hi)) as [Hj'|Hj'].
    + destruct (I j) as (j' & ? & ? & ?); [done..|]. exists j'. repeat split; [lia..|done].
    + exists j. rewrite O by done. repeat split; lia.
Qed.

(** What [ELEM_SWAP] computes. *)
Lemma ELEM_SWAP_spec arr a b :
  0 ≤ a < len arr → 0 ≤ b < len arr →
  ∃ arr', ELEM_SWAP arr a b = Some arr' ∧
          len arr' = len arr ∧
          arr' ≡ₚ arr ∧
          ∀ i, 0 ≤ i < len arr →
               arr'.[i] = if decide (i = b) then arr.[a]
                          else if decide (i = a) then arr.[b] else arr.[i].
Proof.
  intros Ha Hb. unfold ELEM_SWAP.
  rewrite (rd_in arr a), (rd_in arr b) by done. simpl.
  rewrite wr_in by done. simpl.
  rewrite wr_in by (rewrite len_insert; done).
  eexists; split; [done|]. split; [by rewrite !len_insert|]. split.
  - apply Permutation_insert_swap; by apply lookup_at.
  - intros i Hi. rewrite at_insert by (rewrite ?len_insert; lia).
    destruct (decide (i = b)); [done|].
    by rewrite at_insert by lia.
Qed.

Lemma ELEM_SWAP_frame lo hi arr a b :
  0 ≤ a < len arr → 0 ≤ b < len arr → lo ≤ a ≤ hi → lo ≤ b ≤ hi →
  ∃ arr', ELEM_SWAP arr a b = Some arr' ∧
          frame lo hi arr arr' ∧
          ∀ i, 0 ≤ i < len arr →
               arr'.[i] = if decide (i = b) then arr.[a]
                          else if decide (i = a) then arr.[b] else arr.[i].
Proof.
  intros Ha Hb Hla Hlb.
  destruct (ELEM_SWAP_spec arr a b) as (arr' & E & L & P & V); [done..|].
  exists arr'. split; [done|]. split; [|done]. repeat split; [done..| |].
  - intros i Hi Hout. rewrite V by done.
    repeat case_decide; try done; lia.
  - intros j Hj Hin. rewrite V by done.
    repeat case_decide; eauto 6.
Qed.

End FrameFacts.

(** ** Quickselect: the loops *)

Section QuickSelectLoops.

Implicit Types (arr : list Z) (low high ll hh median : Z) (gas fuel : nat).

Lemma swap_if_gt_spec lo hi arr a b :
  0 ≤ a < len arr → 0 ≤ b < len arr → lo ≤ a ≤ hi → lo ≤ b ≤ hi →
  ∃ arr', swap_if_gt arr a b = Some arr' ∧
          frame lo hi arr arr' ∧
          arr'.[a] ≤ arr'.[b] ∧
          (∀ i, 0 ≤ i < len arr → i ≠ a → i ≠ b → arr'.[i] = arr.[i]) ∧
          ((arr'.[a] = arr.[a] ∧ arr'.[b] = arr.[b]) ∨
           (arr'.[a] = arr.[b] ∧ arr'.[b] = arr.[a])).
Proof.
  intros Ha Hb Hla Hlb. unfold swap_if_gt.
  rewrite (rd_in arr a) by done. simpl. rewrite (rd_in arr b) by done. simpl.
  destruct (decide (arr.[a] > arr.[b])) as [Hgt|Hle].
  - destruct (ELEM_SWAP_frame lo hi arr a b) as (arr' & -> & F & V); [done..|].
    exists arr'. split; [done|]. split; [done|].
    pose proof (V a Ha) as Va. pose proof (V b Hb) as Vb.
    repeat case_decide; subst; try lia.
    split; [lia|]. split; [|by right].
    intros i Hi ? ?. rewrite V by done. repeat case_decide; done.
  - exists arr. split; [done|]. split; [apply frame_refl|].
    split; [lia|]. split; [done|]. by left.
Qed.

Lemma scan_up_spec gas arr low ll s :
  0 ≤ low < len arr → 0 ≤ ll → ll < s < len arr →
  arr.[low] ≤ arr.[s] → s - ll ≤ Z.of_nat gas →
  ∃ ll', scan_up gas arr low ll = Some ll' ∧
         ll < ll' ≤ s ∧
         arr.[low] ≤ arr.[ll'] ∧
         ∀ i, ll < i < ll' → arr.[i] < arr.[low].
Proof.
  intros Hlow. revert ll.
  induction gas as [|gas IH]; intros ll Hll Hs Hsent Hgas; [lia|].
  simpl. rewrite (rd_in arr low) by lia. simpl.
  rewrite (rd_in arr (ll + 1)) by lia. simpl.
  destruct (decide (arr.[low] > arr.[ll + 1])) as [Hgt|Hle].
  - assert (ll + 1 ≠ s) by (intros E; rewrite E in Hgt; lia).
    destruct (IH (ll + 1)) as (ll' & -> & ? & ? & Hbelow); [lia..|].
    exists ll'. repeat split; [lia..|done|].
    intros i Hi. destruct (decide (i = ll + 1)) as [->|]; [lia|].
    apply Hbelow; lia.
  - exists (ll + 1). repeat split; [lia..|]. intros i Hi; lia.
Qed.

Lemma scan_down_spec gas arr low hh t :
  0 ≤ low < len arr → 0 ≤ t < hh → hh ≤ len arr →
  arr.[t] ≤ arr.[low] → hh - t ≤ Z.of_nat gas →
  ∃ hh', scan_down gas arr low hh = Some hh' ∧
         t ≤ hh' < hh ∧
         arr.[hh'] ≤ arr.[low] ∧
         ∀ j, hh' < j < hh → arr.[low] < arr.[j].
Proof.
  intros Hlow. revert hh.
  induction gas as [|gas IH]; intros hh Ht Hhh Hsent Hgas; [lia|].
  simpl. rewrite (rd_in arr (hh - 1)) by lia. simpl.
  rewrite (rd_in arr low) by lia. simpl.
  destruct (decide (arr.[hh - 1] > arr.[low])) as [Hgt|Hle].
  - assert (hh - 1 ≠ t) by (intros E; rewrite E in Hgt; lia).
    destruct (IH (hh - 1)) as (hh' & -> & ? & ? & Habove); [lia..|].
    exists hh'. repeat split; [lia..|done|].
    intros j Hj. destruct (decide (j = hh - 1)) as [->|]; [lia|].
    apply Habove; lia.
  - exists (hh - 1). repeat split; [lia..|]. intros j Hj; lia.
Qed.

(** The inner loop: on exit [hh < ll], everything in [low+1 .. ll-1] is
    at most the pivot [arr[low]] and everything in [hh+1 .. high] is at
    least the pivot. *)
Lemma nibble_spec gas fuel arr low high ll hh :
  0 ≤ low → high < len arr →
  low + 1 ≤ ll → ll ≤ hh → hh ≤ high → ll < high → low + 1 < hh →
  (∀ i, low + 1 ≤ i ≤ ll → arr.[i] ≤ arr.[low]) →
  (∀ j, hh ≤ j ≤ high → arr.[low] ≤ arr.[j]) →
  high - low ≤ Z.of_nat gas → hh - ll < Z.of_nat fuel →
  ∃ arr' ll' hh',
    nibble gas fuel arr low ll hh = Some (arr', ll', hh') ∧
    frame (low + 1) high arr arr' ∧
    low + 1 ≤ hh' ∧ hh' < ll' ∧ ll' ≤ high ∧ ll < ll' ∧ hh' < hh ∧
    (∀ i, low + 1 ≤ i < ll' → arr'.[i] ≤ arr'.[low]) ∧
    (∀ j, hh' < j ≤ high → arr'.[low] ≤ arr'.[j]) ∧
    arr'.[hh'] ≤ arr'.[low].
Proof.
  intros Hlow Hhigh. revert arr ll hh Hhigh.
  induction fuel as [|fuel IH];
    intros arr ll hh Hhigh Hll Hllhh Hhh Hllhigh Hlowhh Hle Hge Hgas Hfuel; [lia|].
  simpl.
  set (s := if decide (ll < hh) then hh else hh + 1).
  set (t := if decide (ll < hh) then ll else ll - 1).
  assert (ll < s ≤ high ∧ arr.[low] ≤ arr.[s]) as [Hs Hsv].
  { subst s. case_decide; (split; [lia|apply Hge; lia]). }
  assert (low + 1 ≤ t < hh ∧ arr.[t] ≤ arr.[low]) as [Ht Htv].
  { subst t. case_decide; (split; [lia|apply Hle; lia]). }
  destruct (scan_up_spec gas arr low ll s) as (ll' & -> & Hll' & Hllv & Hup); [lia..|].
  simpl.
  destruct (scan_down_spec gas arr low hh t) as (hh' & -> & Hhh' & Hhhv & Hdown); [lia..|].
  simpl.
  destruct (decide (hh' < ll')) as [Hbrk|Hcont].
  - exists arr, ll', hh'. split; [done|]. split; [apply frame_refl|].
    repeat split; [lia..| | |done].
    + intros i Hi. destruct (decide (i ≤ ll)); [apply Hle; lia|].
      assert (arr.[i] < arr.[low]) by (apply Hup; lia). lia.
    + intros j Hj. destruct (decide (hh ≤ j)); [apply Hge; lia|].
      assert (arr.[low] < arr.[j]) by (apply Hdown; lia). lia.
  - destruct (ELEM_SWAP_frame (low + 1) high arr ll' hh')
      as (arr1 & -> & F1 & V1); [lia..|].
    simpl.
    assert (L1 : len arr1 = len arr) by apply F1.
    assert (Hp : arr1.[low] = arr.[low]).
    { rewrite V1 by lia. repeat case_decide; lia || done. }
    destruct (IH arr1 ll' hh')
      as (arr' & ll'' & hh'' & -> & F & ? & ? & ? & ? & ? & Hle' & Hge' & Hv);
      [lia..| | |lia|lia|].
    + intros i Hi. rewrite Hp, V1 by lia.
      destruct (decide (i = hh')) as [Ei|_].
      { replace ll' with hh' by lia. done. }
      destruct (decide (i = ll')) as [_|Ni]; [done|].
      destruct (decide (i ≤ ll)); [apply Hle; lia|].
      assert (arr.[i] < arr.[low]) by (apply Hup; lia). lia.
    + intros j Hj. rewrite Hp, V1 by lia.
      destruct (decide (j = hh')) as [_|Nj]; [done|].
      destruct (decide (j = ll')) as [Ej|_]; [lia|].
      destruct (decide (hh ≤ j)); [apply Hge; lia|].
      assert (arr.[low] < arr.[j]) by (apply Hdown; lia). lia.
    + exists arr', ll'', hh''. split; [done|].
      split; [by eapply frame_trans|].
      repeat split; [lia..|done|done|done].
Qed.

(** One partition pass: the pivot ends at [hh]; [low .. ll-1] holds
    values at most the pivot and [hh .. high] values at least the pivot. *)
Lemma partition_step_spec gas arr low high :
  0 ≤ low → high < len arr → low + 2 ≤ high → high - low ≤ Z.of_nat gas →
  ∃ arr' ll hh,
    partition_step gas arr low high = Some (arr', ll, hh) ∧
    frame low high arr arr' ∧
    low + 1 ≤ hh ∧ hh < ll ∧ ll ≤ high ∧ low + 2 ≤ ll ∧ hh ≤ high - 1 ∧
    (∀ i, low ≤ i < ll → arr'.[i] ≤ arr'.[hh]) ∧
    (∀ j, hh ≤ j ≤ high → arr'.[hh] ≤ arr'.[j]).
Proof.
  intros Hlow Hhigh H2 Hgas. unfold partition_step.
  set (middle := (low + high) `quot` 2).
  assert (Hmid : low < middle < high).
  { subst middle. rewrite Z.quot_div_nonneg by lia.
    pose proof (Z.div_mod (low + high) 2).
    pose proof (Z.mod_pos_bound (low + high) 2). lia. }
  destruct (swap_if_gt_spec low high arr middle high)
    as (arr1 & -> & F1 & O1 & U1 & D1); [lia..|].
  assert (L1 : len arr1 = len arr) by apply F1. simpl.
  destruct (swap_if_gt_spec low high arr1 low high)
    as (arr2 & -> & F2 & O2 & U2 & D2); [lia..|].
  assert (L2 : len arr2 = len arr1) by apply F2. simpl.
  destruct (swap_if_gt_spec low high arr2 middle low)
    as (arr3 & -> & F3 & O3 & U3 & D3); [lia..|].
  assert (L3 : len arr3 = len arr2) by apply F3. simpl.
  destruct (ELEM_SWAP_frame low high arr3 middle (low + 1))
    as (arr4 & -> & F4 & V4); [lia..|].
  assert (L4 : len arr4 = len arr3) by apply F4. simpl.
  assert (M2 : arr2.[middle] = arr1.[middle]) by (apply U2; lia).
  assert (H3 : arr3.[high] = arr2.[high]) by (apply U3; lia).
  assert (S4 : arr4.[low + 1] ≤ arr4.[low] ∧ arr4.[low] ≤ arr4.[high]).
  { rewrite !V4 by lia. repeat case_decide; lia. }
  destruct S4 as [S4a S4b].
  destruct (nibble_spec gas gas arr4 low high (low + 1) high)
    as (arr5 & ll & hh & -> & F5 & ? & ? & ? & ? & ? & Hle & Hge & Hv);
    [lia..| | |lia|lia|].
  { intros i Hi. by replace i with (low + 1) by lia. }
  { intros j Hj. by replace j with high by lia. }
  assert (L5 : len arr5 = len arr4) by apply F5. simpl.
  assert (P5 : arr5.[low] = arr4.[low]).
  { destruct F5 as (_ & _ & O5 & _). apply O5; lia. }
  destruct (ELEM_SWAP_frame low high arr5 low hh)
    as (arr6 & -> & F6 & V6); [lia..|].
  simpl. exists arr6, ll, hh. split; [done|]. split.
  { eapply frame_trans; [|exact F6].
    eapply frame_trans; [|eapply frame_weaken; [| |exact F5]; lia].
    eapply frame_trans; [|exact F4].
    eapply frame_trans; [|exact F3].
    eapply frame_trans; [exact F1|exact F2]. }
  assert (P6 : arr6.[hh] = arr5.[low]).
  { rewrite V6 by lia. by rewrite decide_True. }
  repeat split; [lia..| |].
  - intros i Hi. rewrite P6, V6 by lia.
    destruct (decide (i = hh)); [lia|].
    destruct (decide (i = low)); [done|]. apply Hle; lia.
  - intros j Hj. rewrite P6, V6 by lia.
    destruct (decide (j = hh)); [lia|].
    destruct (decide (j = low)); [lia|]. apply Hge; lia.
Qed.

End QuickSelectLoops.

(** ** Order statistics *)

Section OrderStatistics.

Implicit Types (l s arr : list Z) (v : Z) (m k : nat).

Lemma at_lookup l k x : l !! k = Some x → l.[Z.of_nat k] = x.
Proof. intros H. unfold at_. rewrite Nat2Z.id. by apply nth_lookup_Some. Qed.

Lemma count_lt_perm v l s : l ≡ₚ s → count_lt v l = count_lt v s.
Proof. intros H. unfold count_lt. by rewrite H. Qed.

Lemma count_lt_cons v a l :
  count_lt v (a :: l) =
    if decide (a < v) then S (count_lt v l) else count_lt v l.
Proof. unfold count_lt. rewrite filter_cons. by case_decide. Qed.

Lemma count_lt_prefix v l m :
  (m < length l)%nat →
  (∀ i x, (i ≤ m)%nat → l !! i = Some x → x < v) →
  (m + 1 ≤ count_lt v l)%nat.
Proof.
  revert m. induction l as [|a l IH]; intros m Hm Hpre.
  - simpl in Hm. lia.
  - assert (a < v) by (apply (Hpre 0%nat); [lia|done]).
    rewrite count_lt_cons, decide_True by done.
    destruct m as [|m]; [lia|].
    assert (m + 1 ≤ count_lt v l)%nat; [|lia].
    apply IH; [simpl in Hm; lia|].
    intros i x Hi Hx. apply (Hpre (S i)); [lia|done].
Qed.

Lemma count_lt_suffix v l m :
  (∀ j x, (m ≤ j)%nat → l !! j = Some x → ¬ x < v) →
  (count_lt v l ≤ m)%nat.
Proof.
  revert m. induction l as [|a l IH]; intros m Hsuf.
  - unfold count_lt. simpl. lia.
  - rewrite count_lt_cons. destruct m as [|m].
    + rewrite decide_False by (apply (Hsuf 0%nat); [lia|done]).
      apply IH. intros j x _ Hx. apply (Hsuf (S j)); [lia|done].
    + assert (count_lt v l ≤ m)%nat.
      { apply IH. intros j x Hj Hx. apply (Hsuf (S j)); [lia|done]. }
      case_decide; lia.
Qed.

Lemma StronglySorted_lookup_le s :
  StronglySorted Z.le s →
  ∀ i j x y, (i ≤ j)%nat → s !! i = Some x → s !! j = Some y → x ≤ y.
Proof.
  induction 1 as [|a s Hs IH Hall]; intros i j x y Hij Hi Hj; [done|].
  destruct i as [|i], j as [|j]; simplify_eq/=; [lia| |lia|].
  - by eapply Forall_lookup_1 in Hall.
  - eapply IH; [|done..]. lia.
Qed.

Lemma StronglySorted_is_kth s mz :
  StronglySorted Z.le s → 0 ≤ mz < len s → is_kth s mz.
Proof.
  intros Hs Hm.
  assert (Hat : ∀ i j, 0 ≤ i ≤ j → j < len s → s.[i] ≤ s.[j]).
  { intros i j Hij Hj.
    eapply (StronglySorted_lookup_le s Hs (Z.to_nat i) (Z.to_nat j));
      [lia|apply lookup_at; lia..]. }
  split; intros; apply Hat; lia.
Qed.

(** Among permutations of one another, the value in a slot that is in
    its sorted position cannot be larger in one than in the other. *)
Lemma is_kth_not_lt l s mz :
  l ≡ₚ s → 0 ≤ mz < len l → is_kth l mz → is_kth s mz → ¬ s.[mz] < l.[mz].
Proof.
  intros Hperm Hm [Hl1 Hl2] [Hs1 Hs2] Hlt.
  assert (Hlen : len s = len l).
  { unfold len. by rewrite Hperm. }
  assert (Z.to_nat mz + 1 ≤ count_lt (l.[mz]) s)%nat as H1.
  { apply count_lt_prefix; [unfold len in *; lia|].
    intros i x Hi Hx. apply at_lookup in Hx as <-.
    destruct (decide (Z.of_nat i = mz)) as [->|]; [done|].
    assert (s.[Z.of_nat i] ≤ s.[mz]) by (apply Hs1; lia). lia. }
  assert (count_lt (l.[mz]) l ≤ Z.to_nat mz)%nat as H2.
  { apply count_lt_suffix. intros j x Hj Hx.
    pose proof (lookup_lt_Some _ _ _ Hx).
    apply at_lookup in Hx as <-.
    destruct (decide (Z.of_nat j = mz)) as [->|]; [lia|].
    assert (l.[mz] ≤ l.[Z.of_nat j]) by (apply Hl2; unfold len; lia). lia. }
  rewrite (count_lt_perm _ l s) in H2 by done. lia.
Qed.

Lemma is_kth_sorted arr s mz :
  arr ≡ₚ s → StronglySorted Z.le s → 0 ≤ mz < len arr → is_kth arr mz →
  arr.[mz] = s.[mz].
Proof.
  intros Hperm Hs Hm Hk.
  assert (Hlen : len s = len arr).
  { unfold len. by rewrite Hperm. }
  assert (Hks : is_kth s mz) by (apply StronglySorted_is_kth; [done|lia]).
  pose proof (is_kth_not_lt arr s mz Hperm Hm Hk Hks).
  pose proof (is_kth_not_lt s arr mz (symmetry Hperm) ltac:(lia) Hks Hk).
  lia.
Qed.

End OrderStatistics.

(** ** Quickselect: the outer loop and the result *)

Section QuickSelectCorrect.

Implicit Types (arr : list Z) (low high ll hh median : Z) (gas fuel : nat).

Lemma frame_left_ok lo hi arr arr' :
  frame lo hi arr arr' → left_ok arr lo → left_ok arr' lo.
Proof.
  intros (L & _ & O & I) H i j Hi Hj. rewrite L in Hj.
  rewrite (O i) by lia.
  destruct (decide (j ≤ hi)).
  - destruct (I j) as (j' & ? & ? & ->); [lia..|]. apply H; lia.
  - rewrite (O j) by lia. apply H; lia.
Qed.

Lemma frame_right_ok lo hi arr arr' :
  frame lo hi arr arr' → right_ok arr hi → right_ok arr' hi.
Proof.
  intros (L & _ & O & I) H i j Hi Hj. rewrite L in Hj.
  rewrite (O j) by lia.
  destruct (decide (lo ≤ i)).
  - destruct (I i) as (i' & ? & ? & ->); [lia..|]. apply H; lia.
  - rewrite (O i) by lia. apply H; lia.
Qed.

Lemma frame_is_kth lo hi arr arr' median :
  frame lo hi arr arr' → 0 ≤ median < len arr →
  median < lo ∨ hi < median →
  is_kth arr median → is_kth arr' median.
Proof.
  intros (L & _ & O & I) Hm Hout [H1 H2].
  split.
  - intros i Hi. rewrite (O median) by lia.
    destruct (decide (lo ≤ i ≤ hi)).
    + destruct (I i) as (i' & ? & ? & ->); [lia..|]. apply H1; lia.
    + rewrite (O i) by lia. apply H1; lia.
  - intros j Hj. rewrite (O median) by lia.
    rewrite L in Hj. destruct (decide (lo ≤ j ≤ hi)).
    + destruct (I j) as (j' & ? & ? & ->); [lia..|]. apply H2; lia.
    + rewrite (O j) by lia. apply H2; lia.
Qed.

Lemma frame_sel_inv lo hi arr arr' median :
  frame lo hi arr arr' → 0 ≤ median < len arr →
  sel_inv arr lo hi median → sel_inv arr' lo hi median.
Proof.
  intros F Hm [(? & ? & ?)|[? ?]]; [left|right].
  - eauto using frame_left_ok, frame_right_ok.
  - eauto using frame_is_kth.
Qed.

(** When the active partition has at most two slots and they are in
    order, the median slot holds its final value. *)
Lemma sel_inv_done arr low high median :
  0 ≤ median < len arr →
  high ≤ low + 1 → (high = low + 1 → arr.[low] ≤ arr.[high]) →
  sel_inv arr low high median → is_kth arr median.
Proof.
  intros Hm Hsmall Hord [(Hin & HL & HR)|[? _]]; [|done].
  split.
  - intros i Hi. destruct (decide (median = low)) as [->|].
    + apply HL; lia.
    + assert (median = high) as -> by lia.
      destruct (decide (i = low)) as [->|]; [apply Hord; lia|].
      apply HL; lia.
  - intros j Hj. destruct (decide (median = high)) as [->|].
    + apply HR; lia.
    + assert (median = low) as -> by lia.
      destruct (decide (j = high)) as [->|]; [apply Hord; lia|].
      apply HR; lia.
Qed.

(** The invariant after one partition pass, for the new partition the
    code selects. *)
Lemma sel_inv_step arr low high ll hh median :
  0 ≤ low → high < len arr → 0 ≤ median < len arr →
  low + 1 ≤ hh → hh < ll → ll ≤ high →
  (∀ i, low ≤ i < ll → arr.[i] ≤ arr.[hh]) →
  (∀ j, hh ≤ j ≤ high → arr.[hh] ≤ arr.[j]) →
  sel_inv arr low high median →
  sel_inv arr (if decide (hh ≤ median) then ll else low)
              (if decide (hh >= median) then hh - 1 else high) median.
Proof.
  intros Hlow Hhigh Hm Hhh Hll Hllh Hle Hge [(Hin & HL & HR)|[Hk Hout]].
  - assert (Hmid : ∀ k, hh ≤ k < ll → arr.[k] = arr.[hh]).
    { intros k Hk. pose proof (Hle k). pose proof (Hge k). lia. }
    destruct (decide (hh ≤ median)) as [H1|H1];
      destruct (decide (hh >= median)) as [H2|H2]; try lia.
    + (* the pivot landed on the median slot *)
      right. split; [|lia]. assert (median = hh) as -> by lia. split.
      * intros i Hi. destruct (decide (low ≤ i)); [apply Hle; lia|].
        apply HL; lia.
      * intros j Hj. destruct (decide (j ≤ high)); [apply Hge; lia|].
        apply HR; lia.
    + destruct (decide (ll ≤ median)).
      * left. split; [lia|]. split; [|done].
        intros i j Hi Hj. destruct (decide (low ≤ i)).
        -- assert (arr.[i] ≤ arr.[hh]) by (apply Hle; lia).
           destruct (decide (j ≤ high)).
           ++ assert (arr.[hh] ≤ arr.[j]) by (apply Hge; lia). lia.
           ++ apply HR; lia.
        -- apply HL; lia.
      * (* the median slot lies in the run of pivot-equal values *)
        right. split; [|lia]. split.
        -- intros i Hi. destruct (decide (low ≤ i)).
           ++ rewrite (Hmid median) by lia. apply Hle; lia.
           ++ apply HL; lia.
        -- intros j Hj. destruct (decide (j ≤ high)).
           ++ rewrite (Hmid median) by lia. apply Hge; lia.
           ++ apply HR; lia.
    + left. split; [lia|]. split; [done|].
      intros i j Hi Hj. destruct (decide (low ≤ i)).
      * assert (arr.[i] ≤ arr.[hh]) by (apply Hle; lia).
        destruct (decide (j ≤ high)).
        -- assert (arr.[hh] ≤ arr.[j]) by (apply Hge; lia). lia.
        -- apply HR; lia.
      * apply HL; lia.
  - right. split; [done|].
    destruct (decide (hh ≤ median)); destruct (decide (hh >= median)); lia.
Qed.

Lemma select_loop_spec gas fuel arr low high median :
  0 ≤ low → high < len arr → 0 ≤ median < len arr →
  sel_inv arr low high median →
  high - low ≤ Z.of_nat gas →
  (1 ≤ fuel)%nat → high - low < Z.of_nat fuel →
  ∃ v arr',
    select_loop gas fuel arr low high median = Some (v, arr') ∧
    arr' ≡ₚ arr ∧ v = arr'.[median] ∧ is_kth arr' median.
Proof.
  revert arr low high.
  induction fuel as [|fuel IH];
    intros arr low high Hlow Hhigh Hm Hinv Hgas Hf1 Hfuel; [lia|].
  simpl. destruct (decide (high ≤ low)) as [Hone|Hmore].
  - rewrite rd_in by done. simpl. exists arr.[median], arr.
    repeat split; [done..| |]; apply (sel_inv_done arr low high); (done || lia).
  - destruct (decide (high = low + 1)) as [Htwo|Hmany].
    + destruct (swap_if_gt_spec low high arr low high)
        as (arr' & -> & F & O & _ & _); [lia..|].
      assert (L : len arr' = len arr) by apply F. simpl.
      rewrite rd_in by lia. simpl. exists arr'.[median], arr'.
      split; [done|]. split; [apply F|]. split; [done|].
      apply (sel_inv_done arr' low high); [lia|lia|done|].
      eapply frame_sel_inv; eauto.
    + destruct (partition_step_spec gas arr low high)
        as (arr1 & ll & hh & -> & F & ? & ? & ? & ? & ? & Hle & Hge); [lia..|].
      assert (L : len arr1 = len arr) by apply F. simpl.
      destruct (IH arr1 (if decide (hh ≤ median) then ll else low)
                   (if decide (hh >= median) then hh - 1 else high))
        as (v & arr' & -> & P & -> & Hk).
      * case_decide; lia.
      * case_decide; lia.
      * lia.
      * apply sel_inv_step; [lia..|done|done|].
        eapply frame_sel_inv; eauto.
      * repeat case_decide; lia.
      * lia.
      * repeat case_decide; lia.
      * exists arr'.[median], arr'. split; [done|].
        split; [|done]. etrans; [exact P|apply F].
Qed.

End QuickSelectCorrect.

Section QuickSelectResult.

Implicit Types (arr s : list Z) (n : Z) (fuel : nat).

(** Any fuel of at least [n] lets every loop run to its end, and the
    value returned sits in its sorted position. *)
Lemma find_median_fuel_enough fuel arr n :
  1 ≤ n → len arr = n → n ≤ Z.of_nat fuel →
  ∃ v arr',
    find_median_quick_select_fuel fuel arr n = Some (v, arr') ∧
    arr' ≡ₚ arr ∧ v = arr'.[(n - 1) `div` 2] ∧ is_kth arr' ((n - 1) `div` 2).
Proof.
  intros Hn Hlen Hfuel. unfold find_median_quick_select_fuel.
  replace ((0 + (n - 1)) `quot` 2) with ((n - 1) `div` 2)
    by (rewrite Z.quot_div_nonneg by lia; f_equal; lia).
  assert (Hmed : 0 ≤ (n - 1) `div` 2 ≤ n - 1).
  { pose proof (Z.div_mod (n - 1) 2). pose proof (Z.mod_pos_bound (n - 1) 2). lia. }
  apply select_loop_spec; [lia..| |lia|lia|lia].
  left. split; [lia|]. split; intros i j Hi Hj; lia.
Qed.

Lemma find_median_any_sorted arr n s :
  1 ≤ n → len arr = n → s ≡ₚ arr → StronglySorted Z.le s →
  ∃ arr', __find_median_quick_select arr n = Some (s.[(n - 1) `div` 2], arr') ∧
          arr' ≡ₚ arr.
Proof.
  intros Hn Hlen Hperm Hs. unfold __find_median_quick_select.
  destruct (find_median_fuel_enough (Z.to_nat n + 1) arr n)
    as (v & arr' & -> & P & -> & Hk); [lia..|].
  exists arr'. split; [|done]. do 2 f_equal.
  assert (len arr' = n) by (unfold len in *; by rewrite P).
  apply is_kth_sorted; [by rewrite P|done| |done].
  pose proof (Z.div_mod (n - 1) 2). pose proof (Z.mod_pos_bound (n - 1) 2). lia.
Qed.

Lemma find_median_sorted_median arr n :
  1 ≤ n → len arr = n →
  ∃ arr', __find_median_quick_select arr n = Some (sorted_median arr, arr') ∧
          arr' ≡ₚ arr.
Proof.
  intros Hn Hlen. unfold sorted_median. rewrite Hlen.
  apply find_median_any_sorted; [done..|apply merge_sort_Permutation|].
  apply StronglySorted_merge_sort; apply _.
Qed.

End QuickSelectResult.

(** C3.  For every array [arr] of length [n ≥ 1],
    [__find_median_quick_select(arr, n)] returns a value (no loop runs out
    of fuel, no access leaves the array), the value is the median of the
    original contents, that is the value at index [(n-1)/2] of the contents
    sorted in nondecreasing order, and the array it leaves behind is a
    rearrangement of the original (the function works in place). *)
Theorem find_median_quick_select_median (arr : list Z) (n : Z) :
  1 ≤ n → len arr = n →
  ∃ arr', __find_median_quick_select arr n = Some (sorted_median arr, arr') ∧
          arr' ≡ₚ arr ∧ length arr' = length arr ∧
          ∀ s, s ≡ₚ arr → StronglySorted Z.le s →
               sorted_median arr = s.[(n - 1) `div` 2].
Proof.
  intros Hn Hlen.
  destruct (find_median_sorted_median arr n) as (arr' & E & P); [done..|].
  exists arr'. split; [done|]. split; [done|]. split; [by rewrite P|].
  intros s Hperm Hs.
  destruct (find_median_any_sorted arr n s) as (arr'' & E' & _); [done..|].
  congruence.
Qed.

Lemma find_median_quick_select_median_witness :
  ∃ arr', __find_median_quick_select [5; 3; 8; 1; 9; 2; 7; 7] 8
            = Some (sorted_median [5; 3; 8; 1; 9; 2; 7; 7], arr') ∧
          arr' ≡ₚ [5; 3; 8; 1; 9; 2; 7; 7] ∧
          length arr' = length [5; 3; 8; 1; 9; 2; 7; 7] ∧
          ∀ s, s ≡ₚ [5; 3; 8; 1; 9; 2; 7; 7] → StronglySorted Z.le s →
               sorted_median [5; 3; 8; 1; 9; 2; 7; 7] = s.[(8 - 1) `div` 2].
Proof.
  apply (find_median_quick_select_median [5; 3; 8; 1; 9; 2; 7; 7] 8);
    [lia|reflexivity].
Defined.

(** The code on concrete arrays: odd and even lengths, repeated values, a
    ring holding mostly zeros, the one- and two-slot rings. *)
Example find_median_odd :
  __find_median_quick_select [5; 3; 8; 1; 9; 2; 7] 7
  = Some (5, [3; 1; 2; 5; 9; 8; 7]).
Proof. reflexivity. Qed.

Example find_median_even :
  fst <$> __find_median_quick_select [5; 3; 8; 1; 9; 2; 7; 7] 8 = Some 5.
Proof. reflexivity. Qed.

Example find_median_zeros :
  fst <$> __find_median_quick_select [0; 0; 0; 0; 4; 0; 0; 0] 8 = Some 0.
Proof. reflexivity. Qed.

Example find_median_two :
  __find_median_quick_select [2; 1] 2 = Some (1, [1; 2]).
Proof. reflexivity. Qed.

(** With [n = 0] the code reads [arr[0]] of an empty array. *)
Example find_median_empty : __find_median_quick_select [] 0 = None.
Proof. reflexivity. Qed.

(** ** Reset, statistics and warm-up *)

Section PerfContextFacts.

Context {D : CDouble}.
Variable ucs_time_from_sec : double → Z.
Variable TIMING_QUEUE_SIZE : Z.

Implicit Types (perf : ucx_perf_context_t) (params : ucx_perf_params_t).

Lemma zero_loop_length (n a : nat) (q : list Z) :
  length (foldl (λ q i, <[i := 0]> q) q (seq a n)) = length q.
Proof.
  revert a q. induction n as [|n IH]; intros a q; [done|].
  simpl. by rewrite IH, length_insert.
Qed.

Lemma zero_loop_lookup (n a : nat) (q : list Z) (j : nat) :
  (j < length q)%nat →
  foldl (λ q i, <[i := 0]> q) q (seq a n) !! j =
    if decide (a ≤ j < a + n)%nat then Some 0 else q !! j.
Proof.
  revert a q. induction n as [|n IH]; intros a q Hj.
  - simpl. rewrite decide_False by lia. done.
  - simpl. rewrite IH by (by rewrite length_insert).
    destruct (decide (j = a)) as [->|Hne].
    + rewrite decide_False by lia. rewrite decide_True by lia.
      by apply list_lookup_insert_eq.
    + rewrite list_lookup_insert_ne by done.
      repeat case_decide; done || lia.
Qed.

Lemma zero_timing_queue_spec (queue : list Z) :
  len queue = TIMING_QUEUE_SIZE →
  len (zero_timing_queue TIMING_QUEUE_SIZE queue) = TIMING_QUEUE_SIZE ∧
  ∀ i, 0 ≤ i < TIMING_QUEUE_SIZE →
       (zero_timing_queue TIMING_QUEUE_SIZE queue).[i] = 0.
Proof.
  intros Hlen. unfold zero_timing_queue, len in *. split.
  - by rewrite zero_loop_length.
  - intros i Hi. unfold at_. apply nth_lookup_Some.
    rewrite zero_loop_lookup by lia. rewrite decide_True by lia. done.
Qed.

(** C7.  After [ucx_perf_test_reset(perf, params)]: the current counters
    (time, msgs, bytes, iters) are zero; every slot of the timing ring and
    the ring head are zero; [end_time] is [start_time] plus [max_time] (in
    clock ticks, as an unsigned 64-bit sum) when [params.max_time] is
    nonzero and [UINT64_MAX] when it is [0.0]; [perf.max_iter] is
    [params.max_iter] when that is nonzero and [UINT64_MAX] when it is 0. *)
Theorem ucx_perf_test_reset_spec (now : Z) perf params :
  len (perf_timing_queue perf) = TIMING_QUEUE_SIZE →
  let perf' := ucx_perf_test_reset ucs_time_from_sec TIMING_QUEUE_SIZE
                 now perf params in
  perf_current perf' = {| c_time := 0; c_msgs := 0; c_bytes := 0; c_iters := 0 |} ∧
  len (perf_timing_queue perf') = TIMING_QUEUE_SIZE ∧
  (∀ i, 0 ≤ i < TIMING_QUEUE_SIZE → (perf_timing_queue perf').[i] = 0) ∧
  perf_timing_queue_head perf' = 0 ∧
  perf_start_time perf' = now ∧
  (d_eqb (max_time params) (d_lit 0) = false →
   perf_end_time perf' =
     (perf_start_time perf' + ucs_time_from_sec (max_time params)) `mod` 2 ^ 64) ∧
  (d_eqb (max_time params) (d_lit 0) = true → perf_end_time perf' = UINT64_MAX) ∧
  (max_iter params ≠ 0 → perf_max_iter perf' = max_iter params) ∧
  (max_iter params = 0 → perf_max_iter perf' = UINT64_MAX).
Proof.
  intros Hlen perf'.
  destruct (zero_timing_queue_spec (perf_timing_queue perf) Hlen) as [Hl Hz].
  subst perf'. unfold ucx_perf_test_reset. simpl.
  repeat split; try done.
  - intros ->. unfold add64. f_equal. lia.
  - by intros ->.
  - intros Hne. by rewrite decide_False.
  - intros ->. by rewrite decide_True.
Qed.

(** C8, first half.  [ucx_perf_set_warmup] sets the iteration bound of the
    context to [min(warmup_iter, max_iter/10)] and the report interval to
    the largest [ucs_time_t], which no elapsed time reaches; nothing else
    of the context changes. *)
Lemma ucx_perf_set_warmup_spec perf params :
  let perf' := ucx_perf_set_warmup perf params in
  perf_max_iter perf' = Z.min (warmup_iter params) (max_iter params `div` 10) ∧
  perf_report_interval perf' = UINT64_MAX ∧
  perf_current perf' = perf_current perf ∧
  perf_timing_queue perf' = perf_timing_queue perf ∧
  perf_end_time perf' = perf_end_time perf.
Proof.
  simpl. repeat split. unfold ucs_min. case_decide; lia.
Qed.

End PerfContextFacts.

Lemma ucx_perf_test_reset_spec_witness :
  len (perf_timing_queue example_perf) = 4 ∧
  let perf' := ucx_perf_test_reset ns_time_from_sec 4 1000
                 example_perf example_params in
  perf_current perf' = {| c_time := 0; c_msgs := 0; c_bytes := 0; c_iters := 0 |} ∧
  len (perf_timing_queue perf') = 4 ∧
  (∀ i, 0 ≤ i < 4 → (perf_timing_queue perf').[i] = 0) ∧
  perf_timing_queue_head perf' = 0 ∧
  perf_start_time perf' = 1000 ∧
  (d_eqb (max_time example_params) (d_lit 0) = false →
   perf_end_time perf' =
     (perf_start_time perf' + ns_time_from_sec (max_time example_params))
       `mod` 2 ^ 64) ∧
  (d_eqb (max_time example_params) (d_lit 0) = true →
   perf_end_time perf' = UINT64_MAX) ∧
  (max_iter example_params ≠ 0 → perf_max_iter perf' = max_iter example_params) ∧
  (max_iter example_params = 0 → perf_max_iter perf' = UINT64_MAX).
Proof.
  split; [reflexivity|].
  apply (ucx_perf_test_reset_spec (D := QDouble) ns_time_from_sec 4 1000
           example_perf example_params).
  reflexivity.
Defined.

(** The reset on the example context: 1.5 s after tick 1000, ring cleared. *)
Example ucx_perf_test_reset_example :
  let perf' := ucx_perf_test_reset ns_time_from_sec 4 1000
                 example_perf example_params in
  perf_end_time perf' = 1500001000 ∧ perf_timing_queue perf' = [0; 0; 0; 0] ∧
  perf_max_iter perf' = 100000.
Proof. repeat split. Qed.

Section CalcResultFacts.

Context {D : CDouble}.
Variable ucs_time_from_sec : double → Z.
Variable TIMING_QUEUE_SIZE : Z.

Implicit Types (perf : ucx_perf_context_t).

(** C2.  [ucx_perf_calc_result] returns with [result.iters =
    current.iters] and [result.bytes = current.bytes];
    [result.latency.typical] is the median of the whole timing ring (all
    [TIMING_QUEUE_SIZE] slots), converted to [double], divided by the
    ticks per second and then by 2 for a ping-pong test and by 1
    otherwise; [result.bandwidth.typical] and [result.msgrate.typical]
    are 0. *)
Theorem ucx_perf_calc_result_spec perf :
  1 ≤ TIMING_QUEUE_SIZE →
  len (perf_timing_queue perf) = TIMING_QUEUE_SIZE →
  ∃ perf' result,
    ucx_perf_calc_result ucs_time_from_sec TIMING_QUEUE_SIZE perf
      = Some (perf', result) ∧
    r_iters result = c_iters (perf_current perf) ∧
    r_bytes result = c_bytes (perf_current perf) ∧
    typical (r_latency result) =
      d_div (d_div (d_of_u64 (sorted_median (perf_timing_queue perf)))
                   (d_of_u64 (ucs_time_from_sec (d_lit 1))))
            (if decide (test_type (perf_params perf) = UCX_PERF_TEST_TYPE_PINGPONG)
             then d_lit 2 else d_lit 1) ∧
    typical (r_bandwidth result) = d_lit 0 ∧
    typical (r_msgrate result) = d_lit 0 ∧
    perf_timing_queue perf' ≡ₚ perf_timing_queue perf.
Proof.
  intros Hpos Hlen. unfold ucx_perf_calc_result.
  destruct (find_median_sorted_median (perf_timing_queue perf) TIMING_QUEUE_SIZE)
    as (queue & -> & P); [done..|].
  simpl. eexists _, _. split; [done|]. simpl. by repeat split.
Qed.

Lemma ucx_perf_calc_result_returns perf :
  1 ≤ TIMING_QUEUE_SIZE →
  len (perf_timing_queue perf) = TIMING_QUEUE_SIZE →
  ∃ perf' result,
    ucx_perf_calc_result ucs_time_from_sec TIMING_QUEUE_SIZE perf
      = Some (perf', result).
Proof.
  intros Hpos Hlen. unfold ucx_perf_calc_result.
  destruct (find_median_sorted_median (perf_timing_queue perf) TIMING_QUEUE_SIZE)
    as (queue & -> & _); [done..|].
  simpl. eauto.
Qed.

End CalcResultFacts.

Lemma ucx_perf_calc_result_spec_witness :
  1 ≤ 4 ∧
  len (perf_timing_queue example_perf) = 4 ∧
  ∃ perf' result,
    ucx_perf_calc_result ns_time_from_sec 4 example_perf = Some (perf', result) ∧
    r_iters result = c_iters (perf_current example_perf) ∧
    r_bytes result = c_bytes (perf_current example_perf) ∧
    typical (r_latency result) =
      d_div (d_div (d_of_u64 (sorted_median (perf_timing_queue example_perf)))
                   (d_of_u64 (ns_time_from_sec (d_lit 1))))
            (if decide (test_type (perf_params example_perf)
                        = UCX_PERF_TEST_TYPE_PINGPONG)
             then d_lit 2 else d_lit 1) ∧
    typical (r_bandwidth result) = d_lit 0 ∧
    typical (r_msgrate result) = d_lit 0 ∧
    perf_timing_queue perf' ≡ₚ perf_timing_queue example_perf.
Proof.
  split; [lia|]. split; [reflexivity|].
  apply (ucx_perf_calc_result_spec (D := QDouble) ns_time_from_sec 4
           example_perf);
    [lia|reflexivity].
Defined.

(** The statistics of the example context: the ring [5000; 3000; 8000;
    1000] has median 3000 ticks, that is 3 microseconds per round trip and
    1.5 microseconds one way. *)
Example ucx_perf_calc_result_example :
  (λ pr, let r := snd pr in
         (r_iters r, r_bytes r, Qred (typical (r_latency r)),
          typical (r_bandwidth r), typical (r_msgrate r)))
    <$> ucx_perf_calc_result ns_time_from_sec 4 example_perf
  = Some (4, 32, Qmake 3 2000000, inject_Z 0, inject_Z 0).
Proof. reflexivity. Qed.

(** ** The multi-thread driver *)

Section CollectStatuses.

Implicit Types (statuses : list ucs_status_t) (status s : ucs_status_t).

Lemma collect_statuses_all_ok status nti statuses :
  (∀ k s, statuses !! k = Some s → s = UCS_OK) →
  collect_statuses status nti statuses = status.
Proof.
  unfold collect_statuses. intros Hall.
  assert (Htake : Forall (λ s, s = UCS_OK) (take (Z.to_nat nti) statuses)).
  { apply Forall_lookup_2. intros i x [Hx _]%lookup_take_Some. eauto. }
  induction Htake as [|x l -> _ IH]; done.
Qed.

Lemma collect_statuses_last status nti statuses (k : nat) s :
  length statuses = Z.to_nat nti →
  statuses !! k = Some s → s ≠ UCS_OK →
  (∀ j s', (k < j)%nat → statuses !! j = Some s' → s' = UCS_OK) →
  collect_statuses status nti statuses = s.
Proof.
  intros Hlen Hk Hs Hlater. unfold collect_statuses.
  rewrite take_ge by lia.
  apply list_elem_of_split_length in Hk as (l1 & l2 & -> & ->).
  rewrite foldl_app. simpl. rewrite decide_True by done.
  assert (Hl2 : Forall (λ s, s = UCS_OK) l2).
  { apply Forall_lookup_2. intros j x Hx.
    apply (Hlater (length l1 + S j)%nat); [lia|].
    rewrite lookup_app_r by lia.
    by replace (length l1 + S j - length l1)%nat with (S j) by lia. }
  clear Hlater Hlen. induction Hl2 as [|x l -> _ IH]; done.
Qed.

Lemma collect_statuses_surfaces nti statuses (k : nat) s :
  length statuses = Z.to_nat nti →
  statuses !! k = Some s → s ≠ UCS_OK →
  collect_statuses UCS_OK nti statuses ≠ UCS_OK.
Proof.
  intros Hlen Hk Hs. unfold collect_statuses. rewrite take_ge by lia.
  clear Hlen. revert k Hk. induction statuses as [|x l IH] using rev_ind;
    intros k Hk; [done|].
  rewrite foldl_app. simpl. case_decide as Hx; [congruence|].
  apply lookup_app_Some in Hk as [Hk|[_ Hk]]; [by eapply IH|].
  apply list_lookup_singleton_Some in Hk as [_ ->]. congruence.
Qed.

End CollectStatuses.

Section DriverFacts.

Context {D : CDouble}.
Variable ucs_time_from_sec : double → Z.
Variable TIMING_QUEUE_SIZE : Z.
Variable clock : nat → Z.
Variable funcs_setup :
  ucx_perf_api_t → ucx_perf_context_t → ucx_perf_params_t →
  ucs_status_t * ucx_perf_context_t.
Variable funcs_run :
  ucx_perf_api_t → ucx_perf_context_t → ucs_status_t * ucx_perf_context_t.
Variable omp_statuses :
  ucx_perf_context_t → ucx_perf_params_t → list ucs_status_t.
Variable perf_uninit : ucx_perf_context_t.

Implicit Types (params : ucx_perf_params_t) (w : world).

Local Arguments ucx_perf_set_warmup : simpl never.
Local Arguments ucx_perf_test_reset : simpl never.
Local Arguments ucx_perf_calc_result : simpl never.

(** C6, as the code has it.  In the multi-thread driver, once the setup
    has succeeded, the status returned is UCS_OK when every slot of the
    shared status array is UCS_OK; when one or more slots are non-OK a
    non-OK status is returned, and it is the last such error: the status
    of the highest-indexed failing thread. *)
Theorem ucx_perf_thread_spawn_last_error params w perf1 :
  funcs_setup (api params) (ucx_perf_test_reset ucs_time_from_sec TIMING_QUEUE_SIZE
       (clock (w_reads w)) perf_uninit params) params
    = (UCS_OK, perf1) →
  length (omp_statuses perf1 params) = Z.to_nat (thread_count params) →
  ∃ status w',
    ucx_perf_thread_spawn ucs_time_from_sec TIMING_QUEUE_SIZE clock
      funcs_setup omp_statuses perf_uninit params w = Some (status, w') ∧
    ((∀ k s, omp_statuses perf1 params !! k = Some s → s = UCS_OK) →
     status = UCS_OK) ∧
    (∀ (k : nat) s,
       omp_statuses perf1 params !! k = Some s → s ≠ UCS_OK →
       status ≠ UCS_OK ∧
       ((∀ j s', (k < j)%nat → omp_statuses perf1 params !! j = Some s' →
                 s' = UCS_OK) →
        status = s)).
Proof.
  intros Hsetup Hlen.
  unfold ucx_perf_thread_spawn, do_reset, do_setup, ucs_get_time, emit.
  unfold mbind, M_bind, mret, M_ret. simpl. rewrite Hsetup. simpl.
  eexists _, _. split; [done|]. split.
  - intros Hall. by apply collect_statuses_all_ok.
  - intros k s Hk Hs. split.
    + by eapply collect_statuses_surfaces.
    + intros Hlater. by eapply collect_statuses_last.
Qed.

(** C8.  Setting up the warm-up phase puts [min(warmup_iter, max_iter/10)]
    into the iteration bound of the context and the largest [ucs_time_t]
    into its report interval, which disables the report.  In
    [ucx_perf_run], with a warm-up requested and the setup and the warm-up
    run succeeding, the calls are, in this order: reset, setup, the warm-up
    run on the context so prepared, a rendezvous barrier, a reset of the
    context, the measured run, a barrier.  The measured run starts on a
    context that has been reset, whatever the warm-up run left in it: its
    start time is the clock reading of the reset, its current counters
    are zero and its previous counters are zero at the start time, its
    iteration bound, end time and report interval are again those of the
    parameters and no longer those of the warm-up, its ring head and
    offset are zero, and every slot of its timing ring is zero. *)
Theorem ucx_perf_run_warmup_sequence params w perf1 perf2 :
  command params ≠ UCX_PERF_CMD_LAST →
  api params = UCX_PERF_API_UCT ∨ api params = UCX_PERF_API_UCP →
  thread_mode params = UCS_THREAD_MODE_SINGLE →
  warmup_iter params > 0 →
  funcs_setup (api params) (ucx_perf_test_reset ucs_time_from_sec TIMING_QUEUE_SIZE
       (clock (w_reads w)) perf_uninit params) params
    = (UCS_OK, perf1) →
  funcs_run (api params) (ucx_perf_set_warmup perf1 params) = (UCS_OK, perf2) →
  let perf_warm := ucx_perf_set_warmup perf1 params in
  1 ≤ TIMING_QUEUE_SIZE →
  (∀ perf, len (perf_timing_queue (funcs_run (api params) perf).2)
           = TIMING_QUEUE_SIZE) →
  perf_max_iter perf_warm = Z.min (warmup_iter params) (max_iter params `div` 10) ∧
  perf_report_interval perf_warm = UINT64_MAX ∧
  ∃ perf_meas r w' rest,
    ucx_perf_run ucs_time_from_sec TIMING_QUEUE_SIZE clock funcs_setup
      funcs_run omp_statuses perf_uninit params w = Some (r, w') ∧
    w_trace w' = w_trace w ++
      [EvReset; EvSetup; EvRun perf_warm; EvBarrier;
       EvReset; EvRun perf_meas; EvBarrier] ++ rest ∧
    perf_params perf_meas = params ∧
    perf_start_time perf_meas = clock (S (w_reads w)) ∧
    perf_prev_time perf_meas = clock (S (w_reads w)) ∧
    perf_current perf_meas =
      {| c_time := 0; c_msgs := 0; c_bytes := 0; c_iters := 0 |} ∧
    perf_prev perf_meas =
      {| c_time := clock (S (w_reads w)); c_msgs := 0; c_bytes := 0;
         c_iters := 0 |} ∧
    perf_max_iter perf_meas =
      (if decide (max_iter params = 0) then UINT64_MAX else max_iter params) ∧
    perf_end_time perf_meas =
      (if d_eqb (max_time params) (d_lit 0) then UINT64_MAX
       else (ucs_time_from_sec (max_time params) + clock (S (w_reads w)))
              `mod` 2 ^ 64) ∧
    perf_report_interval perf_meas
      = ucs_time_from_sec (report_interval params) ∧
    perf_timing_queue_head perf_meas = 0 ∧
    perf_offset perf_meas = 0 ∧
    len (perf_timing_queue perf_meas) = TIMING_QUEUE_SIZE ∧
    (∀ i, 0 ≤ i < TIMING_QUEUE_SIZE → (perf_timing_queue perf_meas).[i] = 0).
Proof.
  intros Hcmd Hapi Hmode Hwarm Hsetup Hrun perf_warm Hpos Hlen.
  split; [|split].
  { unfold perf_warm, ucx_perf_set_warmup, ucs_min. simpl. case_decide; lia. }
  { done. }
  assert (Hlen2 : len (perf_timing_queue perf2) = TIMING_QUEUE_SIZE).
  { specialize (Hlen perf_warm). unfold perf_warm in Hlen.
    by rewrite Hrun in Hlen. }
  destruct (zero_timing_queue_spec TIMING_QUEUE_SIZE (perf_timing_queue perf2)
              Hlen2) as [Hzl Hzz].
  set (perf_meas :=
         ucx_perf_test_reset ucs_time_from_sec TIMING_QUEUE_SIZE
           (clock (S (w_reads w))) perf2 params).
  assert (Hfields :
    perf_params perf_meas = params ∧
    perf_start_time perf_meas = clock (S (w_reads w)) ∧
    perf_prev_time perf_meas = clock (S (w_reads w)) ∧
    perf_current perf_meas =
      {| c_time := 0; c_msgs := 0; c_bytes := 0; c_iters := 0 |} ∧
    perf_prev perf_meas =
      {| c_time := clock (S (w_reads w)); c_msgs := 0; c_bytes := 0;
         c_iters := 0 |} ∧
    perf_max_iter perf_meas =
      (if decide (max_iter params = 0) then UINT64_MAX else max_iter params) ∧
    perf_end_time perf_meas =
      (if d_eqb (max_time params) (d_lit 0) then UINT64_MAX
       else (ucs_time_from_sec (max_time params) + clock (S (w_reads w)))
              `mod` 2 ^ 64) ∧
    perf_report_interval perf_meas
      = ucs_time_from_sec (report_interval params) ∧
    perf_timing_queue_head perf_meas = 0 ∧
    perf_offset perf_meas = 0 ∧
    len (perf_timing_queue perf_meas) = TIMING_QUEUE_SIZE ∧
    (∀ i, 0 ≤ i < TIMING_QUEUE_SIZE → (perf_timing_queue perf_meas).[i] = 0)).
  { unfold perf_meas, ucx_perf_test_reset.
    cbn [perf_params perf_start_time perf_prev_time perf_current perf_prev
         perf_max_iter perf_end_time perf_report_interval
         perf_timing_queue_head perf_offset perf_timing_queue].
    unfold add64. by repeat (split; [done|]). }
  unfold ucx_perf_run.
  rewrite decide_False by done.
  rewrite decide_False by (intros [? ?]; destruct Hapi; done).
  rewrite decide_False by (intros Hne; by rewrite Hmode in Hne).
  unfold do_reset, do_setup, do_run, ucs_get_time, emit.
  unfold mbind, M_bind, mret, M_ret. simpl. rewrite Hsetup. simpl.
  rewrite decide_True by done. rewrite Hrun. simpl.
  fold perf_meas.
  specialize (Hlen perf_meas).
  destruct (funcs_run (api params) perf_meas) as [status perf3] eqn:Hmeas.
  simpl in Hlen. simpl.
  destruct (decide (status = UCS_OK)) as [->|Hfail].
  - destruct (ucx_perf_calc_result_returns ucs_time_from_sec TIMING_QUEUE_SIZE perf3)
      as (perf4 & result & Hcalc); [done..|].
    unfold lift_option. rewrite Hcalc. simpl.
    exists perf_meas. eexists _, _, _. split; [done|]. split; [|done]. simpl.
    rewrite <- !app_assoc. simpl. done.
  - exists perf_meas. eexists _, _, _. split; [done|]. split; [|done]. simpl.
    rewrite <- !app_assoc. simpl. done.
Qed.

End DriverFacts.

Lemma ucx_perf_thread_spawn_last_error_witness :
  let perf1 := ucx_perf_test_reset ns_time_from_sec 4
                 (example_clock (w_reads example_world))
                 example_perf example_mt_params in
  example_setup (api example_mt_params) perf1 example_mt_params = (UCS_OK, perf1) ∧
  length (example_statuses perf1 example_mt_params)
    = Z.to_nat (thread_count example_mt_params) ∧
  ∃ status w',
    ucx_perf_thread_spawn ns_time_from_sec 4 example_clock example_setup
      example_statuses example_perf example_mt_params example_world
      = Some (status, w') ∧
    ((∀ k s, example_statuses perf1 example_mt_params !! k = Some s → s = UCS_OK) →
     status = UCS_OK) ∧
    (∀ (k : nat) s,
       example_statuses perf1 example_mt_params !! k = Some s → s ≠ UCS_OK →
       status ≠ UCS_OK ∧
       ((∀ j s', (k < j)%nat →
                 example_statuses perf1 example_mt_params !! j = Some s' →
                 s' = UCS_OK) →
        status = s)).
Proof.
  intros perf1. split; [reflexivity|]. split; [reflexivity|].
  apply (ucx_perf_thread_spawn_last_error (D := QDouble) ns_time_from_sec 4
           example_clock example_setup example_statuses example_perf
           example_mt_params example_world perf1); reflexivity.
Defined.

(** C6 as stated fails: with thread 0 ending in NO_MEMORY and thread 1 in
    IO_ERROR the driver returns IO_ERROR, not the first error. *)
Lemma ucx_perf_thread_spawn_first_error_counterexample :
  let statuses := example_statuses example_perf example_mt_params in
  let returned :=
    fst <$> ucx_perf_thread_spawn ns_time_from_sec 4 example_clock
              example_setup example_statuses example_perf example_mt_params
              example_world in
  first_error statuses = Some UCS_ERR_NO_MEMORY ∧
  returned = Some UCS_ERR_IO_ERROR ∧
  returned ≠ first_error statuses.
Proof. repeat split. intros [=]. Qed.

Lemma ucx_perf_run_warmup_sequence_witness :
  let w := example_world in
  let params := example_params in
  let perf1 := ucx_perf_test_reset ns_time_from_sec 4 (example_clock (w_reads w))
                 example_perf params in
  let perf_warm := ucx_perf_set_warmup perf1 params in
  let perf2 := (example_run (api params) perf_warm).2 in
  command params ≠ UCX_PERF_CMD_LAST ∧
  (api params = UCX_PERF_API_UCT ∨ api params = UCX_PERF_API_UCP) ∧
  thread_mode params = UCS_THREAD_MODE_SINGLE ∧
  warmup_iter params > 0 ∧
  example_setup (api params) perf1 params = (UCS_OK, perf1) ∧
  example_run (api params) perf_warm = (UCS_OK, perf2) ∧
  c_iters (perf_current perf2) = 100 ∧
  1 ≤ 4 ∧
  (∀ perf, len (perf_timing_queue (example_run (api params) perf).2) = 4) ∧
  perf_max_iter perf_warm = Z.min (warmup_iter params) (max_iter params `div` 10) ∧
  perf_report_interval perf_warm = UINT64_MAX ∧
  ∃ perf_meas r w' rest,
    ucx_perf_run ns_time_from_sec 4 example_clock example_setup example_run
      example_statuses example_perf params w = Some (r, w') ∧
    w_trace w' = w_trace w ++
      [EvReset; EvSetup; EvRun perf_warm; EvBarrier;
       EvReset; EvRun perf_meas; EvBarrier] ++ rest ∧
    perf_params perf_meas = params ∧
    perf_start_time perf_meas = example_clock (S (w_reads w)) ∧
    perf_prev_time perf_meas = example_clock (S (w_reads w)) ∧
    perf_current perf_meas =
      {| c_time := 0; c_msgs := 0; c_bytes := 0; c_iters := 0 |} ∧
    perf_prev perf_meas =
      {| c_time := example_clock (S (w_reads w)); c_msgs := 0; c_bytes := 0;
         c_iters := 0 |} ∧
    perf_max_iter perf_meas =
      (if decide (max_iter params = 0) then UINT64_MAX else max_iter params) ∧
    perf_end_time perf_meas =
      (if d_eqb (max_time params) (d_lit 0) then UINT64_MAX
       else (ns_time_from_sec (max_time params) + example_clock (S (w_reads w)))
              `mod` 2 ^ 64) ∧
    perf_report_interval perf_meas
      = ns_time_from_sec (report_interval params) ∧
    perf_timing_queue_head perf_meas = 0 ∧
    perf_offset perf_meas = 0 ∧
    len (perf_timing_queue perf_meas) = 4 ∧
    (∀ i, 0 ≤ i < 4 → (perf_timing_queue perf_meas).[i] = 0).
Proof.
  intros w params perf1 perf_warm perf2.
  split; [discriminate|]. split; [by right|]. split; [reflexivity|].
  split; [reflexivity|]. split; [reflexivity|]. split; [reflexivity|].
  split; [reflexivity|]. split; [lia|]. split; [intros perf; reflexivity|].
  apply (ucx_perf_run_warmup_sequence (D := QDouble) ns_time_from_sec 4
           example_clock example_setup example_run example_statuses
           example_perf params w perf1 perf2);
    [discriminate|by right|reflexivity|reflexivity|reflexivity|reflexivity
    |lia|intros perf; reflexivity].
Defined.

(** The driver on the example: 100 warm-up iterations bounded to
    [min(100, 100000/10)], then the measured run; the report follows. *)
Example ucx_perf_run_example :
  (λ r, (r.1.1, length (w_trace r.2)))
    <$> ucx_perf_run ns_time_from_sec 4 example_clock example_setup example_run
          example_statuses example_perf example_params example_world
  = Some (UCS_OK, 9%nat).
Proof. reflexivity. Qed.

(** ** Parameter and capability checks *)

Section ChecksFacts.

Context {D : CDouble} {F : UctIfaceFlags} {U : UcpFeatures}.
Variable status_bits : Z.
Variable UCT_PERF_TEST_MAX_FC_WINDOW : Z.

Implicit Types (params : ucx_perf_params_t) (attr : uct_iface_attr_t).

Lemma to_signed_small (x : Z) :
  8 ≤ status_bits → 0 ≤ x < 128 → to_signed status_bits x = x.
Proof.
  intros Hbits Hx. unfold to_signed.
  assert (Hh : 2 ^ 7 ≤ 2 ^ (status_bits - 1)) by (apply Z.pow_le_mono_r; lia).
  replace (2 ^ status_bits) with (2 * 2 ^ (status_bits - 1))
    by (rewrite <- Z.pow_succ_r by lia; f_equal; lia).
  change (2 ^ 7) with 128 in Hh.
  rewrite Z.mod_small by lia. lia.
Qed.

Lemma message_size_range params :
  0 ≤ ucx_perf_get_message_size params < 2 ^ 64.
Proof. unfold ucx_perf_get_message_size. apply Z.mod_pos_bound. lia. Qed.

Lemma uct_required_atomic params attr size :
  is_atomic_cmd (command params) →
  uct_required params attr size =
    Some (__get_atomic_flag size (atomic_flag32 (command params))
            (atomic_flag64 (command params)), 0, 8, 1).
Proof.
  unfold uct_required. intros [-> | [-> | [-> | ->]]]; reflexivity.
Qed.

Lemma check_stride_status (stride : Z) (sizes : list Z) :
  check_stride stride sizes = UCS_OK ∨
  check_stride stride sizes = UCS_ERR_INVALID_PARAM.
Proof.
  induction sizes as [|size sizes IH]; [by left|].
  simpl. case_decide; [by right|done].
Qed.

Lemma check_params_status params :
  ucx_perf_test_check_params params = UCS_OK ∨
  ucx_perf_test_check_params params = UCS_ERR_INVALID_PARAM.
Proof.
  unfold ucx_perf_test_check_params.
  repeat case_decide; try (by right); try (by left).
  apply check_stride_status.
Qed.

(** C5, as the code has it.  For the atomic commands ADD, FADD, SWAP and
    CSWAP, with the general parameter check [ucx_perf_test_check_params],
    which answers OK or INVALID_PARAM, and INVALID_PARAM for a total
    message size below 1:
    - the messaging-API check [ucp_perf_test_check_params] selects AMO32
      for a total message size of 4 and AMO64 for 8 and then returns what
      the general check returns; every other total size that its
      [ucs_status_t] local holds unchanged (below 128) is rejected with
      INVALID_PARAM;
    - the transport-API check [uct_perf_test_check_capabilities], on an
      interface whose query succeeds, rejects every total size other than
      4 and 8: with UNSUPPORTED when the general check passes and with
      INVALID_PARAM when it fails;
    - at a total size of 4, respectively 8, it returns OK exactly when
      the general check passes, the 32-bit, respectively 64-bit,
      capability flag of the command is nonzero and advertised by the
      interface, and the layout is not zero-copy or there is at most one
      message size; otherwise it returns UNSUPPORTED when the general
      check passes and INVALID_PARAM when it fails. *)
Theorem atomic_message_size_check params attr :
  is_atomic_cmd (command params) →
  8 ≤ status_bits →
  let size := ucx_perf_get_message_size params in
  let general := ucx_perf_test_check_params params in
  let cmd := command params in
  let uct :=
    uct_perf_test_check_capabilities UCT_PERF_TEST_MAX_FC_WINDOW params
      (UCS_OK, attr) in
  (general = UCS_OK ∨ general = UCS_ERR_INVALID_PARAM) ∧
  (size < 1 → general = UCS_ERR_INVALID_PARAM) ∧
  (size = 4 →
   ucp_perf_test_check_params status_bits params
     = (general, Some UCP_FEATURE_AMO32)) ∧
  (size = 8 →
   ucp_perf_test_check_params status_bits params
     = (general, Some UCP_FEATURE_AMO64)) ∧
  (size ≠ 4 → size ≠ 8 → size < 128 →
   ucp_perf_test_check_params status_bits params
     = (UCS_ERR_INVALID_PARAM, None)) ∧
  (size ≠ 4 → size ≠ 8 →
   (general = UCS_OK → uct = Some UCS_ERR_UNSUPPORTED) ∧
   (general ≠ UCS_OK → uct = Some UCS_ERR_INVALID_PARAM)) ∧
  (∀ flag,
     (size = 4 ∧ flag = atomic_flag32 cmd) ∨ (size = 8 ∧ flag = atomic_flag64 cmd) →
     let accepted :=
       general = UCS_OK ∧ flag ≠ 0 ∧ Z.land (cap_flags attr) flag = flag ∧
       (uct_data_layout params = UCT_PERF_DATA_LAYOUT_ZCOPY →
        msg_size_cnt params ≤ 1) in
     (uct = Some UCS_OK ↔ accepted) ∧
     (general = UCS_OK → ¬ accepted → uct = Some UCS_ERR_UNSUPPORTED) ∧
     (general ≠ UCS_OK → uct = Some UCS_ERR_INVALID_PARAM)).
Proof.
  intros Hcmd Hbits size general cmd uct.
  pose proof (message_size_range params) as Hrange. fold size in Hrange.
  pose proof (check_params_status params) as Hgen. fold general in Hgen.
  assert (Hucp : ∀ ms,
    ms = to_signed status_bits size →
    ucp_perf_test_check_params status_bits params =
      match (if decide (ms `mod` 2 ^ 64 = 4) then Some UCP_FEATURE_AMO32
             else if decide (ms `mod` 2 ^ 64 = 8) then Some UCP_FEATURE_AMO64
             else None) with
      | None => (UCS_ERR_INVALID_PARAM, None)
      | Some f => (general, Some f)
      end).
  { intros ms ->. unfold ucp_perf_test_check_params. fold size.
    destruct Hcmd as [-> | [-> | [-> | ->]]]; by repeat case_decide. }
  assert (Huct :
    uct =
    let flag := __get_atomic_flag size (atomic_flag32 cmd) (atomic_flag64 cmd) in
    if decide (general ≠ UCS_OK) then Some general
    else if negb (ucs_test_all_flags (cap_flags attr) flag)
            || bool_decide (flag = 0) then Some UCS_ERR_UNSUPPORTED
    else if decide (size < 0) then Some UCS_ERR_UNSUPPORTED
    else if decide (size > 8) then Some UCS_ERR_UNSUPPORTED
    else if decide (UCT_PERF_DATA_LAYOUT_ZCOPY = uct_data_layout params) then
      uct_check_zcopy params 1
    else Some UCS_OK).
  { unfold uct, uct_perf_test_check_capabilities.
    rewrite decide_False by (by intros ?).
    fold size. rewrite (uct_required_atomic params attr size Hcmd).
    rewrite (decide_False (P := command params = UCX_PERF_CMD_AM))
      by (destruct Hcmd as [?|[?|[?|?]]]; congruence).
    fold general cmd. simpl.
    repeat (case_decide; try done); repeat (case_match; try done). }
  assert (Hfail : general ≠ UCS_OK → uct = Some UCS_ERR_INVALID_PARAM).
  { intros Hg. rewrite Huct. simpl. rewrite decide_True by done.
    destruct Hgen as [? | ->]; done. }
  split; [done|]. split.
  { intros Hsmall. unfold general, ucx_perf_test_check_params. fold size.
    by rewrite decide_True. }
  split; [|split; [|split; [|split]]].
  - intros E. rewrite (Hucp size) by (rewrite to_signed_small; lia).
    rewrite Z.mod_small by lia. by rewrite decide_True.
  - intros E. rewrite (Hucp size) by (rewrite to_signed_small; lia).
    rewrite Z.mod_small by lia. rewrite decide_False by lia.
    by rewrite decide_True.
  - intros N4 N8 Hsmall. rewrite (Hucp size) by (rewrite to_signed_small; lia).
    rewrite Z.mod_small by lia. by rewrite !decide_False by lia.
  - intros N4 N8. split; [|done]. intros Hg. rewrite Huct. simpl.
    rewrite decide_False by (by intros ?).
    unfold __get_atomic_flag.
    rewrite (decide_False (P := size = 4)), (decide_False (P := size = 8)) by done.
    rewrite bool_decide_eq_true_2 by done. by rewrite orb_true_r.
  - intros flag Hflag accepted.
    assert (Hsz : 0 ≤ size ≤ 8) by (destruct Hflag as [[? _]|[? _]]; lia).
    assert (Hflag' :
      __get_atomic_flag size (atomic_flag32 cmd) (atomic_flag64 cmd) = flag).
    { unfold __get_atomic_flag. destruct Hflag as [[-> ->]|[-> ->]]; done. }
    assert (Hok : general = UCS_OK →
      uct = if decide (flag ≠ 0 ∧ Z.land (cap_flags attr) flag = flag ∧
                       (uct_data_layout params = UCT_PERF_DATA_LAYOUT_ZCOPY →
                        msg_size_cnt params ≤ 1))
            then Some UCS_OK else Some UCS_ERR_UNSUPPORTED).
    { intros Hg. rewrite Huct. simpl. rewrite Hflag'.
      rewrite decide_False by (by intros ?).
      unfold ucs_test_all_flags.
      destruct (decide (flag = 0)) as [Hz|Hz].
      { rewrite (bool_decide_eq_true_2 (flag = 0)) by done. rewrite orb_true_r.
        rewrite decide_False by (intros [? _]; done). done. }
      rewrite (bool_decide_eq_false_2 (flag = 0)) by done. rewrite orb_false_r.
      destruct (decide (Z.land (cap_flags attr) flag = flag)) as [Hl|Hl].
      2:{ rewrite bool_decide_eq_false_2 by done. simpl.
          rewrite decide_False by (intros (_ & ? & _); done). done. }
      rewrite bool_decide_eq_true_2 by done. simpl.
      rewrite !decide_False by lia.
      destruct (decide (UCT_PERF_DATA_LAYOUT_ZCOPY = uct_data_layout params))
        as [Hzc|Hzc].
      - unfold uct_check_zcopy.
        destruct (decide (msg_size_cnt params > 1)) as [Hc|Hc].
        + rewrite decide_False
            by (intros (_ & _ & Hcnt); specialize (Hcnt (eq_sym Hzc)); lia).
          done.
        + rewrite decide_False by (intros [_ ?]; lia).
          rewrite decide_True by (split; [done|]; split; [done|]; intros _; lia).
          done.
      - rewrite decide_True by (split; [done|]; split; [done|]; intros ?; congruence).
        done. }
    split; [|split; [|done]].
    + split.
      * intros Hu. destruct (decide (general = UCS_OK)) as [Hg|Hg].
        -- rewrite (Hok Hg) in Hu. case_decide as Hacc; [|done].
           split; [done|]. done.
        -- rewrite (Hfail Hg) in Hu. done.
      * intros (Hg & Hacc). rewrite (Hok Hg). by rewrite decide_True.
    + intros Hg Hnacc. rewrite (Hok Hg).
      rewrite decide_False; [done|]. intros Hacc. apply Hnacc. by split.
Qed.

End ChecksFacts.

Lemma atomic_message_size_check_witness :
  let params := example_atomic_params 4 in
  let attr := example_attr in
  is_atomic_cmd (command params) ∧
  8 ≤ 8 ∧
  let size := ucx_perf_get_message_size params in
  let general := ucx_perf_test_check_params params in
  let cmd := command params in
  let uct := uct_perf_test_check_capabilities 1024 params (UCS_OK, attr) in
  (general = UCS_OK ∨ general = UCS_ERR_INVALID_PARAM) ∧
  (size < 1 → general = UCS_ERR_INVALID_PARAM) ∧
  (size = 4 →
   ucp_perf_test_check_params 8 params = (general, Some UCP_FEATURE_AMO32)) ∧
  (size = 8 →
   ucp_perf_test_check_params 8 params = (general, Some UCP_FEATURE_AMO64)) ∧
  (size ≠ 4 → size ≠ 8 → size < 128 →
   ucp_perf_test_check_params 8 params = (UCS_ERR_INVALID_PARAM, None)) ∧
  (size ≠ 4 → size ≠ 8 →
   (general = UCS_OK → uct = Some UCS_ERR_UNSUPPORTED) ∧
   (general ≠ UCS_OK → uct = Some UCS_ERR_INVALID_PARAM)) ∧
  (∀ flag,
     (size = 4 ∧ flag = atomic_flag32 cmd) ∨ (size = 8 ∧ flag = atomic_flag64 cmd) →
     let accepted :=
       general = UCS_OK ∧ flag ≠ 0 ∧ Z.land (cap_flags attr) flag = flag ∧
       (uct_data_layout params = UCT_PERF_DATA_LAYOUT_ZCOPY →
        msg_size_cnt params ≤ 1) in
     (uct = Some UCS_OK ↔ accepted) ∧
     (general = UCS_OK → ¬ accepted → uct = Some UCS_ERR_UNSUPPORTED) ∧
     (general ≠ UCS_OK → uct = Some UCS_ERR_INVALID_PARAM)).
Proof.
  intros params attr. split; [by left|]. split; [lia|].
  apply (atomic_message_size_check (D := QDouble) 8 1024 params attr);
    [by left|lia].
Defined.

(** C5 as stated fails.  The transport-API check rejects an atomic add of
    5 bytes with UNSUPPORTED, not INVALID_PARAM.  And the messaging-API
    check, which keeps the total size in a [ucs_status_t], accepts sizes
    that are neither 4 nor 8: 2^32 + 4 for a 32-bit and for an 8-bit
    status type, 260 for an 8-bit one. *)
Lemma atomic_message_size_check_counterexample :
  ucx_perf_get_message_size (example_atomic_params 5) = 5 ∧
  uct_perf_test_check_capabilities 1024 (example_atomic_params 5)
    (UCS_OK, example_attr) = Some UCS_ERR_UNSUPPORTED ∧
  ucx_perf_get_message_size (example_atomic_params (2 ^ 32 + 4)) = 2 ^ 32 + 4 ∧
  ucp_perf_test_check_params 32 (example_atomic_params (2 ^ 32 + 4))
    = (UCS_OK, Some UCP_FEATURE_AMO32) ∧
  ucp_perf_test_check_params 8 (example_atomic_params (2 ^ 32 + 4))
    = (UCS_OK, Some UCP_FEATURE_AMO32) ∧
  ucp_perf_test_check_params 8 (example_atomic_params 260)
    = (UCS_OK, Some UCP_FEATURE_AMO32).
Proof. repeat split. Qed.

(** The checks on the sizes the specification names. *)
Example ucp_check_size_4 :
  ucp_perf_test_check_params 8 (example_atomic_params 4)
  = (UCS_OK, Some UCP_FEATURE_AMO32).
Proof. reflexivity. Qed.

Example ucp_check_size_8 :
  ucp_perf_test_check_params 8 (example_atomic_params 8)
  = (UCS_OK, Some UCP_FEATURE_AMO64).
Proof. reflexivity. Qed.

Example ucp_check_size_5 :
  ucp_perf_test_check_params 8 (example_atomic_params 5)
  = (UCS_ERR_INVALID_PARAM, None).
Proof. reflexivity. Qed.

Example uct_check_size_4 :
  uct_perf_test_check_capabilities 1024 (example_atomic_params 4)
    (UCS_OK, example_attr) = Some UCS_OK.
Proof. reflexivity. Qed.

Example uct_check_size_0 :
  uct_perf_test_check_capabilities 1024 (example_atomic_params 0)
    (UCS_OK, example_attr) = Some UCS_ERR_INVALID_PARAM.
Proof. reflexivity. Qed.

(** An atomic add of 4 bytes given as two sizes of 2 bytes in the
    zero-copy layout: the capability is advertised, yet the check answers
    UNSUPPORTED, because an atomic takes one message size. *)
Example uct_check_zcopy_two_sizes :
  uct_perf_test_check_capabilities 1024
    {| api := UCX_PERF_API_UCT; command := UCX_PERF_CMD_ADD;
       test_type := UCX_PERF_TEST_TYPE_STREAM_UNI;
       thread_mode := UCS_THREAD_MODE_SINGLE; thread_count := 1; flags := 0;
       warmup_iter := 0; max_iter := 1000000;
       max_time := inject_Z 0; report_interval := inject_Z 1;
       msg_size_list := [2; 2]; msg_size_cnt := 2; iov_stride := 0;
       max_outstanding := 1; am_hdr_size := 8;
       uct_data_layout := UCT_PERF_DATA_LAYOUT_ZCOPY; uct_fc_window := 0 |}
    (UCS_OK, example_attr) = Some UCS_ERR_UNSUPPORTED.
Proof. reflexivity. Qed.

(** ** Rendezvous status exchange *)

Section ExchangeFacts.

Context {U : UcpFeatures}.
Variable UCX_PERF_TEST_FLAG_VERBOSE : Z.

Implicit Types (rte : rte_t) (status s c : ucs_status_t) (l : list nat).

Lemma collect_ok recv c l :
  collect recv c l = UCS_OK ↔ c = UCS_OK ∧ ∀ i, i ∈ l → recv i = UCS_OK.
Proof.
  unfold collect. revert c. induction l as [|i l IH]; intros c; simpl.
  - split; [intros ->; split; [done|]; intros i Hi; inv Hi|by intros [-> _]].
  - rewrite IH. destruct (decide (recv i ≠ UCS_OK)) as [Hi|Hi].
    + split; [intros [? _]; done|].
      intros [_ Hall]. destruct Hi. apply Hall. left.
    + apply dec_stable in Hi. split.
      * intros [-> Hall]. split; [done|]. intros j Hj.
        apply elem_of_cons in Hj as [->|Hj]; [done|by apply Hall].
      * intros [-> Hall]. split; [done|]. intros j Hj. apply Hall. by right.
Qed.

Lemma collect_keep recv s l :
  (∀ i, i ∈ l → recv i = UCS_OK ∨ recv i = s) → collect recv s l = s.
Proof.
  unfold collect. induction l as [|i l IH]; intros Hall; simpl; [done|].
  assert (Hl : ∀ j, j ∈ l → recv j = UCS_OK ∨ recv j = s).
  { intros j Hj. apply Hall. by right. }
  destruct (Hall i) as [Hi|Hi]; [left|..].
  - rewrite Hi. rewrite decide_False by (by intros ?). by apply IH.
  - rewrite Hi. case_decide; by apply IH.
Qed.

Lemma collect_single recv c s l :
  s ≠ UCS_OK →
  (∀ i, i ∈ l → recv i = UCS_OK ∨ recv i = s) →
  (∃ k, k ∈ l ∧ recv k = s) →
  collect recv c l = s.
Proof.
  intros Hs. revert c. induction l as [|i l IH]; intros c Hall [k [Hk Hrk]].
  - inv Hk.
  - assert (Hl : ∀ j, j ∈ l → recv j = UCS_OK ∨ recv j = s).
    { intros j Hj. apply Hall. by right. }
    unfold collect. simpl. fold (collect recv).
    destruct (decide (recv i = s)) as [Hi|Hi].
    + rewrite Hi, decide_True by done. by apply collect_keep.
    + destruct (Hall i) as [Hok|?]; [left|..|done].
      rewrite Hok, decide_False by (by intros ?).
      apply IH; [done|]. exists k. split; [|done].
      apply elem_of_cons in Hk as [->|Hk]; [congruence|done].
Qed.

Lemma exchange_status_collect rte status :
  ucp_perf_test_exchange_status rte status =
    collect (rte_recv_status rte status) UCS_OK (seq 0 (group_size rte)).
Proof. reflexivity. Qed.

(** The loop over the peers only receives, creates endpoints and unpacks
    remote keys. *)
Lemma connect_peers_events o verbose index l e :
  e ∈ snd (connect_peers o verbose index l) →
  ∃ i, e = SeRecv i ∨ e = SeEpCreate i ∨ e = SeRkeyUnpack i.
Proof.
  induction l as [|i l IH]; simpl; [intros H; inv H|].
  destruct (connect_peers o verbose index l) as [exit trace].
  repeat case_decide; simpl in *; try done; intros He;
    repeat (apply elem_of_cons in He as [->|He]; [eauto 6|]);
    try (by apply IH); inv He.
Qed.

Lemma connect_peers_no_destroy o verbose index l :
  (SeDestroyEps ∉ snd (connect_peers o verbose index l)) ∧
  (SeAllocPeers ∉ snd (connect_peers o verbose index l)).
Proof.
  split; intros [i [?|[?|?]]]%connect_peers_events; done.
Qed.

End ExchangeFacts.

Section SetupEndpointsFacts.

Context {U : UcpFeatures}.
Variable UCX_PERF_TEST_FLAG_VERBOSE : Z.

Implicit Types (rte : rte_t) (o : setup_oracle) (status : ucs_status_t).

Lemma exchange_status_ok rte status :
  (group_index rte < group_size rte)%nat →
  ucp_perf_test_exchange_status rte status = UCS_OK ↔
    status = UCS_OK ∧
    ∀ i, (i < group_size rte)%nat → i ≠ group_index rte →
         peer_status rte i = UCS_OK.
Proof.
  intros Hidx. rewrite exchange_status_collect, collect_ok.
  unfold rte_recv_status. split.
  - intros [_ Hall]. split.
    + specialize (Hall (group_index rte)). rewrite decide_True in Hall by done.
      apply Hall, elem_of_seq. lia.
    + intros i Hi Hne. specialize (Hall i). rewrite decide_False in Hall by done.
      apply Hall, elem_of_seq. lia.
  - intros [-> Hall]. split; [done|]. intros i Hi%elem_of_seq.
    case_decide; [done|]. apply Hall; [lia|done].
Qed.

Lemma exchange_status_single (n : nat) (contrib : nat → ucs_status_t) (k p : nat) :
  (k < n)%nat → contrib k ≠ UCS_OK →
  (∀ i, (i < n)%nat → i ≠ k → contrib i = UCS_OK) →
  ucp_perf_test_exchange_status
    {| group_size := n; group_index := p; peer_status := contrib |} (contrib p)
  = contrib k.
Proof.
  intros Hk Hne Hothers. rewrite exchange_status_collect. simpl.
  assert (Hrecv : ∀ i,
    rte_recv_status {| group_size := n; group_index := p; peer_status := contrib |}
      (contrib p) i = contrib i).
  { intros i. unfold rte_recv_status. simpl. by case_decide; subst. }
  apply collect_single; [done| |].
  - intros i Hi%elem_of_seq. rewrite Hrecv.
    destruct (decide (i = k)) as [->|]; [by right|left]. apply Hothers; [lia|done].
  - exists k. split; [apply elem_of_seq; lia|]. apply Hrecv.
Qed.

Lemma setup_endpoints_tears_down rte o flags features status :
  let r := ucp_perf_test_setup_endpoints UCX_PERF_TEST_FLAG_VERBOSE
             rte o flags features in
  fst r = Returned status → status ≠ UCS_OK →
  SeAllocPeers ∈ snd r → SeDestroyEps ∈ snd r.
Proof.
  unfold ucp_perf_test_setup_endpoints.
  set (verbose := bool_decide (Z.land flags UCX_PERF_TEST_FLAG_VERBOSE ≠ 0)).
  set (with_rkey := bool_decide _).
  pose proof (connect_peers_no_destroy o verbose (group_index rte)
                (seq 0 (group_size rte))) as [_ Hloop].
  destruct (connect_peers o verbose (group_index rte) (seq 0 (group_size rte)))
    as [exit loop].
  simpl in Hloop. cbv zeta.
  repeat (case_decide || case_match); simpl; intros Hret Hne Halloc;
    simplify_eq; try done;
    repeat (rewrite elem_of_app || rewrite elem_of_cons); auto 10;
    exfalso;
    repeat (rewrite elem_of_app in Halloc || rewrite elem_of_cons in Halloc);
    rewrite ?elem_of_nil in Halloc; intuition congruence.
Qed.

Lemma setup_endpoints_success rte o flags features loop :
  o_get_address o = UCS_OK → o_rkey_pack o = UCS_OK →
  o_calloc_peers o = true → o_malloc_buffer o = true →
  connect_peers o (bool_decide (Z.land flags UCX_PERF_TEST_FLAG_VERBOSE ≠ 0))
    (group_index rte) (seq 0 (group_size rte)) = (LoopDone, loop) →
  let r := ucp_perf_test_setup_endpoints UCX_PERF_TEST_FLAG_VERBOSE
             rte o flags features in
  let collective := ucp_perf_test_exchange_status rte UCS_OK in
  fst r = Returned collective ∧
  (collective ≠ UCS_OK → last (snd r) = Some SeDestroyEps) ∧
  (collective = UCS_OK → SeDestroyEps ∉ snd r).
Proof.
  intros Haddr Hpack Hcalloc Hmalloc Hloop r collective. unfold r. clear r.
  pose proof (connect_peers_no_destroy o
                (bool_decide (Z.land flags UCX_PERF_TEST_FLAG_VERBOSE ≠ 0))
                (group_index rte) (seq 0 (group_size rte))) as [Hnd _].
  unfold ucp_perf_test_setup_endpoints.
  rewrite Haddr, Hpack, Hcalloc, Hmalloc, Hloop in *. simpl in Hnd. simpl.
  assert ((if bool_decide
                (Z.land features
                   (Z.lor (Z.lor UCP_FEATURE_RMA UCP_FEATURE_AMO32)
                      UCP_FEATURE_AMO64) ≠ 0)
           then UCS_OK else UCS_OK) = UCS_OK) as Hsame by (by case_match).
  rewrite Hsame.
  rewrite decide_False by (by intros ?). fold collective.
  destruct (decide (collective ≠ UCS_OK)) as [Hc|Hc]; simpl.
  - split; [done|]. split; [|done]. intros _. by rewrite last_snoc.
  - apply dec_stable in Hc. split; [done|]. split; [done|]. intros _.
    case_bool_decide; simpl;
      repeat (rewrite elem_of_app || rewrite elem_of_cons);
      rewrite ?elem_of_nil; intuition congruence.
Qed.

(** C4.  With the rendezvous collaborator delivering to each peer what
    every peer posted:
    - the status exchange returns UCS_OK if and only if the local status
      and every status received from another peer are UCS_OK;
    - when exactly one peer contributes a non-OK status, the exchange call
      of every peer returns that status;
    - in [ucp_perf_test_setup_endpoints], when the local set-up has
      succeeded the function returns the collective status, and destroys
      its endpoints as its last act when that status is non-OK; in
      general, whenever it returns a non-OK status after it has allocated
      its peer table, it has destroyed its endpoints. *)
Theorem status_exchange_collective rte :
  (group_index rte < group_size rte)%nat →
  (∀ status,
     ucp_perf_test_exchange_status rte status = UCS_OK ↔
       status = UCS_OK ∧
       ∀ i, (i < group_size rte)%nat → i ≠ group_index rte →
            peer_status rte i = UCS_OK) ∧
  (∀ (contrib : nat → ucs_status_t) (k : nat),
     (k < group_size rte)%nat → contrib k ≠ UCS_OK →
     (∀ i, (i < group_size rte)%nat → i ≠ k → contrib i = UCS_OK) →
     ∀ p, (p < group_size rte)%nat →
       ucp_perf_test_exchange_status
         {| group_size := group_size rte; group_index := p;
            peer_status := contrib |} (contrib p)
       = contrib k) ∧
  (∀ o flags features loop,
     o_get_address o = UCS_OK → o_rkey_pack o = UCS_OK →
     o_calloc_peers o = true → o_malloc_buffer o = true →
     connect_peers o (bool_decide (Z.land flags UCX_PERF_TEST_FLAG_VERBOSE ≠ 0))
       (group_index rte) (seq 0 (group_size rte)) = (LoopDone, loop) →
     let r := ucp_perf_test_setup_endpoints UCX_PERF_TEST_FLAG_VERBOSE
                rte o flags features in
     let collective := ucp_perf_test_exchange_status rte UCS_OK in
     fst r = Returned collective ∧
     (collective ≠ UCS_OK → last (snd r) = Some SeDestroyEps) ∧
     (collective = UCS_OK → SeDestroyEps ∉ snd r)) ∧
  (∀ o flags features status,
     let r := ucp_perf_test_setup_endpoints UCX_PERF_TEST_FLAG_VERBOSE
                rte o flags features in
     fst r = Returned status → status ≠ UCS_OK →
     SeAllocPeers ∈ snd r → SeDestroyEps ∈ snd r).
Proof.
  intros Hidx. split; [|split; [|split]].
  - intros status. by apply exchange_status_ok.
  - intros contrib k Hk Hne Hothers p _. by apply exchange_status_single.
  - intros o flags features loop. by apply setup_endpoints_success.
  - intros o flags features status. by apply setup_endpoints_tears_down.
Qed.

End SetupEndpointsFacts.

Lemma status_exchange_collective_witness :
  let rte := example_rte in
  (group_index rte < group_size rte)%nat ∧
  (∀ status,
     ucp_perf_test_exchange_status rte status = UCS_OK ↔
       status = UCS_OK ∧
       ∀ i, (i < group_size rte)%nat → i ≠ group_index rte →
            peer_status rte i = UCS_OK) ∧
  (∀ (contrib : nat → ucs_status_t) (k : nat),
     (k < group_size rte)%nat → contrib k ≠ UCS_OK →
     (∀ i, (i < group_size rte)%nat → i ≠ k → contrib i = UCS_OK) →
     ∀ p, (p < group_size rte)%nat →
       ucp_perf_test_exchange_status
         {| group_size := group_size rte; group_index := p;
            peer_status := contrib |} (contrib p)
       = contrib k) ∧
  (∀ o flags features loop,
     o_get_address o = UCS_OK → o_rkey_pack o = UCS_OK →
     o_calloc_peers o = true → o_malloc_buffer o = true →
     connect_peers o (bool_decide (Z.land flags 1 ≠ 0))
       (group_index rte) (seq 0 (group_size rte)) = (LoopDone, loop) →
     let r := ucp_perf_test_setup_endpoints 1 rte o flags features in
     let collective := ucp_perf_test_exchange_status rte UCS_OK in
     fst r = Returned collective ∧
     (collective ≠ UCS_OK → last (snd r) = Some SeDestroyEps) ∧
     (collective = UCS_OK → SeDestroyEps ∉ snd r)) ∧
  (∀ o flags features status,
     let r := ucp_perf_test_setup_endpoints 1 rte o flags features in
     fst r = Returned status → status ≠ UCS_OK →
     SeAllocPeers ∈ snd r → SeDestroyEps ∈ snd r).
Proof.
  intros rte. split; [unfold rte; simpl; lia|].
  apply (status_exchange_collective (U := example_features) 1 rte).
  unfold rte; simpl; lia.
Defined.

(** Scenario 6 of the specification, seen from peer 1 of three: its own
    set-up succeeds, peer 2 reports NO_MEMORY; peer 1 returns NO_MEMORY
    and destroys its endpoints. *)
Example setup_endpoints_peer_failure :
  ucp_perf_test_setup_endpoints 1 example_rte example_oracle 0 UCP_FEATURE_RMA
  = (Returned UCS_ERR_NO_MEMORY,
     [SeGetAddress; SeRkeyPack; SePostVec 3; SeReleaseAddress; SeExchangeVec;
      SeAllocPeers; SeRecv 0; SeEpCreate 0; SeRkeyUnpack 0;
      SeRecv 2; SeEpCreate 2; SeRkeyUnpack 2;
      SeExchangeStatus UCS_OK; SeDestroyEps]).
Proof. reflexivity. Qed.

(** The same scenario seen from the failing peer 2, whose [ucp_rkey_pack]
    returns NO_MEMORY: it has no endpoints yet and returns its own error. *)
Example setup_endpoints_local_failure :
  ucp_perf_test_setup_endpoints 1
    {| group_size := 3; group_index := 2; peer_status := λ _, UCS_OK |}
    {| o_get_address := UCS_OK; o_rkey_pack := UCS_ERR_NO_MEMORY;
       o_calloc_peers := true; o_malloc_buffer := true;
       o_ep_create := λ _, UCS_OK; o_remote_rkey_size := λ _, 16;
       o_rkey_unpack := λ _, UCS_OK |}
    0 UCP_FEATURE_RMA
  = (Returned UCS_ERR_NO_MEMORY,
     [SeGetAddress; SeRkeyPack; SeReleaseAddress;
      SeExchangeStatus UCS_ERR_NO_MEMORY]).
Proof. reflexivity. Qed.

(** With two failing peers the exchange returns the status of the one with
    the higher index. *)
Example exchange_status_two_failures :
  ucp_perf_test_exchange_status
    {| group_size := 3; group_index := 0;
       peer_status := λ i, if decide (i = 1%nat) then UCS_ERR_NO_MEMORY
                           else UCS_ERR_IO_ERROR |} UCS_OK
  = UCS_ERR_IO_ERROR.
Proof. reflexivity. Qed.

(** ** The worker: thread mode *)

Section ThreadModeFacts.

Context {D : CDouble} {F : UctIfaceFlags} {U : UcpFeatures}.
Variable ucp_ep_config_key_t : Type.
Variable ucp_ep_config_params_t : Type.
Variable UCP_THREAD_IS_REQUIRED : ucp_mt_type_t → bool.
Variable UCP_WORKER_PARAM_FIELD_THREAD_MODE : Z.
Variable UCP_WORKER_ATTR_FIELD_THREAD_MODE : Z.
Variable UCT_MD_FLAG_REG : Z.
Variable UCT_DEVICE_NAME_MAX : nat.
Variable ucp_context_uct_atomic_iface_flags : ucp_context_t → Z.
Variable ucp_wireup_amo_score_func : ucp_context_t → Z → uct_iface_attr_t → double.

(** No lock is reported as required for the lock type NONE.  This holds
    of the macro in a build with and in a build without multi-threading
    support. *)
Hypothesis thread_not_required_none :
  UCP_THREAD_IS_REQUIRED UCP_MT_TYPE_NONE = false.

Implicit Types (ctx : ucp_context_t) (params : ucp_worker_params_t)
  (worker : ucp_worker_t ucp_ep_config_key_t ucp_ep_config_params_t).

Lemma ucp_worker_create_mt_type ctx params attrs worker :
  ucp_worker_create ucp_ep_config_key_t ucp_ep_config_params_t
    UCP_WORKER_PARAM_FIELD_THREAD_MODE UCT_MD_FLAG_REG UCT_DEVICE_NAME_MAX
    ucp_context_uct_atomic_iface_flags ucp_wireup_amo_score_func
    ctx params attrs = Ret worker →
  mt_type _ _ worker =
    if decide (Z.land (wp_field_mask params) UCP_WORKER_PARAM_FIELD_THREAD_MODE ≠ 0
               ∧ wp_thread_mode params = UCS_THREAD_MODE_MULTI)
    then (if use_mt_mutex ctx then UCP_MT_TYPE_MUTEX else UCP_MT_TYPE_SPINLOCK)
    else UCP_MT_TYPE_NONE.
Proof.
  unfold ucp_worker_create, rbind. intros Hcreate.
  destruct (ucp_worker_init_atomic_tls _ _ _ _ _ _ _) as [mask| |]; [|done..].
  injection Hcreate as <-. simpl.
  repeat case_decide; try done; tauto.
Qed.

(** C10.  For every thread mode other than MULTI, SERIALIZED included, a
    worker that [ucp_worker_create] hands out has lock type NONE, and a
    [ucp_worker_query] for the thread mode on it reports SINGLE; a worker
    that reports MULTI was created with thread mode MULTI. *)
Theorem ucp_worker_thread_mode ctx params attrs worker attr :
  ucp_worker_create ucp_ep_config_key_t ucp_ep_config_params_t
    UCP_WORKER_PARAM_FIELD_THREAD_MODE UCT_MD_FLAG_REG UCT_DEVICE_NAME_MAX
    ucp_context_uct_atomic_iface_flags ucp_wireup_amo_score_func
    ctx params attrs = Ret worker →
  Z.land (wa_field_mask attr) UCP_WORKER_ATTR_FIELD_THREAD_MODE ≠ 0 →
  let reported :=
    wa_thread_mode
      (snd (ucp_worker_query _ _ UCP_THREAD_IS_REQUIRED
              UCP_WORKER_ATTR_FIELD_THREAD_MODE worker attr)) in
  (wp_thread_mode params ≠ UCS_THREAD_MODE_MULTI →
   mt_type _ _ worker = UCP_MT_TYPE_NONE ∧ reported = UCS_THREAD_MODE_SINGLE) ∧
  (reported = UCS_THREAD_MODE_MULTI →
   wp_thread_mode params = UCS_THREAD_MODE_MULTI ∧
   Z.land (wp_field_mask params) UCP_WORKER_PARAM_FIELD_THREAD_MODE ≠ 0) ∧
  (reported = UCS_THREAD_MODE_SINGLE ∨ reported = UCS_THREAD_MODE_MULTI).
Proof.
  intros Hcreate Hfield reported.
  pose proof (ucp_worker_create_mt_type ctx params attrs worker Hcreate) as Hmt.
  subst reported. unfold ucp_worker_query. simpl.
  rewrite decide_True by done. simpl. rewrite Hmt.
  split; [|split].
  - intros Hmode. rewrite decide_False by (intros [_ ?]; congruence).
    by rewrite thread_not_required_none.
  - case_decide as Hc; [by destruct Hc|].
    by rewrite thread_not_required_none.
  - match goal with
    | |- context [UCP_THREAD_IS_REQUIRED ?t] =>
        destruct (UCP_THREAD_IS_REQUIRED t); [by right|by left]
    end.
Qed.

End ThreadModeFacts.

(** ** The worker: endpoint configurations *)

Section EpConfigFacts.

Context {D : CDouble} {F : UctIfaceFlags} {U : UcpFeatures}.
Variable K : Type.
Variable P : Type.
Variable ucp_ep_config_is_equal : K → K → bool.
Variable ucp_ep_config_init : ucp_context_t → list uct_iface_attr_t → K → P.

(** [ucp_ep_config_is_equal] decides the structural equality of keys. *)
Hypothesis is_equal_spec : ∀ a b, ucp_ep_config_is_equal a b = true ↔ a = b.

Implicit Types (worker : ucp_worker_t K P) (k : K)
  (slots : list (option (ucp_ep_config_t K P))).

Local Abbreviation search := (search_ep_config K P ucp_ep_config_is_equal).
Local Abbreviation get :=
  (ucp_worker_get_ep_config K P ucp_ep_config_is_equal ucp_ep_config_init).

Lemma search_app slots1 slots2 idx k :
  search (slots1 ++ slots2) idx k =
    match search slots1 idx k with
    | Ret None => search slots2 (idx + Z.of_nat (length slots1)) k
    | r => r
    end.
Proof.
  revert idx. induction slots1 as [|[c|] slots1 IH]; intros idx; simpl.
  - f_equal. lia.
  - case_match; [done|]. rewrite IH. case_match; [|done..].
    case_match; [done|]. f_equal. lia.
  - done.
Qed.

(** On written slots the search returns: the first index whose key equals
    [k], or nothing when no key does. *)
Lemma search_written slots idx k :
  (∀ i : nat, (i < length slots)%nat → ∃ c, slots !! i = Some (Some c)) →
  (∃ j : nat, search slots idx k = Ret (Some (idx + Z.of_nat j)) ∧
       (∃ c, slots !! j = Some (Some c) ∧ key _ _ c = k) ∧
       ∀ j' c', (j' < j)%nat → slots !! j' = Some (Some c') → key _ _ c' ≠ k) ∨
  (search slots idx k = Ret None ∧
   ∀ j c, slots !! j = Some (Some c) → key _ _ c ≠ k).
Proof.
  revert idx. induction slots as [|s slots IH]; intros idx Hw.
  - right. split; [done|]. intros j c Hj. done.
  - destruct (Hw 0%nat) as [c Hc]; [simpl; lia|]. simpl in Hc.
    injection Hc as ->. simpl.
    destruct (ucp_ep_config_is_equal (key _ _ c) k) eqn:Heq.
    + left. exists 0%nat. split; [f_equal; f_equal; lia|]. split.
      * exists c. split; [done|]. by apply is_equal_spec.
      * intros j' c' Hj'. lia.
    + assert (Hne : key _ _ c ≠ k).
      { intros ?%is_equal_spec. congruence. }
      destruct (IH (idx + 1)) as [(j & Hs & Hj & Hfirst)|[Hs Hnone]].
      { intros i Hi. apply (Hw (S i)). simpl. lia. }
      * left. exists (S j). split; [rewrite Hs; do 2 f_equal; lia|].
        split; [done|]. intros [|j'] c' Hlt Hc'; simpl in Hc'.
        -- by injection Hc' as <-.
        -- eapply Hfirst; [|done]. lia.
      * right. split; [done|]. intros [|j] c' Hc'; simpl in Hc'.
        -- by injection Hc' as <-.
        -- by eapply Hnone.
Qed.

Lemma wf_written worker :
  ep_config_wf worker →
  ∀ i : nat,
    (i < length (take (Z.to_nat (ep_config_count _ _ worker)) (ep_config _ _ worker)))%nat →
    ∃ c, take (Z.to_nat (ep_config_count _ _ worker)) (ep_config _ _ worker) !! i
         = Some (Some c).
Proof.
  intros (Hc & Hm & Hl & Hw) i Hi. rewrite length_take in Hi.
  destruct (Hw i) as [c Hc']; [lia|]. exists c.
  rewrite lookup_take_lt by lia. done.
Qed.

(** What one call does, on a well-formed cache. *)
Lemma get_ep_config_cases worker k :
  ep_config_wf worker →
  (∃ i, get worker k = Ret (i, worker) ∧ ep_config_at worker i k ∧
        ∀ i', ep_config_at worker i' k → i ≤ i') ∨
  ((∀ i, ¬ ep_config_at worker i k) ∧
   ep_config_count _ _ worker >= ep_config_max _ _ worker ∧
   get worker k = Abort) ∨
  ((∀ i, ¬ ep_config_at worker i k) ∧
   ep_config_count _ _ worker < ep_config_max _ _ worker ∧
   ∃ worker',
     get worker k = Ret (ep_config_count _ _ worker, worker') ∧
     ep_config_count _ _ worker' = ep_config_count _ _ worker + 1 ∧
     ep_config_max _ _ worker' = ep_config_max _ _ worker ∧
     ep_config _ _ worker' =
       <[Z.to_nat (ep_config_count _ _ worker) :=
           Some {| key := k;
                   derived := ucp_ep_config_init (context _ _ worker)
                                (iface_attrs _ _ worker) k |}]>
         (ep_config _ _ worker)).
Proof.
  intros Hwf. pose proof Hwf as (Hc & Hm & Hl & Hw).
  unfold ucp_worker_get_ep_config.
  destruct (search_written
              (take (Z.to_nat (ep_config_count _ _ worker)) (ep_config _ _ worker))
              0 k (wf_written worker Hwf))
    as [(j & -> & (c & Hj & Hkey) & Hfirst)|[-> Hnone]]; simpl.
  - apply lookup_take_Some in Hj as [Hj Hlt].
    left. exists (0 + Z.of_nat j). split; [done|]. split.
    + split; [lia|]. exists c. split; [|done].
      by replace (Z.to_nat (0 + Z.of_nat j)) with j by lia.
    + intros i' [Hi' (c' & Hc' & Hk')].
      destruct (decide (0 + Z.of_nat j ≤ i')); [done|]. exfalso.
      apply (Hfirst (Z.to_nat i') c'); [lia| |done].
      rewrite lookup_take_lt by lia. done.
  - assert (Hnot : ∀ i, ¬ ep_config_at worker i k).
    { intros i [Hi (c & Hc' & Hk)]. apply (Hnone (Z.to_nat i) c); [|done].
      rewrite lookup_take_lt by lia. done. }
    right. destruct (decide (ep_config_count _ _ worker >= ep_config_max _ _ worker))
      as [Hfull|Hroom].
    + left. done.
    + right. split; [done|]. split; [lia|].
      unfold at_rsc. rewrite decide_True by lia.
      destruct (ep_config _ _ worker !! Z.to_nat (ep_config_count _ _ worker))
        as [slot|] eqn:Hslot.
      * simpl. eexists. split; [done|]. done.
      * apply lookup_ge_None in Hslot. lia.
Qed.

Lemma get_ep_config_wf worker k i worker' :
  ep_config_wf worker → get worker k = Ret (i, worker') → ep_config_wf worker'.
Proof.
  intros Hwf Hget. pose proof Hwf as (Hc & Hm & Hl & Hw).
  destruct (get_ep_config_cases worker k Hwf)
    as [(i0 & E & _)|[(_ & _ & E)|(_ & Hroom & w1 & E & Hc1 & Hm1 & He1)]];
    rewrite E in Hget; simplify_eq; [done|].
  unfold ep_config_wf. rewrite Hc1, Hm1, He1, length_insert.
  split; [lia|]. split; [done|]. split; [done|].
  intros j Hj. destruct (decide (j = Z.to_nat (ep_config_count _ _ worker))) as [->|].
  - eexists. apply list_lookup_insert_eq. lia.
  - rewrite list_lookup_insert_ne by done. apply Hw. lia.
Qed.

(** After a key has been entered at index [i], a search for it finds it
    there, and every key held before keeps its index. *)
Lemma get_ep_config_again worker k i worker' :
  ep_config_wf worker → get worker k = Ret (i, worker') →
  get worker' k = Ret (i, worker') ∧
  ∀ k0 i0, get worker k0 = Ret (i0, worker) → get worker' k0 = Ret (i0, worker').
Proof.
  intros Hwf Hget. pose proof Hwf as (Hc & Hm & Hl & Hw).
  destruct (get_ep_config_cases worker k Hwf)
    as [(i0 & E & _)|[(_ & _ & E)|(Hnot & Hroom & w1 & E & Hc1 & Hm1 & He1)]];
    rewrite E in Hget; simplify_eq; [done|].
  assert (Htake :
    take (Z.to_nat (ep_config_count _ _ worker')) (ep_config _ _ worker') =
    take (Z.to_nat (ep_config_count _ _ worker)) (ep_config _ _ worker) ++
    [Some {| key := k;
             derived := ucp_ep_config_init (context _ _ worker)
                          (iface_attrs _ _ worker) k |}]).
  { rewrite Hc1, He1.
    replace (Z.to_nat (ep_config_count _ _ worker + 1))
      with (S (Z.to_nat (ep_config_count _ _ worker))) by lia.
    erewrite take_S_r by (apply list_lookup_insert_eq; lia).
    f_equal. apply take_insert_ge. lia. }
  assert (Hlen :
    Z.of_nat (length (take (Z.to_nat (ep_config_count _ _ worker))
                        (ep_config _ _ worker)))
    = ep_config_count _ _ worker).
  { rewrite length_take. lia. }
  split.
  - unfold ucp_worker_get_ep_config. rewrite Htake, search_app.
    destruct (search_written
                (take (Z.to_nat (ep_config_count _ _ worker)) (ep_config _ _ worker))
                0 k (wf_written worker Hwf))
      as [(j & _ & (c & Hj & Hkey) & _)|[-> _]].
    + apply lookup_take_Some in Hj as [Hj Hlt]. exfalso.
      apply (Hnot (Z.of_nat j)). split; [lia|]. exists c.
      by rewrite Nat2Z.id.
    + simpl. rewrite (proj2 (is_equal_spec k k)) by done. simpl.
      rewrite Hlen. done.
  - intros k0 i0 Hget0.
    unfold ucp_worker_get_ep_config in Hget0 |- *. rewrite Htake, search_app.
    destruct (search (take (Z.to_nat (ep_config_count _ _ worker))
                        (ep_config _ _ worker)) 0 k0) as [[j|]| |];
      simpl in *; [by simplify_eq|..|done|done].
    case_decide; [done|]. unfold rbind in Hget0. case_match; [|done..].
    injection Hget0 as Hi0 Hw0.
    apply (f_equal (ep_config_count _ _)) in Hw0. simpl in Hw0. lia.
Qed.

End EpConfigFacts.

Section EpConfigClaim.

Context {D : CDouble} {F : UctIfaceFlags} {U : UcpFeatures}.
Variable K : Type.
Variable P : Type.
Variable ucp_ep_config_is_equal : K → K → bool.
Variable ucp_ep_config_init : ucp_context_t → list uct_iface_attr_t → K → P.
Variable UCP_WORKER_PARAM_FIELD_THREAD_MODE : Z.
Variable UCT_MD_FLAG_REG : Z.
Variable UCT_DEVICE_NAME_MAX : nat.
Variable ucp_context_uct_atomic_iface_flags : ucp_context_t → Z.
Variable ucp_wireup_amo_score_func : ucp_context_t → Z → uct_iface_attr_t → double.

Hypothesis is_equal_spec : ∀ a b, ucp_ep_config_is_equal a b = true ↔ a = b.

Implicit Types (worker : ucp_worker_t K P) (k : K).

Lemma ucp_worker_create_wf ctx params attrs worker :
  0 ≤ num_tls ctx ≤ UINT8_MAX →
  ucp_worker_create K P UCP_WORKER_PARAM_FIELD_THREAD_MODE UCT_MD_FLAG_REG
    UCT_DEVICE_NAME_MAX ucp_context_uct_atomic_iface_flags
    ucp_wireup_amo_score_func ctx params attrs = Ret worker →
  ep_config_wf worker ∧ ep_config_count _ _ worker = 0.
Proof.
  intros Hn. unfold ucp_worker_create, rbind.
  destruct (ucp_worker_init_atomic_tls _ _ _ _ _ _ _) as [mask| |]; [|done..].
  intros [= <-]. unfold ep_config_wf. simpl.
  assert (0 ≤ ucs_min ((num_tls ctx + 1) * (num_tls ctx + 1) * num_tls ctx) UINT8_MAX
          ≤ UINT8_MAX).
  { unfold ucs_min, UINT8_MAX in *. case_decide; nia. }
  rewrite length_replicate. repeat split; lia.
Qed.

Lemma worker_reachable_wf worker :
  worker_reachable K P ucp_ep_config_is_equal ucp_ep_config_init
    UCP_WORKER_PARAM_FIELD_THREAD_MODE UCT_MD_FLAG_REG UCT_DEVICE_NAME_MAX
    ucp_context_uct_atomic_iface_flags ucp_wireup_amo_score_func worker →
  ep_config_wf worker.
Proof.
  induction 1 as [ctx params attrs worker Hn Hc|worker k i worker' _ IH Hget].
  - by eapply ucp_worker_create_wf.
  - by eapply get_ep_config_wf.
Qed.

(** C1.  For every worker, a call [ucp_worker_get_ep_config(worker, k)]
    either returns an index or is fatal.
    - When it returns [i]: [i ≤ 255]; a call with any structurally equal
      key [k'] returns the same index, before and after; every key the
      cache already held keeps its index; and either [k] was held at [i]
      and the cache is unchanged, or [k] was new, [i] is the number of
      entries held so far and the cache holds one entry more: new keys
      receive successive indices in insertion order.
    - It is fatal exactly when the key is not held and the cache already
      holds [ep_config_max] entries. *)
Theorem ucp_worker_get_ep_config_interning worker k :
  worker_reachable K P ucp_ep_config_is_equal ucp_ep_config_init
    UCP_WORKER_PARAM_FIELD_THREAD_MODE UCT_MD_FLAG_REG UCT_DEVICE_NAME_MAX
    ucp_context_uct_atomic_iface_flags ucp_wireup_amo_score_func worker →
  match ucp_worker_get_ep_config K P ucp_ep_config_is_equal ucp_ep_config_init
          worker k with
  | Ret (i, worker') =>
      0 ≤ i ≤ 255 ∧
      (∀ k', ucp_ep_config_is_equal k k' = true →
         ucp_worker_get_ep_config K P ucp_ep_config_is_equal ucp_ep_config_init
           worker k' = Ret (i, worker') ∧
         ucp_worker_get_ep_config K P ucp_ep_config_is_equal ucp_ep_config_init
           worker' k' = Ret (i, worker')) ∧
      (∀ k0 i0,
         ucp_worker_get_ep_config K P ucp_ep_config_is_equal ucp_ep_config_init
           worker k0 = Ret (i0, worker) →
         ucp_worker_get_ep_config K P ucp_ep_config_is_equal ucp_ep_config_init
           worker' k0 = Ret (i0, worker')) ∧
      ((worker' = worker ∧ ep_config_at worker i k) ∨
       ((∀ j, ¬ ep_config_at worker j k) ∧
        i = ep_config_count _ _ worker ∧
        ep_config_count _ _ worker' = ep_config_count _ _ worker + 1))
  | Abort =>
      (∀ j, ¬ ep_config_at worker j k) ∧
      ep_config_count _ _ worker >= ep_config_max _ _ worker
  | Fault => False
  end ∧
  ((∀ j, ¬ ep_config_at worker j k) →
   ep_config_count _ _ worker >= ep_config_max _ _ worker →
   ucp_worker_get_ep_config K P ucp_ep_config_is_equal ucp_ep_config_init
     worker k = Abort).
Proof.
  intros Hwf%worker_reachable_wf. pose proof Hwf as (Hc & Hm & Hl & Hw).
  unfold UINT8_MAX in Hm.
  destruct (get_ep_config_cases K P ucp_ep_config_is_equal ucp_ep_config_init
              is_equal_spec worker k Hwf)
    as [(i & E & Hat & Hmin)|[(Hnot & Hfull & E)|(Hnot & Hroom & w1 & E & Hc1 & Hm1 & He1)]].
  - rewrite E. split.
    + destruct Hat as [Hi Hcfg] eqn:Hat'. clear Hat'.
      split; [lia|]. split.
      { intros k' <-%is_equal_spec. done. }
      split; [done|]. left. split; [done|]. by split.
    + intros Hnot _. by destruct (Hnot i).
  - rewrite E. done.
  - rewrite E. split; [|intros _ ?; lia].
    destruct (get_ep_config_again K P ucp_ep_config_is_equal ucp_ep_config_init
                is_equal_spec worker k _ w1 Hwf E) as [Hagain Hkeep].
    split; [lia|]. split.
    { intros k' <-%is_equal_spec. done. }
    split; [done|]. right. done.
Qed.

End EpConfigClaim.

Lemma example_worker_created :
  example_create UCP_ATOMIC_MODE_CPU UCS_THREAD_MODE_SERIALIZED
    [example_attr_plain; example_attr_plain] = Ret example_worker.
Proof. reflexivity. Qed.

Lemma example_worker_reachable :
  worker_reachable Z unit Z.eqb (λ _ _ _, tt) 1 2 32
    example_atomic_iface_flags example_score example_worker.
Proof.
  apply (reach_create _ _ _ _ _ _ _ _ _ (example_context UCP_ATOMIC_MODE_CPU)
           (example_worker_params UCS_THREAD_MODE_SERIALIZED)
           [example_attr_plain; example_attr_plain]).
  - unfold UINT8_MAX. simpl. lia.
  - exact example_worker_created.
Qed.

Lemma ucp_worker_get_ep_config_interning_witness :
  (∀ a b : Z, (a =? b) = true ↔ a = b) ∧
  worker_reachable Z unit Z.eqb (λ _ _ _, tt) 1 2 32
    example_atomic_iface_flags example_score example_worker ∧
  match ucp_worker_get_ep_config Z unit Z.eqb (λ _ _ _, tt) example_worker 7 with
  | Ret (i, worker') =>
      0 ≤ i ≤ 255 ∧
      (∀ k', (7 =? k') = true →
         ucp_worker_get_ep_config Z unit Z.eqb (λ _ _ _, tt) example_worker k'
           = Ret (i, worker') ∧
         ucp_worker_get_ep_config Z unit Z.eqb (λ _ _ _, tt) worker' k'
           = Ret (i, worker')) ∧
      (∀ k0 i0,
         ucp_worker_get_ep_config Z unit Z.eqb (λ _ _ _, tt) example_worker k0
           = Ret (i0, example_worker) →
         ucp_worker_get_ep_config Z unit Z.eqb (λ _ _ _, tt) worker' k0
           = Ret (i0, worker')) ∧
      ((worker' = example_worker ∧ ep_config_at example_worker i 7) ∨
       ((∀ j, ¬ ep_config_at example_worker j 7) ∧
        i = ep_config_count _ _ example_worker ∧
        ep_config_count _ _ worker' = ep_config_count _ _ example_worker + 1))
  | Abort =>
      (∀ j, ¬ ep_config_at example_worker j 7) ∧
      ep_config_count _ _ example_worker >= ep_config_max _ _ example_worker
  | Fault => False
  end ∧
  ((∀ j, ¬ ep_config_at example_worker j 7) →
   ep_config_count _ _ example_worker >= ep_config_max _ _ example_worker →
   ucp_worker_get_ep_config Z unit Z.eqb (λ _ _ _, tt) example_worker 7 = Abort).
Proof.
  split; [exact Z.eqb_eq|]. split; [exact example_worker_reachable|].
  apply (ucp_worker_get_ep_config_interning (D := QDouble) Z unit Z.eqb
           (λ _ _ _, tt) 1 2 32 example_atomic_iface_flags example_score
           Z.eqb_eq example_worker 7 example_worker_reachable).
Defined.

(** Interning on the example worker: keys 7, 9, 7 get the indices 0, 1, 0. *)
Example get_ep_config_sequence :
  rbind (example_get example_worker 7) (λ '(i1, w1),
  rbind (example_get w1 9) (λ '(i2, w2),
  rbind (example_get w2 7) (λ '(i3, w3),
    Ret (i1, i2, i3, ep_config_count _ _ w3))))
  = Ret (0, 1, 0, 2).
Proof. reflexivity. Qed.

(** A full cache: with [ep_config_max] entries held, a new key is fatal
    and a held key is still found. *)
Example get_ep_config_full :
  let full :=
    {| context := example_context UCP_ATOMIC_MODE_CPU;
       mt_type := UCP_MT_TYPE_NONE; iface_attrs := [];
       atomic_tls := 0; ep_config_max := 2; ep_config_count := 2;
       ep_config := [Some {| key := 7; derived := tt |};
                     Some {| key := 9; derived := tt |}] |} in
  example_get full 11 = Abort ∧ example_get full 9 = Ret (1, full).
Proof. split; reflexivity. Qed.

Lemma ucp_worker_thread_mode_witness :
  let attr := {| wa_field_mask := 1; wa_thread_mode := UCS_THREAD_MODE_MULTI |} in
  let params := example_worker_params UCS_THREAD_MODE_SERIALIZED in
  let reported :=
    wa_thread_mode
      (snd (ucp_worker_query Z unit example_is_required 1 example_worker attr)) in
  example_is_required UCP_MT_TYPE_NONE = false ∧
  ucp_worker_create Z unit 1 2 32 example_atomic_iface_flags example_score
    (example_context UCP_ATOMIC_MODE_CPU) params
    [example_attr_plain; example_attr_plain] = Ret example_worker ∧
  Z.land (wa_field_mask attr) 1 ≠ 0 ∧
  (wp_thread_mode params ≠ UCS_THREAD_MODE_MULTI →
   mt_type _ _ example_worker = UCP_MT_TYPE_NONE ∧
   reported = UCS_THREAD_MODE_SINGLE) ∧
  (reported = UCS_THREAD_MODE_MULTI →
   wp_thread_mode params = UCS_THREAD_MODE_MULTI ∧
   Z.land (wp_field_mask params) 1 ≠ 0) ∧
  (reported = UCS_THREAD_MODE_SINGLE ∨ reported = UCS_THREAD_MODE_MULTI).
Proof.
  intros attr params reported.
  split; [reflexivity|]. split; [reflexivity|]. split; [discriminate|].
  apply (ucp_worker_thread_mode (D := QDouble) Z unit example_is_required
           1 1 2 32 example_atomic_iface_flags example_score eq_refl
           (example_context UCP_ATOMIC_MODE_CPU) params
           [example_attr_plain; example_attr_plain] example_worker attr);
    [reflexivity|discriminate].
Defined.

(** Thread modes on the example context: SERIALIZED gets no lock and
    reports SINGLE; MULTI gets the spinlock and reports MULTI. *)
Example thread_mode_serialized :
  rbind (example_create UCP_ATOMIC_MODE_CPU UCS_THREAD_MODE_SERIALIZED
           [example_attr_plain; example_attr_plain])
    (λ w, Ret (mt_type _ _ w,
               wa_thread_mode
                 (snd (ucp_worker_query Z unit example_is_required 1 w
                         {| wa_field_mask := 1;
                            wa_thread_mode := UCS_THREAD_MODE_MULTI |}))))
  = Ret (UCP_MT_TYPE_NONE, UCS_THREAD_MODE_SINGLE).
Proof. reflexivity. Qed.

Example thread_mode_multi :
  rbind (example_create UCP_ATOMIC_MODE_CPU UCS_THREAD_MODE_MULTI
           [example_attr_plain; example_attr_plain])
    (λ w, Ret (mt_type _ _ w,
               wa_thread_mode
                 (snd (ucp_worker_query Z unit example_is_required 1 w
                         {| wa_field_mask := 1;
                            wa_thread_mode := UCS_THREAD_MODE_SINGLE |}))))
  = Ret (UCP_MT_TYPE_SPINLOCK, UCS_THREAD_MODE_MULTI).
Proof. reflexivity. Qed.

(** ** The worker: atomic resource selection *)

Section ForTls.

Lemma for_tls_inv {S} (ctx : ucp_context_t) (body : S → Z → result S) (s : S)
    (I : nat → S → Prop) :
  I 0%nat s →
  (∀ (i : nat) st, (i < Z.to_nat (num_tls ctx))%nat → I i st →
     ∃ st', body st (Z.of_nat i) = Ret st' ∧ I (Datatypes.S i) st') →
  ∃ st', for_tls ctx body s = Ret st' ∧ I (Z.to_nat (num_tls ctx)) st'.
Proof.
  unfold for_tls. generalize (Z.to_nat (num_tls ctx)) as n.
  induction n as [|n IH]; intros H0 Hstep.
  - exists s. done.
  - destruct IH as (st & Hst & HI); [done|intros i st' Hi; apply Hstep; lia|].
    rewrite seq_S, foldl_app, Hst. simpl.
    destruct (Hstep n st) as (st' & -> & HI'); [lia|done|].
    exists st'. done.
Qed.

Lemma UCS_BIT_nonzero (i : Z) : 0 ≤ i → UCS_BIT i ≠ 0.
Proof.
  intros Hi. unfold UCS_BIT. rewrite Z.shiftl_1_l.
  apply Z.pow_nonzero; lia.
Qed.

Lemma enable_nonzero (mask i : Z) :
  0 ≤ i → ucp_worker_enable_atomic_tl mask i ≠ 0.
Proof.
  intros Hi. unfold ucp_worker_enable_atomic_tl.
  intros [_ H]%Z.lor_eq_0_iff. by apply (UCS_BIT_nonzero i).
Qed.

Lemma land_lor_nonzero (a b f : Z) :
  Z.land (Z.lor a b) f ≠ 0 ↔ Z.land a f ≠ 0 ∨ Z.land b f ≠ 0.
Proof.
  rewrite Z.land_lor_distr_l, Z.lor_eq_0_iff.
  destruct (decide (Z.land a f = 0)), (decide (Z.land b f = 0)); tauto.
Qed.

End ForTls.

Section AtomicsFacts.

Context {D : CDouble} {F : UctIfaceFlags} {U : UcpFeatures}.
Variable K : Type.
Variable P : Type.
Variable UCT_MD_FLAG_REG : Z.
Variable UCT_DEVICE_NAME_MAX : nat.
Variable ucp_context_uct_atomic_iface_flags : ucp_context_t → Z.
Variable ucp_wireup_amo_score_func : ucp_context_t → Z → uct_iface_attr_t → double.

Implicit Types (worker : ucp_worker_t K P).

Local Abbreviation candidate :=
  (device_candidate UCT_MD_FLAG_REG ucp_context_uct_atomic_iface_flags
     ucp_wireup_amo_score_func).

Lemma at_rsc_in {A} (l : list A) (j : Z) :
  0 ≤ j < Z.of_nat (length l) →
  ∃ a, at_rsc l j = Ret a ∧ l !! Z.to_nat j = Some a.
Proof.
  intros Hj. unfold at_rsc. rewrite decide_True by lia.
  destruct (l !! Z.to_nat j) as [a|] eqn:Ha; [by exists a|].
  apply lookup_ge_None in Ha. lia.
Qed.

Lemma strncmp_eq_refl (n : nat) (a : string) : strncmp_eq n a a = true.
Proof. unfold strncmp_eq. apply String.eqb_refl. Qed.

Lemma cpu_atomics_spec worker :
  atomics_wf worker → atomic_tls _ _ worker = 0 →
  ∃ mask,
    ucp_worker_init_cpu_atomics K P worker = Ret mask ∧
    (mask ≠ 0 ↔
     ∃ j, 0 ≤ j < num_tls (context _ _ worker) ∧
          iface_has_flag worker UCT_IFACE_FLAG_ATOMIC_CPU j = true).
Proof.
  intros (Hn & Hr & Ha & Hmd) H0. unfold ucp_worker_init_cpu_atomics.
  destruct (for_tls_inv (context _ _ worker)
    (λ mask rsc_index,
       rbind (at_rsc (iface_attrs _ _ worker) rsc_index) (λ attr,
         if decide (Z.land (cap_flags attr) UCT_IFACE_FLAG_ATOMIC_CPU ≠ 0)
         then Ret (ucp_worker_enable_atomic_tl mask rsc_index)
         else Ret mask))
    (atomic_tls _ _ worker)
    (λ i mask, mask ≠ 0 ↔
       ∃ j, 0 ≤ j < Z.of_nat i ∧
            iface_has_flag worker UCT_IFACE_FLAG_ATOMIC_CPU j = true))
    as (mask & Hmask & HI).
  - rewrite H0. split; [done|]. intros (j & Hj & _). lia.
  - intros i mask Hi HI.
    destruct (at_rsc_in (iface_attrs _ _ worker) (Z.of_nat i)) as (attr & Hat & _);
      [lia|].
    assert (Hflag : iface_has_flag worker UCT_IFACE_FLAG_ATOMIC_CPU (Z.of_nat i)
                    = bool_decide (Z.land (cap_flags attr) UCT_IFACE_FLAG_ATOMIC_CPU ≠ 0)).
    { unfold iface_has_flag. by rewrite Hat. }
    rewrite Hat. simpl.
    destruct (decide (Z.land (cap_flags attr) UCT_IFACE_FLAG_ATOMIC_CPU ≠ 0))
      as [Hc|Hc].
    + eexists. split; [done|]. split.
      * intros _. exists (Z.of_nat i). split; [lia|].
        rewrite Hflag. by apply bool_decide_eq_true_2.
      * intros _. apply enable_nonzero. lia.
    + exists mask. split; [done|]. rewrite HI. split.
      * intros (j & Hj & Hf). exists j. split; [lia|done].
      * intros (j & Hj & Hf). exists j. split; [|done].
        destruct (decide (j = Z.of_nat i)) as [->|]; [|lia].
        rewrite Hflag in Hf. apply bool_decide_eq_true_1 in Hf. done.
  - exists mask. split; [done|]. rewrite HI. rewrite Z2Nat.id by lia. done.
Qed.

(** The first loop of the device policy. *)
Lemma select_best_spec worker :
  atomics_wf worker →
  ∃ st,
    select_best K P UCT_MD_FLAG_REG ucp_context_uct_atomic_iface_flags
      ucp_wireup_amo_score_func worker = Ret st ∧
    (best_rsc st = None →
     ∀ j, 0 ≤ j < num_tls (context _ _ worker) → candidate worker j = false) ∧
    (best_rsc st ≠ None →
     ∃ j, 0 ≤ j < num_tls (context _ _ worker) ∧ candidate worker j = true) ∧
    (∀ b, best_rsc st = Some b →
          0 ≤ b < num_tls (context _ _ worker) ∧
          Z.land (supp_tls st) (UCS_BIT b) ≠ 0).
Proof.
  intros (Hn & Hr & Ha & Hmd). unfold select_best.
  match goal with
  | |- ∃ st, for_tls ?ctx ?body ?s = _ ∧ _ =>
      destruct (for_tls_inv ctx body s
        (λ i st,
           (best_rsc st = None →
            best_score st = d_lit (-1) ∧ best_priority st = 0) ∧
           (best_rsc st = None →
            ∀ j, 0 ≤ j < Z.of_nat i → candidate worker j = false) ∧
           (best_rsc st ≠ None →
            ∃ j, 0 ≤ j < Z.of_nat i ∧ candidate worker j = true) ∧
           (∀ b, best_rsc st = Some b →
                 0 ≤ b < Z.of_nat i ∧ Z.land (supp_tls st) (UCS_BIT b) ≠ 0)))
        as (st & Hst & HI)
  end.
  - simpl. split; [done|]. split; [intros _ j Hj; lia|]. split; [done|]. done.
  - intros i st Hi (Hinit & Hnone & Hsome & Hbest).
    destruct (at_rsc_in (tl_rscs (context _ _ worker)) (Z.of_nat i))
      as (rsc & Hrsc & Hrsc'); [lia|].
    rewrite Nat2Z.id in Hrsc'.
    destruct (at_rsc_in (tl_mds (context _ _ worker)) (md_index rsc))
      as (md_flags & Hmdf & _); [by eapply Hmd|].
    destruct (at_rsc_in (iface_attrs _ _ worker) (Z.of_nat i))
      as (attr & Hattr & _); [lia|].
    assert (Hcand : candidate worker (Z.of_nat i) =
      bool_decide (Z.land md_flags UCT_MD_FLAG_REG ≠ 0)
      && ucs_test_all_flags (cap_flags attr)
           (Z.lor (ucp_context_uct_atomic_iface_flags (context _ _ worker))
                  UCT_IFACE_FLAG_ATOMIC_DEVICE)
      && (d_gtb (ucp_wireup_amo_score_func (context _ _ worker) (Z.of_nat i) attr)
            (d_lit (-1))
          || (d_eqb (ucp_wireup_amo_score_func (context _ _ worker) (Z.of_nat i) attr)
                (d_lit (-1))
              && bool_decide (priority attr `mod` 2 ^ 8 > 0)))).
    { unfold device_candidate. by rewrite Hrsc, Hmdf, Hattr. }
    assert (Hext : ∀ c : bool, candidate worker (Z.of_nat i) = c →
      (c = false →
       (∀ j, 0 ≤ j < Z.of_nat i → candidate worker j = false) →
       ∀ j, 0 ≤ j < Z.of_nat (S i) → candidate worker j = false) ∧
      (c = true → ∃ j, 0 ≤ j < Z.of_nat (S i) ∧ candidate worker j = true)).
    { intros c Hc. split.
      - intros -> Hall j Hj. destruct (decide (j = Z.of_nat i)) as [->|]; [done|].
        apply Hall. lia.
      - intros ->. exists (Z.of_nat i). split; [lia|done]. }
    assert (Hkeep : ∀ b x, Z.land (supp_tls st) (UCS_BIT b) ≠ 0 →
                           Z.land (Z.lor (supp_tls st) x) (UCS_BIT b) ≠ 0).
    { intros b x Hb. apply land_lor_nonzero. by left. }
    assert (Hself : ∀ s, Z.land (Z.lor s (UCS_BIT (Z.of_nat i)))
                           (UCS_BIT (Z.of_nat i)) ≠ 0).
    { intros s. apply land_lor_nonzero. right. rewrite Z.land_diag.
      apply UCS_BIT_nonzero. lia. }
    rewrite Hrsc. simpl. rewrite Hmdf. simpl. rewrite Hattr. simpl.
    destruct (bool_decide (Z.land md_flags UCT_MD_FLAG_REG ≠ 0)) eqn:Hreg; simpl;
      [destruct (ucs_test_all_flags _ _) eqn:Hall; simpl|].
    + (* eligible *)
      simpl in Hcand.
      destruct (best_rsc st) as [b|] eqn:Hb.
      * (* a best is held already; it stays or is replaced *)
        destruct (Hsome ltac:(done)) as (j & Hj & Hcj).
        destruct (Hbest b eq_refl) as [Hbi Hbs].
        case_match; eexists; (split; [done|]); simpl;
          (split; [done|]); (split; [done|]);
          (split; [intros _; exists j; split; [lia|done]|]);
          intros b' [= <-].
        -- split; [lia|]. apply Hself.
        -- split; [lia|]. by apply Hkeep.
      * (* no best yet: the test is the one against the initial best *)
        destruct (Hinit eq_refl) as [Hsc Hpr]. rewrite Hsc, Hpr, <- Hcand.
        destruct (Hext _ eq_refl) as [Hf Ht].
        destruct (candidate worker (Z.of_nat i)) eqn:Hc;
          eexists; (split; [done|]); simpl.
        -- split; [done|]. split; [done|]. split; [intros _; by apply Ht|].
           intros b' [= <-]. split; [lia|]. apply Hself.
        -- split; [done|]. split; [intros _; by apply Hf, Hnone|].
           split; [done|]. done.
    + (* the interface lacks a capability: continue *)
      rewrite andb_false_r in Hcand. simpl in Hcand.
      destruct (Hext _ Hcand) as [Hf _].
      exists st. split; [done|]. split; [done|].
      split; [intros Hb; by apply Hf, Hnone|].
      split.
      * intros Hb. destruct (Hsome Hb) as (j & Hj & Hcj). exists j. split; [lia|done].
      * intros b Hb. destruct (Hbest b Hb). split; [lia|done].
    + (* the memory domain cannot register: continue *)
      simpl in Hcand. destruct (Hext _ Hcand) as [Hf _].
      exists st. split; [done|]. split; [done|].
      split; [intros Hb; by apply Hf, Hnone|].
      split.
      * intros Hb. destruct (Hsome Hb) as (j & Hj & Hcj). exists j. split; [lia|done].
      * intros b Hb. destruct (Hbest b Hb). split; [lia|done].
  - exists st. split; [done|]. rewrite Z2Nat.id in HI by lia.
    destruct HI as (_ & ? & ? & ?). done.
Qed.

Lemma device_atomics_spec worker :
  atomics_wf worker → atomic_tls _ _ worker = 0 →
  ∃ mask,
    ucp_worker_init_device_atomics K P UCT_MD_FLAG_REG UCT_DEVICE_NAME_MAX
      ucp_context_uct_atomic_iface_flags ucp_wireup_amo_score_func worker
      = Ret mask ∧
    (mask ≠ 0 ↔
     ∃ j, 0 ≤ j < num_tls (context _ _ worker) ∧ candidate worker j = true).
Proof.
  intros Hwf H0. pose proof Hwf as (Hn & Hr & Ha & Hmd).
  unfold ucp_worker_init_device_atomics.
  destruct (select_best_spec worker Hwf) as (st & -> & Hnone & Hsome & Hbest).
  simpl. destruct (best_rsc st) as [b|] eqn:Hb.
  - destruct (Hbest b eq_refl) as [Hbn Hbs].
    destruct (at_rsc_in (tl_rscs (context _ _ worker)) b) as (best & Hbest' & _);
      [lia|].
    rewrite Hbest'. simpl.
    match goal with
    | |- ∃ mask, for_tls ?ctx ?body ?s = _ ∧ _ =>
        destruct (for_tls_inv ctx body s (λ i mask, b < Z.of_nat i → mask ≠ 0))
          as (mask & Hmask & HI)
    end.
    + lia.
    + intros i mask Hi HI.
      destruct (at_rsc_in (tl_rscs (context _ _ worker)) (Z.of_nat i))
        as (rsc & Hrsc & _); [lia|].
      rewrite Hrsc. simpl.
      destruct (decide (Z.of_nat i = b)) as [Hib|Hib].
      * rewrite Hib in *. rewrite Hbest' in Hrsc. injection Hrsc as <-.
        rewrite bool_decide_eq_true_2 by done.
        rewrite bool_decide_eq_true_2 by done.
        rewrite strncmp_eq_refl. simpl.
        eexists. split; [done|]. intros _. apply enable_nonzero. lia.
      * case_match; eexists; (split; [done|]); intros Hlt.
        -- apply enable_nonzero. lia.
        -- apply HI. lia.
    + exists mask. split; [done|]. split.
      * intros _. by apply Hsome.
      * intros _. apply HI. lia.
  - exists (atomic_tls _ _ worker). split; [done|]. rewrite H0. split; [done|].
    intros (j & Hj & Hc). rewrite (Hnone eq_refl j Hj) in Hc. done.
Qed.

Lemma guess_flags_spec worker :
  atomics_wf worker →
  ∃ acc,
    for_tls (context _ _ worker)
      (λ accumulated_flags rsc_index,
         rbind (at_rsc (iface_attrs _ _ worker) rsc_index) (λ attr,
           Ret (Z.lor accumulated_flags (cap_flags attr))))
      0 = Ret acc ∧
    (Z.land acc UCT_IFACE_FLAG_ATOMIC_DEVICE ≠ 0 ↔
     ∃ j, 0 ≤ j < num_tls (context _ _ worker) ∧
          iface_has_flag worker UCT_IFACE_FLAG_ATOMIC_DEVICE j = true).
Proof.
  intros (Hn & Hr & Ha & Hmd).
  match goal with
  | |- ∃ acc, for_tls ?ctx ?body ?s = _ ∧ _ =>
      destruct (for_tls_inv ctx body s
        (λ i acc, Z.land acc UCT_IFACE_FLAG_ATOMIC_DEVICE ≠ 0 ↔
           ∃ j, 0 ≤ j < Z.of_nat i ∧
                iface_has_flag worker UCT_IFACE_FLAG_ATOMIC_DEVICE j = true))
        as (acc & Hacc & HI)
  end.
  - rewrite Z.land_0_l. split; [done|]. intros (j & Hj & _). lia.
  - intros i acc Hi HI.
    destruct (at_rsc_in (iface_attrs _ _ worker) (Z.of_nat i)) as (attr & Hat & _);
      [lia|].
    assert (Hflag : iface_has_flag worker UCT_IFACE_FLAG_ATOMIC_DEVICE (Z.of_nat i)
                    = bool_decide (Z.land (cap_flags attr) UCT_IFACE_FLAG_ATOMIC_DEVICE ≠ 0)).
    { unfold iface_has_flag. by rewrite Hat. }
    rewrite Hat. simpl. eexists. split; [done|].
    rewrite land_lor_nonzero, HI. split.
    + intros [(j & Hj & Hf)|Hnow].
      * exists j. split; [lia|done].
      * exists (Z.of_nat i). split; [lia|]. rewrite Hflag.
        by apply bool_decide_eq_true_2.
    + intros (j & Hj & Hf). destruct (decide (j = Z.of_nat i)) as [->|].
      * right. rewrite Hflag in Hf. by apply bool_decide_eq_true_1 in Hf.
      * left. exists j. split; [lia|done].
  - exists acc. split; [done|]. rewrite HI. rewrite Z2Nat.id by lia. done.
Qed.

(** C9, as the code has it.  After [ucp_worker_init_atomic_tls]:
    - when the feature set omits 32-bit and 64-bit atomics the mask is
      empty;
    - when it includes them, the mask is non-empty exactly when some
      interface qualifies under the selected policy, and empty otherwise:
      under CPU, an interface that advertises CPU atomics; under DEVICE, an
      interface on a registering memory domain that advertises the
      required atomic capabilities and device atomics and is selected
      against the initial best; under GUESS, the DEVICE rule when some
      interface advertises device atomics and the CPU rule when none
      does. *)
Theorem ucp_worker_init_atomic_tls_mask worker :
  atomics_wf worker →
  let ctx := context _ _ worker in
  let init :=
    ucp_worker_init_atomic_tls K P UCT_MD_FLAG_REG UCT_DEVICE_NAME_MAX
      ucp_context_uct_atomic_iface_flags ucp_wireup_amo_score_func worker in
  let wanted :=
    Z.land (features ctx) (Z.lor UCP_FEATURE_AMO32 UCP_FEATURE_AMO64) ≠ 0 in
  let cpu :=
    ∃ j, 0 ≤ j < num_tls ctx ∧
         iface_has_flag worker UCT_IFACE_FLAG_ATOMIC_CPU j = true in
  let device :=
    ∃ j, 0 ≤ j < num_tls ctx ∧
         device_candidate UCT_MD_FLAG_REG ucp_context_uct_atomic_iface_flags
           ucp_wireup_amo_score_func worker j = true in
  let any_device :=
    ∃ j, 0 ≤ j < num_tls ctx ∧
         iface_has_flag worker UCT_IFACE_FLAG_ATOMIC_DEVICE j = true in
  (¬ wanted → init = Ret 0) ∧
  (wanted → atomic_mode ctx = UCP_ATOMIC_MODE_CPU →
   ∃ mask, init = Ret mask ∧ (mask ≠ 0 ↔ cpu)) ∧
  (wanted → atomic_mode ctx = UCP_ATOMIC_MODE_DEVICE →
   ∃ mask, init = Ret mask ∧ (mask ≠ 0 ↔ device)) ∧
  (wanted → atomic_mode ctx = UCP_ATOMIC_MODE_GUESS →
   ∃ mask, init = Ret mask ∧
           (any_device → (mask ≠ 0 ↔ device)) ∧
           (¬ any_device → (mask ≠ 0 ↔ cpu))).
Proof.
  intros Hwf ctx init wanted cpu device any_device.
  assert (Hwf0 : atomics_wf (set_atomic_tls K P worker 0)) by exact Hwf.
  pose proof (cpu_atomics_spec (set_atomic_tls K P worker 0) Hwf0 eq_refl)
    as (mc & Hmc & Hcpu).
  pose proof (device_atomics_spec (set_atomic_tls K P worker 0) Hwf0 eq_refl)
    as (md & Hmd & Hdev).
  pose proof (guess_flags_spec (set_atomic_tls K P worker 0) Hwf0)
    as (acc & Hacc & Hany).
  subst init. unfold ucp_worker_init_atomic_tls. fold ctx.
  change (context K P (set_atomic_tls K P worker 0)) with ctx in *.
  split; [|split; [|split]].
  - intros Hno. by rewrite decide_False.
  - intros Hyes Hmode. rewrite decide_True by done. rewrite Hmode.
    exists mc. done.
  - intros Hyes Hmode. rewrite decide_True by done. rewrite Hmode.
    exists md. done.
  - intros Hyes Hmode. rewrite decide_True by done. rewrite Hmode.
    unfold ucp_worker_init_guess_atomics.
    change (context K P (set_atomic_tls K P worker 0)) with ctx.
    rewrite Hacc. simpl.
    destruct (decide (Z.land acc UCT_IFACE_FLAG_ATOMIC_DEVICE ≠ 0)) as [Hd|Hd].
    + exists md. split; [done|]. split; [done|].
      intros Hnone. destruct Hnone. by apply Hany.
    + exists mc. split; [done|]. split; [|done].
      intros Hsome. destruct Hd. by apply Hany.
Qed.

End AtomicsFacts.

Lemma ucp_worker_init_atomic_tls_mask_witness :
  let worker := example_worker in
  atomics_wf worker ∧
  let ctx := context _ _ worker in
  let init :=
    ucp_worker_init_atomic_tls Z unit 2 32 example_atomic_iface_flags
      example_score worker in
  let wanted :=
    Z.land (features ctx) (Z.lor UCP_FEATURE_AMO32 UCP_FEATURE_AMO64) ≠ 0 in
  let cpu :=
    ∃ j, 0 ≤ j < num_tls ctx ∧
         iface_has_flag worker UCT_IFACE_FLAG_ATOMIC_CPU j = true in
  let device :=
    ∃ j, 0 ≤ j < num_tls ctx ∧
         device_candidate 2 example_atomic_iface_flags example_score worker j
           = true in
  let any_device :=
    ∃ j, 0 ≤ j < num_tls ctx ∧
         iface_has_flag worker UCT_IFACE_FLAG_ATOMIC_DEVICE j = true in
  (¬ wanted → init = Ret 0) ∧
  (wanted → atomic_mode ctx = UCP_ATOMIC_MODE_CPU →
   ∃ mask, init = Ret mask ∧ (mask ≠ 0 ↔ cpu)) ∧
  (wanted → atomic_mode ctx = UCP_ATOMIC_MODE_DEVICE →
   ∃ mask, init = Ret mask ∧ (mask ≠ 0 ↔ device)) ∧
  (wanted → atomic_mode ctx = UCP_ATOMIC_MODE_GUESS →
   ∃ mask, init = Ret mask ∧
           (any_device → (mask ≠ 0 ↔ device)) ∧
           (¬ any_device → (mask ≠ 0 ↔ cpu))).
Proof.
  assert (Hwf : atomics_wf example_worker).
  { unfold atomics_wf. simpl. split; [lia|]. split; [reflexivity|].
    split; [reflexivity|].
    intros [|[|j]] rsc Hj; simpl in Hj; [injection Hj as <-..|discriminate];
      simpl; lia. }
  intros worker. split; [exact Hwf|].
  apply (ucp_worker_init_atomic_tls_mask (D := QDouble) Z unit 2 32
           example_atomic_iface_flags example_score example_worker Hwf).
Defined.

(** C9 as stated fails: the example context asks for 32-bit atomics, the
    policy is CPU, no interface advertises CPU atomics, and the mask is
    empty; likewise under DEVICE and under GUESS. *)
Lemma ucp_worker_init_atomic_tls_counterexample :
  Z.land (features (example_context UCP_ATOMIC_MODE_CPU))
    (Z.lor UCP_FEATURE_AMO32 UCP_FEATURE_AMO64) ≠ 0 ∧
  ucp_worker_init_atomic_tls Z unit 2 32 example_atomic_iface_flags
    example_score example_worker = Ret 0 ∧
  atomic_tls _ _ <$>
    match example_create UCP_ATOMIC_MODE_CPU UCS_THREAD_MODE_SINGLE
            [example_attr_plain; example_attr_plain] with
    | Ret w => Some w | _ => None end = Some 0 ∧
  atomic_tls _ _ <$>
    match example_create UCP_ATOMIC_MODE_DEVICE UCS_THREAD_MODE_SINGLE
            [example_attr_plain; example_attr_plain] with
    | Ret w => Some w | _ => None end = Some 0 ∧
  atomic_tls _ _ <$>
    match example_create UCP_ATOMIC_MODE_GUESS UCS_THREAD_MODE_SINGLE
            [example_attr_plain; example_attr_plain] with
    | Ret w => Some w | _ => None end = Some 0.
Proof. repeat split. discriminate. Qed.

(** With device atomics on the second interface only, the DEVICE policy
    and the GUESS policy enable resource 1; with them on both, both
    resources, which share the device. *)
Example init_atomic_tls_device :
  rbind (example_create UCP_ATOMIC_MODE_DEVICE UCS_THREAD_MODE_SINGLE
           [example_attr_plain; example_attr_device])
    (λ w, Ret (atomic_tls _ _ w)) = Ret 2 ∧
  rbind (example_create UCP_ATOMIC_MODE_GUESS UCS_THREAD_MODE_SINGLE
           [example_attr_plain; example_attr_device])
    (λ w, Ret (atomic_tls _ _ w)) = Ret 2 ∧
  rbind (example_create UCP_ATOMIC_MODE_DEVICE UCS_THREAD_MODE_SINGLE
           [example_attr_device; example_attr_device])
    (λ w, Ret (atomic_tls _ _ w)) = Ret 3.
Proof. repeat split. Qed.

(** An atomic mode outside the three policies is fatal. *)
Example init_atomic_tls_fatal :
  example_create UCP_ATOMIC_MODE_LAST UCS_THREAD_MODE_SINGLE
    [example_attr_plain; example_attr_plain] = Abort.
Proof. reflexivity. Qed.

(** * Part III: further properties of the embedded code *)

(** ** The quickselect as a partial sort *)

Section QuickSelectPartition.

Implicit Types (arr : list Z) (n : Z).

(** X1.  [__find_median_quick_select] leaves the array partitioned
    around the median slot: the slot [(n-1)/2] holds the value
    returned, no slot before it holds a larger value and no slot after
    it a smaller one. *)
Theorem find_median_quick_select_partitions arr n :
  1 ≤ n → len arr = n →
  ∃ v arr',
    __find_median_quick_select arr n = Some (v, arr') ∧
    arr'.[(n - 1) `div` 2] = v ∧
    (∀ i, 0 ≤ i < (n - 1) `div` 2 → arr'.[i] ≤ v) ∧
    (∀ j, (n - 1) `div` 2 < j < n → v ≤ arr'.[j]).
Proof.
  intros Hn Hlen. unfold __find_median_quick_select.
  destruct (find_median_fuel_enough (Z.to_nat n + 1) arr n)
    as (v & arr' & E & P & Hv & Hlow & Hhigh); [lia..|].
  assert (Hlen' : len arr' = n) by (unfold len in *; by rewrite P).
  exists v, arr'. split; [done|]. split; [done|]. subst v. split.
  - intros i Hi. by apply Hlow.
  - intros j Hj. apply Hhigh. lia.
Qed.

(** X2.  The median does not depend on the order of the contents: on
    two arrays that are rearrangements of one another the function
    returns the same value. *)
Theorem find_median_quick_select_order_free arr1 arr2 n :
  1 ≤ n → len arr1 = n → arr2 ≡ₚ arr1 →
  ∃ v arr1' arr2',
    __find_median_quick_select arr1 n = Some (v, arr1') ∧
    __find_median_quick_select arr2 n = Some (v, arr2').
Proof.
  intros Hn Hlen Hperm.
  assert (Hlen2 : len arr2 = n) by (unfold len in *; by rewrite Hperm).
  assert (Hs : StronglySorted Z.le (merge_sort Z.le arr1))
    by (apply StronglySorted_merge_sort; apply _).
  destruct (find_median_any_sorted arr1 n (merge_sort Z.le arr1))
    as (arr1' & E1 & _); [done|done|apply merge_sort_Permutation|done|].
  destruct (find_median_any_sorted arr2 n (merge_sort Z.le arr1))
    as (arr2' & E2 & _); [done|done| |done|].
  { rewrite Hperm. apply merge_sort_Permutation. }
  eauto.
Qed.

End QuickSelectPartition.

Lemma find_median_quick_select_partitions_witness :
  ∃ v arr',
    __find_median_quick_select [9; 2; 7; 4; 5; 1] 6 = Some (v, arr') ∧
    arr'.[(6 - 1) `div` 2] = v ∧
    (∀ i, 0 ≤ i < (6 - 1) `div` 2 → arr'.[i] ≤ v) ∧
    (∀ j, (6 - 1) `div` 2 < j < 6 → v ≤ arr'.[j]).
Proof.
  apply (find_median_quick_select_partitions [9; 2; 7; 4; 5; 1] 6);
    [lia|reflexivity].
Defined.

Lemma find_median_quick_select_order_free_witness :
  ∃ v arr1' arr2',
    __find_median_quick_select [9; 2; 7; 4; 5; 1] 6 = Some (v, arr1') ∧
    __find_median_quick_select [1; 2; 4; 5; 7; 9] 6 = Some (v, arr2').
Proof.
  apply (find_median_quick_select_order_free [9; 2; 7; 4; 5; 1] [1; 2; 4; 5; 7; 9] 6);
    [lia|reflexivity|].
  apply (Permutation_trans (l' := merge_sort Z.le [9; 2; 7; 4; 5; 1])).
  - reflexivity.
  - apply merge_sort_Permutation.
Defined.

(** ** Statistics, composed *)

Section PerfContextMore.

Context {D : CDouble}.
Variable ucs_time_from_sec : double → Z.
Variable TIMING_QUEUE_SIZE : Z.

Implicit Types (perf : ucx_perf_context_t) (params : ucx_perf_params_t).

(** X4.  [ucx_perf_calc_result] can be called again: it rearranges the
    timing ring, and a second call on the context it leaves returns
    the same result record and touches nothing but the ring. *)
Theorem ucx_perf_calc_result_repeatable perf :
  1 ≤ TIMING_QUEUE_SIZE →
  len (perf_timing_queue perf) = TIMING_QUEUE_SIZE →
  ∃ perf1 perf2 result,
    ucx_perf_calc_result ucs_time_from_sec TIMING_QUEUE_SIZE perf
      = Some (perf1, result) ∧
    ucx_perf_calc_result ucs_time_from_sec TIMING_QUEUE_SIZE perf1
      = Some (perf2, result) ∧
    perf1 = set_timing_queue perf (perf_timing_queue perf1) ∧
    perf_timing_queue perf1 ≡ₚ perf_timing_queue perf.
Proof.
  intros Hpos Hlen. unfold ucx_perf_calc_result.
  destruct (find_median_sorted_median (perf_timing_queue perf) TIMING_QUEUE_SIZE)
    as (queue & E & P); [done..|].
  assert (Hlenq : len queue = TIMING_QUEUE_SIZE)
    by (unfold len in *; by rewrite P).
  assert (Hs : StronglySorted Z.le (merge_sort Z.le (perf_timing_queue perf)))
    by (apply StronglySorted_merge_sort; apply _).
  destruct (find_median_any_sorted queue TIMING_QUEUE_SIZE
              (merge_sort Z.le (perf_timing_queue perf)))
    as (queue' & E' & P'); [done|done| |done|].
  { rewrite P. apply merge_sort_Permutation. }
  exists (set_timing_queue perf queue). rewrite E. simpl. rewrite E'. simpl.
  eexists _, _. split; [done|]. split; [|done].
  unfold sorted_median. by rewrite Hlen.
Qed.

End PerfContextMore.

Lemma ucx_perf_calc_result_repeatable_witness :
  ∃ perf1 perf2 result,
    ucx_perf_calc_result (D := QDouble) ns_time_from_sec 4 example_perf
      = Some (perf1, result) ∧
    ucx_perf_calc_result (D := QDouble) ns_time_from_sec 4 perf1
      = Some (perf2, result) ∧
    perf1 = set_timing_queue example_perf (perf_timing_queue perf1) ∧
    perf_timing_queue perf1 ≡ₚ perf_timing_queue example_perf.
Proof.
  apply (ucx_perf_calc_result_repeatable (D := QDouble) ns_time_from_sec 4
           example_perf); [lia|reflexivity].
Defined.

(** ** The parameter and capability checks in full *)

Section ChecksMore.

Context {D : CDouble} {F : UctIfaceFlags} {U : UcpFeatures}.
Variable UCT_PERF_TEST_MAX_FC_WINDOW : Z.

Implicit Types (params : ucx_perf_params_t) (attr : uct_iface_attr_t).

Lemma check_stride_spec (stride : Z) (sizes : list Z) :
  (check_stride stride sizes = UCS_OK ∧ Forall (λ size, size ≤ stride) sizes) ∨
  (check_stride stride sizes = UCS_ERR_INVALID_PARAM ∧
   ¬ Forall (λ size, size ≤ stride) sizes).
Proof.
  induction sizes as [|size sizes IH]; simpl.
  - left. split; [done|constructor].
  - destruct (decide (size > stride)) as [Hgt|Hle].
    + right. split; [done|]. intros Hall. inversion Hall; subst. lia.
    + destruct IH as [[-> Hall]|[-> Hnot]].
      * left. split; [done|]. constructor; [lia|done].
      * right. split; [done|]. intros Hall. inversion Hall; subst. done.
Qed.

Lemma check_params_size params :
  ucx_perf_test_check_params params = UCS_OK →
  1 ≤ ucx_perf_get_message_size params.
Proof.
  unfold ucx_perf_test_check_params.
  destruct (decide (ucx_perf_get_message_size params < 1)); [done|]. lia.
Qed.

(** X5.  [ucx_perf_test_check_params] answers OK or INVALID_PARAM, and
    OK exactly when the total message size is at least 1, at least one
    operation may be outstanding and, with a nonzero stride, each of
    the first [msg_size_cnt] message sizes is at most the stride. *)
Theorem ucx_perf_test_check_params_iff params :
  (ucx_perf_test_check_params params = UCS_OK ∨
   ucx_perf_test_check_params params = UCS_ERR_INVALID_PARAM) ∧
  (ucx_perf_test_check_params params = UCS_OK ↔
   1 ≤ ucx_perf_get_message_size params ∧
   1 ≤ max_outstanding params ∧
   (iov_stride params = 0 ∨
    ∀ (it : nat) size,
      Z.of_nat it < msg_size_cnt params →
      msg_size_list params !! it = Some size → size ≤ iov_stride params)).
Proof.
  unfold ucx_perf_test_check_params.
  destruct (decide (ucx_perf_get_message_size params < 1)) as [Hs|Hs].
  { split; [by right|]. split; [done|]. intros (? & _). lia. }
  destruct (decide (max_outstanding params < 1)) as [Ho|Ho].
  { split; [by right|]. split; [done|]. intros (_ & ? & _). lia. }
  destruct (decide (iov_stride params ≠ 0)) as [Hi|Hi].
  - assert (Hall :
      Forall (λ size, size ≤ iov_stride params)
        (take (Z.to_nat (msg_size_cnt params)) (msg_size_list params)) ↔
      ∀ (it : nat) size,
        Z.of_nat it < msg_size_cnt params →
        msg_size_list params !! it = Some size → size ≤ iov_stride params).
    { rewrite Forall_lookup. split.
      - intros H it size Hit Hsz. apply (H it).
        rewrite lookup_take_lt by lia. done.
      - intros H it size [Hsz Hit]%lookup_take_Some. apply (H it); [lia|done]. }
    destruct (check_stride_spec (iov_stride params)
                (take (Z.to_nat (msg_size_cnt params)) (msg_size_list params)))
      as [[-> Hok]|[-> Hbad]].
    + split; [by left|]. split; [|done]. intros _.
      split; [lia|]. split; [lia|]. right. by apply Hall.
    + split; [by right|]. split; [done|]. intros (_ & _ & [?|Hfit]); [done|].
      exfalso. apply Hbad. by apply Hall.
  - split; [by left|]. split; [|done]. intros _.
    split; [lia|]. split; [lia|]. left.
    by destruct (decide (iov_stride params = 0)).
Qed.

(** X6.  What an OK of [uct_perf_test_check_capabilities] guarantees:
    the interface query succeeded, the command is one of AM, PUT, GET
    and the four atomics, the general parameter check passes, the
    capabilities the command needs are not empty and all advertised,
    the total message size is within the limits of the command and
    layout, an AM header fits the message, the flow-control window and
    (short layout) the 8-byte header and (zero-copy layout) the header
    limit are respected, and a zero-copy layout has no more message
    sizes than the interface takes. *)
Theorem uct_perf_test_check_capabilities_sound params attr status0 :
  uct_perf_test_check_capabilities UCT_PERF_TEST_MAX_FC_WINDOW params
    (status0, attr) = Some UCS_OK →
  let size := ucx_perf_get_message_size params in
  status0 = UCS_OK ∧
  ∃ required_flags min_size max_size max_iov,
    uct_required params attr size
      = Some (required_flags, min_size, max_size, max_iov) ∧
    ucx_perf_test_check_params params = UCS_OK ∧
    required_flags ≠ 0 ∧
    Z.land (cap_flags attr) required_flags = required_flags ∧
    min_size ≤ size ≤ max_size ∧
    (command params = UCX_PERF_CMD_AM →
     am_hdr_size params ≤ size ∧
     uct_fc_window params ≤ UCT_PERF_TEST_MAX_FC_WINDOW ∧
     (uct_data_layout params = UCT_PERF_DATA_LAYOUT_SHORT →
      am_hdr_size params = 8) ∧
     (uct_data_layout params = UCT_PERF_DATA_LAYOUT_ZCOPY →
      am_hdr_size params ≤ max_hdr (cap_am attr))) ∧
    (uct_data_layout params = UCT_PERF_DATA_LAYOUT_ZCOPY →
     msg_size_cnt params ≤ max_iov).
Proof.
  intros Hok size. unfold uct_perf_test_check_capabilities in Hok.
  destruct (decide (status0 ≠ UCS_OK)) as [Hq|Hq]; [congruence|].
  split; [by destruct (decide (status0 = UCS_OK))|].
  fold size in Hok.
  destruct (uct_required params attr size) as [[[[rf mn] mx] mi]|]; [|done].
  exists rf, mn, mx, mi. split; [done|].
  destruct (decide (ucx_perf_test_check_params params ≠ UCS_OK)) as [Hg|Hg];
    [congruence|].
  split; [by destruct (decide (ucx_perf_test_check_params params = UCS_OK))|].
  destruct (ucs_test_all_flags (cap_flags attr) rf) eqn:Hfl; [|done].
  simpl in Hok.
  destruct (bool_decide (rf = 0)) eqn:Hz; [done|].
  apply bool_decide_eq_false in Hz. apply bool_decide_eq_true in Hfl.
  split; [done|]. split; [done|].
  destruct (decide (size < mn)); [done|].
  destruct (decide (size > mx)); [done|].
  split; [lia|].
  destruct (decide (command params = UCX_PERF_CMD_AM)) as [Ham|Ham].
  - unfold uct_check_am in Hok.
    destruct (decide (uct_data_layout params = UCT_PERF_DATA_LAYOUT_SHORT ∧
                      am_hdr_size params ≠ 8)) as [H1|H1]; [done|].
    destruct (decide (uct_data_layout params = UCT_PERF_DATA_LAYOUT_ZCOPY ∧
                      am_hdr_size params > max_hdr (cap_am attr))) as [H2|H2];
      [done|].
    destruct (decide (am_hdr_size params > size)) as [H3|H3]; [done|].
    destruct (decide (uct_fc_window params > UCT_PERF_TEST_MAX_FC_WINDOW))
      as [H4|H4]; [done|].
    rewrite decide_False in Hok by (intros ?; done).
    split.
    + intros _. split; [lia|]. split; [lia|]. split.
      * intros Hl. destruct (decide (am_hdr_size params = 8)); [done|].
        exfalso. by apply H1.
      * intros Hl.
        destruct (decide (am_hdr_size params ≤ max_hdr (cap_am attr)));
          [done|]. exfalso. apply H2. split; [done|lia].
    + intros Hl. rewrite decide_True in Hok by done.
      unfold uct_check_zcopy in Hok.
      destruct (decide (msg_size_cnt params > mi)); [done|lia].
  - rewrite decide_False in Hok by (intros ?; done).
    split; [done|].
    intros Hl. rewrite decide_True in Hok by done.
    unfold uct_check_zcopy in Hok.
    destruct (decide (msg_size_cnt params > mi)); [done|lia].
Qed.

(** X7.  A data layout outside SHORT, BCOPY and ZCOPY is never
    accepted for AM, PUT or GET, and neither is a GET with the SHORT
    layout: the capability check returns a non-OK status, and
    UNSUPPORTED when the general parameter check passes. *)
Theorem uct_perf_test_check_capabilities_layout params attr :
  (command params = UCX_PERF_CMD_AM ∨ command params = UCX_PERF_CMD_PUT ∨
   command params = UCX_PERF_CMD_GET) →
  (uct_data_layout params = UCT_PERF_DATA_LAYOUT_LAST ∨
   (command params = UCX_PERF_CMD_GET ∧
    uct_data_layout params = UCT_PERF_DATA_LAYOUT_SHORT)) →
  ∃ status,
    uct_perf_test_check_capabilities UCT_PERF_TEST_MAX_FC_WINDOW params
      (UCS_OK, attr) = Some status ∧
    status ≠ UCS_OK ∧
    (ucx_perf_test_check_params params = UCS_OK → status = UCS_ERR_UNSUPPORTED).
Proof.
  intros Hcmd Hlay. unfold uct_perf_test_check_capabilities.
  rewrite decide_False by (intros ?; done).
  assert (Hreq : ∃ rf mi,
    uct_required params attr (ucx_perf_get_message_size params)
      = Some (rf, 0, 0, mi) ∧
    (rf = 0 ∨ command params = UCX_PERF_CMD_AM)).
  { unfold uct_required, __get_flag, __get_max_size.
    destruct Hlay as [Hl|[Hg Hl]]; rewrite Hl.
    - destruct Hcmd as [-> | [-> | ->]]; simpl; eexists _, _;
        (split; [reflexivity|]); [by right|by left|by left].
    - rewrite Hg. simpl. eexists _, _. split; [reflexivity|by left]. }
  destruct Hreq as (rf & mi & -> & Hrf).
  destruct (decide (ucx_perf_test_check_params params ≠ UCS_OK)) as [Hg|Hg].
  { eexists. split; [done|]. split; [done|]. intros ?. done. }
  assert (Hsize : 1 ≤ ucx_perf_get_message_size params).
  { destruct (decide (ucx_perf_test_check_params params = UCS_OK)) as [Hok|];
      [|done].
    by apply check_params_size. }
  destruct (negb (ucs_test_all_flags (cap_flags attr) rf)
            || bool_decide (rf = 0)); [by eexists|].
  rewrite decide_False by lia. rewrite decide_True by lia. by eexists.
Qed.

End ChecksMore.

Lemma uct_perf_test_check_capabilities_sound_witness :
  let params := example_atomic_params 4 in
  let size := ucx_perf_get_message_size params in
  UCS_OK = UCS_OK ∧
  ∃ required_flags min_size max_size max_iov,
    uct_required params example_attr size
      = Some (required_flags, min_size, max_size, max_iov) ∧
    ucx_perf_test_check_params params = UCS_OK ∧
    required_flags ≠ 0 ∧
    Z.land (cap_flags example_attr) required_flags = required_flags ∧
    min_size ≤ size ≤ max_size ∧
    (command params = UCX_PERF_CMD_AM →
     am_hdr_size params ≤ size ∧
     uct_fc_window params ≤ 1024 ∧
     (uct_data_layout params = UCT_PERF_DATA_LAYOUT_SHORT →
      am_hdr_size params = 8) ∧
     (uct_data_layout params = UCT_PERF_DATA_LAYOUT_ZCOPY →
      am_hdr_size params ≤ max_hdr (cap_am example_attr))) ∧
    (uct_data_layout params = UCT_PERF_DATA_LAYOUT_ZCOPY →
     msg_size_cnt params ≤ max_iov).
Proof.
  apply (uct_perf_test_check_capabilities_sound 1024 (example_atomic_params 4)
           example_attr UCS_OK).
  reflexivity.
Defined.

Lemma uct_perf_test_check_capabilities_layout_witness :
  ∃ status,
    uct_perf_test_check_capabilities 1024 example_get_short_params
      (UCS_OK, example_attr) = Some status ∧
    status ≠ UCS_OK ∧
    (ucx_perf_test_check_params example_get_short_params = UCS_OK →
     status = UCS_ERR_UNSUPPORTED).
Proof.
  apply (uct_perf_test_check_capabilities_layout 1024 example_get_short_params
           example_attr).
  - right. right. reflexivity.
  - right. split; reflexivity.
Defined.

(** ** The status exchange for any number of failures *)

Section ExchangeMore.

Implicit Types (n k p q : nat) (contrib : nat → ucs_status_t).

Lemma collect_ext (recv1 recv2 : nat → ucs_status_t) c (l : list nat) :
  (∀ i, recv1 i = recv2 i) → collect recv1 c l = collect recv2 c l.
Proof.
  intros Hext. unfold collect. revert c.
  induction l as [|i l IH]; intros c; simpl; [done|].
  rewrite Hext. apply IH.
Qed.

Lemma exchange_status_contrib n contrib p :
  ucp_perf_test_exchange_status
    {| group_size := n; group_index := p; peer_status := contrib |} (contrib p)
  = collect contrib UCS_OK (seq 0 n).
Proof.
  rewrite exchange_status_collect. simpl. apply collect_ext.
  intros i. unfold rte_recv_status. simpl. by case_decide; subst.
Qed.

Lemma collect_snoc recv c l i :
  collect recv c (l ++ [i]) =
    if decide (recv i ≠ UCS_OK) then recv i else collect recv c l.
Proof. unfold collect. by rewrite foldl_app. Qed.

Lemma collect_highest contrib n k :
  (k < n)%nat → contrib k ≠ UCS_OK →
  (∀ j, (k < j < n)%nat → contrib j = UCS_OK) →
  collect contrib UCS_OK (seq 0 n) = contrib k.
Proof.
  induction n as [|n IH]; intros Hk Hne Hlater; [lia|].
  rewrite seq_S, collect_snoc. simpl.
  destruct (decide (k = n)) as [->|Hkn].
  - by rewrite decide_True.
  - rewrite decide_False by (intros H; apply H, Hlater; lia).
    apply IH; [lia|done|]. intros j Hj. apply Hlater. lia.
Qed.

(** X8.  Whatever the peers contribute, every peer's call of
    [ucp_perf_test_exchange_status] returns the same status: OK when
    all contributions are OK, and otherwise the contribution of the
    highest-indexed peer that contributes a failure. *)
Theorem exchange_status_agreement n contrib :
  ∃ collective,
    (∀ p, ucp_perf_test_exchange_status
            {| group_size := n; group_index := p; peer_status := contrib |}
            (contrib p) = collective) ∧
    ((∀ i, (i < n)%nat → contrib i = UCS_OK) ↔ collective = UCS_OK) ∧
    (∀ k, (k < n)%nat → contrib k ≠ UCS_OK →
          (∀ j, (k < j < n)%nat → contrib j = UCS_OK) →
          collective = contrib k).
Proof.
  exists (collect contrib UCS_OK (seq 0 n)). split; [|split].
  - intros p. apply exchange_status_contrib.
  - rewrite collect_ok. split.
    + intros Hall. split; [done|]. intros i Hi%elem_of_seq. apply Hall. lia.
    + intros [_ Hall] i Hi. apply Hall, elem_of_seq. lia.
  - intros k Hk Hne Hlater. by apply collect_highest.
Qed.

End ExchangeMore.

(** ** Endpoint set-up of the messaging API: what every path does *)

Section SetupEndpointsMore.

Context {U : UcpFeatures}.
Variable UCX_PERF_TEST_FLAG_VERBOSE : Z.

Implicit Types (rte : rte_t) (o : setup_oracle) (status : ucs_status_t).

Lemma created_eps_cons e (t : list setup_event) :
  created_eps (e :: t) =
    match e with SeEpCreate i => i :: created_eps t | _ => created_eps t end.
Proof. by destruct e. Qed.

Lemma unpacked_rkeys_cons e (t : list setup_event) :
  unpacked_rkeys (e :: t) =
    match e with
    | SeRkeyUnpack i => i :: unpacked_rkeys t
    | _ => unpacked_rkeys t
    end.
Proof. by destruct e. Qed.

Lemma exchanges_cons e (t : list setup_event) :
  exchanges (e :: t) =
    match e with SeExchangeStatus s => s :: exchanges t | _ => exchanges t end.
Proof. by destruct e. Qed.

Lemma created_eps_app (t1 t2 : list setup_event) :
  created_eps (t1 ++ t2) = created_eps t1 ++ created_eps t2.
Proof. apply omap_app. Qed.

Lemma unpacked_rkeys_app (t1 t2 : list setup_event) :
  unpacked_rkeys (t1 ++ t2) = unpacked_rkeys t1 ++ unpacked_rkeys t2.
Proof. apply omap_app. Qed.


Lemma connect_peers_done o verbose index (l : list nat) loop :
  connect_peers o verbose index l = (LoopDone, loop) →
  created_eps loop = filter (λ i, i ≠ index) l ∧
  unpacked_rkeys loop =
    filter (λ i, i ≠ index ∧ o_remote_rkey_size o i > 0) l.
Proof.
  revert loop. induction l as [|i l IH]; intros loop.
  { intros [= <-]. done. }
  cbn [connect_peers].
  destruct (decide (i = index)) as [->|Hi].
  { intros Hl. destruct (IH loop Hl) as [-> ->].
    rewrite !filter_cons_False; [done| |]; intros ?; intuition. }
  destruct (decide (o_ep_create o i ≠ UCS_OK)); [done|].
  destruct (connect_peers o verbose index l) as [exit trace].
  destruct (decide (o_remote_rkey_size o i > 0)) as [Hr|Hr].
  - destruct (decide (o_rkey_unpack o i ≠ UCS_OK)); [by destruct verbose|].
    intros [= -> <-]. destruct (IH trace eq_refl) as [IH1 IH2].
    rewrite !created_eps_cons, !unpacked_rkeys_cons, IH1, IH2.
    rewrite !filter_cons_True; done.
  - intros [= -> <-]. destruct (IH trace eq_refl) as [IH1 IH2].
    rewrite !created_eps_cons, !unpacked_rkeys_cons, IH1, IH2.
    rewrite filter_cons_True by done.
    rewrite filter_cons_False; [done|]. intros [_ ?]. done.
Qed.


Lemma connect_peers_error o verbose index (l : list nat) s loop :
  connect_peers o verbose index l = (LoopError s, loop) → s ≠ UCS_OK.
Proof.
  revert loop. induction l as [|i l IH]; intros loop; [done|].
  cbn [connect_peers].
  destruct (connect_peers o verbose index l) as [exit trace].
  repeat case_decide; try done.
  - by apply IH.
  - by intros [= <- _].
  - destruct verbose; [done|]. by intros [= <- _].
  - intros [= -> _]. by eapply IH.
  - intros [= -> _]. by eapply IH.
Qed.


(** X10.  When the peer table was allocated and the function returns
    OK, it has created one endpoint for every peer but itself, in
    increasing order of the peer index, has unpacked a remote key for
    exactly those of them that announced one, and has destroyed
    nothing. *)
Theorem setup_endpoints_connects_all rte o flags features :
  let r := ucp_perf_test_setup_endpoints UCX_PERF_TEST_FLAG_VERBOSE
             rte o flags features in
  o_calloc_peers o = true →
  fst r = Returned UCS_OK →
  created_eps (snd r) =
    filter (λ i, i ≠ group_index rte) (seq 0 (group_size rte)) ∧
  unpacked_rkeys (snd r) =
    filter (λ i, i ≠ group_index rte ∧ o_remote_rkey_size o i > 0)
      (seq 0 (group_size rte)) ∧
  SeDestroyEps ∉ snd r.
Proof.
  unfold ucp_perf_test_setup_endpoints.
  set (verbose := bool_decide (Z.land flags UCX_PERF_TEST_FLAG_VERBOSE ≠ 0)).
  set (with_rkey := bool_decide _).
  pose proof (connect_peers_done o verbose (group_index rte)
                (seq 0 (group_size rte))) as Hdone.
  pose proof (connect_peers_error o verbose (group_index rte)
                (seq 0 (group_size rte))) as Herr.
  pose proof (connect_peers_no_destroy o verbose (group_index rte)
                (seq 0 (group_size rte))) as [Hnd _].
  destruct (connect_peers o verbose (group_index rte) (seq 0 (group_size rte)))
    as [exit loop].
  cbn [snd] in Hnd. cbv zeta. intros Hcalloc. rewrite Hcalloc. cbn [negb].
  destruct (decide (o_get_address o ≠ UCS_OK)); [cbn; congruence|].
  destruct (decide ((if with_rkey then o_rkey_pack o else o_get_address o)
                    ≠ UCS_OK)); [cbn; congruence|].
  destruct (negb (o_malloc_buffer o)); [cbn; intros [=]|].
  destruct exit as [|s|]; [|cbn; intros [= ->]; by destruct (Herr _ _ eq_refl)|done].
  destruct (Hdone loop eq_refl) as [Hc Hu].
  case_decide; cbn [fst snd]; [congruence|]. intros _.
  destruct with_rkey;
    rewrite ?created_eps_app, ?unpacked_rkeys_app, ?Hc, ?Hu;
    cbn; rewrite ?app_nil_r; (split; [done|]); (split; [done|]);
    repeat (rewrite elem_of_app || rewrite elem_of_cons || rewrite elem_of_nil);
    intuition congruence.
Qed.

End SetupEndpointsMore.


Lemma setup_endpoints_connects_all_witness :
  let r := ucp_perf_test_setup_endpoints (U := example_features) 1
             example_rte_ok example_oracle 0 2 in
  created_eps (snd r) = filter (λ i, i ≠ 1%nat) (seq 0 3) ∧
  unpacked_rkeys (snd r) =
    filter (λ i, i ≠ 1%nat ∧ o_remote_rkey_size example_oracle i > 0) (seq 0 3) ∧
  SeDestroyEps ∉ snd r.
Proof.
  apply (setup_endpoints_connects_all (U := example_features) 1 example_rte_ok
           example_oracle 0 2); reflexivity.
Defined.

(** ** The driver: clean-up and reporting on every path *)

Section DriverMore.

Context {D : CDouble}.
Variable ucs_time_from_sec : double → Z.
Variable TIMING_QUEUE_SIZE : Z.
Variable clock : nat → Z.
Variable funcs_setup :
  ucx_perf_api_t → ucx_perf_context_t → ucx_perf_params_t →
  ucs_status_t * ucx_perf_context_t.
Variable funcs_run :
  ucx_perf_api_t → ucx_perf_context_t → ucs_status_t * ucx_perf_context_t.
Variable omp_statuses :
  ucx_perf_context_t → ucx_perf_params_t → list ucs_status_t.
Variable perf_uninit : ucx_perf_context_t.

Implicit Types (params : ucx_perf_params_t) (w : world).

Local Arguments ucx_perf_set_warmup : simpl never.
Local Arguments ucx_perf_test_reset : simpl never.
Local Arguments ucx_perf_calc_result : simpl never.

(** Every path of [ucx_perf_run]: the calls it adds to the trace, the
    number of [cleanup] calls among them, and what it reports. *)
Lemma ucx_perf_run_paths params w :
  1 ≤ TIMING_QUEUE_SIZE →
  (∀ a perf, len (perf_timing_queue (snd (funcs_run a perf))) = TIMING_QUEUE_SIZE) →
  let valid :=
    command params ≠ UCX_PERF_CMD_LAST ∧
    (api params = UCX_PERF_API_UCT ∨ api params = UCX_PERF_API_UCP) in
  let setup_status :=
    fst (funcs_setup (api params)
           (ucx_perf_test_reset ucs_time_from_sec TIMING_QUEUE_SIZE
              (clock (w_reads w)) perf_uninit params) params) in
  ∃ r w' events,
    ucx_perf_run ucs_time_from_sec TIMING_QUEUE_SIZE clock funcs_setup
      funcs_run omp_statuses perf_uninit params w = Some (r, w') ∧
    w_trace w' = w_trace w ++ events ∧
    (¬ valid → events = [] ∧ fst r = UCS_ERR_INVALID_PARAM) ∧
    (valid → setup_status ≠ UCS_OK →
     cleanups events = 0%nat ∧ fst r = setup_status) ∧
    (valid → setup_status = UCS_OK →
     cleanups events = 1%nat ∧ last events = Some EvCleanup) ∧
    reports events = match snd r with Some result => [result] | None => [] end ∧
    (thread_mode params = UCS_THREAD_MODE_SINGLE →
     (snd r ≠ None ↔ fst r = UCS_OK)) ∧
    (thread_mode params ≠ UCS_THREAD_MODE_SINGLE → valid → snd r = None).
Proof.
  intros Hpos Hrun valid setup_status. subst setup_status.
  unfold ucx_perf_run.
  destruct (decide (command params = UCX_PERF_CMD_LAST)) as [Hc|Hc].
  { eexists _, _, []. split; [reflexivity|]. rewrite app_nil_r.
    split; [done|]. split; [done|]. split; [intros [? _]; done|].
    split; [intros [? _]; done|]. split; [done|]. split; [done|].
    intros _ [? _]. done. }
  destruct (decide (api params ≠ UCX_PERF_API_UCT ∧ api params ≠ UCX_PERF_API_UCP))
    as [Ha|Ha].
  { eexists _, _, []. split; [reflexivity|]. rewrite app_nil_r.
    split; [done|]. split; [done|]. split; [intros [_ [?|?]]; tauto|].
    split; [intros [_ [?|?]]; tauto|]. split; [done|]. split; [done|].
    intros _ [_ [?|?]]; tauto. }
  assert (Hvalid : valid).
  { split; [done|]. destruct (api params); [by left|by right|].
    exfalso. apply Ha. done. }
  destruct (decide (UCS_THREAD_MODE_SINGLE ≠ thread_mode params)) as [Hm|Hm].
  - unfold ucx_perf_thread_spawn, do_reset, do_setup, ucs_get_time, emit,
      mbind, M_bind, mret, M_ret. simpl.
    destruct (funcs_setup _ _ _) as [st perf1] eqn:Hs. simpl in *.
    destruct (decide (UCS_OK ≠ st)) as [Hst|Hst]; simpl.
    + eexists _, _, [EvReset; EvSetup]. split; [reflexivity|]. simpl.
      split; [by rewrite <- app_assoc|]. split; [tauto|].
      split; [done|]. split; [intros _ ->; done|].
      split; [done|]. split; [intros Hs'; by rewrite Hs' in Hm|done].
    + eexists _, _, [EvReset; EvSetup; EvParallel; EvCleanup].
      split; [reflexivity|]. simpl.
      split; [by rewrite <- !app_assoc|]. split; [tauto|].
      split; [intros _ Hne; destruct Hst; congruence|].
      split; [done|].
      split; [done|]. split; [intros Hs'; by rewrite Hs' in Hm|done].
  - assert (Hsingle : thread_mode params = UCS_THREAD_MODE_SINGLE).
    { by destruct (decide (UCS_THREAD_MODE_SINGLE = thread_mode params)). }
    unfold do_reset, do_setup, do_run, ucs_get_time, emit, lift_option,
      mbind, M_bind, mret, M_ret. simpl.
    destruct (funcs_setup _ _ _) as [st perf1] eqn:Hs. simpl in *.
    destruct (decide (st ≠ UCS_OK)) as [Hst|Hst]; simpl.
    { eexists _, _, [EvReset; EvSetup]. split; [reflexivity|]. simpl.
      split; [by rewrite <- app_assoc|]. split; [tauto|].
      split; [done|]. split; [intros _ ->; done|]. split; [done|].
      split; [|done]. intros _. split; [done|]. intros ->. done. }
    assert (Hstok : st = UCS_OK) by (by destruct (decide (st = UCS_OK))).
    assert (Hcalc : ∀ perf, ∃ perf' result,
      ucx_perf_calc_result ucs_time_from_sec TIMING_QUEUE_SIZE
        (snd (funcs_run (api params) perf)) = Some (perf', result)).
    { intros perf. unfold ucx_perf_calc_result.
      destruct (find_median_sorted_median
                  (perf_timing_queue (snd (funcs_run (api params) perf)))
                  TIMING_QUEUE_SIZE) as (queue & -> & _); [done|apply Hrun|].
      simpl. eauto. }
    destruct (decide (warmup_iter params > 0)) as [Hw|Hw]; simpl.
    + destruct (funcs_run (api params) (ucx_perf_set_warmup perf1 params))
        as [st1 perf2] eqn:Hr1. simpl.
      destruct (decide (st1 ≠ UCS_OK)) as [Hst1|Hst1]; simpl.
      { eexists _, _, [EvReset; EvSetup; EvRun _; EvCleanup].
        split; [reflexivity|]. simpl.
        split; [by rewrite <- !app_assoc|]. split; [tauto|].
        split; [done|]. split; [done|]. split; [done|].
        split; [|done]. intros _. split; [done|]. intros ->. done. }
      match goal with
      | |- context [funcs_run (api params) ?p] =>
          destruct (Hcalc p) as (perf' & result & Hcr);
          destruct (funcs_run (api params) p) as [st2 perf3] eqn:Hr2
      end.
      simpl in *.
      destruct (decide (st2 = UCS_OK)) as [Hst2|Hst2]; simpl.
      * rewrite Hcr. simpl.
        eexists _, _, [EvReset; EvSetup; EvRun _; EvBarrier; EvReset; EvRun _;
                       EvBarrier; EvReport _; EvCleanup].
        split; [reflexivity|]. simpl.
        split; [by rewrite <- !app_assoc|]. split; [tauto|].
        split; [done|]. split; [done|]. split; [done|].
        split; [|done]. intros _. done.
      * eexists _, _, [EvReset; EvSetup; EvRun _; EvBarrier; EvReset; EvRun _;
                       EvBarrier; EvCleanup].
        split; [reflexivity|]. simpl.
        split; [by rewrite <- !app_assoc|]. split; [tauto|].
        split; [done|]. split; [done|]. split; [done|].
        split; [|done]. intros _. done.
    + destruct (Hcalc perf1) as (perf' & result & Hcr).
      destruct (funcs_run (api params) perf1) as [st2 perf3] eqn:Hr2.
      simpl in *.
      destruct (decide (st2 = UCS_OK)) as [Hst2|Hst2]; simpl.
      * rewrite Hcr. simpl.
        eexists _, _, [EvReset; EvSetup; EvRun _; EvBarrier; EvReport _; EvCleanup].
        split; [reflexivity|]. simpl.
        split; [by rewrite <- !app_assoc|]. split; [tauto|].
        split; [done|]. split; [done|]. split; [done|].
        split; [|done]. intros _. done.
      * eexists _, _, [EvReset; EvSetup; EvRun _; EvBarrier; EvCleanup].
        split; [reflexivity|]. simpl.
        split; [by rewrite <- !app_assoc|]. split; [tauto|].
        split; [done|]. split; [done|]. split; [done|].
        split; [|done]. intros _. done.
Qed.

(** X11.  [ucx_perf_run] pairs every successful [setup] with exactly
    one [cleanup], its last call, in the single-thread and in the
    multi-thread mode, whatever the warm-up and the test runs return;
    when the parameters are rejected it makes no call at all, and when
    [setup] fails it returns the status of [setup] and calls no
    [cleanup]. *)
Theorem ucx_perf_run_cleanup params w :
  1 ≤ TIMING_QUEUE_SIZE →
  (∀ a perf, len (perf_timing_queue (snd (funcs_run a perf))) = TIMING_QUEUE_SIZE) →
  let valid :=
    command params ≠ UCX_PERF_CMD_LAST ∧
    (api params = UCX_PERF_API_UCT ∨ api params = UCX_PERF_API_UCP) in
  let setup_status :=
    fst (funcs_setup (api params)
           (ucx_perf_test_reset ucs_time_from_sec TIMING_QUEUE_SIZE
              (clock (w_reads w)) perf_uninit params) params) in
  ∃ r w' events,
    ucx_perf_run ucs_time_from_sec TIMING_QUEUE_SIZE clock funcs_setup
      funcs_run omp_statuses perf_uninit params w = Some (r, w') ∧
    w_trace w' = w_trace w ++ events ∧
    (¬ valid → events = [] ∧ fst r = UCS_ERR_INVALID_PARAM) ∧
    (valid → setup_status ≠ UCS_OK →
     cleanups events = 0%nat ∧ fst r = setup_status) ∧
    (valid → setup_status = UCS_OK →
     cleanups events = 1%nat ∧ last events = Some EvCleanup).
Proof.
  intros Hpos Hrun valid setup_status.
  destruct (ucx_perf_run_paths params w Hpos Hrun)
    as (r & w' & events & E & T & H1 & H2 & H3 & _).
  exists r, w', events. done.
Qed.

(** X12.  In the single-thread mode [ucx_perf_run] writes the result
    exactly when it returns OK, and then it has reported that result,
    once, to the rendezvous collaborator; on every other single-thread
    path it reports nothing. In the multi-thread mode it never writes
    the caller's result: thread 0 computes and reports a result of its
    own inside the parallel region, which the trace does not show and
    of which nothing is stated here. *)
Theorem ucx_perf_run_reports params w :
  1 ≤ TIMING_QUEUE_SIZE →
  (∀ a perf, len (perf_timing_queue (snd (funcs_run a perf))) = TIMING_QUEUE_SIZE) →
  ∃ r w' events,
    ucx_perf_run ucs_time_from_sec TIMING_QUEUE_SIZE clock funcs_setup
      funcs_run omp_statuses perf_uninit params w = Some (r, w') ∧
    w_trace w' = w_trace w ++ events ∧
    (thread_mode params = UCS_THREAD_MODE_SINGLE →
     reports events = match snd r with Some result => [result] | None => [] end ∧
     (snd r ≠ None ↔ fst r = UCS_OK)) ∧
    (thread_mode params ≠ UCS_THREAD_MODE_SINGLE → snd r = None).
Proof.
  intros Hpos Hrun.
  destruct (ucx_perf_run_paths params w Hpos Hrun)
    as (r & w' & events & E & T & H1 & _ & _ & H4 & H5 & H6).
  exists r, w', events. split; [done|]. split; [done|].
  split; [intros Hs; split; [done|by apply H5]|]. intros Hm.
  destruct (decide (command params ≠ UCX_PERF_CMD_LAST ∧
                    (api params = UCX_PERF_API_UCT ∨
                     api params = UCX_PERF_API_UCP))) as [Hv|Hv].
  - by apply H6.
  - destruct (H1 Hv) as [-> _]. simpl in H4. by destruct (snd r).
Qed.

End DriverMore.

Lemma ucx_perf_run_cleanup_witness :
  let valid :=
    command example_params ≠ UCX_PERF_CMD_LAST ∧
    (api example_params = UCX_PERF_API_UCT ∨
     api example_params = UCX_PERF_API_UCP) in
  let setup_status :=
    fst (example_setup (api example_params)
           (ucx_perf_test_reset ns_time_from_sec 4
              (example_clock (w_reads example_world)) example_perf
              example_params) example_params) in
  ∃ r w' events,
    ucx_perf_run ns_time_from_sec 4 example_clock example_setup
      example_run example_statuses example_perf example_params example_world
      = Some (r, w') ∧
    w_trace w' = w_trace example_world ++ events ∧
    (¬ valid → events = [] ∧ fst r = UCS_ERR_INVALID_PARAM) ∧
    (valid → setup_status ≠ UCS_OK →
     cleanups events = 0%nat ∧ fst r = setup_status) ∧
    (valid → setup_status = UCS_OK →
     cleanups events = 1%nat ∧ last events = Some EvCleanup).
Proof.
  apply (ucx_perf_run_cleanup (D := QDouble) ns_time_from_sec 4 example_clock
           example_setup example_run example_statuses example_perf
           example_params example_world); [lia|].
  intros a perf. reflexivity.
Defined.

Lemma ucx_perf_run_reports_witness :
  ∃ r w' events,
    ucx_perf_run ns_time_from_sec 4 example_clock example_setup
      example_run example_statuses example_perf example_params example_world
      = Some (r, w') ∧
    w_trace w' = w_trace example_world ++ events ∧
    (thread_mode example_params = UCS_THREAD_MODE_SINGLE →
     reports events = match snd r with Some result => [result] | None => [] end ∧
     (snd r ≠ None ↔ fst r = UCS_OK)) ∧
    (thread_mode example_params ≠ UCS_THREAD_MODE_SINGLE → snd r = None).
Proof.
  apply (ucx_perf_run_reports (D := QDouble) ns_time_from_sec 4 example_clock
           example_setup example_run example_statuses example_perf
           example_params example_world); [lia|].
  intros a perf. reflexivity.
Defined.

(** ** Atomic resource selection, bit by bit *)

Section BitFacts.

Lemma testbit_UCS_BIT (i j : Z) :
  0 ≤ i → Z.testbit (UCS_BIT i) j = bool_decide (i = j).
Proof.
  intros Hi. unfold UCS_BIT. rewrite Z.shiftl_1_l.
  rewrite Z.pow2_bits_eqb by done.
  destruct (Z.eqb_spec i j) as [->|Hne].
  - by rewrite bool_decide_eq_true_2.
  - by rewrite bool_decide_eq_false_2.
Qed.

Lemma testbit_enable (mask i j : Z) :
  0 ≤ i →
  Z.testbit (ucp_worker_enable_atomic_tl mask i) j =
    Z.testbit mask j || bool_decide (i = j).
Proof.
  intros Hi. unfold ucp_worker_enable_atomic_tl.
  by rewrite Z.lor_spec, testbit_UCS_BIT.
Qed.

Lemma land_UCS_BIT_testbit (a j : Z) :
  0 ≤ j → Z.land a (UCS_BIT j) ≠ 0 ↔ Z.testbit a j = true.
Proof.
  intros Hj. split.
  - intros Hne. destruct (Z.testbit a j) eqn:Hb; [done|].
    destruct Hne. apply Z.bits_inj'. intros n Hn.
    rewrite Z.land_spec, testbit_UCS_BIT, Z.bits_0 by done.
    case_bool_decide; [subst; by rewrite Hb|by rewrite andb_false_r].
  - intros Hb Hz.
    assert (Z.testbit (Z.land a (UCS_BIT j)) j = true) as Ht.
    { rewrite Z.land_spec, testbit_UCS_BIT, Hb by done.
      by rewrite bool_decide_eq_true_2. }
    rewrite Hz, Z.bits_0 in Ht. done.
Qed.

End BitFacts.

Section AtomicsMore.

Context {D : CDouble} {F : UctIfaceFlags} {U : UcpFeatures}.
Variable K : Type.
Variable P : Type.
Variable UCT_MD_FLAG_REG : Z.
Variable UCT_DEVICE_NAME_MAX : nat.
Variable ucp_context_uct_atomic_iface_flags : ucp_context_t → Z.
Variable ucp_wireup_amo_score_func : ucp_context_t → Z → uct_iface_attr_t → double.

Implicit Types (worker : ucp_worker_t K P).

Local Abbreviation capable :=
  (device_capable UCT_MD_FLAG_REG ucp_context_uct_atomic_iface_flags).

Lemma cpu_atomics_bits worker :
  atomics_wf worker → atomic_tls _ _ worker = 0 →
  ∃ mask,
    ucp_worker_init_cpu_atomics K P worker = Ret mask ∧
    ∀ j, 0 ≤ j →
      Z.testbit mask j =
        bool_decide (j < num_tls (context _ _ worker))
        && iface_has_flag worker UCT_IFACE_FLAG_ATOMIC_CPU j.
Proof.
  intros (Hn & Hr & Ha & Hmd) H0. unfold ucp_worker_init_cpu_atomics.
  match goal with
  | |- ∃ mask, for_tls ?ctx ?body ?s = _ ∧ _ =>
      destruct (for_tls_inv ctx body s
        (λ i mask, ∀ j, 0 ≤ j →
           Z.testbit mask j =
             bool_decide (j < Z.of_nat i)
             && iface_has_flag worker UCT_IFACE_FLAG_ATOMIC_CPU j))
        as (mask & Hmask & HI)
  end.
  - intros j Hj. rewrite H0, Z.bits_0.
    by rewrite bool_decide_eq_false_2 by lia.
  - intros i mask Hi HI.
    destruct (at_rsc_in (iface_attrs _ _ worker) (Z.of_nat i)) as (attr & Hat & _);
      [lia|].
    assert (Hflag : iface_has_flag worker UCT_IFACE_FLAG_ATOMIC_CPU (Z.of_nat i)
                    = bool_decide (Z.land (cap_flags attr) UCT_IFACE_FLAG_ATOMIC_CPU ≠ 0)).
    { unfold iface_has_flag. by rewrite Hat. }
    rewrite Hat. simpl.
    destruct (decide (Z.land (cap_flags attr) UCT_IFACE_FLAG_ATOMIC_CPU ≠ 0))
      as [Hc|Hc]; eexists; (split; [done|]); intros j Hj.
    + rewrite testbit_enable, HI by lia.
      destruct (decide (Z.of_nat i = j)) as [<-|Hne].
      * rewrite (bool_decide_eq_true_2 (Z.of_nat i = Z.of_nat i)) by done.
        rewrite orb_true_r.
        rewrite (bool_decide_eq_true_2 (Z.of_nat i < Z.of_nat (S i))) by lia.
        rewrite Hflag. by rewrite bool_decide_eq_true_2.
      * rewrite (bool_decide_eq_false_2 (Z.of_nat i = j)) by done.
        rewrite orb_false_r. f_equal. apply bool_decide_ext. lia.
    + rewrite HI by lia.
      destruct (decide (Z.of_nat i = j)) as [<-|Hne].
      * rewrite Hflag, (bool_decide_eq_false_2 _ Hc).
        by rewrite !andb_false_r.
      * f_equal. apply bool_decide_ext. lia.
  - exists mask. split; [done|]. intros j Hj. rewrite HI by done.
    by rewrite Z2Nat.id by lia.
Qed.

(** X13.  Under the CPU policy, with atomics requested, the mask that
    [ucp_worker_init_atomic_tls] computes has bit [j] set exactly when
    [j] is a transport resource whose interface advertises CPU
    atomics: every such resource is enabled, and no other bit is ever
    set. *)
Theorem ucp_worker_init_atomic_tls_cpu_bits worker :
  atomics_wf worker →
  Z.land (features (context _ _ worker))
    (Z.lor UCP_FEATURE_AMO32 UCP_FEATURE_AMO64) ≠ 0 →
  atomic_mode (context _ _ worker) = UCP_ATOMIC_MODE_CPU →
  ∃ mask,
    ucp_worker_init_atomic_tls K P UCT_MD_FLAG_REG UCT_DEVICE_NAME_MAX
      ucp_context_uct_atomic_iface_flags ucp_wireup_amo_score_func worker
      = Ret mask ∧
    ∀ j, 0 ≤ j →
      Z.testbit mask j =
        bool_decide (j < num_tls (context _ _ worker))
        && iface_has_flag worker UCT_IFACE_FLAG_ATOMIC_CPU j.
Proof.
  intros Hwf Hwanted Hmode.
  assert (Hwf0 : atomics_wf (set_atomic_tls K P worker 0)) by exact Hwf.
  destruct (cpu_atomics_bits (set_atomic_tls K P worker 0) Hwf0 eq_refl)
    as (mask & Hmask & Hbits).
  exists mask. split; [|exact Hbits].
  unfold ucp_worker_init_atomic_tls. simpl.
  rewrite decide_True by done. by rewrite Hmode.
Qed.

Lemma select_best_supp worker :
  atomics_wf worker →
  ∃ st,
    select_best K P UCT_MD_FLAG_REG ucp_context_uct_atomic_iface_flags
      ucp_wireup_amo_score_func worker = Ret st ∧
    ∀ j, 0 ≤ j →
      Z.testbit (supp_tls st) j =
        bool_decide (j < num_tls (context _ _ worker)) && capable worker j.
Proof.
  intros (Hn & Hr & Ha & Hmd). unfold select_best.
  match goal with
  | |- ∃ st, for_tls ?ctx ?body ?s = _ ∧ _ =>
      destruct (for_tls_inv ctx body s
        (λ i st, ∀ j, 0 ≤ j →
           Z.testbit (supp_tls st) j =
             bool_decide (j < Z.of_nat i) && capable worker j))
        as (st & Hst & HI)
  end.
  - intros j Hj. simpl. rewrite Z.bits_0.
    by rewrite bool_decide_eq_false_2 by lia.
  - intros i st Hi HI.
    destruct (at_rsc_in (tl_rscs (context _ _ worker)) (Z.of_nat i))
      as (rsc & Hrsc & Hrsc'); [lia|].
    destruct (at_rsc_in (tl_mds (context _ _ worker)) (md_index rsc))
      as (md_flags & Hmdf & _).
    { rewrite Nat2Z.id in Hrsc'. by eapply Hmd. }
    destruct (at_rsc_in (iface_attrs _ _ worker) (Z.of_nat i))
      as (attr & Hattr & _); [lia|].
    assert (Hcap : capable worker (Z.of_nat i) =
      bool_decide (Z.land md_flags UCT_MD_FLAG_REG ≠ 0)
      && ucs_test_all_flags (cap_flags attr)
           (Z.lor (ucp_context_uct_atomic_iface_flags (context _ _ worker))
                  UCT_IFACE_FLAG_ATOMIC_DEVICE)).
    { unfold device_capable. by rewrite Hrsc, Hmdf, Hattr. }
    assert (Hskip : capable worker (Z.of_nat i) = false →
      ∀ j, 0 ≤ j →
        Z.testbit (supp_tls st) j =
          bool_decide (j < Z.of_nat (S i)) && capable worker j).
    { intros Hc j Hj. rewrite HI by done.
      destruct (decide (Z.of_nat i = j)) as [<-|Hne].
      - by rewrite Hc, !andb_false_r.
      - f_equal. apply bool_decide_ext. lia. }
    assert (Htake : capable worker (Z.of_nat i) = true →
      ∀ j, 0 ≤ j →
        Z.testbit (Z.lor (supp_tls st) (UCS_BIT (Z.of_nat i))) j =
          bool_decide (j < Z.of_nat (S i)) && capable worker j).
    { intros Hc j Hj. rewrite Z.lor_spec, testbit_UCS_BIT, HI by lia.
      destruct (decide (Z.of_nat i = j)) as [<-|Hne].
      - rewrite (bool_decide_eq_true_2 (Z.of_nat i = Z.of_nat i)) by done.
        rewrite orb_true_r.
        rewrite (bool_decide_eq_true_2 (Z.of_nat i < Z.of_nat (S i))) by lia.
        by rewrite Hc.
      - rewrite (bool_decide_eq_false_2 (Z.of_nat i = j)) by done.
        rewrite orb_false_r. f_equal. apply bool_decide_ext. lia. }
    rewrite Hrsc. simpl. rewrite Hmdf. simpl. rewrite Hattr. simpl.
    destruct (bool_decide (Z.land md_flags UCT_MD_FLAG_REG ≠ 0)) eqn:Hreg; simpl;
      [destruct (ucs_test_all_flags _ _) eqn:Hall; simpl|].
    + case_match; eexists; (split; [done|]); simpl; by apply Htake.
    + exists st. split; [done|]. by apply Hskip.
    + exists st. split; [done|]. by apply Hskip.
  - exists st. split; [done|]. intros j Hj. rewrite HI by done.
    by rewrite Z2Nat.id by lia.
Qed.

Lemma device_atomics_bits worker :
  atomics_wf worker → atomic_tls _ _ worker = 0 →
  ∃ mask,
    ucp_worker_init_device_atomics K P UCT_MD_FLAG_REG UCT_DEVICE_NAME_MAX
      ucp_context_uct_atomic_iface_flags ucp_wireup_amo_score_func worker
      = Ret mask ∧
    (mask = 0 ∨
     ∃ b, 0 ≤ b < num_tls (context _ _ worker) ∧
          capable worker b = true ∧
          ∀ j, 0 ≤ j →
            Z.testbit mask j =
              bool_decide (j < num_tls (context _ _ worker))
              && capable worker j
              && same_device UCT_DEVICE_NAME_MAX (context _ _ worker) j b).
Proof.
  intros Hwf H0. pose proof Hwf as (Hn & Hr & Ha & Hmd).
  unfold ucp_worker_init_device_atomics.
  destruct (select_best_spec K P UCT_MD_FLAG_REG
              ucp_context_uct_atomic_iface_flags ucp_wireup_amo_score_func
              worker Hwf) as (st & Hst & _ & _ & Hbest).
  destruct (select_best_supp worker Hwf) as (st' & Hst' & Hsupp).
  assert (st' = st) as -> by congruence.
  rewrite Hst. simpl. destruct (best_rsc st) as [b|] eqn:Hb.
  - destruct (Hbest b eq_refl) as [Hbn Hbs].
    destruct (at_rsc_in (tl_rscs (context _ _ worker)) b) as (best & Hbest' & _);
      [lia|].
    rewrite Hbest'. simpl.
    match goal with
    | |- ∃ mask, for_tls ?ctx ?body ?s = _ ∧ _ =>
        destruct (for_tls_inv ctx body s
          (λ i mask, ∀ j, 0 ≤ j →
             Z.testbit mask j =
               bool_decide (j < Z.of_nat i)
               && capable worker j
               && same_device UCT_DEVICE_NAME_MAX (context _ _ worker) j b))
          as (mask & Hmask & HI)
    end.
    + intros j Hj. rewrite H0, Z.bits_0.
      by rewrite bool_decide_eq_false_2 by lia.
    + intros i mask Hi HI.
      destruct (at_rsc_in (tl_rscs (context _ _ worker)) (Z.of_nat i))
        as (rsc & Hrsc & _); [lia|].
      rewrite Hrsc. simpl.
      assert (Hsame : same_device UCT_DEVICE_NAME_MAX (context _ _ worker)
                        (Z.of_nat i) b =
        bool_decide (md_index rsc = md_index best)
        && strncmp_eq UCT_DEVICE_NAME_MAX (dev_name rsc) (dev_name best)).
      { unfold same_device. by rewrite Hrsc, Hbest'. }
      assert (Hsup : bool_decide (Z.land (supp_tls st) (UCS_BIT (Z.of_nat i)) ≠ 0)
                     = capable worker (Z.of_nat i)).
      { rewrite (bool_decide_ext _ _
                   (land_UCS_BIT_testbit (supp_tls st) (Z.of_nat i)
                      (Nat2Z.is_nonneg i))).
        rewrite Hsupp by lia.
        rewrite (bool_decide_eq_true_2 (Z.of_nat i < num_tls _)) by lia. simpl.
        by destruct (capable worker (Z.of_nat i)). }
      rewrite Hsup, <- andb_assoc, <- Hsame.
      destruct (capable worker (Z.of_nat i) &&
                same_device UCT_DEVICE_NAME_MAX (context _ _ worker) (Z.of_nat i) b)
        eqn:Hc; eexists; (split; [done|]); intros j Hj.
      * rewrite testbit_enable, HI by lia.
        destruct (decide (Z.of_nat i = j)) as [<-|Hne].
        -- rewrite (bool_decide_eq_true_2 (Z.of_nat i = Z.of_nat i)) by done.
           rewrite orb_true_r.
           rewrite (bool_decide_eq_true_2 (Z.of_nat i < Z.of_nat (S i))) by lia.
           by rewrite <- andb_assoc, Hc.
        -- rewrite (bool_decide_eq_false_2 (Z.of_nat i = j)) by done.
           rewrite orb_false_r. do 2 f_equal. apply bool_decide_ext. lia.
      * rewrite HI by lia.
        destruct (decide (Z.of_nat i = j)) as [<-|Hne].
        -- by rewrite <- !andb_assoc, Hc, !andb_false_r.
        -- do 2 f_equal. apply bool_decide_ext. lia.
    + exists mask. split; [done|]. right. exists b. split; [lia|]. split.
      * apply land_UCS_BIT_testbit in Hbs; [|lia].
        rewrite Hsupp in Hbs by lia. by apply andb_prop in Hbs as [_ ?].
      * intros j Hj. rewrite HI by done. by rewrite Z2Nat.id by lia.
  - exists (atomic_tls _ _ worker). split; [done|]. by left.
Qed.

(** X14.  Under the DEVICE policy, with atomics requested, the mask is
    either empty or made of one device: there is a resource [b] that
    passes the capability test, and bit [j] is set exactly when [j] is
    a transport resource that passes the test and is on the device of
    [b] (same memory domain, same device name). Atomics are never
    enabled on two devices at once, nor on a resource that lacks a
    capability. *)
Theorem ucp_worker_init_atomic_tls_device_bits worker :
  atomics_wf worker →
  Z.land (features (context _ _ worker))
    (Z.lor UCP_FEATURE_AMO32 UCP_FEATURE_AMO64) ≠ 0 →
  atomic_mode (context _ _ worker) = UCP_ATOMIC_MODE_DEVICE →
  ∃ mask,
    ucp_worker_init_atomic_tls K P UCT_MD_FLAG_REG UCT_DEVICE_NAME_MAX
      ucp_context_uct_atomic_iface_flags ucp_wireup_amo_score_func worker
      = Ret mask ∧
    (mask = 0 ∨
     ∃ b, 0 ≤ b < num_tls (context _ _ worker) ∧
          capable worker b = true ∧
          ∀ j, 0 ≤ j →
            Z.testbit mask j =
              bool_decide (j < num_tls (context _ _ worker))
              && capable worker j
              && same_device UCT_DEVICE_NAME_MAX (context _ _ worker) j b).
Proof.
  intros Hwf Hwanted Hmode.
  assert (Hwf0 : atomics_wf (set_atomic_tls K P worker 0)) by exact Hwf.
  destruct (device_atomics_bits (set_atomic_tls K P worker 0) Hwf0 eq_refl)
    as (mask & Hmask & Hbits).
  exists mask. split; [|exact Hbits].
  unfold ucp_worker_init_atomic_tls. simpl.
  rewrite decide_True by done. by rewrite Hmode.
Qed.

End AtomicsMore.

Lemma ucp_worker_init_atomic_tls_cpu_bits_witness :
  ∃ mask,
    ucp_worker_init_atomic_tls Z unit 2 32 example_atomic_iface_flags
      example_score example_worker_cpu = Ret mask ∧
    ∀ j, 0 ≤ j →
      Z.testbit mask j =
        bool_decide (j < num_tls (context _ _ example_worker_cpu))
        && iface_has_flag example_worker_cpu UCT_IFACE_FLAG_ATOMIC_CPU j.
Proof.
  apply (ucp_worker_init_atomic_tls_cpu_bits (D := QDouble) Z unit 2 32
           example_atomic_iface_flags example_score example_worker_cpu).
  - unfold atomics_wf. simpl. split; [lia|]. split; [reflexivity|].
    split; [reflexivity|].
    intros [|[|j]] rsc Hj; simpl in Hj; [injection Hj as <-..|discriminate];
      simpl; lia.
  - simpl. discriminate.
  - reflexivity.
Defined.

Lemma ucp_worker_init_atomic_tls_device_bits_witness :
  ∃ mask,
    ucp_worker_init_atomic_tls Z unit 2 32 example_atomic_iface_flags
      example_score example_worker_device = Ret mask ∧
    (mask = 0 ∨
     ∃ b, 0 ≤ b < num_tls (context _ _ example_worker_device) ∧
          device_capable 2 example_atomic_iface_flags example_worker_device b
            = true ∧
          ∀ j, 0 ≤ j →
            Z.testbit mask j =
              bool_decide (j < num_tls (context _ _ example_worker_device))
              && device_capable 2 example_atomic_iface_flags
                   example_worker_device j
              && same_device 32 (context _ _ example_worker_device) j b).
Proof.
  apply (ucp_worker_init_atomic_tls_device_bits (D := QDouble) Z unit 2 32
           example_atomic_iface_flags example_score example_worker_device).
  - unfold atomics_wf. simpl. split; [lia|]. split; [reflexivity|].
    split; [reflexivity|].
    intros [|[|j]] rsc Hj; simpl in Hj; [injection Hj as <-..|discriminate];
      simpl; lia.
  - simpl. discriminate.
  - reflexivity.
Defined.

(** The masks of the two example workers: resource 1 and nothing else. *)
Example init_atomic_tls_example_masks :
  ucp_worker_init_atomic_tls Z unit 2 32 example_atomic_iface_flags
    example_score example_worker_cpu = Ret 2 ∧
  ucp_worker_init_atomic_tls Z unit 2 32 example_atomic_iface_flags
    example_score example_worker_device = Ret 2.
Proof. split; reflexivity. Qed.

(** ** The capacity of the endpoint-configuration cache *)

Section EpConfigCapacity.

Context {D : CDouble} {F : UctIfaceFlags} {U : UcpFeatures}.
Variable K : Type.
Variable P : Type.
Variable ucp_ep_config_is_equal : K → K → bool.
Variable ucp_ep_config_init : ucp_context_t → list uct_iface_attr_t → K → P.
Variable UCP_WORKER_PARAM_FIELD_THREAD_MODE : Z.
Variable UCT_MD_FLAG_REG : Z.
Variable UCT_DEVICE_NAME_MAX : nat.
Variable ucp_context_uct_atomic_iface_flags : ucp_context_t → Z.
Variable ucp_wireup_amo_score_func : ucp_context_t → Z → uct_iface_attr_t → double.

Implicit Types (worker : ucp_worker_t K P) (k : K).

(** X15.  A worker that [ucp_worker_create] hands out starts with an
    empty cache whose capacity is [min((n+1)·(n+1)·n, 255)] for [n]
    transport resources. Without transport resources the capacity is 0
    and every [ucp_worker_get_ep_config] is fatal; with at least one
    resource the capacity is between 4 and 255, the first key of any
    value is stored at index 0, and from six resources on the capacity
    is 255. *)
Theorem ucp_worker_create_ep_config_capacity ctx params attrs worker :
  0 ≤ num_tls ctx →
  ucp_worker_create K P UCP_WORKER_PARAM_FIELD_THREAD_MODE UCT_MD_FLAG_REG
    UCT_DEVICE_NAME_MAX ucp_context_uct_atomic_iface_flags
    ucp_wireup_amo_score_func ctx params attrs = Ret worker →
  ep_config_count _ _ worker = 0 ∧
  ep_config_max _ _ worker =
    Z.min ((num_tls ctx + 1) * (num_tls ctx + 1) * num_tls ctx) 255 ∧
  (num_tls ctx = 0 →
   ∀ k, ucp_worker_get_ep_config K P ucp_ep_config_is_equal ucp_ep_config_init
          worker k = Abort) ∧
  (1 ≤ num_tls ctx →
   4 ≤ ep_config_max _ _ worker ≤ 255 ∧
   ∀ k, ∃ worker',
     ucp_worker_get_ep_config K P ucp_ep_config_is_equal ucp_ep_config_init
       worker k = Ret (0, worker') ∧
     ep_config_count _ _ worker' = 1) ∧
  (6 ≤ num_tls ctx → ep_config_max _ _ worker = 255).
Proof.
  intros Hn. unfold ucp_worker_create, rbind.
  set (c := ucs_min ((num_tls ctx + 1) * (num_tls ctx + 1) * num_tls ctx) UINT8_MAX).
  assert (Hmin :
    c = Z.min ((num_tls ctx + 1) * (num_tls ctx + 1) * num_tls ctx) 255).
  { unfold c, ucs_min, UINT8_MAX. case_decide; lia. }
  clearbody c.
  destruct (ucp_worker_init_atomic_tls _ _ _ _ _ _ _) as [mask| |]; [|done..].
  intros [= <-]. simpl.
  split; [done|]. split; [done|]. split; [|split].
  - intros H0 k. unfold ucp_worker_get_ep_config. simpl.
    rewrite decide_True by (rewrite Hmin, H0; simpl; lia). done.
  - intros H1.
    assert (Hcap : 4 ≤ c ≤ 255) by nia.
    split; [done|]. intros k. unfold ucp_worker_get_ep_config. simpl.
    rewrite decide_False by lia.
    unfold at_rsc. simpl.
    destruct (Z.to_nat c) as [|c'] eqn:Hc; [lia|].
    simpl. eexists. split; [reflexivity|]. done.
  - intros H6. nia.
Qed.

End EpConfigCapacity.

Lemma ucp_worker_create_ep_config_capacity_witness :
  let ctx := example_context UCP_ATOMIC_MODE_CPU in
  let worker := example_worker in
  ep_config_count _ _ worker = 0 ∧
  ep_config_max _ _ worker =
    Z.min ((num_tls ctx + 1) * (num_tls ctx + 1) * num_tls ctx) 255 ∧
  (num_tls ctx = 0 →
   ∀ k, ucp_worker_get_ep_config Z unit Z.eqb (λ _ _ _, tt) worker k = Abort) ∧
  (1 ≤ num_tls ctx →
   4 ≤ ep_config_max _ _ worker ≤ 255 ∧
   ∀ k, ∃ worker',
     ucp_worker_get_ep_config Z unit Z.eqb (λ _ _ _, tt) worker k
       = Ret (0, worker') ∧
     ep_config_count _ _ worker' = 1) ∧
  (6 ≤ num_tls ctx → ep_config_max _ _ worker = 255).
Proof.
  apply (ucp_worker_create_ep_config_capacity (D := QDouble) Z unit Z.eqb
           (λ _ _ _, tt) 1 2 32 example_atomic_iface_flags example_score
           (example_context UCP_ATOMIC_MODE_CPU)
           (example_worker_params UCS_THREAD_MODE_SINGLE)
           [example_attr_plain; example_attr_plain] example_worker).
  - simpl. lia.
  - reflexivity.
Defined.

(** ** Test buffers: what stays allocated *)

Section PerfMemoryFacts.

Context {D : CDouble}.
Variable UCX_PERF_TEST_FLAG_MAP_NONBLOCK : Z.
Variable UCT_MD_MEM_FLAG_NONBLOCK : Z.
Variable UCP_MEM_MAP_NONBLOCK : Z.
Variable sizeof_uct_iov : Z.
Variable sizeof_ucp_dt_iov : Z.

Implicit Types (o : mem_oracle) (params : ucx_perf_params_t)
  (held : list resource).

(** X16.  [uct_perf_test_alloc_mem] returns OK exactly when its three
    allocations succeed; it then holds the send buffer, the receive
    buffer and the IOV array, and [uct_perf_test_free_mem] releases
    the three. When the send or the receive buffer cannot be allocated
    it returns the status of that allocation and holds nothing more
    than before. When the IOV array cannot be allocated it returns
    NO_MEMORY after releasing the send buffer only: the receive buffer
    is still held. *)
Theorem uct_perf_test_alloc_mem_outcomes o params held :
  let alloc :=
    uct_perf_test_alloc_mem UCX_PERF_TEST_FLAG_MAP_NONBLOCK
      UCT_MD_MEM_FLAG_NONBLOCK sizeof_uct_iov o params held in
  let length := (uct_buffer_size params * thread_count params) `mod` 2 ^ 64 in
  let flags :=
    if decide (Z.land (flags params) UCX_PERF_TEST_FLAG_MAP_NONBLOCK ≠ 0)
    then UCT_MD_MEM_FLAG_NONBLOCK else 0 in
  let send := o_uct_iface_mem_alloc o RSendMem length flags in
  let recv := o_uct_iface_mem_alloc o RRecvMem length flags in
  let iov :=
    o_malloc o RIov
      ((sizeof_uct_iov * msg_size_cnt params * thread_count params) `mod` 2 ^ 64) in
  (send ≠ UCS_OK → alloc = Ret (send, held)) ∧
  (send = UCS_OK → recv ≠ UCS_OK → alloc = Ret (recv, held)) ∧
  (send = UCS_OK → recv = UCS_OK → iov = false →
   alloc = Ret (UCS_ERR_NO_MEMORY, RRecvMem :: held)) ∧
  (send = UCS_OK → recv = UCS_OK → iov = true →
   alloc = Ret (UCS_OK, RIov :: RRecvMem :: RSendMem :: held) ∧
   uct_perf_test_free_mem (RIov :: RRecvMem :: RSendMem :: held)
     = Ret (tt, held)) ∧
  (∀ held', alloc = Ret (UCS_OK, held') →
            send = UCS_OK ∧ recv = UCS_OK ∧ iov = true).
Proof.
  intros alloc length flags send recv iov.
  unfold alloc, uct_perf_test_alloc_mem.
  fold flags. fold length. fold send. fold recv. fold iov.
  destruct (decide (send ≠ UCS_OK)) as [Hs|Hs].
  { split; [done|]. repeat (split; [intros ?; done|]).
    intros held' [= ? _]. done. }
  assert (send = UCS_OK) as Hsok by (by destruct (decide (send = UCS_OK))).
  split; [done|].
  unfold mbind, Res_bind, acquire, release, mret, Res_ret. simpl.
  destruct (decide (recv ≠ UCS_OK)) as [Hr|Hr].
  { split; [done|]. repeat (split; [intros ? ?; done|]).
    intros held' [= ? _]. done. }
  assert (recv = UCS_OK) as Hrok by (by destruct (decide (recv = UCS_OK))).
  split; [done|].
  destruct iov eqn:Hi; simpl.
  - split; [done|]. split; [done|]. done.
  - split; [done|]. split; [done|]. intros held' [=].
Qed.

(** X17.  [ucp_perf_test_alloc_mem] returns OK or NO_MEMORY, and
    NO_MEMORY whatever the status of the mapping that failed. On
    NO_MEMORY it holds nothing more than before: every buffer mapped
    and every array allocated on the way has been released. On OK it
    holds the two buffers and an IOV array for each datatype that is
    IOV, and [ucp_perf_test_free_mem] releases all of them. *)
Theorem ucp_perf_test_alloc_mem_balanced o params send_datatype recv_datatype held :
  ∃ status send_iov recv_iov held',
    ucp_perf_test_alloc_mem UCX_PERF_TEST_FLAG_MAP_NONBLOCK UCP_MEM_MAP_NONBLOCK
      sizeof_ucp_dt_iov o params send_datatype recv_datatype held
      = Ret ((status, (send_iov, recv_iov)), held') ∧
    (status = UCS_OK ∨ status = UCS_ERR_NO_MEMORY) ∧
    (status = UCS_ERR_NO_MEMORY → held' = held) ∧
    (status = UCS_OK →
     (send_iov = true ↔ send_datatype = UCP_PERF_DATATYPE_IOV) ∧
     (recv_iov = true ↔ recv_datatype = UCP_PERF_DATATYPE_IOV) ∧
     held' = (if recv_iov then [RRecvIov] else []) ++
             (if send_iov then [RSendIov] else []) ++
             RRecvMem :: RSendMem :: held ∧
     ucp_perf_test_free_mem send_iov recv_iov held' = Ret (tt, held)).
Proof.
  unfold ucp_perf_test_alloc_mem, ucp_perf_test_alloc_iov_mem,
    ucp_perf_test_free_mem, free.
  unfold mbind, Res_bind, acquire, release, mret, Res_ret.
  destruct (decide (o_ucp_mem_map o RSendMem _ _ ≠ UCS_OK)).
  { eexists _, _, _, _. split; [reflexivity|]. split; [by right|].
    split; [done|]. done. }
  simpl.
  destruct (decide (o_ucp_mem_map o RRecvMem _ _ ≠ UCS_OK)).
  { eexists _, _, _, _. split; [reflexivity|]. split; [by right|].
    split; [done|]. done. }
  simpl.
  destruct send_datatype, recv_datatype; simpl;
    repeat match goal with
           | |- context [o_malloc o ?r ?n] => destruct (o_malloc o r n); simpl
           end;
    eexists _, _, _, _; (split; [reflexivity|]);
    (split; [(by left) || (by right)|]); (split; [done|]); try done;
    intros _; repeat split; done.
Qed.

(** X18.  With a nonzero stride and parameters that pass
    [ucx_perf_test_check_params], every message of the list fits its
    own slot of [iov_stride] bytes: message [it] ends at or before the
    end of slot [it], and the last slot ends at
    [msg_size_cnt * iov_stride]. The buffer that
    [ucp_perf_test_alloc_mem] sizes, and with the zero-copy layout the
    one that [uct_perf_test_alloc_mem] sizes, has that product reduced
    to a [size_t]: it is exactly the slots when the product is below
    2^64, and shorter than the slots when the product reaches 2^64,
    which the check does not exclude. *)
Theorem stride_buffer_holds_messages params :
  ucx_perf_test_check_params params = UCS_OK →
  0 < iov_stride params →
  0 ≤ msg_size_cnt params →
  let slots := msg_size_cnt params * iov_stride params in
  ucp_buffer_size params = slots `mod` 2 ^ 64 ∧
  (uct_data_layout params = UCT_PERF_DATA_LAYOUT_ZCOPY →
   uct_buffer_size params = ucp_buffer_size params) ∧
  (∀ (it : nat) size,
     Z.of_nat it < msg_size_cnt params →
     msg_size_list params !! it = Some size →
     Z.of_nat it * iov_stride params + size
       ≤ (Z.of_nat it + 1) * iov_stride params
       ≤ slots) ∧
  (slots < 2 ^ 64 → ucp_buffer_size params = slots) ∧
  (2 ^ 64 ≤ slots → ucp_buffer_size params < slots).
Proof.
  intros Hok Hstride Hcnt slots.
  assert (Hb : ucp_buffer_size params = slots `mod` 2 ^ 64).
  { unfold ucp_buffer_size. by rewrite decide_True by lia. }
  split; [done|]. split.
  { intros Hl. rewrite Hb. unfold uct_buffer_size.
    by rewrite decide_True by (split; [done|lia]). }
  split.
  { intros it size Hit Hsz.
    assert (size ≤ iov_stride params).
    { unfold ucx_perf_test_check_params in Hok.
      destruct (decide (ucx_perf_get_message_size params < 1)); [done|].
      destruct (decide (max_outstanding params < 1)); [done|].
      rewrite decide_True in Hok by lia.
      destruct (check_stride_spec (iov_stride params)
                  (take (Z.to_nat (msg_size_cnt params)) (msg_size_list params)))
        as [[_ Hall]|[Hbad _]]; [|congruence].
      rewrite Forall_lookup in Hall. apply (Hall it).
      rewrite lookup_take_lt by lia. done. }
    unfold slots. nia. }
  rewrite Hb. split.
  - intros Hfit. apply Z.mod_small. unfold slots in *. nia.
  - intros Hover. pose proof (Z.mod_pos_bound slots (2 ^ 64)). lia.
Qed.

End PerfMemoryFacts.

Lemma stride_buffer_holds_messages_witness :
  let params := example_stride_params in
  let slots := msg_size_cnt params * iov_stride params in
  ucx_perf_test_check_params (D := QDouble) params = UCS_OK ∧
  0 < iov_stride params ∧
  0 ≤ msg_size_cnt params ∧
  ucp_buffer_size params = slots `mod` 2 ^ 64 ∧
  (uct_data_layout params = UCT_PERF_DATA_LAYOUT_ZCOPY →
   uct_buffer_size params = ucp_buffer_size params) ∧
  (∀ (it : nat) size,
     Z.of_nat it < msg_size_cnt params →
     msg_size_list params !! it = Some size →
     Z.of_nat it * iov_stride params + size
       ≤ (Z.of_nat it + 1) * iov_stride params
       ≤ slots) ∧
  (slots < 2 ^ 64 → ucp_buffer_size params = slots) ∧
  (2 ^ 64 ≤ slots → ucp_buffer_size params < slots).
Proof.
  intros params slots.
  split; [reflexivity|]. split; [simpl; lia|]. split; [simpl; lia|].
  apply (stride_buffer_holds_messages (D := QDouble) example_stride_params).
  - reflexivity.
  - simpl. lia.
  - simpl. lia.
Defined.

(** The check accepts a stride of 2^63 with two entries; the product
    wraps to 0, and both allocations size a buffer of 0 bytes for slots
    of 2^64 bytes. *)
Example stride_buffer_wraps :
  let params := example_stride_wrap_params in
  ucx_perf_test_check_params (D := QDouble) params = UCS_OK ∧
  msg_size_cnt params * iov_stride params = 2 ^ 64 ∧
  ucp_buffer_size params = 0 ∧
  uct_buffer_size params = 0.
Proof. repeat split. Qed.

(** The three outcomes of the transport-API allocation on examples. *)
Example uct_alloc_mem_examples :
  uct_perf_test_alloc_mem 1 1 16 example_mem_oracle example_stride_params []
    = Ret (UCS_OK, [RIov; RRecvMem; RSendMem]) ∧
  uct_perf_test_alloc_mem 1 1 16 example_mem_oracle_no_iov example_stride_params []
    = Ret (UCS_ERR_NO_MEMORY, [RRecvMem]) ∧
  ucp_perf_test_alloc_mem 1 1 16 example_mem_oracle_no_iov example_stride_params
    UCP_PERF_DATATYPE_CONTIG UCP_PERF_DATATYPE_IOV []
    = Ret ((UCS_ERR_NO_MEMORY, (false, false)), []).
Proof. repeat split. Qed.

(** ** Selecting the memory domain *)

Section CreateMdFacts.

Implicit Types (mds : list md_resource_t) (held : list resource)
  (tl dev : string).

Lemma release_newest r held : release r (r :: held) = Ret (tt, held).
Proof. unfold release. simpl. by rewrite decide_True. Qed.

Lemma release_second r x held :
  x ≠ r → release r (x :: r :: held) = Ret (tt, x :: held).
Proof.
  intros Hne. unfold release. simpl.
  rewrite decide_False by done. by rewrite decide_True.
Qed.

Lemma create_md_loop_balanced tl dev i mds held :
  ∃ status md,
    create_md_loop tl dev i mds held
      = Ret ((status, md),
             match md with Some m => RMd m :: held | None => held end) ∧
    (md = None ↔ status ≠ UCS_OK).
Proof.
  revert i held. induction mds as [|md0 mds IH]; intros i held; simpl.
  { eexists _, None. split; [reflexivity|]. done. }
  unfold mbind, Res_bind, acquire, mret, Res_ret.
  destruct (decide (md_config_read md0 ≠ UCS_OK)).
  { eexists _, None. split; [reflexivity|]. done. }
  destruct (decide (md_open md0 = UCS_OK)) as [Ho|Ho].
  - rewrite release_second by done.
    rewrite decide_False by (intros ?; done).
    destruct (decide (md_query_tl_resources md0 ≠ UCS_OK)).
    { rewrite release_newest. eexists _, None. split; [reflexivity|]. done. }
    destruct (tl_resource_listed tl dev (md_tl_resources md0)).
    + rewrite release_newest. eexists _, (Some i). split; [reflexivity|]. done.
    + rewrite release_second by done. rewrite release_newest. apply IH.
  - rewrite release_newest. rewrite decide_True by done.
    eexists _, None. split; [reflexivity|]. done.
Qed.

(** X19.  On every path [uct_perf_create_md] releases the list of
    memory domains, each configuration it read, each list of transport
    resources and each memory domain it opened but did not select:
    afterwards it holds, beyond what was held before, the selected
    memory domain when it returns OK and nothing otherwise. It sets
    [perf->uct.md] exactly when it returns OK. *)
Theorem uct_perf_create_md_balanced query mds tl dev held :
  ∃ status md,
    uct_perf_create_md query mds tl dev held
      = Ret ((status, md),
             match md with Some m => RMd m :: held | None => held end) ∧
    (md = None ↔ status ≠ UCS_OK).
Proof.
  unfold uct_perf_create_md.
  destruct (decide (query ≠ UCS_OK)).
  { eexists _, None. split; [reflexivity|]. done. }
  unfold mbind, Res_bind, acquire, mret, Res_ret.
  destruct (create_md_loop_balanced tl dev 0 mds (RMdResources :: held))
    as (status & md & -> & Hmd).
  exists status, md. split; [|done].
  destruct md; [by rewrite release_second|by rewrite release_newest].
Qed.

Lemma create_md_loop_first tl dev i mds held :
  Forall (λ md, md_config_read md = UCS_OK ∧ md_open md = UCS_OK ∧
                md_query_tl_resources md = UCS_OK) mds →
  ∃ held',
    create_md_loop tl dev i mds held =
      Ret (match list_find
                   (λ md, tl_resource_listed tl dev (md_tl_resources md) = true)
                   mds with
           | Some (k, _) => (UCS_OK, Some (i + k)%nat)
           | None => (UCS_ERR_NO_DEVICE, None)
           end, held').
Proof.
  intros Hall. revert i held.
  induction Hall as [|md0 mds (Hc & Ho & Hq) _ IH]; intros i held; simpl.
  { by eexists. }
  unfold mbind, Res_bind, acquire, mret, Res_ret.
  rewrite Hc, Ho, Hq. simpl.
  rewrite release_second by done.
  destruct (tl_resource_listed tl dev (md_tl_resources md0)) eqn:Hl.
  - rewrite release_newest. rewrite decide_True by done.
    rewrite Nat.add_0_r. by eexists.
  - rewrite release_second by done. rewrite release_newest.
    rewrite decide_False by done.
    destruct (IH (S i) held) as (held' & ->). exists held'.
    destruct (list_find _ mds) as [[k x]|]; simpl; [|done].
    by replace (i + S k)%nat with (S (i + k)) by lia.
Qed.

(** X20.  When the library calls succeed, [uct_perf_create_md] selects
    the first memory domain, in the order of the list, that lists the
    requested transport on the requested device, and returns NO_DEVICE
    when no memory domain lists it. *)
Theorem uct_perf_create_md_selects_first mds tl dev held :
  Forall (λ md, md_config_read md = UCS_OK ∧ md_open md = UCS_OK ∧
                md_query_tl_resources md = UCS_OK) mds →
  ∃ held',
    uct_perf_create_md UCS_OK mds tl dev held =
      Ret (match list_find
                   (λ md, tl_resource_listed tl dev (md_tl_resources md) = true)
                   mds with
           | Some (k, _) => (UCS_OK, Some k)
           | None => (UCS_ERR_NO_DEVICE, None)
           end, held').
Proof.
  intros Hall. unfold uct_perf_create_md.
  rewrite decide_False by (intros ?; done).
  destruct (create_md_loop_first tl dev 0 mds (RMdResources :: held) Hall)
    as (held1 & E1).
  destruct (create_md_loop_balanced tl dev 0 mds (RMdResources :: held))
    as (status & md & E2 & _).
  unfold mbind, Res_bind, acquire, mret, Res_ret. rewrite E1.
  rewrite E1 in E2. injection E2 as _ ->.
  destruct md; [rewrite release_second by done|rewrite release_newest];
    by eexists.
Qed.

End CreateMdFacts.

Lemma uct_perf_create_md_selects_first_witness :
  ∃ held',
    uct_perf_create_md UCS_OK example_md_resources "rc" "mlx5_0:1" [] =
      Ret (match list_find
                   (λ md, tl_resource_listed "rc" "mlx5_0:1" (md_tl_resources md)
                          = true)
                   example_md_resources with
           | Some (k, _) => (UCS_OK, Some k)
           | None => (UCS_ERR_NO_DEVICE, None)
           end, held').
Proof.
  apply (uct_perf_create_md_selects_first example_md_resources "rc" "mlx5_0:1" []).
  repeat constructor.
Defined.

(** The second memory domain is selected and stays open; an unknown
    transport gives NO_DEVICE and leaves nothing open. *)
Example uct_perf_create_md_examples :
  uct_perf_create_md UCS_OK example_md_resources "rc" "mlx5_0:1" []
    = Ret ((UCS_OK, Some 1%nat), [RMd 1]) ∧
  uct_perf_create_md UCS_OK example_md_resources "dc" "mlx5_0:1" []
    = Ret ((UCS_ERR_NO_DEVICE, None), []).
Proof. split; reflexivity. Qed.

(** ** Resources: taking out what is held *)

Section ResourceFacts.

Implicit Types (r x : resource) (held ours base : list resource).

Lemma remove_first_elem r ours :
  r ∈ ours → NoDup ours →
  ∃ ours', remove_first r ours = Some ours' ∧ NoDup ours' ∧
           ∀ x, x ∈ ours' ↔ x ∈ ours ∧ x ≠ r.
Proof.
  induction ours as [|y ours IH]; intros Hin Hnd; [by inv Hin|].
  apply NoDup_cons in Hnd as [Hy Hnd]. simpl.
  destruct (decide (y = r)) as [->|Hne].
  - exists ours. split; [done|]. split; [done|]. intros x. split.
    + intros Hx. split; [by right|]. intros ->. done.
    + intros [Hx Hxr]. apply elem_of_cons in Hx as [?|?]; done.
  - apply elem_of_cons in Hin as [?|Hin]; [done|].
    destruct (IH Hin Hnd) as (ours' & -> & Hnd' & Hel).
    exists (y :: ours'). split; [done|]. split.
    + apply NoDup_cons. split; [|done]. rewrite Hel. tauto.
    + intros x. rewrite !elem_of_cons, Hel. split.
      * intros [->|[? ?]]; [split; [by left|done]|split; [by right|done]].
      * intros [[->|?] ?]; [by left|by right].
Qed.

Lemma remove_first_app r ours ours' base :
  remove_first r ours = Some ours' →
  remove_first r (ours ++ base) = Some (ours' ++ base).
Proof.
  revert ours'. induction ours as [|y ours IH]; intros ours'; simpl; [done|].
  destruct (decide (y = r)); [by intros [= ->]|].
  destruct (remove_first r ours) as [o|]; [|done].
  intros [= <-]. by rewrite (IH o eq_refl).
Qed.

Lemma release_ours r ours base :
  r ∈ ours → NoDup ours →
  ∃ ours', release r (ours ++ base) = Ret (tt, ours' ++ base) ∧ NoDup ours' ∧
           ∀ x, x ∈ ours' ↔ x ∈ ours ∧ x ≠ r.
Proof.
  intros Hin Hnd. destruct (remove_first_elem r ours Hin Hnd) as (ours' & E & ?).
  exists ours'. split; [|done]. unfold release.
  by rewrite (remove_first_app _ _ _ _ E).
Qed.

End ResourceFacts.

(** ** Endpoint set-up of the transport API: nothing is lost *)

Section UctEndpointsFacts.

Variable UCT_MD_FLAG_ALLOC : Z.
Variable UCT_MD_FLAG_REG : Z.
Variable UCT_IFACE_FLAG_CONNECT_TO_IFACE : Z.
Variable UCT_IFACE_FLAG_CONNECT_TO_EP : Z.
Variable UCT_INVALID_RKEY : Z.

Implicit Types (o : uct_setup_oracle) (peers : list uct_peer_t)
  (ours base held : list resource) (todo : list nat) (r x : resource).

Lemma release_if (b : bool) r ours base :
  NoDup ours → (b = true → r ∈ ours) →
  ∃ ours',
    (if b then release r else mret tt) (ours ++ base) = Ret (tt, ours' ++ base) ∧
    NoDup ours' ∧ ∀ x, x ∈ ours' ↔ x ∈ ours ∧ (b = true → x ≠ r).
Proof.
  intros Hnd Hin. destruct b.
  - destruct (release_ours r ours base (Hin eq_refl) Hnd) as (ours' & E & ? & Hel).
    exists ours'. split; [done|]. split; [done|]. intros x. rewrite Hel. tauto.
  - exists ours. split; [done|]. split; [done|]. intros x. split; [|tauto].
    intros ?. split; [done|]. intros ?. done.
Qed.

Lemma ours_empty ours : (∀ r, r ∈ ours → False) → ours = [].
Proof. destruct ours as [|y ours]; [done|]. intros H. destruct (H y). by left. Qed.

Lemma uct_destroy_eps_spec (i : nat) peers ours base :
  NoDup ours →
  (∀ r, r ∈ ours ↔
        ∃ k p, peers !! k = Some p ∧
               ((r = REp (i + k) ∧ p_ep p = true) ∨
                (r = RRkey (i + k) ∧ p_rkey_type p = true))) →
  uct_destroy_eps i peers (ours ++ base) = Ret (tt, base).
Proof.
  revert i ours. induction peers as [|p rest IH]; intros i ours Hnd Hown.
  { rewrite (ours_empty ours); [done|].
    intros r Hr. apply Hown in Hr as (k & p & Hk & _). done. }
  simpl. unfold mbind, Res_bind.
  destruct (release_if (p_rkey_type p) (RRkey i) ours base Hnd)
    as (ours1 & -> & Hnd1 & Hel1).
  { intros Ht. apply Hown. exists 0%nat, p. rewrite Nat.add_0_r. split; [done|].
    by right. }
  destruct (release_if (p_ep p) (REp i) ours1 base Hnd1)
    as (ours2 & -> & Hnd2 & Hel2).
  { intros He. apply Hel1. split.
    - apply Hown. exists 0%nat, p. rewrite Nat.add_0_r. split; [done|]. by left.
    - intros _. done. }
  apply IH; [done|]. intros r. rewrite Hel2, Hel1, Hown. split.
  - intros [[(k & p0 & Hk & Hr) Hrk] Hep]. destruct k as [|k].
    + simpl in Hk. injection Hk as <-. rewrite Nat.add_0_r in Hr.
      destruct Hr as [[-> He]|[-> Ht]]; [by destruct (Hep He)|by destruct (Hrk Ht)].
    + exists k, p0. split; [done|].
      by replace (S i + k)%nat with (i + S k)%nat by lia.
  - intros (k & p0 & Hk & Hr).
    replace (S i + k)%nat with (i + S k)%nat in Hr by lia.
    split; [split|].
    + exists (S k), p0. done.
    + intros _ ->. destruct Hr as [[[=] _]|[[= ?] _]]. lia.
    + intros _ ->. destruct Hr as [[[= ?] _]|[[=] _]]. lia.
Qed.

Lemma table_holds_set_ep (i : nat) peers r :
  (i < length peers)%nat →
  table_holds (alter set_ep i peers) r ↔ r = REp i ∨ table_holds peers r.
Proof.
  intros Hi. destruct (lookup_lt_is_Some_2 peers i Hi) as [pi Hpi].
  unfold table_holds. split.
  - intros (j & p & Hj & Hr). destruct (decide (j = i)) as [->|Hne].
    + rewrite list_lookup_alter_eq, Hpi in Hj. simpl in Hj. injection Hj as <-. simpl in Hr.
      destruct Hr as [[-> _]|[-> Ht]]; [by left|right].
      exists i, pi. split; [done|]. by right.
    + rewrite list_lookup_alter_ne in Hj by congruence. right. by exists j, p.
  - intros [->|(j & p & Hj & Hr)].
    + exists i, (set_ep pi). rewrite list_lookup_alter_eq, Hpi. simpl. split; [done|].
      by left.
    + destruct (decide (j = i)) as [->|Hne].
      * exists i, (set_ep p). rewrite list_lookup_alter_eq, Hj. simpl. split; [done|].
        destruct Hr as [[-> _]|[-> Ht]]; [by left|by right].
      * exists j, p. rewrite list_lookup_alter_ne by congruence. done.
Qed.

Lemma table_holds_set_rkey (i : nat) (rkey : Z) peers r :
  (i < length peers)%nat →
  (∀ p, peers !! i = Some p → p_rkey_type p = false) →
  (table_holds (alter (set_rkey true rkey) i peers) r ↔
     r = RRkey i ∨ table_holds peers r) ∧
  (table_holds (alter (set_rkey false rkey) i peers) r ↔ table_holds peers r).
Proof.
  intros Hi Hfresh. destruct (lookup_lt_is_Some_2 peers i Hi) as [pi Hpi].
  pose proof (Hfresh pi Hpi) as Hpt.
  unfold table_holds. split; split.
  - intros (j & p & Hj & Hr). destruct (decide (j = i)) as [->|Hne].
    + rewrite list_lookup_alter_eq, Hpi in Hj. simpl in Hj. injection Hj as <-. simpl in Hr.
      destruct Hr as [[-> He]|[-> _]]; [right|by left].
      exists i, pi. split; [done|]. by left.
    + rewrite list_lookup_alter_ne in Hj by congruence. right. by exists j, p.
  - intros [->|(j & p & Hj & Hr)].
    + exists i, (set_rkey true rkey pi). rewrite list_lookup_alter_eq, Hpi. simpl.
      split; [done|]. by right.
    + destruct (decide (j = i)) as [->|Hne].
      * exists i, (set_rkey true rkey p). rewrite list_lookup_alter_eq, Hj. simpl.
        split; [done|]. destruct Hr as [[-> He]|[-> Ht]]; [by left|by right].
      * exists j, p. rewrite list_lookup_alter_ne by congruence. done.
  - intros (j & p & Hj & Hr). destruct (decide (j = i)) as [->|Hne].
    + rewrite list_lookup_alter_eq, Hpi in Hj. simpl in Hj. injection Hj as <-. simpl in Hr.
      destruct Hr as [[-> He]|[-> [=]]].
      exists i, pi. split; [done|]. by left.
    + rewrite list_lookup_alter_ne in Hj by congruence. by exists j, p.
  - intros (j & p & Hj & Hr). destruct (decide (j = i)) as [->|Hne].
    + exists i, (set_rkey false rkey p). rewrite list_lookup_alter_eq, Hj. simpl.
      split; [done|]. rewrite Hpi in Hj. injection Hj as <-.
      destruct Hr as [[-> He]|[-> Ht]]; [by left|congruence].
    + exists j, p. rewrite list_lookup_alter_ne by congruence. done.
Qed.

Lemma owns_acquire ours peers peers' r :
  owns ours peers → ¬ table_holds peers r →
  (∀ x, table_holds peers' x ↔ x = r ∨ table_holds peers x) →
  owns (r :: ours) peers'.
Proof.
  intros [Hnd Hel] Hnot Hnew. split.
  - apply NoDup_cons. split; [|done]. by rewrite Hel.
  - intros x. rewrite elem_of_cons, Hnew, Hel. done.
Qed.

Lemma owns_same ours peers peers' :
  owns ours peers → (∀ x, table_holds peers' x ↔ table_holds peers x) →
  owns ours peers'.
Proof. intros [Hnd Hel] Hnew. split; [done|]. intros x. by rewrite Hnew, Hel. Qed.

End UctEndpointsFacts.

Section UctEndpointsLoops.

Variable UCT_MD_FLAG_ALLOC : Z.
Variable UCT_MD_FLAG_REG : Z.
Variable UCT_IFACE_FLAG_CONNECT_TO_IFACE : Z.
Variable UCT_IFACE_FLAG_CONNECT_TO_EP : Z.
Variable UCT_INVALID_RKEY : Z.

Implicit Types (o : uct_setup_oracle) (peers : list uct_peer_t)
  (ours base held : list resource) (todo : list nat) (r x : resource).

Lemma uct_create_eps_spec o index todo peers ours base :
  NoDup todo → owns ours peers →
  (∀ j, j ∈ todo → (j < length peers)%nat) →
  (∀ j p, j ∈ todo → peers !! j = Some p → p_ep p = false) →
  ∃ status peers' ours',
    uct_create_eps o index todo peers (ours ++ base)
      = Ret ((status, peers'), ours' ++ base) ∧
    owns ours' peers' ∧ length peers' = length peers ∧
    (∀ j p', peers' !! j = Some p' →
       ∃ p, peers !! j = Some p ∧ p_rkey_type p' = p_rkey_type p ∧
            p_rkey p' = p_rkey p ∧ (j = index → p' = p)).
Proof.
  revert peers ours. induction todo as [|i todo IH];
    intros peers ours Hnd Hown Hlen Hfresh; simpl.
  { exists UCS_OK, peers, ours. split; [done|]. split; [done|]. split; [done|].
    intros j p' Hj. exists p'. done. }
  apply NoDup_cons in Hnd as [Hi Hnd].
  assert (Hlen' : ∀ j, j ∈ todo → (j < length peers)%nat).
  { intros j Hj. apply Hlen. by right. }
  assert (Hfresh' : ∀ j p, j ∈ todo → peers !! j = Some p → p_ep p = false).
  { intros j p Hj. apply Hfresh. by right. }
  destruct (decide (i = index)) as [Hidx|Hidx]; [by apply IH|].
  destruct (decide (u_ep_create o i ≠ UCS_OK)).
  { eexists _, peers, ours. split; [done|]. split; [done|]. split; [done|].
    intros j p' Hj. exists p'. done. }
  unfold mbind, Res_bind, acquire. simpl.
  assert (Hil : (i < length peers)%nat) by (apply Hlen; by left).
  assert (Hown1 : owns (REp i :: ours) (alter set_ep i peers)).
  { eapply owns_acquire; [done| |intros x; by apply table_holds_set_ep].
    intros (j & p & Hj & [[[= <-] He]|[[=] _]]).
    rewrite (Hfresh i p) in He; [done|by left|done]. }
  assert (Hframe : ∀ j p', alter set_ep i peers !! j = Some p' →
            ∃ p, peers !! j = Some p ∧ p_rkey_type p' = p_rkey_type p ∧
                 p_rkey p' = p_rkey p ∧ (j = index → p' = p)).
  { intros j p' Hj. destruct (decide (j = i)) as [->|Hne].
    - rewrite list_lookup_alter_eq in Hj.
      destruct (peers !! i) as [p|]; [|done]. simpl in Hj. injection Hj as <-.
      exists p. done.
    - rewrite list_lookup_alter_ne in Hj by congruence. exists p'. done. }
  destruct (decide (u_ep_get_address o i ≠ UCS_OK)).
  { eexists _, _, (REp i :: ours). split; [done|]. split; [done|].
    split; [by rewrite length_alter|]. done. }
  destruct (IH (alter set_ep i peers) (REp i :: ours) Hnd Hown1)
    as (status & peers' & ours' & E & Hown' & Hlen2 & Hframe2).
  { intros j Hj. rewrite length_alter. by apply Hlen'. }
  { intros j p Hj. rewrite list_lookup_alter_ne by (intros ->; done).
    by apply Hfresh'. }
  exists status, peers', ours'. split; [exact E|]. split; [done|].
  split; [by rewrite Hlen2, length_alter|].
  intros j p' Hj. destruct (Hframe2 j p' Hj) as (p1 & Hp1 & Ht1 & Hk1 & Hi1).
  destruct (Hframe j p1 Hp1) as (p & Hp & Ht & Hk & Hi0).
  exists p. split; [done|]. split; [congruence|]. split; [congruence|].
  intros Hj'. rewrite (Hi1 Hj'). by apply Hi0.
Qed.

Lemma uct_connect_peers_spec o (to_ep to_iface : bool) index todo peers ours base :
  NoDup todo → owns ours peers →
  (∀ j, j ∈ todo → (j < length peers)%nat) →
  (∀ j p, j ∈ todo → peers !! j = Some p →
          p_rkey_type p = false ∧ (to_ep = false → p_ep p = false)) →
  ∃ status peers' ours',
    uct_connect_peers UCT_INVALID_RKEY o to_ep to_iface index todo peers
      (ours ++ base) = Ret ((status, peers'), ours' ++ base) ∧
    owns ours' peers' ∧ length peers' = length peers ∧
    (∀ j, j ∉ todo ∨ j = index → peers' !! j = peers !! j) ∧
    (status = UCS_OK →
     ∀ j p', j ∈ todo → j ≠ index → peers' !! j = Some p' →
             (rkeys_valid UCT_INVALID_RKEY o →
                (p_rkey_type p' = true ↔ p_rkey p' ≠ UCT_INVALID_RKEY))).
Proof.
  revert peers ours. induction todo as [|i todo IH];
    intros peers ours Hnd Hown Hlen Hfresh.
  { exists UCS_OK, peers, ours. split; [done|]. split; [done|]. split; [done|].
    split; [done|]. intros _ j p' Hj. by inv Hj. }
  apply NoDup_cons in Hnd as [Hi Hnd].
  assert (Hlen' : ∀ j, j ∈ todo → (j < length peers)%nat).
  { intros j Hj. apply Hlen. by right. }
  assert (Hfresh' : ∀ j p, j ∈ todo → peers !! j = Some p →
            p_rkey_type p = false ∧ (to_ep = false → p_ep p = false)).
  { intros j p Hj. apply Hfresh. by right. }
  cbn [uct_connect_peers].
  destruct (decide (i = index)) as [Hidx|Hidx].
  { destruct (IH peers ours Hnd Hown Hlen' Hfresh')
      as (status & peers' & ours' & E & Hown' & Hlen2 & Hframe & Hcons).
    exists status, peers', ours'. split; [done|]. split; [done|].
    split; [done|]. split.
    - intros j [Hj|Hj]; apply Hframe; [left|by right].
      intros ?. apply Hj. by right.
    - intros Hok j p' Hj Hne Hp'. apply (Hcons Hok j p'); [|done..].
      apply elem_of_cons in Hj as [->|Hj]; done. }
  assert (Hil : (i < length peers)%nat) by (apply Hlen; by left).
  (* the connection step, on a table [peers1] in which entry [i] has its
     remote key settled *)
  assert (Hconnect : ∀ peers1 ours1,
    owns ours1 peers1 → length peers1 = length peers →
    (∀ j, j ≠ i → peers1 !! j = peers !! j) →
    (∀ p1, peers1 !! i = Some p1 →
           (to_ep = false → p_ep p1 = false) ∧
           (rkeys_valid UCT_INVALID_RKEY o →
                (p_rkey_type p1 = true ↔ p_rkey p1 ≠ UCT_INVALID_RKEY))) →
    ∃ status peers' ours',
      (if to_ep
       then
         if decide (u_ep_connect_to_ep o i ≠ UCS_OK)
         then mret (u_ep_connect_to_ep o i, peers1)
         else uct_connect_peers UCT_INVALID_RKEY o to_ep to_iface index todo peers1
       else
         if to_iface
         then
           if decide (u_ep_create_connected o i ≠ UCS_OK)
           then mret (u_ep_create_connected o i, peers1)
           else
             acquire (REp i) ≫= λ _,
               uct_connect_peers UCT_INVALID_RKEY o to_ep to_iface index todo
                 (alter set_ep i peers1)
         else mret (UCS_ERR_UNSUPPORTED, peers1)) (ours1 ++ base)
        = Ret ((status, peers'), ours' ++ base) ∧
      owns ours' peers' ∧ length peers' = length peers ∧
      (∀ j, j ∉ i :: todo ∨ j = index → peers' !! j = peers !! j) ∧
      (status = UCS_OK →
       ∀ j p', j ∈ i :: todo → j ≠ index → peers' !! j = Some p' →
               (rkeys_valid UCT_INVALID_RKEY o →
                (p_rkey_type p' = true ↔ p_rkey p' ≠ UCT_INVALID_RKEY)))).
  { intros peers1 ours1 Hown1 Hlen1 Hsame1 Hentry1.
    assert (Hstop : ∀ s, s ≠ UCS_OK →
      ∃ status peers' ours',
        Ret ((s, peers1), ours1 ++ base) = Ret ((status, peers'), ours' ++ base) ∧
        owns ours' peers' ∧ length peers' = length peers ∧
        (∀ j, j ∉ i :: todo ∨ j = index → peers' !! j = peers !! j) ∧
        (status = UCS_OK →
         ∀ j p', j ∈ i :: todo → j ≠ index → peers' !! j = Some p' →
                 (rkeys_valid UCT_INVALID_RKEY o →
                (p_rkey_type p' = true ↔ p_rkey p' ≠ UCT_INVALID_RKEY)))).
    { intros s Hs. exists s, peers1, ours1. split; [done|]. split; [done|].
      split; [done|]. split; [|done].
      intros j Hj. apply Hsame1. destruct Hj as [Hj| ->]; [|done].
      intros ->. apply Hj. by left. }
    assert (Hgo : ∀ peers2 ours2,
      owns ours2 peers2 → length peers2 = length peers →
      (∀ j, j ≠ i → peers2 !! j = peers !! j) →
      (∀ p2, peers2 !! i = Some p2 →
             (rkeys_valid UCT_INVALID_RKEY o →
                (p_rkey_type p2 = true ↔ p_rkey p2 ≠ UCT_INVALID_RKEY))) →
      ∃ status peers' ours',
        uct_connect_peers UCT_INVALID_RKEY o to_ep to_iface index todo peers2
          (ours2 ++ base) = Ret ((status, peers'), ours' ++ base) ∧
        owns ours' peers' ∧ length peers' = length peers ∧
        (∀ j, j ∉ i :: todo ∨ j = index → peers' !! j = peers !! j) ∧
        (status = UCS_OK →
         ∀ j p', j ∈ i :: todo → j ≠ index → peers' !! j = Some p' →
                 (rkeys_valid UCT_INVALID_RKEY o →
                (p_rkey_type p' = true ↔ p_rkey p' ≠ UCT_INVALID_RKEY)))).
    { intros peers2 ours2 Hown2 Hlen2 Hsame2 Hentry2.
      destruct (IH peers2 ours2 Hnd Hown2)
        as (status & peers' & ours' & E & Hown' & Hlen3 & Hframe & Hcons).
      { intros j Hj. rewrite Hlen2. by apply Hlen'. }
      { intros j p Hj. rewrite Hsame2 by (intros ->; done). by apply Hfresh'. }
      exists status, peers', ours'. split; [done|]. split; [done|].
      split; [congruence|]. split.
      - intros j Hj. destruct (decide (j = i)) as [->|Hji].
        + destruct Hj as [Hj| ->]; [|done]. destruct Hj. by left.
        + rewrite Hframe; [by apply Hsame2|].
          destruct Hj as [Hj|Hj]; [left|by right]. intros ?. apply Hj. by right.
      - intros Hok j p' Hj Hne Hp'.
        apply elem_of_cons in Hj as [->|Hj]; [|by apply (Hcons Hok j p')].
        rewrite Hframe in Hp' by (by left). by apply Hentry2. }
    destruct to_ep.
    - destruct (decide (u_ep_connect_to_ep o i ≠ UCS_OK)); [by apply Hstop|].
      apply Hgo; [done..|]. intros p1 Hp1. by apply Hentry1.
    - destruct to_iface; [|by apply Hstop].
      destruct (decide (u_ep_create_connected o i ≠ UCS_OK)); [by apply Hstop|].
      unfold mbind, Res_bind, acquire.
      change (REp i :: ours1 ++ base) with ((REp i :: ours1) ++ base).
      apply Hgo.
      + eapply owns_acquire; [done| |intros x; apply table_holds_set_ep; lia].
        intros (j & p & Hj & [[[= <-] He]|[[=] _]]).
        destruct (Hentry1 p Hj) as [Hep _]. rewrite Hep in He; done.
      + by rewrite length_alter.
      + intros j Hj. rewrite list_lookup_alter_ne by congruence. by apply Hsame1.
      + intros p2 Hp2. rewrite list_lookup_alter_eq in Hp2.
        destruct (peers1 !! i) as [p1|] eqn:Hp1; [|done].
        simpl in Hp2. injection Hp2 as <-. simpl. by apply Hentry1. }
  assert (Hpi : ∀ p, peers !! i = Some p →
            p_rkey_type p = false ∧ (to_ep = false → p_ep p = false)).
  { intros p. apply Hfresh. by left. }
  destruct (decide (u_remote_rkey_size o i > 0)).
  - destruct (decide (u_rkey_unpack o i ≠ UCS_OK)) as [Hu|Hu].
    { exists (u_rkey_unpack o i), peers, ours. split; [done|]. split; [done|].
      split; [done|]. split; [done|]. done. }
    unfold mbind at 1. unfold Res_bind at 1. unfold acquire at 1.
    change (RRkey i :: ours ++ base) with ((RRkey i :: ours) ++ base).
    apply Hconnect.
    + eapply owns_acquire; [done| |].
      * intros (j & p & Hj & [[[=] _]|[[= <-] Ht]]).
        destruct (Hpi p Hj) as [Hpt _]. rewrite Hpt in Ht; done.
      * intros x. apply table_holds_set_rkey; [done|]. intros p Hp.
        by apply Hpi.
    + by rewrite length_alter.
    + intros j Hj. by rewrite list_lookup_alter_ne by congruence.
    + intros p1 Hp1. rewrite list_lookup_alter_eq in Hp1.
      destruct (peers !! i) as [p|] eqn:Hp; [|done].
      simpl in Hp1. injection Hp1 as <-. simpl. split.
      * by apply Hpi.
      * intros Hvalid. split; [|done]. intros _. apply Hvalid.
        by destruct (decide (u_rkey_unpack o i = UCS_OK)).
  - apply Hconnect.
    + eapply owns_same; [done|]. intros x.
      apply table_holds_set_rkey; [done|]. intros p Hp. by apply Hpi.
    + by rewrite length_alter.
    + intros j Hj. by rewrite list_lookup_alter_ne by congruence.
    + intros p1 Hp1. rewrite list_lookup_alter_eq in Hp1.
      destruct (peers !! i) as [p|] eqn:Hp; [|done].
      simpl in Hp1. injection Hp1 as <-. simpl. split.
      * by apply Hpi.
      * intros _. split; [done|]. intros Hv. done.
Qed.

End UctEndpointsLoops.

Section UctEndpointsClaims.

Variable UCT_MD_FLAG_ALLOC : Z.
Variable UCT_MD_FLAG_REG : Z.
Variable UCT_IFACE_FLAG_CONNECT_TO_IFACE : Z.
Variable UCT_IFACE_FLAG_CONNECT_TO_EP : Z.
Variable UCT_INVALID_RKEY : Z.

Implicit Types (o : uct_setup_oracle) (peers : list uct_peer_t)
  (ours base held : list resource) (r x : resource).

Lemma acquire_bind {A} r (f : unit → Res A) held :
  (acquire r ≫= f) held = f tt (r :: held).
Proof. done. Qed.

Lemma uct_perf_iface_flush_b_returns (in_progress : nat) held :
  uct_perf_iface_flush_b in_progress held = Ret (tt, held).
Proof. induction in_progress; [done|]. simpl. done. Qed.

Lemma release_base r ours base base' :
  (∀ x, x ∈ ours → x ≠ r) → remove_first r base = Some base' →
  release r (ours ++ base) = Ret (tt, ours ++ base').
Proof.
  intros Hne Hb. unfold release.
  induction ours as [|y ours IH]; simpl; [by rewrite Hb|].
  rewrite decide_False by (apply Hne; by left).
  destruct (remove_first r (ours ++ base)) as [l|] eqn:El.
  - assert (Ret (tt, l) = Ret (tt, ours ++ base')) as [= ->]; [|done].
    apply IH. intros x Hx. apply Hne. by right.
  - exfalso. assert (Fault = Ret (tt, ours ++ base')); [|done].
    apply IH. intros x Hx. apply Hne. by right.
Qed.

Lemma owns_not_other ours peers r :
  owns ours peers → (∀ i, r ≠ REp i) → (∀ i, r ≠ RRkey i) →
  ∀ x, x ∈ ours → x ≠ r.
Proof.
  intros [_ Hel] Hep Hrk x Hx ->.
  apply Hel in Hx as (i & p & _ & [[-> _]|[-> _]]); [by eapply Hep|by eapply Hrk].
Qed.

Lemma owns_offset ours peers :
  owns ours peers →
  NoDup ours ∧
  ∀ r, r ∈ ours ↔
       ∃ k p, peers !! k = Some p ∧
              ((r = REp (0 + k) ∧ p_ep p = true) ∨
               (r = RRkey (0 + k) ∧ p_rkey_type p = true)).
Proof. intros [? ?]. done. Qed.

Lemma uct_cleanup_peers_spec index (i : nat) peers ours base :
  NoDup ours →
  (∀ r, r ∈ ours ↔
        ∃ k p, peers !! k = Some p ∧
               ((r = REp (i + k) ∧ p_ep p = true) ∨
                (r = RRkey (i + k) ∧ p_rkey_type p = true))) →
  (∀ k p, peers !! k = Some p →
     ((i + k)%nat = index → p_ep p = false ∧ p_rkey_type p = false) ∧
     ((i + k)%nat ≠ index →
      (p_rkey_type p = true ↔ p_rkey p ≠ UCT_INVALID_RKEY))) →
  uct_cleanup_peers UCT_INVALID_RKEY index i peers (ours ++ base) = Ret (tt, base).
Proof.
  revert i ours. induction peers as [|p rest IH]; intros i ours Hnd Hown Hcons.
  { rewrite (ours_empty ours); [done|].
    intros r Hr. apply Hown in Hr as (k & p & Hk & _). done. }
  destruct (Hcons 0%nat p eq_refl) as [Hself Hother].
  rewrite Nat.add_0_r in Hself, Hother.
  assert (Hstep : ∃ ours2,
    (if decide (i ≠ index) then
       (if decide (p_rkey p ≠ UCT_INVALID_RKEY)
        then release (RRkey i) else mret tt) ≫= λ _,
         if p_ep p then release (REp i) else mret tt
     else mret tt) (ours ++ base) = Ret (tt, ours2 ++ base) ∧
    NoDup ours2 ∧
    ∀ x, x ∈ ours2 ↔ x ∈ ours ∧ (p_rkey_type p = true → x ≠ RRkey i) ∧
                      (p_ep p = true → x ≠ REp i)).
  { destruct (decide (i ≠ index)) as [Hi|Hi].
    - assert ((if decide (p_rkey p ≠ UCT_INVALID_RKEY)
               then release (RRkey i) else mret tt) =
              (if p_rkey_type p then release (RRkey i) else mret tt)) as ->.
      { destruct (Hother Hi) as [H1 H2].
        destruct (decide (p_rkey p ≠ UCT_INVALID_RKEY)) as [Hv|Hv].
        - by rewrite (H2 Hv).
        - destruct (p_rkey_type p); [|done]. destruct Hv. by apply H1. }
      unfold mbind, Res_bind.
      destruct (release_if (p_rkey_type p) (RRkey i) ours base Hnd)
        as (ours1 & -> & Hnd1 & Hel1).
      { intros Ht. apply Hown. exists 0%nat, p. rewrite Nat.add_0_r.
        split; [done|]. by right. }
      destruct (release_if (p_ep p) (REp i) ours1 base Hnd1)
        as (ours2 & -> & Hnd2 & Hel2).
      { intros He. apply Hel1. split.
        - apply Hown. exists 0%nat, p. rewrite Nat.add_0_r. split; [done|].
          by left.
        - intros _. done. }
      exists ours2. split; [done|]. split; [done|].
      intros x. rewrite Hel2, Hel1. tauto.
    - exists ours. split; [done|]. split; [done|].
      destruct Hself as [He Ht]; [by destruct (decide (i = index))|].
      intros x. rewrite He, Ht. split; [|tauto]. intros ?. done. }
  destruct Hstep as (ours2 & E & Hnd2 & Hel2).
  cbn [uct_cleanup_peers]. unfold mbind at 1. unfold Res_bind at 1.
  rewrite E.
  apply IH; [done| |].
  - intros r. rewrite Hel2, Hown. split.
    + intros [(k & p0 & Hk & Hr) [Hrk Hep]]. destruct k as [|k].
      * simpl in Hk. injection Hk as <-. rewrite Nat.add_0_r in Hr.
        destruct Hr as [[-> He]|[-> Ht]];
          [by destruct (Hep He)|by destruct (Hrk Ht)].
      * exists k, p0. split; [done|].
        by replace (S i + k)%nat with (i + S k)%nat by lia.
    + intros (k & p0 & Hk & Hr).
      replace (S i + k)%nat with (i + S k)%nat in Hr by lia.
      split; [|split].
      * exists (S k), p0. done.
      * intros _ ->. destruct Hr as [[[=] _]|[[= ?] _]]. lia.
      * intros _ ->. destruct Hr as [[[= ?] _]|[[=] _]]. lia.
  - intros k p0 Hk.
    replace (S i + k)%nat with (i + S k)%nat by lia. by apply (Hcons (S k)).
Qed.

(** Every path of [uct_perf_test_setup_endpoints]. *)
Lemma uct_setup_endpoints_paths o (group_size group_index : nat) held :
  let setup :=
    uct_perf_test_setup_endpoints UCT_MD_FLAG_ALLOC UCT_MD_FLAG_REG
      UCT_IFACE_FLAG_CONNECT_TO_IFACE UCT_IFACE_FLAG_CONNECT_TO_EP
      UCT_INVALID_RKEY o group_size group_index held in
  setup = Abort ∨
  ∃ status peers held',
    setup = Ret ((status, peers), held') ∧
    ((status ≠ UCS_OK ∧ held' = held) ∨
     (status = UCS_OK ∧ u_calloc_peers o = false ∧ peers = [] ∧ held' = held) ∨
     (status = UCS_OK ∧ u_calloc_peers o = true ∧
      length peers = group_size ∧
      ∃ ours, held' = ours ++ RPeers :: held ∧ owns ours peers ∧
              (rkeys_valid UCT_INVALID_RKEY o →
               table_consistent UCT_INVALID_RKEY group_index peers))).
Proof.
  intros setup. subst setup. unfold uct_perf_test_setup_endpoints.
  destruct (u_malloc_buffer o); simpl.
  2:{ right. eexists _, _, _. split; [reflexivity|]. left. done. }
  rewrite !acquire_bind.
  assert (Herr : ∀ s peers, s ≠ UCS_OK →
    ∃ status peers' held',
      (release RBuffer ≫= λ _, mret (s, peers)) (RBuffer :: held)
        = Ret ((status, peers'), held') ∧
      ((status ≠ UCS_OK ∧ held' = held) ∨
       (status = UCS_OK ∧ u_calloc_peers o = false ∧ peers' = [] ∧ held' = held) ∨
       (status = UCS_OK ∧ u_calloc_peers o = true ∧
        length peers' = group_size ∧
        ∃ ours, held' = ours ++ RPeers :: held ∧ owns ours peers' ∧
                (rkeys_valid UCT_INVALID_RKEY o →
                 table_consistent UCT_INVALID_RKEY group_index peers')))).
  { intros s peers Hs. eexists _, _, _. unfold mbind, Res_bind.
    rewrite release_newest. split; [reflexivity|]. left. done. }
  destruct (decide (u_iface_query o ≠ UCS_OK)); [right; by apply Herr|].
  destruct (decide (u_md_query o ≠ UCS_OK)); [right; by apply Herr|].
  match goal with
  | |- context [decide (?sum > 2048)] => destruct (decide (sum > 2048))
  end; [by left|].
  right.
  destruct (decide (u_get_device_address o ≠ UCS_OK)); [by apply Herr|].
  match goal with
  | |- context [decide (?s ≠ UCS_OK)] =>
      destruct (decide (s ≠ UCS_OK)); [by apply Herr|]
  end.
  match goal with
  | |- context [decide (?s ≠ UCS_OK)] =>
      generalize s; intros st0;
      destruct (decide (st0 ≠ UCS_OK)) as [|Hst]; [by apply Herr|]
  end.
  assert (Hst0 : st0 = UCS_OK) by (by destruct (decide (st0 = UCS_OK))).
  destruct (u_calloc_peers o) eqn:Hcalloc; cbn [negb].
  2:{ eexists _, _, _. unfold mbind, Res_bind. rewrite release_newest.
      split; [reflexivity|]. right. left. done. }
  rewrite acquire_bind.
  set (to_ep := bool_decide (Z.land (u_iface_flags o) UCT_IFACE_FLAG_CONNECT_TO_EP ≠ 0)).
  set (to_iface := bool_decide (Z.land (u_iface_flags o) UCT_IFACE_FLAG_CONNECT_TO_IFACE ≠ 0)).
  set (base := RPeers :: RBuffer :: held).
  set (peers0 := replicate group_size peer_zero).
  assert (Hown0 : owns [] peers0).
  { split; [constructor|]. intros r. split; [intros Hr; by inv Hr|].
    intros (i & p & Hp & Hr). unfold peers0 in Hp.
    apply lookup_replicate in Hp as [-> _]. by destruct Hr as [[_ ?]|[_ ?]]. }
  assert (Hzero : ∀ j p, peers0 !! j = Some p → p = peer_zero).
  { intros j p Hp. unfold peers0 in Hp. by apply lookup_replicate in Hp as [-> _]. }
  assert (Hlen0 : length peers0 = group_size) by apply length_replicate.
  assert (Hseq : ∀ j, j ∈ seq 0 group_size → (j < group_size)%nat).
  { intros j Hj%elem_of_seq. lia. }
  (* the teardown of the error paths gives back what was held *)
  assert (Hdestroy : ∀ s peers ours, s ≠ UCS_OK → owns ours peers →
    ∃ status peers' held',
      (uct_destroy_eps 0 peers ≫= λ _,
         release RPeers ≫= λ _, release RBuffer ≫= λ _, mret (s, peers))
        (ours ++ base) = Ret ((status, peers'), held') ∧
      ((status ≠ UCS_OK ∧ held' = held) ∨
       (status = UCS_OK ∧ true = false ∧ peers' = [] ∧ held' = held) ∨
       (status = UCS_OK ∧ true = true ∧
        length peers' = group_size ∧
        ∃ ours, held' = ours ++ RPeers :: held ∧ owns ours peers' ∧
                (rkeys_valid UCT_INVALID_RKEY o →
                 table_consistent UCT_INVALID_RKEY group_index peers')))).
  { intros s peers ours Hs Hown. apply owns_offset in Hown as [Hnd Hel].
    eexists _, _, _. unfold mbind, Res_bind.
    rewrite (uct_destroy_eps_spec 0 peers ours base Hnd Hel).
    unfold base. rewrite !release_newest. split; [reflexivity|]. left. done. }
  (* the first loop *)
  assert (Hfirst : ∃ status1 peers1 ours1,
    (if to_ep
     then uct_create_eps o group_index (seq 0 group_size) peers0
     else mret (st0, peers0)) base = Ret ((status1, peers1), ours1 ++ base) ∧
    owns ours1 peers1 ∧ length peers1 = group_size ∧
    (∀ j p, peers1 !! j = Some p →
            p_rkey_type p = false ∧ (to_ep = false → p_ep p = false) ∧
            (j = group_index → p = peer_zero)) ∧
    (to_ep = false → status1 = UCS_OK)).
  { destruct to_ep.
    - destruct (uct_create_eps_spec o group_index (seq 0 group_size) peers0 [] base)
        as (status1 & peers1 & ours1 & E & Hown1 & Hlen1 & Hframe);
        [apply NoDup_seq|done|by rewrite Hlen0| |].
      { intros j p _ Hp. by rewrite (Hzero j p Hp). }
      exists status1, peers1, ours1. split; [exact E|]. split; [done|].
      split; [congruence|]. split; [|done].
      intros j p Hp. destruct (Hframe j p Hp) as (p0 & Hp0 & Ht & _ & Hidx).
      rewrite (Hzero j p0 Hp0) in *. split; [done|]. split; [done|].
      intros Hj. by apply Hidx.
    - eexists _, peers0, []. split; [reflexivity|]. split; [done|].
      split; [done|]. split.
      + intros j p Hp. rewrite (Hzero j p Hp). done.
      + done. }
  destruct Hfirst as (status1 & peers1 & ours1 & E1 & Hown1 & Hlen1 & Hfresh1 & _).
  unfold mbind at 1. unfold Res_bind at 1. rewrite E1.
  destruct (decide (status1 ≠ UCS_OK)) as [Hs1|Hs1]; [by apply Hdestroy|].
  (* the second loop *)
  destruct (uct_connect_peers_spec UCT_INVALID_RKEY o to_ep to_iface group_index
              (seq 0 group_size) peers1 ours1 base)
    as (status2 & peers2 & ours2 & E2 & Hown2 & Hlen2 & Hframe2 & Hcons2);
    [apply NoDup_seq|done|by rewrite Hlen1| |].
  { intros j p _ Hp. destruct (Hfresh1 j p Hp) as (? & ? & _). done. }
  unfold mbind at 1. unfold Res_bind at 1. rewrite E2.
  destruct (decide (status2 ≠ UCS_OK)) as [Hs2|Hs2]; [by apply Hdestroy|].
  eexists UCS_OK, peers2, _. unfold mbind, Res_bind.
  unfold base. rewrite uct_perf_iface_flush_b_returns.
  rewrite (release_base RBuffer ours2 (RPeers :: RBuffer :: held) (RPeers :: held)).
  2:{ by apply (owns_not_other ours2 peers2). }
  2:{ simpl. by repeat case_decide. }
  split; [reflexivity|]. right. right. split; [done|]. split; [done|].
  split; [congruence|]. exists ours2. split; [done|]. split; [done|].
  intros Hvalid i p Hp.
  assert (Hi : (i < group_size)%nat).
  { rewrite <- Hlen1, <- Hlen2. by eapply lookup_lt_Some. }
  split.
  - intros ->. rewrite Hframe2 in Hp by (by right).
    destruct (Hfresh1 _ _ Hp) as (_ & _ & Hz). by rewrite (Hz eq_refl).
  - intros Hne. apply (Hcons2 ltac:(by destruct (decide (status2 = UCS_OK))) i p);
      [apply elem_of_seq; lia|done..].
Qed.

End UctEndpointsClaims.

Section UctEndpointsResults.

Variable UCT_MD_FLAG_ALLOC : Z.
Variable UCT_MD_FLAG_REG : Z.
Variable UCT_IFACE_FLAG_CONNECT_TO_IFACE : Z.
Variable UCT_IFACE_FLAG_CONNECT_TO_EP : Z.
Variable UCT_INVALID_RKEY : Z.

(** X21.  Whatever the library calls answer,
    [uct_perf_test_setup_endpoints] never releases something it does
    not hold, and when it returns a status other than [UCS_OK] the
    resources held are exactly those held at the call: the exchange
    buffer, the peer table and every endpoint and remote key created
    on the way have been given back. *)
Theorem uct_perf_test_setup_endpoints_failure_balanced
    (o : uct_setup_oracle) (group_size group_index : nat)
    (held : list resource) :
  match uct_perf_test_setup_endpoints UCT_MD_FLAG_ALLOC UCT_MD_FLAG_REG
      UCT_IFACE_FLAG_CONNECT_TO_IFACE UCT_IFACE_FLAG_CONNECT_TO_EP
      UCT_INVALID_RKEY o group_size group_index held with
  | Ret ((status, _), held') => status ≠ UCS_OK → held' = held
  | Abort => True
  | Fault => False
  end.
Proof.
  destruct (uct_setup_endpoints_paths UCT_MD_FLAG_ALLOC UCT_MD_FLAG_REG
              UCT_IFACE_FLAG_CONNECT_TO_IFACE UCT_IFACE_FLAG_CONNECT_TO_EP
              UCT_INVALID_RKEY o group_size group_index held)
    as [->|(status & peers & held' & -> & Hcase)]; [done|].
  intros Hs. destruct Hcase as [[_ ->]|[[? _]|[? _]]]; done.
Qed.

(** X22.  In [uct_perf_test_setup_endpoints], when every library call
    before it succeeds and the addresses fit the exchange buffer, a
    failed allocation of the peer table makes the function return
    [UCS_OK], with no table and nothing held: the failure is not
    reported to the caller. *)
Theorem uct_perf_test_setup_endpoints_calloc_failure
    (o : uct_setup_oracle) (group_size group_index : nat)
    (held : list resource) :
  u_malloc_buffer o = true →
  u_iface_query o = UCS_OK → u_md_query o = UCS_OK →
  0 ≤ u_rkey_packed_size o →
  u_rkey_packed_size o + u_device_addr_len o + u_iface_addr_len o
    + u_ep_addr_len o ≤ 2048 →
  u_get_device_address o = UCS_OK → u_iface_get_address o = UCS_OK →
  u_mkey_pack o = UCS_OK →
  u_calloc_peers o = false →
  uct_perf_test_setup_endpoints UCT_MD_FLAG_ALLOC UCT_MD_FLAG_REG
      UCT_IFACE_FLAG_CONNECT_TO_IFACE UCT_IFACE_FLAG_CONNECT_TO_EP
      UCT_INVALID_RKEY o group_size group_index held
    = Ret ((UCS_OK, []), held).
Proof.
  intros Hbuf Hq Hmd Hpos Hfit Hdev Hif Hpack Hcalloc.
  unfold uct_perf_test_setup_endpoints.
  rewrite Hbuf, Hq, Hmd, Hdev, Hif, Hpack, Hcalloc. cbn [negb].
  rewrite acquire_bind.
  rewrite (decide_False (P := UCS_OK ≠ UCS_OK)) by (intros H; by apply H).
  match goal with
  | |- context [decide (?s > 2048)] =>
      rewrite (decide_False (P := s > 2048)) by (case_decide; lia)
  end.
  assert (Hst : ∀ b : bool, (if b then UCS_OK else UCS_OK) = UCS_OK)
    by (by intros []).
  assert (Hst' : ∀ (P : Prop) (d : Decision P),
             (if d then UCS_OK else UCS_OK) = UCS_OK) by (by intros ? []).
  rewrite !Hst, !Hst'.
  assert ((release RBuffer ≫= λ _, mret (UCS_OK, @nil uct_peer_t))
            (RBuffer :: held) = Ret ((UCS_OK, []), held)) as Hfree.
  { unfold mbind, Res_bind. by rewrite release_newest. }
  by repeat case_decide.
Qed.

(** X23.  [uct_perf_test_setup_endpoints] followed by
    [uct_perf_test_cleanup_endpoints]. Provided a successful
    [uct_rkey_unpack] never stores [UCT_INVALID_RKEY], a set-up that
    allocated the peer table and returned [UCS_OK], followed by the
    clean-up on the table it built, releases every endpoint, every
    remote key and the table: what is held afterwards is what was held
    before the set-up. *)
Theorem uct_perf_test_setup_cleanup_round_trip
    (o : uct_setup_oracle) (group_size group_index : nat)
    (held held' : list resource) (peers : list uct_peer_t) :
  rkeys_valid UCT_INVALID_RKEY o →
  u_calloc_peers o = true →
  uct_perf_test_setup_endpoints UCT_MD_FLAG_ALLOC UCT_MD_FLAG_REG
      UCT_IFACE_FLAG_CONNECT_TO_IFACE UCT_IFACE_FLAG_CONNECT_TO_EP
      UCT_INVALID_RKEY o group_size group_index held
    = Ret ((UCS_OK, peers), held') →
  uct_perf_test_cleanup_endpoints UCT_INVALID_RKEY group_index peers held'
    = Ret (tt, held).
Proof.
  intros Hvalid Hcalloc Hsetup.
  destruct (uct_setup_endpoints_paths UCT_MD_FLAG_ALLOC UCT_MD_FLAG_REG
              UCT_IFACE_FLAG_CONNECT_TO_IFACE UCT_IFACE_FLAG_CONNECT_TO_EP
              UCT_INVALID_RKEY o group_size group_index held)
    as [E|(status & peers0 & held0 & E & Hcase)];
    rewrite E in Hsetup; [done|].
  injection Hsetup as -> -> ->.
  destruct Hcase as [[? _]|[(_ & Hc & _)|(_ & _ & Hlen & ours & -> & Hown & Hcons)]];
    [done|congruence|].
  specialize (Hcons Hvalid). apply owns_offset in Hown as [Hnd Hel].
  unfold uct_perf_test_cleanup_endpoints, mbind, Res_bind.
  rewrite (uct_cleanup_peers_spec UCT_INVALID_RKEY group_index 0 peers ours
             (RPeers :: held) Hnd Hel).
  - by rewrite release_newest.
  - intros k p Hp. by apply Hcons.
Qed.

End UctEndpointsResults.

Lemma uct_perf_test_setup_endpoints_calloc_failure_witness :
  uct_perf_test_setup_endpoints 1 2 1 2 (-1) example_uct_oracle_no_table 4 1
    [RSendMem; RRecvMem] = Ret ((UCS_OK, []), [RSendMem; RRecvMem]).
Proof.
  apply (uct_perf_test_setup_endpoints_calloc_failure 1 2 1 2 (-1)
           example_uct_oracle_no_table 4 1 [RSendMem; RRecvMem]);
    simpl; (reflexivity || lia).
Defined.

Lemma uct_perf_test_setup_cleanup_round_trip_witness :
  ∃ peers held',
    uct_perf_test_setup_endpoints 1 2 1 2 (-1) example_uct_oracle 4 1
      [RSendMem; RRecvMem] = Ret ((UCS_OK, peers), held') ∧
    length held' = 9%nat ∧
    uct_perf_test_cleanup_endpoints (-1) 1 peers held'
      = Ret (tt, [RSendMem; RRecvMem]).
Proof.
  eexists _, _. split; [vm_compute; reflexivity|]. split; [reflexivity|].
  apply (uct_perf_test_setup_cleanup_round_trip 1 2 1 2 (-1)
           example_uct_oracle 4 1);
    [intros i _; simpl; lia|reflexivity|vm_compute; reflexivity].
Defined.

(** ** The UCT test context *)

Lemma release_found r held held' :
  remove_first r held = Some held' → release r held = Ret (tt, held').
Proof. unfold release. by intros ->. Qed.

(** Run the releases of a tear-down on the resources held. *)
Ltac run_releases :=
  unfold uct_md_close, uct_perf_test_free_mem;
  unfold mbind, Res_bind, mret, Res_ret;
  cbn beta iota;
  repeat (first [ rewrite release_newest
                | rewrite release_second by done
                | erewrite release_found by (vm_compute; reflexivity) ];
          cbn beta iota).

Section UctPerfSetupFacts.

Context {D : CDouble} {F : UctIfaceFlags}.

Variable UCT_PERF_TEST_MAX_FC_WINDOW : Z.
Variable UCX_PERF_TEST_FLAG_MAP_NONBLOCK : Z.
Variable UCT_MD_MEM_FLAG_NONBLOCK : Z.
Variable sizeof_uct_iov : Z.
Variable UCT_MD_FLAG_ALLOC : Z.
Variable UCT_MD_FLAG_REG : Z.
Variable UCT_IFACE_FLAG_CONNECT_TO_IFACE : Z.
Variable UCT_IFACE_FLAG_CONNECT_TO_EP : Z.
Variable UCT_INVALID_RKEY : Z.

Implicit Types (o : uct_perf_oracle) (params : ucx_perf_params_t)
  (held : list resource) (peers : list uct_peer_t).

Lemma uct_cleanup_endpoints_spec group_index peers ours base :
  owns ours peers → table_consistent UCT_INVALID_RKEY group_index peers →
  uct_perf_test_cleanup_endpoints UCT_INVALID_RKEY group_index peers
    (ours ++ RPeers :: base) = Ret (tt, base).
Proof.
  intros Hown Hcons. apply owns_offset in Hown as [Hnd Hel].
  unfold uct_perf_test_cleanup_endpoints, mbind, Res_bind.
  rewrite (uct_cleanup_peers_spec UCT_INVALID_RKEY group_index 0 peers ours
             (RPeers :: base) Hnd Hel).
  - by rewrite release_newest.
  - intros k p Hp. by apply Hcons.
Qed.

Lemma uct_perf_test_alloc_mem_paths (m : mem_oracle) params held :
  ∃ status held',
    uct_perf_test_alloc_mem UCX_PERF_TEST_FLAG_MAP_NONBLOCK
      UCT_MD_MEM_FLAG_NONBLOCK sizeof_uct_iov m params held
      = Ret (status, held') ∧
    ((status = UCS_OK ∧ held' = RIov :: RRecvMem :: RSendMem :: held) ∨
     (status ≠ UCS_OK ∧ held' = held) ∨
     (status = UCS_ERR_NO_MEMORY ∧ held' = RRecvMem :: held ∧
      o_malloc m RIov
        ((sizeof_uct_iov * msg_size_cnt params * thread_count params)
           `mod` 2 ^ 64) = false)).
Proof.
  unfold uct_perf_test_alloc_mem.
  destruct (decide (_ ≠ UCS_OK)) as [Hs|Hs].
  { eexists _, _. split; [reflexivity|]. right. left. done. }
  rewrite acquire_bind.
  destruct (decide (_ ≠ UCS_OK)) as [Hr|Hr].
  { eexists _, _. unfold mbind, Res_bind. rewrite release_newest.
    split; [reflexivity|]. right. left. done. }
  rewrite acquire_bind.
  destruct (o_malloc m RIov _) eqn:Hi.
  - eexists _, _. split; [reflexivity|]. left. done.
  - eexists _, _. unfold mbind, Res_bind. rewrite release_second by done.
    split; [reflexivity|]. right. right. done.
Qed.

Lemma uct_perf_create_md_paths query mds tl dev held :
  ∃ status md,
    uct_perf_create_md query mds tl dev held
      = Ret ((status, md),
             match md with Some m => RMd m :: held | None => held end) ∧
    (md = None ↔ status ≠ UCS_OK).
Proof.
  unfold uct_perf_create_md.
  destruct (decide (query ≠ UCS_OK)).
  { eexists _, None. split; [reflexivity|]. done. }
  unfold mbind, Res_bind, acquire, mret, Res_ret.
  destruct (create_md_loop_balanced tl dev 0 mds (RMdResources :: held))
    as (status & md & -> & Hmd).
  exists status, md. split; [|done].
  destruct md; [by rewrite release_second|by rewrite release_newest].
Qed.

(** What [uct_perf_setup] leaves held, on each of its paths. *)
Lemma uct_perf_setup_paths o tl dev params held :
  match uct_perf_setup UCT_PERF_TEST_MAX_FC_WINDOW UCX_PERF_TEST_FLAG_MAP_NONBLOCK
       UCT_MD_MEM_FLAG_NONBLOCK sizeof_uct_iov UCT_MD_FLAG_ALLOC UCT_MD_FLAG_REG
       UCT_IFACE_FLAG_CONNECT_TO_IFACE UCT_IFACE_FLAG_CONNECT_TO_EP
       UCT_INVALID_RKEY o tl dev params held with
  | Fault =>
      uct_perf_test_check_capabilities UCT_PERF_TEST_MAX_FC_WINDOW params
        (s_iface_query o) = None
  | Abort => True
  | Ret ((status, (md, peers)), held') =>
      (status ≠ UCS_OK ∧
       (held' = held ∨
        (held' = RRecvMem :: held ∧ status = UCS_ERR_NO_MEMORY ∧
         o_malloc (s_mem o) RIov
           ((sizeof_uct_iov * msg_size_cnt params * thread_count params)
              `mod` 2 ^ 64) = false))) ∨
      (status = UCS_OK ∧
       ∃ m, md = Some m ∧
         let base := RIov :: RRecvMem :: RSendMem :: RIface :: RMd m
                       :: RUctWorker :: RAsync :: held in
         (u_calloc_peers (s_endpoints o) = false ∧ peers = [] ∧ held' = base) ∨
         (u_calloc_peers (s_endpoints o) = true ∧
          ∃ ours, held' = ours ++ RPeers :: base ∧ owns ours peers ∧
                  (rkeys_valid UCT_INVALID_RKEY (s_endpoints o) →
                   table_consistent UCT_INVALID_RKEY (s_group_index o) peers)))
  end.
Proof.
  unfold uct_perf_setup.
  destruct (decide (s_async_context_init o ≠ UCS_OK)) as [H1|_].
  { run_releases. left. split; [done|]. left. done. }
  rewrite acquire_bind.
  destruct (decide (s_worker_create o ≠ UCS_OK)) as [H2|_].
  { run_releases. left. split; [done|]. left. done. }
  rewrite acquire_bind.
  unfold mbind at 1. unfold Res_bind at 1.
  destruct (uct_perf_create_md_paths (s_query_md_resources o) (s_md_resources o)
              tl dev (RUctWorker :: RAsync :: held))
    as (status & md & -> & Hmd).
  destruct (decide (status ≠ UCS_OK)) as [H3|H3].
  { pose proof H3 as H3'. apply Hmd in H3' as ->.
    run_releases. left. split; [done|]. left. done. }
  destruct md as [m|]; [|by destruct H3; apply Hmd].
  destruct (decide (s_iface_config_read o ≠ UCS_OK)) as [H4|_].
  { run_releases. left. split; [done|]. left. done. }
  rewrite acquire_bind.
  destruct (decide (s_iface_open o = UCS_OK)) as [H5|H5].
  2:{ rewrite decide_True by done.
      run_releases. left. split; [done|]. left. done. }
  rewrite decide_False by (by intros ?).
  rewrite acquire_bind.
  unfold mbind at 1. unfold Res_bind at 1. rewrite release_second by done.
  destruct (uct_perf_test_check_capabilities _ params (s_iface_query o))
    as [status5|] eqn:Hcap; [|done].
  destruct (decide (status5 ≠ UCS_OK)) as [H6|_].
  { run_releases. left. split; [done|]. left. done. }
  unfold mbind at 1. unfold Res_bind at 1.
  destruct (uct_perf_test_alloc_mem_paths (s_mem o) params
              (RIface :: RMd m :: RUctWorker :: RAsync :: held))
    as (status6 & held6 & -> & Hmem).
  destruct (decide (status6 ≠ UCS_OK)) as [H7|H7].
  { destruct Hmem as [[? _]|[[_ ->]|(Hst & -> & Hiov)]]; [done| |].
    - run_releases. left. split; [done|]. left. done.
    - run_releases. left. split; [done|]. right. done. }
  destruct Hmem as [[_ ->]|[[? _]|(-> & _)]]; [|done|by destruct H7].
  unfold mbind at 1. unfold Res_bind at 1.
  set (base := RIov :: RRecvMem :: RSendMem :: RIface :: RMd m
                 :: RUctWorker :: RAsync :: held).
  destruct (uct_setup_endpoints_paths UCT_MD_FLAG_ALLOC UCT_MD_FLAG_REG
              UCT_IFACE_FLAG_CONNECT_TO_IFACE UCT_IFACE_FLAG_CONNECT_TO_EP
              UCT_INVALID_RKEY (s_endpoints o) (s_group_size o)
              (s_group_index o) base)
    as [->|(status7 & peers & held7 & -> & Hcase)]; [done|].
  destruct (decide (status7 ≠ UCS_OK)) as [H8|H8].
  { destruct Hcase as [[_ ->]|[[? _]|[? _]]]; [|done..].
    unfold base. run_releases. left. split; [done|]. left. done. }
  destruct Hcase as [[? _]|[(-> & Hc & -> & ->)|(-> & Hc & _ & ours & -> & Hown & Hcons)]];
    [done| |]; cbn beta iota.
  - right. split; [done|]. exists m. split; [done|]. left. done.
  - right. split; [done|]. exists m. split; [done|]. right.
    split; [done|]. by exists ours.
Qed.

(** X24.  After a failure of [uct_perf_setup] nothing more is held
    than before, except on one path: when [uct_perf_test_alloc_mem]
    cannot allocate the IOV array, the receive buffer stays allocated
    although the interface it was allocated from is closed. The
    function never releases something it does not hold; the only other
    way for it not to return normally is the capability check reading
    a message size that the list does not have. *)
Theorem uct_perf_setup_failure o tl dev params held :
  match uct_perf_setup UCT_PERF_TEST_MAX_FC_WINDOW
          UCX_PERF_TEST_FLAG_MAP_NONBLOCK UCT_MD_MEM_FLAG_NONBLOCK
          sizeof_uct_iov UCT_MD_FLAG_ALLOC UCT_MD_FLAG_REG
          UCT_IFACE_FLAG_CONNECT_TO_IFACE UCT_IFACE_FLAG_CONNECT_TO_EP
          UCT_INVALID_RKEY o tl dev params held with
  | Ret ((status, _), held') =>
      status ≠ UCS_OK →
      held' = held ∨
      (held' = RRecvMem :: held ∧ status = UCS_ERR_NO_MEMORY ∧
       o_malloc (s_mem o) RIov
         ((sizeof_uct_iov * msg_size_cnt params * thread_count params)
            `mod` 2 ^ 64) = false)
  | Abort => True
  | Fault =>
      uct_perf_test_check_capabilities UCT_PERF_TEST_MAX_FC_WINDOW params
        (s_iface_query o) = None
  end.
Proof.
  pose proof (uct_perf_setup_paths o tl dev params held) as Hpaths.
  destruct (uct_perf_setup _ _ _ _ _ _ _ _ _ o tl dev params held)
    as [[[status [md peers]] held']| |]; [|done..].
  intros Hs. destruct Hpaths as [[_ ?]|[? _]]; done.
Qed.

(** X25.  Provided a successful [uct_rkey_unpack] never stores
    [UCT_INVALID_RKEY], a [uct_perf_setup] that allocated the peer
    table and returned [UCS_OK], followed by [uct_perf_cleanup],
    leaves held exactly what was held before: endpoints, remote keys,
    peer table, buffers, interface, memory domain, worker and
    asynchronous context are all released, each once. *)
Theorem uct_perf_setup_cleanup_round_trip o tl dev params held md peers held' :
  rkeys_valid UCT_INVALID_RKEY (s_endpoints o) →
  u_calloc_peers (s_endpoints o) = true →
  uct_perf_setup UCT_PERF_TEST_MAX_FC_WINDOW UCX_PERF_TEST_FLAG_MAP_NONBLOCK
    UCT_MD_MEM_FLAG_NONBLOCK sizeof_uct_iov UCT_MD_FLAG_ALLOC UCT_MD_FLAG_REG
    UCT_IFACE_FLAG_CONNECT_TO_IFACE UCT_IFACE_FLAG_CONNECT_TO_EP
    UCT_INVALID_RKEY o tl dev params held
    = Ret ((UCS_OK, (md, peers)), held') →
  uct_perf_cleanup UCT_INVALID_RKEY (s_group_index o) md peers held'
    = Ret (tt, held).
Proof.
  intros Hvalid Hcalloc Hsetup.
  pose proof (uct_perf_setup_paths o tl dev params held) as Hpaths.
  rewrite Hsetup in Hpaths.
  destruct Hpaths as [[? _]|(_ & m & -> & [(Hc & _)|(_ & ours & -> & Hown & Hcons)])];
    [done|congruence|].
  unfold uct_perf_cleanup. unfold mbind at 1. unfold Res_bind at 1.
  rewrite (uct_cleanup_endpoints_spec (s_group_index o) peers ours _ Hown (Hcons Hvalid)).
  by run_releases.
Qed.

End UctPerfSetupFacts.

(** The receive buffer left behind by [uct_perf_setup], on the example
    set-up when the allocation of the IOV array fails. *)
Example uct_perf_setup_leaks_recv_buffer :
  uct_perf_setup (D := QDouble) 1024 1 1 16 1 2 1 2 (-1)
    {| s_async_context_init := UCS_OK; s_worker_create := UCS_OK;
       s_query_md_resources := UCS_OK; s_md_resources := example_md_resources;
       s_iface_config_read := UCS_OK; s_iface_open := UCS_OK;
       s_iface_query := (UCS_OK, example_attr);
       s_mem := example_mem_oracle_no_iov; s_endpoints := example_uct_oracle;
       s_group_size := 4; s_group_index := 1 |}
    "rc" "mlx5_0:1" (example_atomic_params 4) []
  = Ret ((UCS_ERR_NO_MEMORY, (Some 1%nat, [])), [RRecvMem]).
Proof. vm_compute. reflexivity. Qed.

Lemma uct_perf_setup_cleanup_round_trip_witness :
  ∃ md peers held',
    uct_perf_setup (D := QDouble) 1024 1 1 16 1 2 1 2 (-1)
      example_uct_perf_oracle "rc" "mlx5_0:1" (example_atomic_params 4) []
      = Ret ((UCS_OK, (md, peers)), held') ∧
    length held' = 14%nat ∧
    uct_perf_cleanup (-1) 1 md peers held' = Ret (tt, []).
Proof.
  eexists _, _, _. split; [vm_compute; reflexivity|]. split; [reflexivity|].
  apply (uct_perf_setup_cleanup_round_trip (D := QDouble) 1024 1 1 16 1 2 1 2 (-1)
           example_uct_perf_oracle "rc" "mlx5_0:1" (example_atomic_params 4) []);
    [intros i _; simpl; lia|reflexivity|vm_compute; reflexivity].
Defined.

(** ** The life of a worker *)

Section WorkerTables.

Implicit Types (r x : resource) (held ours base : list resource)
  (ifaces wakeups : list bool).

Lemma release_second_same r x held :
  release r (x :: r :: held) = Ret (tt, x :: held).
Proof.
  unfold release. simpl. destruct (decide (x = r)) as [->|?]; [done|].
  by rewrite decide_True.
Qed.

Lemma keep_nothing ours (keep : resource → Prop) :
  (∀ r, r ∈ ours ↔ keep r) → (∀ r, ¬ keep r) → ours = [].
Proof. intros Hel Hno. apply ours_empty. intros r Hr. by apply (Hno r), Hel. Qed.

Lemma keep_one ours x :
  NoDup ours → (∀ r, r ∈ ours ↔ r = x) → ours = [x].
Proof.
  intros Hnd Hel. destruct ours as [|y ours].
  { assert (x ∈ @nil resource) as Hx by (by apply Hel). by inv Hx. }
  assert (y = x) as -> by (apply Hel; by left).
  apply NoDup_cons in Hnd as [Hy Hnd]. f_equal. apply ours_empty.
  intros r Hr. assert (r = x) as -> by (apply Hel; by right). done.
Qed.

Lemma close_ifaces_spec (keep : resource → Prop) (i : nat) ifaces wakeups
    ours base :
  length ifaces = length wakeups →
  NoDup ours →
  (∀ r, r ∈ ours ↔
        keep r ∨
        ∃ k, ifaces !! k = Some true ∧
             (r = RWorkerIface (i + k) ∨
              (r = RWakeup (i + k) ∧ wakeups !! k = Some true))) →
  (∀ r, keep r → (∀ k, r ≠ RWorkerIface k) ∧ (∀ k, r ≠ RWakeup k) ∨
                 ¬ ∃ k, ifaces !! k = Some true ∧
                        (r = RWorkerIface (i + k) ∨
                         (r = RWakeup (i + k) ∧ wakeups !! k = Some true))) →
  ∃ ours',
    WorkerLife.ucp_worker_close_ifaces i ifaces wakeups (ours ++ base)
      = Ret (tt, ours' ++ base) ∧
    NoDup ours' ∧ ∀ r, r ∈ ours' ↔ keep r.
Proof.
  revert i wakeups ours.
  induction ifaces as [|x ifaces IH]; intros i wakeups ours Hlen Hnd Hel Hkeep.
  { destruct wakeups; [|done]. exists ours. split; [done|]. split; [done|].
    intros r. rewrite Hel. split; [|by left]. intros [?|(k & Hk & _)]; done. }
  destruct wakeups as [|w wakeups]; [done|].
  assert (Hkeep' : ∀ r, keep r →
            ¬ ∃ k, (x :: ifaces) !! k = Some true ∧
                   (r = RWorkerIface (i + k) ∨
                    (r = RWakeup (i + k) ∧ (w :: wakeups) !! k = Some true))).
  { intros r Hr. destruct (Hkeep r Hr) as [[H1 H2]|?]; [|done].
    intros (k & _ & [->| [-> _]]); [by eapply H1|by eapply H2]. }
  cbn [WorkerLife.ucp_worker_close_ifaces].
  assert (Hstep : ∃ ours2,
    (if x then
       (if w then release (RWakeup i) else mret tt) ≫= λ _,
         release (RWorkerIface i)
     else mret tt) (ours ++ base) = Ret (tt, ours2 ++ base) ∧
    NoDup ours2 ∧
    ∀ r, r ∈ ours2 ↔ r ∈ ours ∧ (x = true → r ≠ RWorkerIface i) ∧
                      (x = true → w = true → r ≠ RWakeup i)).
  { destruct x.
    - destruct (release_if w (RWakeup i) ours base Hnd) as (ours1 & E1 & Hnd1 & Hel1).
      { intros ->. apply Hel. right. exists 0%nat. rewrite Nat.add_0_r.
        split; [done|]. by right. }
      destruct (release_ours (RWorkerIface i) ours1 base) as (ours2 & E2 & Hnd2 & Hel2);
        [|done|].
      { apply Hel1. split; [|done]. apply Hel. right. exists 0%nat.
        rewrite Nat.add_0_r. split; [done|]. by left. }
      exists ours2. unfold mbind, Res_bind. rewrite E1, E2.
      split; [done|]. split; [done|].
      intros r. rewrite Hel2, Hel1. tauto.
    - exists ours. split; [done|]. split; [done|]. intros r.
      split; [|tauto]. intros ?. done. }
  destruct Hstep as (ours2 & E & Hnd2 & Hel2).
  unfold mbind at 1. unfold Res_bind at 1. rewrite E.
  apply IH; [by injection Hlen|done| |].
  - intros r. rewrite Hel2, Hel. split.
    + intros [[Hr|(k & Hk & Hr)] [Hi Hw]]; [by left|]. right.
      destruct k as [|k].
      * simpl in Hk. injection Hk as ->. rewrite Nat.add_0_r in Hr.
        destruct Hr as [->|[-> Hwk]]; [by destruct Hi|].
        simpl in Hwk. injection Hwk as ->. by destruct Hw.
      * exists k. replace (S i + k)%nat with (i + S k)%nat by lia. done.
    + intros [Hr|(k & Hk & Hr)].
      * split; [by left|]. split.
        -- intros -> ->. apply (Hkeep' _ Hr). exists 0%nat.
           rewrite Nat.add_0_r. split; [done|]. by left.
        -- intros -> -> ->. apply (Hkeep' _ Hr). exists 0%nat.
           rewrite Nat.add_0_r. split; [done|]. by right.
      * replace (S i + k)%nat with (i + S k)%nat in Hr by lia.
        split; [right; by exists (S k)|]. split.
        -- intros _ ->. destruct Hr as [[= ?]|[[=] _]]. lia.
        -- intros _ _ ->. destruct Hr as [[=]|[[= ?] _]]. lia.
  - intros r Hr. right. intros (k & Hk & Hrk). apply (Hkeep' r Hr).
    exists (S k). replace (i + S k)%nat with (S i + k)%nat by lia. done.
Qed.

End WorkerTables.

Section WorkerLifeFacts.

Context {F : UctIfaceFlags} {U : UcpFeatures}.

Variable UCT_IFACE_FLAG_WAKEUP : Z.
Variable UCT_AM_CB_FLAG_SYNC : Z.
Variable UCT_AM_CB_FLAG_ASYNC : Z.
Variable ucp_am_handlers : list (Z * Z).

Implicit Types (o : worker_oracle) (ctx : ucp_context_t)
  (r x : resource) (held ours base : list resource)
  (ifaces wakeups : list bool) (wakeup : ucp_worker_wakeup_t).

Lemma ucp_worker_add_iface_spec o ctx efd (tl_id : nat) held :
  ∃ status stored held',
    WorkerLife.ucp_worker_add_iface UCT_IFACE_FLAG_WAKEUP UCT_AM_CB_FLAG_SYNC
      ucp_am_handlers o ctx efd tl_id held = Ret ((status, stored), held') ∧
    match stored with
    | Some w =>
        status = UCS_OK ∧
        held' = (if w then [RWakeup tl_id] else []) ++ RWorkerIface tl_id :: held
    | None =>
        status ≠ UCS_OK ∧
        (held' = held ∨
         (held' = RWorkerIface tl_id :: held ∧
          status = k_iface_query o tl_id))
    end.
Proof.
  unfold WorkerLife.ucp_worker_add_iface.
  destruct (decide (k_iface_config_read o tl_id ≠ UCS_OK)).
  { eexists _, None, _. split; [reflexivity|]. split; [done|]. by left. }
  rewrite acquire_bind.
  destruct (decide (k_iface_open o tl_id = UCS_OK)) as [Ho|Ho].
  2:{ rewrite decide_True by done. eexists _, None, _. run_releases.
      split; [reflexivity|].
      split; [done|]. by left. }
  rewrite decide_False by (by intros ?). rewrite acquire_bind.
  unfold mbind at 1. unfold Res_bind at 1. rewrite release_second by done.
  destruct (decide (k_iface_query o tl_id ≠ UCS_OK)).
  { eexists _, None, _. split; [reflexivity|]. split; [done|]. by right. }
  match goal with
  | |- context [decide (?s ≠ UCS_OK)] => destruct (decide (s ≠ UCS_OK))
  end.
  { eexists _, None, _. run_releases.
    split; [reflexivity|]. split; [done|]. by left. }
  destruct (decide (Z.land (k_iface_flags o tl_id) UCT_IFACE_FLAG_WAKEUP ≠ 0)).
  2:{ eexists _, (Some false), _. split; [reflexivity|]. done. }
  destruct (decide (k_wakeup_open o tl_id ≠ UCS_OK)).
  { eexists _, None, _. run_releases.
    split; [reflexivity|]. split; [done|]. by left. }
  rewrite acquire_bind.
  destruct (decide (efd ≠ -1)).
  2:{ eexists _, (Some true), _. split; [reflexivity|]. done. }
  destruct (k_wakeup_efd_get o tl_id) as [status wakeup_fd].
  destruct (decide (status ≠ UCS_OK)).
  { eexists _, None, _. run_releases.
    split; [reflexivity|]. split; [done|]. by left. }
  destruct (decide (WorkerLife.ucp_worker_wakeup_add_fd o efd wakeup_fd ≠ UCS_OK)).
  { eexists _, None, _. run_releases.
    split; [reflexivity|]. split; [done|]. by left. }
  eexists _, (Some true), _. split; [reflexivity|]. done.
Qed.

Lemma worker_owns_add ours ifaces wakeups (tl_id : nat) (w : bool) :
  worker_owns ours ifaces wakeups →
  ifaces !! tl_id = Some false → (tl_id < length wakeups)%nat →
  worker_owns ((if w then [RWakeup tl_id] else []) ++ RWorkerIface tl_id :: ours)
    (<[tl_id := true]> ifaces) (<[tl_id := w]> wakeups).
Proof.
  intros [Hnd Hel] Hfree Hlt.
  assert (Hlti : (tl_id < length ifaces)%nat) by (by eapply lookup_lt_Some).
  assert (Hno : ∀ r, r ∈ ours → r ≠ RWorkerIface tl_id ∧ r ≠ RWakeup tl_id).
  { intros r Hr. apply Hel in Hr as (i & Hi & Hr).
    assert (i ≠ tl_id) by (intros ->; congruence).
    destruct Hr as [->|[-> _]]; split; congruence. }
  assert (Hholds : ∀ r,
    worker_holds (<[tl_id := true]> ifaces) (<[tl_id := w]> wakeups) r ↔
    r = RWorkerIface tl_id ∨ (r = RWakeup tl_id ∧ w = true) ∨
    worker_holds ifaces wakeups r).
  { intros r. split.
    - intros (i & Hi & Hr). destruct (decide (i = tl_id)) as [->|Hne].
      + rewrite list_lookup_insert_eq in Hr by done.
        destruct Hr as [->|[-> [= ->]]]; [by left|right; by left].
      + rewrite list_lookup_insert_ne in Hi by done.
        rewrite list_lookup_insert_ne in Hr by done.
        right. right. by exists i.
    - intros [->|[[-> ->]|(i & Hi & Hr)]].
      + exists tl_id. rewrite list_lookup_insert_eq by done. split; [done|]. by left.
      + exists tl_id. rewrite !list_lookup_insert_eq by done. split; [done|].
        by right.
      + assert (i ≠ tl_id) by (intros ->; congruence).
        exists i. rewrite !list_lookup_insert_ne by done. done. }
  split.
  - destruct w; simpl.
    + apply NoDup_cons. split.
      * rewrite elem_of_cons. intros [[=]|Hr]. by destruct (Hno _ Hr).
      * apply NoDup_cons. split; [|done]. intros Hr. by destruct (Hno _ Hr).
    + apply NoDup_cons. split; [|done]. intros Hr. by destruct (Hno _ Hr).
  - intros r. rewrite Hholds, <- Hel. destruct w; simpl.
    + rewrite !elem_of_cons. split; [|tauto].
      intros [->|[->|?]]; [right; by left|by left|by right; right].
    + rewrite !elem_of_cons. split; [|intros [?|[[_ [=]]|?]]; tauto].
      intros [->|?]; [by left|by right; right].
Qed.

Lemma add_ifaces_spec o ctx efd (todo : list nat) ifaces wakeups ours base :
  NoDup todo → worker_owns ours ifaces wakeups →
  length ifaces = length wakeups →
  (∀ j, j ∈ todo → ifaces !! j = Some false) →
  ∃ status ifaces' wakeups' ours' leak,
    WorkerLife.add_ifaces UCT_IFACE_FLAG_WAKEUP UCT_AM_CB_FLAG_SYNC
      ucp_am_handlers o ctx efd todo ifaces wakeups (ours ++ base)
      = Ret ((status, (ifaces', wakeups')), leak ++ ours' ++ base) ∧
    worker_owns ours' ifaces' wakeups' ∧
    length ifaces' = length ifaces ∧ length wakeups' = length wakeups ∧
    (status = UCS_OK →
     leak = [] ∧ ∀ j, j ∈ todo → ifaces' !! j = Some true) ∧
    (status ≠ UCS_OK →
     leak = [] ∨
     ∃ tl_id, leak = [RWorkerIface tl_id] ∧ tl_id ∈ todo ∧
              ifaces' !! tl_id = Some false ∧
              status = k_iface_query o tl_id) ∧
    (∀ j, j ∉ todo → ifaces' !! j = ifaces !! j).
Proof.
  intros Hnd. revert ifaces wakeups ours.
  induction Hnd as [|tl_id todo Hnotin Hnd IH];
    intros ifaces wakeups ours Hown Hlen Hfree.
  { exists UCS_OK, ifaces, wakeups, ours, []. split; [done|].
    split; [done|]. split; [done|]. split; [done|]. split.
    - intros _. split; [done|]. intros j Hj. by inv Hj.
    - split; [done|]. done. }
  cbn [WorkerLife.add_ifaces]. unfold mbind at 1. unfold Res_bind at 1.
  destruct (ucp_worker_add_iface_spec o ctx efd tl_id (ours ++ base))
    as (status & stored & held' & -> & Hstored).
  assert (Hfree0 : ifaces !! tl_id = Some false) by (apply Hfree; by left).
  assert (Hlt : (tl_id < length wakeups)%nat).
  { rewrite <- Hlen. by eapply lookup_lt_Some. }
  destruct stored as [w|].
  - destruct Hstored as [-> ->].
    destruct (IH (<[tl_id := true]> ifaces) (<[tl_id := w]> wakeups)
                ((if w then [RWakeup tl_id] else []) ++ RWorkerIface tl_id :: ours))
      as (status & ifaces' & wakeups' & ours' & leak & E & Hown' & Hl1 & Hl2
          & Hok & Herr & Hframe).
    { by apply worker_owns_add. }
    { by rewrite !length_insert. }
    { intros j Hj. rewrite list_lookup_insert_ne by (intros ->; done).
      apply Hfree. by right. }
    exists status, ifaces', wakeups', ours', leak.
    split.
    { rewrite <- E. f_equal. by rewrite <- app_assoc. }
    split; [done|]. rewrite length_insert in Hl1. rewrite length_insert in Hl2.
    split; [done|]. split; [done|].
    assert (Hmine : ifaces' !! tl_id = Some true).
    { rewrite Hframe by done. apply list_lookup_insert_eq. by eapply lookup_lt_Some. }
    split; [|split].
    + intros Hs. destruct (Hok Hs) as [-> Hall]. split; [done|].
      intros j [->|Hj]%elem_of_cons; [done|by apply Hall].
    + intros Hs. destruct (Herr Hs) as [->|(t & -> & Ht & Hf & Hq)]; [by left|].
      right. exists t. split; [done|]. split; [by right|]. done.
    + intros j Hj. rewrite Hframe by (intros ?; apply Hj; by right).
      apply list_lookup_insert_ne. intros ->. apply Hj. by left.
  - destruct Hstored as [Hs Hheld].
    destruct Hheld as [->|[-> Hq]].
    + exists status, ifaces, wakeups, ours, []. split; [done|].
      split; [done|]. split; [done|]. split; [done|]. split; [done|].
      split; [by left|done].
    + exists status, ifaces, wakeups, ours, [RWorkerIface tl_id].
      split; [done|]. split; [done|]. split; [done|]. split; [done|].
      split; [done|]. split; [|done]. intros _. right. exists tl_id.
      split; [done|]. split; [by left|]. done.
Qed.

Lemma wakeup_context_init_spec o (n : nat) held :
  ∃ status w held',
    WorkerLife.ucp_worker_wakeup_context_init o n held
      = Ret ((status, w), held') ∧
    match w with
    | Some wakeup =>
        status = UCS_OK ∧
        held' = RFd (snd (wakeup_pipe wakeup)) :: RFd (fst (wakeup_pipe wakeup))
                  :: RIfaceWakeups :: held ∧
        iface_wakeups wakeup = replicate n false ∧ wakeup_efd wakeup = -1
    | None => status ≠ UCS_OK ∧ held' = held
    end.
Proof.
  unfold WorkerLife.ucp_worker_wakeup_context_init.
  destruct (k_calloc_iface_wakeups o); cbn [negb].
  2:{ eexists _, None, _. split; [reflexivity|]. done. }
  rewrite acquire_bind.
  destruct (k_pipe o) as [[pipe0 pipe1]|].
  2:{ eexists _, None, _. run_releases.
      split; [reflexivity|]. done. }
  rewrite !acquire_bind.
  assert (Hclean : ∀ (s : ucs_status_t),
    (release (RFd pipe0) ≫= λ _, release (RFd pipe1) ≫= λ _,
       release RIfaceWakeups ≫= λ _,
         mret (s, @None ucp_worker_wakeup_t))
      (RFd pipe1 :: RFd pipe0 :: RIfaceWakeups :: held)
    = Ret ((s, None), held)).
  { intros s. unfold mbind, Res_bind. rewrite release_second_same.
    by rewrite !release_newest. }
  destruct (decide (k_fcntl_modfl o pipe0 ≠ UCS_OK)).
  { eexists _, None, _. split; [apply Hclean|]. done. }
  destruct (decide (k_fcntl_modfl o pipe1 ≠ UCS_OK)).
  { eexists _, None, _. split; [apply Hclean|]. done. }
  eexists _, (Some _), _. split; [reflexivity|]. done.
Qed.

End WorkerLifeFacts.

Lemma release_third_same r x y held :
  x ≠ r → release r (x :: y :: r :: held) = Ret (tt, x :: y :: held).
Proof.
  intros Hx. unfold release. simpl. rewrite decide_False by done.
  destruct (decide (y = r)) as [->|?]; [done|]. by rewrite decide_True.
Qed.

(** Run the releases of a worker tear-down on the resources held. *)
Ltac run_teardown :=
  unfold WorkerLife.ucp_worker_wakeup_context_cleanup;
  unfold mbind, Res_bind, mret, Res_ret;
  cbn beta iota;
  repeat (first [ rewrite release_newest
                | rewrite release_second by done
                | rewrite release_second_same
                | rewrite release_third_same by done
                | erewrite release_found by (vm_compute; reflexivity) ];
          cbn beta iota).

Section WorkerLifePaths.

Context {F : UctIfaceFlags} {U : UcpFeatures}.

Variable UCT_IFACE_FLAG_WAKEUP : Z.
Variable UCT_AM_CB_FLAG_SYNC : Z.
Variable UCT_AM_CB_FLAG_ASYNC : Z.
Variable ucp_am_handlers : list (Z * Z).

Implicit Types (o : worker_oracle) (ctx : ucp_context_t)
  (r x : resource) (held ours base : list resource)
  (ifaces wakeups : list bool) (wakeup : ucp_worker_wakeup_t).

Lemma worker_owns_kind ours ifaces wakeups r :
  worker_owns ours ifaces wakeups → r ∈ ours →
  ∃ i, ifaces !! i = Some true ∧ (r = RWorkerIface i ∨ r = RWakeup i).
Proof.
  intros [_ Hel] Hr. apply Hel in Hr as (i & Hi & [->|[-> _]]); eauto.
Qed.

(** Closing the interfaces of a worker whose tables own [ours], under
    resources [pre] that are none of them. *)
Lemma close_ifaces_owned pre ours ifaces wakeups base :
  worker_owns ours ifaces wakeups → length ifaces = length wakeups →
  (pre = [] ∨ (∃ fd, pre = [RFd fd]) ∨
   ∃ tl_id, pre = [RWorkerIface tl_id] ∧ ifaces !! tl_id = Some false) →
  WorkerLife.ucp_worker_close_ifaces 0 ifaces wakeups (pre ++ ours ++ base)
    = Ret (tt, pre ++ base).
Proof.
  intros Hown Hlen Hpre.
  assert (Hdisj : ∀ r, r ∈ pre → (r ∉ ours) ∧
            (((∀ k, r ≠ RWorkerIface k) ∧ (∀ k, r ≠ RWakeup k)) ∨
             ¬ ∃ k, ifaces !! k = Some true ∧
                    (r = RWorkerIface (0 + k) ∨
                     (r = RWakeup (0 + k) ∧ wakeups !! k = Some true)))).
  { intros r Hr. destruct Hpre as [->|[[fd ->]|(t & -> & Ht)]]; [by inv Hr| |].
    - apply list_elem_of_singleton in Hr as ->. split.
      + intros Hin. by destruct (worker_owns_kind _ _ _ _ Hown Hin) as (i & _ & [?|?]).
      + left. done.
    - apply list_elem_of_singleton in Hr as ->. split.
      + intros Hin. destruct (worker_owns_kind _ _ _ _ Hown Hin) as (i & Hi & [[= ->]|?]);
          [congruence|done].
      + right. intros (k & Hk & [[= ->]|[[=] _]]). congruence. }
  destruct Hown as [Hnd Hel].
  destruct (close_ifaces_spec (λ r, r ∈ pre) 0 ifaces wakeups (pre ++ ours) base)
    as (ours' & E & Hnd' & Hel'); [done| | | |].
  - apply NoDup_app. split; [|split; [|done]].
    + destruct Hpre as [->|[[fd ->]|(t & -> & _)]];
        [constructor|apply NoDup_singleton..].
    + intros r Hr. by destruct (Hdisj r Hr).
  - intros r. rewrite elem_of_app, Hel. done.
  - intros r Hr. by destruct (Hdisj r Hr).
  - rewrite <- app_assoc in E. rewrite E. do 2 f_equal.
    f_equal. destruct Hpre as [->|[[fd ->]|(t & -> & _)]].
    + apply ours_empty. intros r Hr. apply Hel' in Hr. by inv Hr.
    + apply keep_one; [done|]. intros r. rewrite Hel'.
      apply list_elem_of_singleton.
    + apply keep_one; [done|]. intros r. rewrite Hel'.
      apply list_elem_of_singleton.
Qed.

(** Every path of [ucp_worker_create]. *)
Lemma ucp_worker_create_paths o ctx held :
  match WorkerLife.ucp_worker_create UCT_IFACE_FLAG_WAKEUP UCT_AM_CB_FLAG_SYNC
          ucp_am_handlers o ctx held with
  | Abort =>
      Z.land (features ctx) (Z.lor UCP_FEATURE_AMO32 UCP_FEATURE_AMO64) ≠ 0 ∧
      atomic_mode ctx = UCP_ATOMIC_MODE_LAST
  | Fault => False
  | Ret ((status, w), held') =>
      match w with
      | None =>
          status ≠ UCS_OK ∧
          (held' = held ∨
           ∃ tl_id : nat,
             (tl_id < Z.to_nat (num_tls ctx))%nat ∧
             held' = RWorkerIface tl_id :: held ∧
             status = k_iface_query o tl_id)
      | Some (ifaces, wakeup) =>
          status = UCS_OK ∧ wakeup_efd wakeup = -1 ∧
          length ifaces = Z.to_nat (num_tls ctx) ∧
          length (iface_wakeups wakeup) = Z.to_nat (num_tls ctx) ∧
          (∀ j, (j < Z.to_nat (num_tls ctx))%nat → ifaces !! j = Some true) ∧
          ∃ ours, held' = ours ++ worker_base (wakeup_pipe wakeup) held ∧
                  worker_owns ours ifaces (iface_wakeups wakeup)
      end
  end.
Proof.
  unfold WorkerLife.ucp_worker_create.
  set (n := Z.to_nat (num_tls ctx)).
  destruct (k_calloc_worker o); cbn [negb].
  2:{ run_teardown. split; [done|]. by left. }
  rewrite acquire_bind.
  destruct (k_calloc_ifaces o); cbn [negb].
  2:{ run_teardown.
      split; [done|]. by left. }
  rewrite acquire_bind.
  destruct (k_calloc_iface_attrs o); cbn [negb].
  2:{ run_teardown.
      split; [done|]. by left. }
  rewrite acquire_bind.
  destruct (decide (k_stats_node_alloc o ≠ UCS_OK)).
  { run_teardown.
    split; [done|]. by left. }
  rewrite acquire_bind.
  unfold mbind at 1. unfold Res_bind at 1.
  destruct (wakeup_context_init_spec o n
              (RStats :: RIfaceAttrs :: RWorkerIfaces :: RUcpWorker :: held))
    as (status & w & held1 & -> & Hw).
  destruct w as [wakeup|].
  2:{ destruct Hw as [Hs ->]. run_teardown. split; [done|]. by left. }
  destruct Hw as (-> & -> & Hwk & Hefd).
  destruct wakeup as [wk [pipe0 pipe1] efd]. simpl in Hwk, Hefd. subst wk efd.
  cbn [iface_wakeups wakeup_pipe wakeup_efd fst snd].
  destruct (decide (k_async_context_init o ≠ UCS_OK)).
  { run_teardown. rewrite decide_False by (by intros ?).
    run_teardown. split; [done|]. by left. }
  rewrite acquire_bind.
  destruct (decide (k_uct_worker_create o ≠ UCS_OK)).
  { run_teardown. rewrite decide_False by (by intros ?).
    run_teardown. split; [done|]. by left. }
  rewrite acquire_bind.
  destruct (decide (k_mpool_init o ≠ UCS_OK)).
  { run_teardown. rewrite decide_False by (by intros ?).
    run_teardown. split; [done|]. by left. }
  rewrite acquire_bind.
  unfold mbind at 1. unfold Res_bind at 1.
  change (RReqMpool :: RUctWorker :: RAsync :: RFd pipe1 :: RFd pipe0
            :: RIfaceWakeups :: RStats :: RIfaceAttrs :: RWorkerIfaces
            :: RUcpWorker :: held)
    with ([] ++ worker_base (pipe0, pipe1) held).
  destruct (add_ifaces_spec UCT_IFACE_FLAG_WAKEUP UCT_AM_CB_FLAG_SYNC
              ucp_am_handlers o ctx (-1) (seq 0 n)
              (replicate n false) (replicate n false) []
              (worker_base (pipe0, pipe1) held))
    as (status & ifaces & wakeups & ours & leak & -> & Hown & Hl1 & Hl2
        & Hok & Herr & _).
  { apply NoDup_seq. }
  { split; [constructor|]. intros r. split; [intros Hr; by inv Hr|].
    intros (i & Hi & _). by apply lookup_replicate in Hi as [[=] _]. }
  { done. }
  { intros j Hj%elem_of_seq. apply lookup_replicate. split; [done|lia]. }
  rewrite length_replicate in Hl1, Hl2.
  destruct (decide (status ≠ UCS_OK)) as [Hs|Hs].
  - destruct (Herr Hs) as [->|(t & -> & Ht & Hf & Hq)].
    + unfold mbind at 1. unfold Res_bind at 1.
      cbn [iface_wakeups].
      rewrite (close_ifaces_owned [] ours ifaces wakeups); [|done|congruence|by left].
      unfold worker_base. cbn [fst snd app].
      run_teardown. rewrite decide_False by (by intros ?).
      run_teardown. split; [done|]. by left.
    + unfold mbind at 1. unfold Res_bind at 1.
      cbn [iface_wakeups].
      rewrite (close_ifaces_owned [RWorkerIface t] ours ifaces wakeups);
        [|done|congruence|right; right; by exists t].
      unfold worker_base. cbn [fst snd app].
      run_teardown. rewrite decide_False by (by intros ?).
      run_teardown. split; [done|]. right.
      exists t. apply elem_of_seq in Ht. split; [lia|]. done.
  - assert (status = UCS_OK) as -> by (by destruct (decide (status = UCS_OK))).
    destruct (Hok eq_refl) as [-> Hall].
    unfold mbind at 1. unfold Res_bind at 1.
    unfold WorkerLife.select_atomic_resources.
    assert (Hsel :
      (Z.land (features ctx) (Z.lor UCP_FEATURE_AMO32 UCP_FEATURE_AMO64) ≠ 0 ∧
       atomic_mode ctx = UCP_ATOMIC_MODE_LAST) ∨
      (if decide (Z.land (features ctx)
                    (Z.lor UCP_FEATURE_AMO32 UCP_FEATURE_AMO64) ≠ 0) then
         match atomic_mode ctx with
         | UCP_ATOMIC_MODE_CPU | UCP_ATOMIC_MODE_DEVICE
         | UCP_ATOMIC_MODE_GUESS => mret tt
         | _ => fatal
         end
       else mret tt) = (mret tt : Res unit)).
    { destruct (decide (_ ≠ 0)); [|by right].
      destruct (atomic_mode ctx); (by right) || (by left). }
    destruct Hsel as [[Hf Hm] | ->].
    { rewrite decide_True by done. rewrite Hm. done. }
    run_teardown.
    cbn [iface_wakeups wakeup_pipe wakeup_efd].
    split; [done|]. split; [done|]. split; [done|]. split; [done|].
    split; [intros j Hj; apply Hall, elem_of_seq; lia|].
    by exists ours.
Qed.

(** [ucp_worker_get_efd] on a worker that holds [held]. *)
Lemma ucp_worker_get_efd_spec o wakeup held :
  ∃ status fd wakeup' held',
    WorkerLife.ucp_worker_get_efd o wakeup held
      = Ret ((status, fd, wakeup'), held') ∧
    iface_wakeups wakeup' = iface_wakeups wakeup ∧
    wakeup_pipe wakeup' = wakeup_pipe wakeup ∧
    (status ≠ UCS_OK → fd = None ∧ wakeup' = wakeup ∧ held' = held) ∧
    (status = UCS_OK →
     fd = Some (wakeup_efd wakeup') ∧ wakeup_efd wakeup' ≠ -1 ∧
     ((wakeup_efd wakeup ≠ -1 ∧ wakeup' = wakeup ∧ held' = held) ∨
      (wakeup_efd wakeup = -1 ∧ held' = RFd (wakeup_efd wakeup') :: held))).
Proof.
  unfold WorkerLife.ucp_worker_get_efd.
  destruct (decide (wakeup_efd wakeup ≠ -1)) as [Hset|Hunset].
  { eexists _, _, _, _. split; [reflexivity|]. split; [done|]. split; [done|].
    split; [done|]. intros _. split; [done|]. split; [done|]. by left. }
  assert (wakeup_efd wakeup = -1) as Hefd
    by (by destruct (decide (wakeup_efd wakeup = -1))).
  destruct (decide (k_epoll_create o = -1)) as [Hc|Hc].
  { eexists _, _, _, _. split; [reflexivity|]. split; [done|]. split; [done|].
    split; [done|]. intros [=]. }
  rewrite acquire_bind.
  destruct (decide (_ ≠ UCS_OK)) as [H1|H1].
  { eexists _, _, _, _. run_teardown. split; [reflexivity|]. split; [done|].
    split; [done|]. split; [done|]. intros ?. done. }
  destruct (decide (_ ≠ UCS_OK)) as [H2|H2].
  { eexists _, _, _, _. run_teardown. split; [reflexivity|]. split; [done|].
    split; [done|]. split; [done|]. intros ?. done. }
  eexists _, _, _, _. split; [reflexivity|]. split; [done|]. split; [done|].
  split; [done|]. intros _. cbn [wakeup_efd]. split; [done|]. split; [done|].
  by right.
Qed.

(** [ucp_worker_destroy] on a worker whose tables own [ours]. *)
Lemma ucp_worker_destroy_spec ifaces wakeup ours held :
  worker_owns ours ifaces (iface_wakeups wakeup) →
  length ifaces = length (iface_wakeups wakeup) →
  WorkerLife.ucp_worker_destroy ifaces wakeup
    ((if decide (wakeup_efd wakeup ≠ -1) then [RFd (wakeup_efd wakeup)] else [])
       ++ ours ++ worker_base (wakeup_pipe wakeup) held)
    = Ret (tt, held).
Proof.
  intros Hown Hlen. unfold WorkerLife.ucp_worker_destroy.
  unfold mbind at 1. unfold Res_bind at 1.
  rewrite (close_ifaces_owned _ ours ifaces (iface_wakeups wakeup)); [|done..|].
  2:{ destruct (decide (wakeup_efd wakeup ≠ -1)); [right; left; by eexists|by left]. }
  destruct wakeup as [wk [pipe0 pipe1] efd].
  unfold worker_base, WorkerLife.ucp_worker_wakeup_context_cleanup.
  cbn [iface_wakeups wakeup_pipe wakeup_efd fst snd].
  destruct (decide (efd ≠ -1)); cbn [app]; by run_teardown.
Qed.

End WorkerLifePaths.

Section SelectAtomicResources.

Context {D : CDouble} {F : UctIfaceFlags} {U : UcpFeatures}.

Variable ucp_ep_config_key_t ucp_ep_config_params_t : Type.
Variable UCT_MD_FLAG_REG : Z.
Variable UCT_DEVICE_NAME_MAX : nat.
Variable ucp_context_uct_atomic_iface_flags : ucp_context_t → Z.
Variable ucp_wireup_amo_score_func :
  ucp_context_t → Z → uct_iface_attr_t → @double D.

(** The selection of atomic resources is fatal in the life of a worker
    exactly where [ucp_worker_init_atomic_tls] is. *)
Lemma select_atomic_resources_fatal
    (worker : ucp_worker_t ucp_ep_config_key_t ucp_ep_config_params_t) held :
  WorkerLife.select_atomic_resources (context _ _ worker) held = Abort →
  ucp_worker_init_atomic_tls ucp_ep_config_key_t ucp_ep_config_params_t
    UCT_MD_FLAG_REG UCT_DEVICE_NAME_MAX ucp_context_uct_atomic_iface_flags
    ucp_wireup_amo_score_func worker = Abort.
Proof.
  unfold WorkerLife.select_atomic_resources, ucp_worker_init_atomic_tls.
  cbn [context set_atomic_tls].
  destruct (decide (_ ≠ 0)); [|done].
  destruct (atomic_mode (context _ _ worker)); done.
Qed.

End SelectAtomicResources.

Section WorkerLifeResults.

Context {F : UctIfaceFlags} {U : UcpFeatures}.

Variable UCT_IFACE_FLAG_WAKEUP : Z.
Variable UCT_AM_CB_FLAG_SYNC : Z.
Variable UCT_AM_CB_FLAG_ASYNC : Z.
Variable ucp_am_handlers : list (Z * Z).

Implicit Types (o : worker_oracle) (ctx : ucp_context_t)
  (held : list resource) (ifaces : list bool) (wakeup : ucp_worker_wakeup_t).

(** X26.  [ucp_worker_create] never releases something it does not
    hold, and it stops the program only where
    [ucp_worker_init_atomic_tls] is fatal: atomics requested with an
    unsupported atomic mode. It hands out a worker exactly when it
    returns [UCS_OK]. When it fails it has released everything it
    acquired, with one exception: if [uct_iface_query] fails in
    [ucp_worker_add_iface], the interface just opened is neither
    stored in the worker nor closed, and stays open after the worker
    is freed. *)
Theorem ucp_worker_create_failure o ctx held :
  match WorkerLife.ucp_worker_create UCT_IFACE_FLAG_WAKEUP UCT_AM_CB_FLAG_SYNC
          ucp_am_handlers o ctx held with
  | Ret ((status, w), held') =>
      (w = None ↔ status ≠ UCS_OK) ∧
      (status ≠ UCS_OK →
       held' = held ∨
       ∃ tl_id : nat,
         (tl_id < Z.to_nat (num_tls ctx))%nat ∧
         k_iface_query o tl_id = status ∧
         held' = RWorkerIface tl_id :: held)
  | Abort =>
      Z.land (features ctx) (Z.lor UCP_FEATURE_AMO32 UCP_FEATURE_AMO64) ≠ 0 ∧
      atomic_mode ctx = UCP_ATOMIC_MODE_LAST
  | Fault => False
  end.
Proof.
  pose proof (ucp_worker_create_paths UCT_IFACE_FLAG_WAKEUP UCT_AM_CB_FLAG_SYNC
                ucp_am_handlers o ctx held) as Hw.
  destruct (WorkerLife.ucp_worker_create _ _ _ o ctx held)
    as [[[status w] held']| |]; [|done..].
  destruct w as [[ifaces wakeup]|].
  - destruct Hw as (-> & _). split; [done|]. intros ?. done.
  - destruct Hw as [Hs Hheld]. split; [done|]. intros _.
    destruct Hheld as [->|(t & Ht & -> & ->)]; [by left|].
    right. by exists t.
Qed.

(** X27.  A worker handed out by [ucp_worker_create] has an interface
    for every transport resource and no event descriptor yet, and
    [ucp_worker_destroy] on it releases everything the creation
    acquired: what is held afterwards is what was held before the
    creation. *)
Theorem ucp_worker_create_destroy_round_trip o ctx held ifaces wakeup held' :
  WorkerLife.ucp_worker_create UCT_IFACE_FLAG_WAKEUP UCT_AM_CB_FLAG_SYNC
    ucp_am_handlers o ctx held = Ret ((UCS_OK, Some (ifaces, wakeup)), held') →
  length ifaces = Z.to_nat (num_tls ctx) ∧
  (∀ j, (j < Z.to_nat (num_tls ctx))%nat → ifaces !! j = Some true) ∧
  wakeup_efd wakeup = -1 ∧
  WorkerLife.ucp_worker_destroy ifaces wakeup held' = Ret (tt, held).
Proof.
  intros Hcreate.
  pose proof (ucp_worker_create_paths UCT_IFACE_FLAG_WAKEUP UCT_AM_CB_FLAG_SYNC
                ucp_am_handlers o ctx held) as Hw.
  rewrite Hcreate in Hw.
  destruct Hw as (_ & Hefd & Hl1 & Hl2 & Hall & ours & -> & Hown).
  split; [done|]. split; [done|]. split; [done|].
  pose proof (ucp_worker_destroy_spec ifaces wakeup ours held Hown) as Hd.
  rewrite Hefd in Hd. rewrite decide_False in Hd by (by intros ?).
  apply Hd. congruence.
Qed.

(** X28.  On a worker handed out by [ucp_worker_create], a failing
    [ucp_worker_get_efd] changes nothing; a successful one returns a
    descriptor that every later call returns again without acquiring
    anything. In both cases [ucp_worker_destroy] afterwards leaves
    held exactly what was held before the creation, so the descriptor
    is closed with the worker. *)
Theorem ucp_worker_get_efd_life o o1 o2 ctx held ifaces wakeup held1 :
  WorkerLife.ucp_worker_create UCT_IFACE_FLAG_WAKEUP UCT_AM_CB_FLAG_SYNC
    ucp_am_handlers o ctx held = Ret ((UCS_OK, Some (ifaces, wakeup)), held1) →
  ∃ status fd wakeup2 held2,
    WorkerLife.ucp_worker_get_efd o1 wakeup held1
      = Ret ((status, fd, wakeup2), held2) ∧
    (status ≠ UCS_OK → fd = None ∧ wakeup2 = wakeup ∧ held2 = held1) ∧
    (status = UCS_OK →
     ∃ d, fd = Some d ∧ d ≠ -1 ∧ d = k_epoll_create o1 ∧
          held2 = RFd d :: held1 ∧
          WorkerLife.ucp_worker_get_efd o2 wakeup2 held2
            = Ret ((UCS_OK, Some d, wakeup2), held2)) ∧
    WorkerLife.ucp_worker_destroy ifaces wakeup2 held2 = Ret (tt, held).
Proof.
  intros Hcreate.
  pose proof (ucp_worker_create_paths UCT_IFACE_FLAG_WAKEUP UCT_AM_CB_FLAG_SYNC
                ucp_am_handlers o ctx held) as Hw.
  rewrite Hcreate in Hw.
  destruct Hw as (_ & Hefd & Hl1 & Hl2 & Hall & ours & -> & Hown).
  unfold WorkerLife.ucp_worker_get_efd at 1.
  rewrite decide_False by (rewrite Hefd; by intros ?).
  assert (Hplain :
    WorkerLife.ucp_worker_destroy ifaces wakeup
      (ours ++ worker_base (wakeup_pipe wakeup) held) = Ret (tt, held)).
  { pose proof (ucp_worker_destroy_spec ifaces wakeup ours held Hown) as Hd.
    rewrite Hefd in Hd. rewrite decide_False in Hd by (by intros ?).
    apply Hd. congruence. }
  destruct (decide (k_epoll_create o1 = -1)) as [Hc|Hc].
  { eexists _, _, _, _. split; [reflexivity|]. split; [done|].
    split; [intros [=]|done]. }
  rewrite acquire_bind.
  destruct (decide (_ ≠ UCS_OK)) as [H1|H1].
  { eexists _, _, _, _. run_teardown. split; [reflexivity|]. split; [done|].
    split; [intros ?; done|done]. }
  destruct (decide (_ ≠ UCS_OK)) as [H2|H2].
  { eexists _, _, _, _. run_teardown. split; [reflexivity|]. split; [done|].
    split; [intros ?; done|done]. }
  eexists _, _, _, _. split; [reflexivity|]. split; [done|]. split.
  - intros _. exists (k_epoll_create o1). split; [done|]. split; [done|].
    split; [done|]. split; [done|].
    unfold WorkerLife.ucp_worker_get_efd. cbn [wakeup_efd].
    by rewrite decide_True.
  - pose proof (ucp_worker_destroy_spec ifaces
                  {| iface_wakeups := iface_wakeups wakeup;
                     wakeup_pipe := wakeup_pipe wakeup;
                     wakeup_efd := k_epoll_create o1 |} ours held Hown) as Hd.
    cbn [wakeup_efd wakeup_pipe iface_wakeups] in Hd.
    rewrite decide_True in Hd by done. apply Hd. congruence.
Qed.

Lemma set_am_handlers_from_registered o features iface_flags (tl_id start : nat)
    handlers (am_id : nat) flags :
  (am_id, flags) ∈
    snd (WorkerLife.set_am_handlers_from UCT_AM_CB_FLAG_SYNC o features
           iface_flags tl_id start handlers) →
  ∃ (k : nat) h_features,
    am_id = (start + k)%nat ∧ handlers !! k = Some (h_features, flags) ∧
    Z.land features h_features ≠ 0 ∧
    (Z.land flags UCT_AM_CB_FLAG_SYNC ≠ 0 →
     Z.land iface_flags UCT_IFACE_FLAG_AM_CB_SYNC ≠ 0).
Proof.
  revert start. induction handlers as [|[hf fl] rest IH]; intros start;
    cbn [WorkerLife.set_am_handlers_from].
  { intros Hin. by inv Hin. }
  assert (Hshift : (am_id, flags) ∈
      snd (WorkerLife.set_am_handlers_from UCT_AM_CB_FLAG_SYNC o features
             iface_flags tl_id (S start) rest) →
      ∃ (k : nat) h_features,
        am_id = (start + k)%nat ∧
        ((hf, fl) :: rest) !! k = Some (h_features, flags) ∧
        Z.land features h_features ≠ 0 ∧
        (Z.land flags UCT_AM_CB_FLAG_SYNC ≠ 0 →
         Z.land iface_flags UCT_IFACE_FLAG_AM_CB_SYNC ≠ 0)).
  { intros Hin. destruct (IH _ Hin) as (k & h & -> & Hk & ?).
    exists (S k), h. split; [lia|]. done. }
  destruct (decide (Z.land features hf = 0)); [done|].
  destruct (decide (Z.land fl UCT_AM_CB_FLAG_SYNC ≠ 0 ∧
                    Z.land iface_flags UCT_IFACE_FLAG_AM_CB_SYNC = 0))
    as [|Hsync]; [done|].
  destruct (decide (k_set_am_handler o tl_id start ≠ UCS_OK)).
  { intros Hin. by inv Hin. }
  destruct (WorkerLife.set_am_handlers_from _ o features iface_flags tl_id
              (S start) rest) as [status registered].
  cbn [snd] in *. intros [[= -> ->]|Hin]%elem_of_cons; [|by apply Hshift].
  exists 0%nat, hf. rewrite Nat.add_0_r. split; [done|]. split; [done|].
  split; [done|]. intros Hfl.
  destruct (decide (Z.land iface_flags UCT_IFACE_FLAG_AM_CB_SYNC = 0)); [|done].
  by destruct Hsync.
Qed.

Lemma set_am_handlers_from_complete o features iface_flags (tl_id start : nat)
    handlers (k : nat) h_features flags :
  fst (WorkerLife.set_am_handlers_from UCT_AM_CB_FLAG_SYNC o features
         iface_flags tl_id start handlers) = UCS_OK →
  handlers !! k = Some (h_features, flags) →
  Z.land features h_features ≠ 0 →
  (Z.land flags UCT_AM_CB_FLAG_SYNC ≠ 0 →
   Z.land iface_flags UCT_IFACE_FLAG_AM_CB_SYNC ≠ 0) →
  ((start + k)%nat, flags) ∈
    snd (WorkerLife.set_am_handlers_from UCT_AM_CB_FLAG_SYNC o features
           iface_flags tl_id start handlers).
Proof.
  revert start k. induction handlers as [|[hf fl] rest IH]; intros start k;
    cbn [WorkerLife.set_am_handlers_from]; [done|].
  intros Hok Hk Hfeat Hsync.
  assert (Hnext : ∀ k', k = S k' →
    fst (WorkerLife.set_am_handlers_from UCT_AM_CB_FLAG_SYNC o features
           iface_flags tl_id (S start) rest) = UCS_OK →
    ((start + k)%nat, flags) ∈
      snd (WorkerLife.set_am_handlers_from UCT_AM_CB_FLAG_SYNC o features
             iface_flags tl_id (S start) rest)).
  { intros k' -> Hok'. replace (start + S k')%nat with (S start + k')%nat by lia.
    by apply IH. }
  destruct (decide (Z.land features hf = 0)) as [Hz|Hz].
  { destruct k as [|k']; [simpl in Hk; congruence|]. by eapply Hnext. }
  destruct (decide (Z.land fl UCT_AM_CB_FLAG_SYNC ≠ 0 ∧
                    Z.land iface_flags UCT_IFACE_FLAG_AM_CB_SYNC = 0))
    as [[Hs1 Hs2]|Hs].
  { destruct k as [|k']; [|by eapply Hnext].
    simpl in Hk. injection Hk as -> ->. by destruct (Hsync Hs1). }
  destruct (decide (k_set_am_handler o tl_id start ≠ UCS_OK)) as [Hf|Hf].
  { by destruct Hf. }
  destruct (WorkerLife.set_am_handlers_from _ o features iface_flags tl_id
              (S start) rest) as [status registered] eqn:Erest.
  cbn [fst snd] in *. destruct k as [|k'].
  - simpl in Hk. injection Hk as -> ->. rewrite Nat.add_0_r. by left.
  - right. by eapply Hnext.
Qed.

Lemma stub_am_ids_spec features (start : nat) handlers (am_id : nat) :
  am_id ∈ WorkerLife.stub_am_ids features start handlers ↔
  ∃ (k : nat) h_features flags,
    am_id = (start + k)%nat ∧ handlers !! k = Some (h_features, flags) ∧
    Z.land features h_features ≠ 0.
Proof.
  revert start. induction handlers as [|[hf fl] rest IH]; intros start;
    cbn [WorkerLife.stub_am_ids].
  { split; [intros Hin; by inv Hin|]. intros (k & ? & ? & _ & Hk & _). done. }
  assert (Hrest : am_id ∈ WorkerLife.stub_am_ids features (S start) rest ↔
    ∃ (k : nat) h_features flags,
      am_id = (start + S k)%nat ∧ rest !! k = Some (h_features, flags) ∧
      Z.land features h_features ≠ 0).
  { rewrite IH. split; intros (k & h & f & -> & ?); exists k, h, f;
      (split; [lia|done]). }
  destruct (decide (Z.land features hf ≠ 0)) as [Hf|Hf].
  - rewrite elem_of_cons, Hrest. split.
    + intros [->|(k & h & f & -> & Hk & ?)].
      * exists 0%nat, hf, fl. rewrite Nat.add_0_r. done.
      * by exists (S k), h, f.
    + intros ([|k] & h & f & -> & Hk & ?).
      * left. lia.
      * right. by exists k, h, f.
  - rewrite Hrest. split.
    + intros (k & h & f & -> & Hk & ?). by exists (S k), h, f.
    + intros ([|k] & h & f & -> & Hk & ?).
      * simpl in Hk. injection Hk as -> ->. done.
      * by exists k, h, f.
Qed.

(** X29.  The handlers that [ucp_worker_set_am_handlers] registers on
    an interface are those of the enabled features, without the
    synchronous ones when the interface has no synchronous callbacks;
    when it returns [UCS_OK] it has registered all of these. Each of
    them is replaced by the stub, with the asynchronous flag, when
    [ucp_worker_remove_am_handlers] runs: no handler registered for
    the worker stays on an interface. *)
Theorem ucp_worker_am_handlers_replaced o ctx (tl_id : nat) iface_flags :
  (tl_id < Z.to_nat (num_tls ctx))%nat →
  let r :=
    WorkerLife.ucp_worker_set_am_handlers UCT_AM_CB_FLAG_SYNC ucp_am_handlers
      o ctx tl_id iface_flags in
  let wanted (am_id : nat) (flags : Z) :=
    ∃ h_features,
      ucp_am_handlers !! am_id = Some (h_features, flags) ∧
      Z.land (features ctx) h_features ≠ 0 ∧
      (Z.land flags UCT_AM_CB_FLAG_SYNC ≠ 0 →
       Z.land iface_flags UCT_IFACE_FLAG_AM_CB_SYNC ≠ 0) in
  (∀ am_id flags,
     (am_id, flags) ∈ snd r →
     wanted am_id flags ∧
     (tl_id, am_id, UCT_AM_CB_FLAG_ASYNC)
       ∈ WorkerLife.ucp_worker_remove_am_handlers UCT_AM_CB_FLAG_ASYNC
           ucp_am_handlers ctx) ∧
  (fst r = UCS_OK → ∀ am_id flags, wanted am_id flags → (am_id, flags) ∈ snd r).
Proof.
  intros Htl r wanted. subst r wanted.
  unfold WorkerLife.ucp_worker_set_am_handlers. split.
  - intros am_id flags Hin.
    apply set_am_handlers_from_registered in Hin as (k & hf & -> & Hk & Hf & Hs).
    split; [by exists hf|].
    unfold WorkerLife.ucp_worker_remove_am_handlers.
    apply list_elem_of_bind. exists tl_id. split; [|apply elem_of_seq; lia].
    apply list_elem_of_bind. exists (0 + k)%nat. split; [by left|].
    apply stub_am_ids_spec. by exists k, hf, flags.
  - intros Hok am_id flags (hf & Hk & Hf & Hs).
    by apply (set_am_handlers_from_complete o (features ctx) iface_flags tl_id
                0 ucp_am_handlers am_id hf flags).
Qed.

End WorkerLifeResults.

(** The leak of [ucp_worker_create], on the example worker when the
    query of the second interface fails. *)
Example ucp_worker_create_leaks_interface :
  WorkerLife.ucp_worker_create (2 ^ 20) 1 example_am_handlers
    {| k_calloc_worker := true; k_calloc_ifaces := true;
       k_calloc_iface_attrs := true; k_stats_node_alloc := UCS_OK;
       k_calloc_iface_wakeups := true; k_pipe := Some (3, 4);
       k_fcntl_modfl := λ _, UCS_OK;
       k_async_context_init := UCS_OK; k_uct_worker_create := UCS_OK;
       k_mpool_init := UCS_OK;
       k_iface_config_read := λ _, UCS_OK; k_iface_open := λ _, UCS_OK;
       k_iface_query :=
         λ tl_id, if decide (tl_id = 1%nat) then UCS_ERR_IO_ERROR else UCS_OK;
       k_iface_flags := k_iface_flags example_worker_oracle;
       k_set_am_handler := λ _ _, UCS_OK; k_set_am_tracer := λ _, UCS_OK;
       k_wakeup_open := λ _, UCS_OK;
       k_wakeup_efd_get := λ tl_id, (UCS_OK, 10 + Z.of_nat tl_id);
       k_epoll_ctl_add := λ _ _, true; k_epoll_create := 5 |}
    (example_context UCP_ATOMIC_MODE_CPU) []
  = Ret ((UCS_ERR_IO_ERROR, None), [RWorkerIface 1]).
Proof. vm_compute. reflexivity. Qed.

Lemma ucp_worker_create_destroy_round_trip_witness :
  ∃ ifaces wakeup held',
    WorkerLife.ucp_worker_create (2 ^ 20) 1 example_am_handlers
      example_worker_oracle (example_context UCP_ATOMIC_MODE_CPU) [RSendMem]
      = Ret ((UCS_OK, Some (ifaces, wakeup)), held') ∧
    length held' = 14%nat ∧
    length ifaces = 2%nat ∧
    (∀ j, (j < 2)%nat → ifaces !! j = Some true) ∧
    wakeup_efd wakeup = -1 ∧
    WorkerLife.ucp_worker_destroy ifaces wakeup held' = Ret (tt, [RSendMem]).
Proof.
  eexists _, _, _. split; [vm_compute; reflexivity|]. split; [reflexivity|].
  apply (ucp_worker_create_destroy_round_trip (2 ^ 20) 1 example_am_handlers
           example_worker_oracle (example_context UCP_ATOMIC_MODE_CPU)
           [RSendMem]).
  vm_compute. reflexivity.
Defined.

Lemma ucp_worker_get_efd_life_witness :
  ∃ status fd wakeup2 held2,
    WorkerLife.ucp_worker_get_efd example_worker_oracle
      {| iface_wakeups := [true; false]; wakeup_pipe := (3, 4);
         wakeup_efd := -1 |}
      [RWorkerIface 1; RWakeup 0; RWorkerIface 0; RReqMpool; RUctWorker;
       RAsync; RFd 4; RFd 3; RIfaceWakeups; RStats; RIfaceAttrs;
       RWorkerIfaces; RUcpWorker; RSendMem]
      = Ret ((status, fd, wakeup2), held2) ∧
    (status ≠ UCS_OK →
     fd = None ∧
     wakeup2 = {| iface_wakeups := [true; false]; wakeup_pipe := (3, 4);
                  wakeup_efd := -1 |} ∧
     held2 = [RWorkerIface 1; RWakeup 0; RWorkerIface 0; RReqMpool; RUctWorker;
              RAsync; RFd 4; RFd 3; RIfaceWakeups; RStats; RIfaceAttrs;
              RWorkerIfaces; RUcpWorker; RSendMem]) ∧
    (status = UCS_OK →
     ∃ d, fd = Some d ∧ d ≠ -1 ∧ d = k_epoll_create example_worker_oracle ∧
          held2 = RFd d ::
            [RWorkerIface 1; RWakeup 0; RWorkerIface 0; RReqMpool; RUctWorker;
             RAsync; RFd 4; RFd 3; RIfaceWakeups; RStats; RIfaceAttrs;
             RWorkerIfaces; RUcpWorker; RSendMem] ∧
          WorkerLife.ucp_worker_get_efd example_worker_oracle wakeup2 held2
            = Ret ((UCS_OK, Some d, wakeup2), held2)) ∧
    WorkerLife.ucp_worker_destroy [true; true] wakeup2 held2
      = Ret (tt, [RSendMem]).
Proof.
  apply (ucp_worker_get_efd_life (2 ^ 20) 1 example_am_handlers
           example_worker_oracle example_worker_oracle example_worker_oracle
           (example_context UCP_ATOMIC_MODE_CPU) [RSendMem]).
  vm_compute. reflexivity.
Defined.

Lemma ucp_worker_am_handlers_replaced_witness :
  let r :=
    WorkerLife.ucp_worker_set_am_handlers 1 example_am_handlers
      example_worker_oracle (example_context UCP_ATOMIC_MODE_CPU) 1 (2 ^ 1) in
  let wanted (am_id : nat) (flags : Z) :=
    ∃ h_features,
      example_am_handlers !! am_id = Some (h_features, flags) ∧
      Z.land (features (example_context UCP_ATOMIC_MODE_CPU)) h_features ≠ 0 ∧
      (Z.land flags 1 ≠ 0 → Z.land (2 ^ 1) UCT_IFACE_FLAG_AM_CB_SYNC ≠ 0) in
  snd r = [(2%nat, 2)] ∧
  (∀ am_id flags,
     (am_id, flags) ∈ snd r →
     wanted am_id flags ∧
     (1%nat, am_id, 2)
       ∈ WorkerLife.ucp_worker_remove_am_handlers 2 example_am_handlers
           (example_context UCP_ATOMIC_MODE_CPU)) ∧
  (fst r = UCS_OK → ∀ am_id flags, wanted am_id flags → (am_id, flags) ∈ snd r).
Proof.
  split; [reflexivity|].
  apply (ucp_worker_am_handlers_replaced 1 2 example_am_handlers
           example_worker_oracle (example_context UCP_ATOMIC_MODE_CPU) 1 (2 ^ 1)).
  simpl. lia.
Defined.
